(** * UVM tools: event tracing and counter telemetry (uvm_tools.c)

    A shallow embedding of kernel-open/nvidia-uvm/uvm_tools.c and the
    properties its specification states about it.

    Conventions of the embedding.
    - [NvU32] and [NvU64] values are integers in [Z]; every C operation
      that can wrap is written with [wrap32] or [wrap64].
    - A C array is a [list]; a pointer to a heap object is a [nat]
      address into a [gmap]; a [struct list] of embedded nodes is the
      [list] of the addresses of the objects that own the nodes, in list
      order.
    - An out-parameter becomes a component of the result.
    - [UVM_ASSERT] carries no control flow (it reports and continues);
      the asserted conditions that matter are proved as lemmas.
    - Locks are not modelled: every function below runs with the locks
      the source asserts; the one place where other threads interleave
      with a function that has dropped its lock (the progress loop of
      [tools_schedule_completed_events]) takes the interleaved actions
      as an explicit argument. *)

From stdpp Require Import base numbers list gmap.
From Stdlib Require Import ZArith Lia.

Set Default Proof Using "Type".
Set Warnings "-clear-no-such-hyp".

(* ===================================================================== *)
(** * Part I: the program                                                 *)
(* ===================================================================== *)

(** ** Machine integers *)

Definition wrap32 (z : Z) : Z := (z mod 2 ^ 32)%Z.
Definition wrap64 (z : Z) : Z := (z mod 2 ^ 64)%Z.

(** ** Event records as bytes

    [UvmEventEntry] is a fixed-size union of per-event structs. The record
    is kept as its bytes, so that [memset], member stores and [memcpy] act
    on it as they do in C. *)

Definition UvmEventEntry := list Z.

(** A struct member: byte offset inside [UvmEventEntry] and size. *)
Record field := Field { f_off : nat; f_len : nat }.

(** Little-endian bytes of the low [n] bytes of [v]. *)
Fixpoint le_bytes (n : nat) (v : Z) : list Z :=
  match n with
  | O => []
  | S n' => (v mod 256)%Z :: le_bytes n' (v / 256)%Z
  end.

Fixpoint le_value (bs : list Z) : Z :=
  match bs with
  | [] => 0%Z
  | b :: bs' => (b + 256 * le_value bs')%Z
  end.

(** [info->member = v]: the value is converted to the member's width. *)
Definition store (f : field) (v : Z) (e : UvmEventEntry) : UvmEventEntry :=
  list_inserts (f_off f) (le_bytes (f_len f) v) e.

Definition load (f : field) (e : UvmEventEntry) : Z :=
  le_value (take (f_len f) (drop (f_off f) e)).

(** [memset(&entry, 0, sizeof(entry))] *)
Definition memset0 (e : UvmEventEntry) : UvmEventEntry :=
  replicate (length e) 0%Z.

Definition in_field (f : field) (i : nat) : bool :=
  bool_decide (f_off f ≤ i < f_off f + f_len f).

(** Two members that share no byte. *)
Definition fields_disjoint (f g : field) : Prop :=
  f_off f + f_len f ≤ f_off g ∨ f_off g + f_len g ≤ f_off f.

(** Modelled from the spec: the header uvm_types.h that declares
    [UvmEventEntry] is not part of the sources; the specification fixes
    that the record is keyed by a leading event-type discriminant (wire
    record layout), and the source reads and writes it as an [NvU8]. Every
    [eventType] member of the union is therefore byte 0. *)
Definition f_eventType : field := Field 0 1.

Definition entry_eventType (e : UvmEventEntry) : nat :=
  Z.to_nat (load f_eventType e).

(** ** Ring queue *)

Record uvm_tools_queue_snapshot_t := Snapshot {
  sn_get_ahead : Z;
  sn_get_behind : Z;
  sn_put_ahead : Z;
  sn_put_behind : Z
}.

(** The control block mapped into the consumer's address space. *)
Record UvmToolsEventControlData := ControlData {
  get_ahead : Z;
  get_behind : Z;
  put_ahead : Z;
  put_behind : Z;
  dropped : list Z
}.

(** [wait_queue] counts the calls of [blockq_flush] on the queue's wait
    queue: each one releases the consumer's wait condition. *)
Record uvm_tools_queue_t := Queue {
  subscribed_queues : Z;
  queue : list UvmEventEntry;
  queue_buffer_count : Z;
  notification_threshold : Z;
  control : UvmToolsEventControlData;
  wait_queue : nat;
  is_wakeup_get_valid : bool;
  wakeup_get : Z
}.

Definition set_dropped (d : list Z) (c : UvmToolsEventControlData) :=
  ControlData (get_ahead c) (get_behind c) (put_ahead c) (put_behind c) d.

Definition set_put (pa pb : Z) (c : UvmToolsEventControlData) :=
  ControlData (get_ahead c) (get_behind c) pa pb (dropped c).

Definition set_get (ga gb : Z) (c : UvmToolsEventControlData) :=
  ControlData ga gb (put_ahead c) (put_behind c) (dropped c).

Definition set_control (c : UvmToolsEventControlData) (q : uvm_tools_queue_t) :=
  Queue (subscribed_queues q) (queue q) (queue_buffer_count q)
        (notification_threshold q) c (wait_queue q)
        (is_wakeup_get_valid q) (wakeup_get q).

Definition set_queue (m : list UvmEventEntry) (q : uvm_tools_queue_t) :=
  Queue (subscribed_queues q) m (queue_buffer_count q)
        (notification_threshold q) (control q) (wait_queue q)
        (is_wakeup_get_valid q) (wakeup_get q).

Definition set_subscribed_queues (m : Z) (q : uvm_tools_queue_t) :=
  Queue m (queue q) (queue_buffer_count q)
        (notification_threshold q) (control q) (wait_queue q)
        (is_wakeup_get_valid q) (wakeup_get q).

(** [is_wakeup_get_valid = true; wakeup_get = ga; blockq_flush(wait_queue)] *)
Definition signal_wakeup (ga : Z) (q : uvm_tools_queue_t) :=
  Queue (subscribed_queues q) (queue q) (queue_buffer_count q)
        (notification_threshold q) (control q) (S (wait_queue q))
        true ga.

Definition queue_mask_of (q : uvm_tools_queue_t) : Z :=
  wrap32 (queue_buffer_count q - 1).

Definition queue_needs_wakeup (q : uvm_tools_queue_t)
    (sn : uvm_tools_queue_snapshot_t) : bool :=
  let queue_mask := queue_mask_of q in
  (notification_threshold q <=?
     Z.land (wrap32 (queue_buffer_count q + sn_put_behind sn - sn_get_ahead sn))
            queue_mask)%Z.

(** The snapshot after lines 452-454: the two cursors the consumer can
    write, masked, and the next producer position. *)
Definition enqueue_read_cursors (q : uvm_tools_queue_t) : uvm_tools_queue_snapshot_t :=
  let ctrl := control q in
  let queue_mask := queue_mask_of q in
  let gb := Z.land (get_behind ctrl) queue_mask in
  let pb := Z.land (put_behind ctrl) queue_mask in
  let pa := Z.land (wrap32 (pb + 1)) queue_mask in
  Snapshot 0 gb pa pb.

(** The test of line 457: one free element means that the queue is full. *)
Definition enqueue_is_full (q : uvm_tools_queue_t) : bool :=
  let sn := enqueue_read_cursors q in
  (Z.land (wrap32 (queue_buffer_count q + sn_get_behind sn - sn_put_behind sn))
          (queue_mask_of q) =? 1)%Z.

(** The snapshot as it stands at line 472, on the path that stores: the
    producer cursor has advanced and [get_ahead] has been read. *)
Definition enqueue_wakeup_snapshot (q : uvm_tools_queue_t) : uvm_tools_queue_snapshot_t :=
  let sn := enqueue_read_cursors q in
  Snapshot (get_ahead (control q)) (sn_get_behind sn) (sn_put_ahead sn) (sn_put_ahead sn).

(** Lines 458-459: [atomic64_inc(&ctrl->dropped + eventType); goto unlock]. *)
Definition drop_event (entry : UvmEventEntry) (q : uvm_tools_queue_t)
    : uvm_tools_queue_t :=
  let ctrl := control q in
  set_control
    (set_dropped (alter (λ d, wrap64 (d + 1)) (entry_eventType entry) (dropped ctrl)) ctrl)
    q.

(** Lines 462-468: [memcpy] into slot [put_behind], then both producer
    cursors are set to the next position. *)
Definition publish_event (entry : UvmEventEntry) (q : uvm_tools_queue_t)
    : uvm_tools_queue_t :=
  let sn := enqueue_read_cursors q in
  let q1 := set_queue (<[Z.to_nat (sn_put_behind sn) := entry]> (queue q)) q in
  set_control (set_put (sn_put_ahead sn) (sn_put_ahead sn) (control q)) q1.

(** The condition of line 472. *)
Definition wakeup_due (q : uvm_tools_queue_t) (sn : uvm_tools_queue_snapshot_t) : bool :=
  queue_needs_wakeup q sn
  && negb (is_wakeup_get_valid q && (wakeup_get q =? sn_get_ahead sn)%Z).

Definition enqueue_event (entry : UvmEventEntry) (q : uvm_tools_queue_t)
    : uvm_tools_queue_t :=
  if enqueue_is_full q then drop_event entry q
  else
    let sn := enqueue_wakeup_snapshot q in
    let q2 := publish_event entry q in
    if wakeup_due q2 sn then signal_wakeup (sn_get_ahead sn) q2 else q2.

(** [n] enqueues in a row, the consumer writing nothing in between. *)
Definition enqueue_all (es : list UvmEventEntry) (q : uvm_tools_queue_t)
    : uvm_tools_queue_t :=
  foldl (λ q e, enqueue_event e q) q es.

(** Number of records between the consumer and the producer cursor. *)
Definition stored_count (q : uvm_tools_queue_t) : Z :=
  ((put_behind (control q) - get_behind (control q)) mod queue_buffer_count q)%Z.

(** The free-slot count as the specification writes it, on the raw
    values of the control block. *)
Definition free_slots (q : uvm_tools_queue_t) : Z :=
  ((queue_buffer_count q + get_behind (control q) - put_behind (control q))
     mod queue_buffer_count q)%Z.

(** Capacity: a power of two that fits [NvU32]. *)
Definition is_capacity (c : Z) : Prop :=
  ∃ k : Z, (0 ≤ k < 32)%Z ∧ c = (2 ^ k)%Z.

(** ** Declarations of uvm_types.h

    The header that numbers the event types and counters and lays out the
    event structs is not part of the sources. The program is embedded over
    its declarations, collected in one class; the members below are the
    ones uvm_tools.c names. *)

Definition NvProcessorUuid := list Z.

(** The enumerations on the two sides of the translation tables of
    lines 648-691, with the enumerators the tables name. A table entry
    without an initializer is zero, the invalid value of its type. *)
Inductive uvm_fault_type_t :=
  | UVM_FAULT_TYPE_INVALID_PDE | UVM_FAULT_TYPE_INVALID_PTE | UVM_FAULT_TYPE_ATOMIC
  | UVM_FAULT_TYPE_WRITE | UVM_FAULT_TYPE_PDE_SIZE | UVM_FAULT_TYPE_VA_LIMIT_VIOLATION
  | UVM_FAULT_TYPE_UNBOUND_INST_BLOCK | UVM_FAULT_TYPE_PRIV_VIOLATION
  | UVM_FAULT_TYPE_PITCH_MASK_VIOLATION | UVM_FAULT_TYPE_WORK_CREATION
  | UVM_FAULT_TYPE_UNSUPPORTED_APERTURE | UVM_FAULT_TYPE_COMPRESSION_FAILURE
  | UVM_FAULT_TYPE_UNSUPPORTED_KIND | UVM_FAULT_TYPE_REGION_VIOLATION
  | UVM_FAULT_TYPE_POISONED.

Inductive UvmEventFaultType :=
  | UvmFaultTypeInvalidPde | UvmFaultTypeInvalidPte | UvmFaultTypeAtomic
  | UvmFaultTypeWrite | UvmFaultTypeInvalidPdeSize | UvmFaultTypeLimitViolation
  | UvmFaultTypeUnboundInstBlock | UvmFaultTypePrivViolation
  | UvmFaultTypePitchMaskViolation | UvmFaultTypeWorkCreation
  | UvmFaultTypeUnsupportedAperture | UvmFaultTypeCompressionFailure
  | UvmFaultTypeUnsupportedKind | UvmFaultTypeRegionViolation
  | UvmFaultTypePoison.

Inductive uvm_fault_access_type_t :=
  | UVM_FAULT_ACCESS_TYPE_ATOMIC_STRONG | UVM_FAULT_ACCESS_TYPE_ATOMIC_WEAK
  | UVM_FAULT_ACCESS_TYPE_WRITE | UVM_FAULT_ACCESS_TYPE_READ
  | UVM_FAULT_ACCESS_TYPE_PREFETCH.

Inductive UvmEventMemoryAccessType :=
  | UvmEventMemoryAccessTypeAtomic | UvmEventMemoryAccessTypeWrite
  | UvmEventMemoryAccessTypeRead | UvmEventMemoryAccessTypePrefetch.

Inductive uvm_fault_client_type_t :=
  | UVM_FAULT_CLIENT_TYPE_GPC | UVM_FAULT_CLIENT_TYPE_HUB.

Inductive UvmEventFaultClientType :=
  | UvmEventFaultClientTypeGpc | UvmEventFaultClientTypeHub.

Class uvm_types_h := {
  (* the values of the enumerators of the three tools enumerations *)
  UvmEventFaultType_value : UvmEventFaultType → Z;
  UvmEventMemoryAccessType_value : UvmEventMemoryAccessType → Z;
  UvmEventFaultClientType_value : UvmEventFaultClientType → Z;
  UvmEventNumTypesAll : nat;
  UVM_TOTAL_COUNTERS : nat;
  UvmEventTypeCpuFault : nat;
  UvmEventTypeMigration : nat;
  UvmEventTypeGpuFault : nat;
  UvmEventTypeReadDuplicate : nat;
  UvmEventTypeTestHmmSplitInvalidate : nat;
  UvmCounterNameBytesXferHtD : nat;
  UvmCounterNameBytesXferDtH : nat;
  UvmCounterNameCpuPageFaultCount : nat;
  UvmCounterNameGpuPageFaultCount : nat;
  NV_PROCESSOR_UUID_CPU_DEFAULT : NvProcessorUuid;
  (* UvmEventMigrationInfo *)
  mig_migrationCause : field;
  mig_srcIndex : field;
  mig_dstIndex : field;
  mig_address : field;
  mig_migratedBytes : field;
  mig_beginTimeStamp : field;
  mig_endTimeStamp : field;
  mig_rangeGroupId : field;
  mig_beginTimeStampGpu : field;
  mig_endTimeStampGpu : field;
  (* UvmEventGpuFaultInfo; gpcId and channelId share one anonymous union *)
  gf_gpuIndex : field;
  gf_faultType : field;
  gf_accessType : field;
  gf_clientType : field;
  gf_gpcId : field;
  gf_channelId : field;
  gf_clientId : field;
  gf_address : field;
  gf_timeStamp : field;
  gf_timeStampGpu : field;
  gf_batchId : field
}.

(** ** Trackers and collectors *)

Definition uvm_processor_uuid_eq (a b : NvProcessorUuid) : bool :=
  bool_decide (a = b).

Record uvm_tools_counter_t := Counter {
  subscribed_counters : Z;
  counters : list Z;
  all_processors : bool;
  processor : NvProcessorUuid
}.

Definition set_counters (cs : list Z) (c : uvm_tools_counter_t) :=
  Counter (subscribed_counters c) cs (all_processors c) (processor c).

Definition set_subscribed_counters (m : Z) (c : uvm_tools_counter_t) :=
  Counter m (counters c) (all_processors c) (processor c).

(** [uvm_file] is the address of the collector (the [uvm_va_space_t] of
    the file), [None] for [NULL]. The anonymous union and its
    discriminant [is_queue] are one sum. *)
Record uvm_tools_event_tracker_t := Tracker {
  uvm_file : option nat;
  body : uvm_tools_queue_t + uvm_tools_counter_t
}.

Definition is_queue (t : uvm_tools_event_tracker_t) : bool :=
  match body t with inl _ => true | inr _ => false end.

(** [va_space->tools]: the member [node] is the membership of the
    collector's address in [g_tools_va_space_list]. The lists hold the
    addresses of the trackers whose nodes are linked. *)
Record uvm_va_space_tools_t := VaTools {
  tools_enabled : bool;
  tools_queues : list (list nat);
  tools_counters : list (list nat)
}.

(** [va_space->perf_events], as far as this file looks at it: whether
    [uvm_tools_record_fault] is registered for [UVM_PERF_EVENT_FAULT] and
    [uvm_tools_record_migration] for [UVM_PERF_EVENT_MIGRATION]
    ([uvm_perf_is_event_callback_registered]). *)
Record uvm_perf_va_space_events_t := PerfEvents {
  fault_callback_registered : bool;
  migration_callback_registered : bool
}.

Record uvm_va_space_t := VaSpace {
  va_tools : uvm_va_space_tools_t;
  perf_events : uvm_perf_va_space_events_t
}.

(** The statics of the file that the registry uses, with the two heaps
    they point into. *)
Record tools_globals := Globals {
  g_tools_va_space_list : list nat;
  g_tools_enabled_event_count : list Z;
  va_spaces : gmap nat uvm_va_space_t;
  trackers : gmap nat uvm_tools_event_tracker_t
}.

(** ** Record and broadcast *)

Definition tracker_enqueue (entry : UvmEventEntry) (t : uvm_tools_event_tracker_t)
    : uvm_tools_event_tracker_t :=
  match body t with
  | inl q => Tracker (uvm_file t) (inl (enqueue_event entry q))
  | inr _ => t
  end.

Definition uvm_tools_record_event (tools : uvm_va_space_tools_t)
    (entry : UvmEventEntry) (trackers : gmap nat uvm_tools_event_tracker_t)
    : gmap nat uvm_tools_event_tracker_t :=
  let eventType := entry_eventType entry in
  foldl (λ h p, alter (tracker_enqueue entry) p h) trackers
        (tools_queues tools !!! eventType).

Definition uvm_tools_broadcast_event (va_space_list : list nat)
    (spaces : gmap nat uvm_va_space_t) (entry : UvmEventEntry)
    (trackers : gmap nat uvm_tools_event_tracker_t)
    : gmap nat uvm_tools_event_tracker_t :=
  foldl (λ h v, match spaces !! v with
                | Some va_space => uvm_tools_record_event (va_tools va_space) entry h
                | None => h
                end)
        trackers va_space_list.

(** ** Counters *)

Definition counter_matches_processor {hdr : uvm_types_h} (counter : nat)
    (proc : NvProcessorUuid) : bool :=
  if bool_decide (counter = UvmCounterNameCpuPageFaultCount)
  then uvm_processor_uuid_eq proc NV_PROCESSOR_UUID_CPU_DEFAULT
  else true.

(** The condition of lines 538-539 for one subscriber. *)
Definition counter_applies {hdr : uvm_types_h} (counter : nat) (proc : NvProcessorUuid)
    (c : uvm_tools_counter_t) : bool :=
  (all_processors c && counter_matches_processor counter proc)
  || uvm_processor_uuid_eq (processor c) proc.

(** The body of the loop of lines 537-542 for one subscriber. *)
Definition tracker_inc_counter {hdr : uvm_types_h} (counter : nat) (amount : Z)
    (proc : NvProcessorUuid) (t : uvm_tools_event_tracker_t)
    : uvm_tools_event_tracker_t :=
  match body t with
  | inr c =>
      if counter_applies counter proc c
      then Tracker (uvm_file t)
             (inr (set_counters (alter (λ v, wrap64 (v + amount)) counter (counters c)) c))
      else t
  | inl _ => t
  end.

Definition uvm_tools_inc_counter {hdr : uvm_types_h} (tools : uvm_va_space_tools_t)
    (counter : nat) (amount : Z) (proc : NvProcessorUuid)
    (trackers : gmap nat uvm_tools_event_tracker_t)
    : gmap nat uvm_tools_event_tracker_t :=
  if (0 <? amount)%Z then
    foldl (λ h p, alter (tracker_inc_counter counter amount proc) p h) trackers
          (tools_counters tools !!! counter)
  else trackers.

(** ** Subscription registry *)

(** [insert_event_tracker]. [node] is the address of the tracker whose
    node array is passed; [list_add] links at the head. The result is the
    count array, the lists, [*subscribed_mask] and [*inserted_lists]. *)
Definition insert_event_tracker (node : nat) (list_count : nat) (list_mask : Z)
    (subscribed_mask : Z) (lists : list (list nat)) (enabled_event_count : list Z)
    : list Z * list (list nat) * Z * Z :=
  let insertable_lists := Z.land list_mask (wrap64 (Z.lnot subscribed_mask)) in
  let '(cnt, ls) :=
    foldl (λ '(cnt, ls) i,
             if Z.testbit insertable_lists (Z.of_nat i)
             then (alter (λ n, wrap32 (n + 1)) i cnt, alter (cons node) i ls)
             else (cnt, ls))
          (enabled_event_count, lists) (seq 0 list_count) in
  (cnt, ls, Z.lor subscribed_mask list_mask, insertable_lists).

(** [remove_event_tracker]. [list_del] unlinks the node from the list it
    is on; [lists] is the array of list heads of the collector the nodes
    are linked into. The result is the count array, the lists and
    [*subscribed_mask]. *)
Definition remove_event_tracker (node : nat) (list_count : nat) (list_mask : Z)
    (subscribed_mask : Z) (lists : list (list nat)) (enabled_event_count : list Z)
    : list Z * list (list nat) * Z :=
  let removable_lists := Z.land list_mask subscribed_mask in
  let '(cnt, ls) :=
    foldl (λ '(cnt, ls) i,
             if Z.testbit removable_lists (Z.of_nat i)
             then (alter (λ n, wrap32 (n - 1)) i cnt,
                   alter (filter (λ x, x ≠ node)) i ls)
             else (cnt, ls))
          (enabled_event_count, lists) (seq 0 list_count) in
  (cnt, ls, Z.land subscribed_mask (wrap64 (Z.lnot list_mask))).

Definition set_tools_queues (ls : list (list nat)) (s : uvm_va_space_t) :=
  VaSpace (VaTools (tools_enabled (va_tools s)) ls (tools_counters (va_tools s)))
          (perf_events s).

Definition set_tools_counters (ls : list (list nat)) (s : uvm_va_space_t) :=
  VaSpace (VaTools (tools_enabled (va_tools s)) (tools_queues (va_tools s)) ls)
          (perf_events s).

Definition set_tools_enabled (b : bool) (s : uvm_va_space_t) :=
  VaSpace (VaTools b (tools_queues (va_tools s)) (tools_counters (va_tools s)))
          (perf_events s).

Definition set_perf_events (e : uvm_perf_va_space_events_t) (s : uvm_va_space_t) :=
  VaSpace (va_tools s) e.

(** Modelled from the spec: [subscribe(collector, subscriber, mask)] of
    section 4.1. The ioctl handlers that subscribe a tracker are not part
    of the sources; the operation is the call of [insert_event_tracker]
    on the tracker's own nodes, mask and collector, with the list count
    and lists of its kind, as the call of [remove_event_tracker] in
    [destroy_event_tracker] has them. *)
Definition subscribe {hdr : uvm_types_h} (p : nat) (mask : Z) (st : tools_globals)
    : tools_globals :=
  match trackers st !! p with
  | Some (Tracker (Some v) b) =>
      match va_spaces st !! v with
      | Some s =>
          match b with
          | inl q =>
              let '(cnt, ls, sub, _) :=
                insert_event_tracker p UvmEventNumTypesAll mask (subscribed_queues q)
                  (tools_queues (va_tools s)) (g_tools_enabled_event_count st) in
              Globals (g_tools_va_space_list st) cnt
                      (<[v := set_tools_queues ls s]> (va_spaces st))
                      (<[p := Tracker (Some v) (inl (set_subscribed_queues sub q))]>
                         (trackers st))
          | inr c =>
              let '(cnt, ls, sub, _) :=
                insert_event_tracker p UVM_TOTAL_COUNTERS mask (subscribed_counters c)
                  (tools_counters (va_tools s)) (g_tools_enabled_event_count st) in
              Globals (g_tools_va_space_list st) cnt
                      (<[v := set_tools_counters ls s]> (va_spaces st))
                      (<[p := Tracker (Some v) (inr (set_subscribed_counters sub c))]>
                         (trackers st))
          end
      | None => st
      end
  | _ => st
  end.

(** Modelled from the spec: [unsubscribe], the mirror of [subscribe]; it
    is the first half of [destroy_event_tracker] with a mask of the
    caller's choice. *)
Definition unsubscribe {hdr : uvm_types_h} (p : nat) (mask : Z) (st : tools_globals)
    : tools_globals :=
  match trackers st !! p with
  | Some (Tracker (Some v) b) =>
      match va_spaces st !! v with
      | Some s =>
          match b with
          | inl q =>
              let '(cnt, ls, sub) :=
                remove_event_tracker p UvmEventNumTypesAll mask (subscribed_queues q)
                  (tools_queues (va_tools s)) (g_tools_enabled_event_count st) in
              Globals (g_tools_va_space_list st) cnt
                      (<[v := set_tools_queues ls s]> (va_spaces st))
                      (<[p := Tracker (Some v) (inl (set_subscribed_queues sub q))]>
                         (trackers st))
          | inr c =>
              let '(cnt, ls, sub) :=
                remove_event_tracker p UVM_TOTAL_COUNTERS mask (subscribed_counters c)
                  (tools_counters (va_tools s)) (g_tools_enabled_event_count st) in
              Globals (g_tools_va_space_list st) cnt
                      (<[v := set_tools_counters ls s]> (va_spaces st))
                      (<[p := Tracker (Some v) (inr (set_subscribed_counters sub c))]>
                         (trackers st))
          end
      | None => st
      end
  | _ => st
  end.

Inductive registry_op :=
  | Subscribe (p : nat) (mask : Z)
  | Unsubscribe (p : nat) (mask : Z).

Definition registry_step {hdr : uvm_types_h} (st : tools_globals) (op : registry_op)
    : tools_globals :=
  match op with
  | Subscribe p mask => subscribe p mask st
  | Unsubscribe p mask => unsubscribe p mask st
  end.

Definition registry_run {hdr : uvm_types_h} (ops : list registry_op) (st : tools_globals)
    : tools_globals :=
  foldl registry_step st ops.

(** Sum of [g] over the objects of a heap. *)
Definition map_sum {A} (g : A → nat) (m : gmap nat A) : nat :=
  map_fold (λ _ a acc, g a + acc) 0 m.

(** Number of trackers on the lists of event type [i], over all
    collectors. *)
Definition event_subscribers (i : nat) (st : tools_globals) : nat :=
  map_sum (λ s, length (tools_queues (va_tools s) !!! i)) (va_spaces st).

(** Number of collectors whose list for event type [i] is not empty. *)
Definition collectors_subscribed (i : nat) (st : tools_globals) : nat :=
  map_sum (λ s, if bool_decide (tools_queues (va_tools s) !!! i = []) then 0 else 1)
          (va_spaces st).

(** What the registry keeps true, for collectors that only hold queue
    trackers: the arrays have the length the header gives them; a list
    has no repetition and holds exactly the trackers of its collector
    whose subscribed mask has the bit of the list; the count of each
    event type is the number of trackers on its lists. *)
Definition registry_inv {hdr : uvm_types_h} (st : tools_globals) : Prop :=
  UvmEventNumTypesAll ≤ 64
  ∧ length (g_tools_enabled_event_count st) = UvmEventNumTypesAll
  ∧ (∀ p t, trackers st !! p = Some t → is_queue t = true)
  ∧ (∀ v s, va_spaces st !! v = Some s →
       length (tools_queues (va_tools s)) = UvmEventNumTypesAll)
  ∧ (∀ v s i l, va_spaces st !! v = Some s →
       tools_queues (va_tools s) !! i = Some l →
       NoDup l
       ∧ ∀ p, p ∈ l ↔ ∃ q, trackers st !! p = Some (Tracker (Some v) (inl q))
                            ∧ Z.testbit (subscribed_queues q) (Z.of_nat i) = true)
  ∧ (∀ i, i < UvmEventNumTypesAll →
       g_tools_enabled_event_count st !! i
       = Some (wrap32 (Z.of_nat (event_subscribers i st)))).

Definition tools_is_event_enabled_in_any_va_space (event : nat) (st : tools_globals)
    : bool :=
  negb (g_tools_enabled_event_count st !!! event =? 0)%Z.

(** ** Enabled state and producer callbacks *)

Inductive NV_STATUS :=
  | NV_OK
  | NV_ERR_NO_MEMORY
  | NV_ERR_INVALID_ARGUMENT
  | NV_ERR_INVALID_ADDRESS.

Inductive uvm_perf_event_t :=
  | UVM_PERF_EVENT_FAULT
  | UVM_PERF_EVENT_MIGRATION.

Definition is_ok (s : NV_STATUS) : bool :=
  match s with NV_OK => true | _ => false end.

Definition tools_is_counter_enabled (tools : uvm_va_space_tools_t) (counter : nat) : bool :=
  negb (bool_decide (tools_counters tools !!! counter = [])).

Definition tools_is_event_enabled (tools : uvm_va_space_tools_t) (event : nat) : bool :=
  negb (bool_decide (tools_queues tools !!! event = [])).

Definition tools_are_enabled {hdr : uvm_types_h} (tools : uvm_va_space_tools_t) : bool :=
  existsb (tools_is_counter_enabled tools) (seq 0 UVM_TOTAL_COUNTERS)
  || existsb (tools_is_event_enabled tools) (seq 0 UvmEventNumTypesAll).

Definition tools_is_fault_callback_needed {hdr : uvm_types_h} (tools : uvm_va_space_tools_t)
    : bool :=
  tools_is_event_enabled tools UvmEventTypeCpuFault
  || tools_is_event_enabled tools UvmEventTypeGpuFault
  || tools_is_counter_enabled tools UvmCounterNameCpuPageFaultCount
  || tools_is_counter_enabled tools UvmCounterNameGpuPageFaultCount.

Definition tools_is_migration_callback_needed {hdr : uvm_types_h}
    (tools : uvm_va_space_tools_t) : bool :=
  tools_is_event_enabled tools UvmEventTypeMigration
  || tools_is_event_enabled tools UvmEventTypeReadDuplicate
  || tools_is_counter_enabled tools UvmCounterNameBytesXferDtH
  || tools_is_counter_enabled tools UvmCounterNameBytesXferHtD.

Definition is_event_callback_registered (e : uvm_perf_va_space_events_t)
    (event : uvm_perf_event_t) : bool :=
  match event with
  | UVM_PERF_EVENT_FAULT => fault_callback_registered e
  | UVM_PERF_EVENT_MIGRATION => migration_callback_registered e
  end.

Definition set_event_callback (event : uvm_perf_event_t) (b : bool)
    (e : uvm_perf_va_space_events_t) : uvm_perf_va_space_events_t :=
  match event with
  | UVM_PERF_EVENT_FAULT => PerfEvents b (migration_callback_registered e)
  | UVM_PERF_EVENT_MIGRATION => PerfEvents (fault_callback_registered e) b
  end.

(** Modelled from the spec: [uvm_perf_register_event_callback_locked]
    and [uvm_perf_unregister_event_callback_locked] belong to
    uvm_perf_events.c, which is not part of the sources. Registration can
    fail (section 4.1 speaks of callback-registration failure, and the
    caller tests the status); [outcome] is the status this attempt meets.
    On [NV_OK] the callback is registered, otherwise nothing is. *)
Definition uvm_perf_register_event_callback_locked (outcome : NV_STATUS)
    (event : uvm_perf_event_t) (e : uvm_perf_va_space_events_t)
    : NV_STATUS * uvm_perf_va_space_events_t :=
  match outcome with
  | NV_OK => (NV_OK, set_event_callback event true e)
  | err => (err, e)
  end.

Definition uvm_perf_unregister_event_callback_locked (event : uvm_perf_event_t)
    (e : uvm_perf_va_space_events_t) : uvm_perf_va_space_events_t :=
  set_event_callback event false e.

(** One half of [tools_update_perf_events_callbacks]: lines 1577-1593 for
    the fault callback, lines 1595-1611 for the migration callback. *)
Definition update_callback (reg : uvm_perf_event_t → NV_STATUS) (needed : bool)
    (event : uvm_perf_event_t) (e : uvm_perf_va_space_events_t)
    : NV_STATUS * uvm_perf_va_space_events_t :=
  if needed then
    if negb (is_event_callback_registered e event)
    then uvm_perf_register_event_callback_locked (reg event) event e
    else (NV_OK, e)
  else
    if is_event_callback_registered e event
    then (NV_OK, uvm_perf_unregister_event_callback_locked event e)
    else (NV_OK, e).

(** [reg] gives, for each event, the status a registration attempt
    meets during this call. *)
Definition tools_update_perf_events_callbacks {hdr : uvm_types_h}
    (reg : uvm_perf_event_t → NV_STATUS) (s : uvm_va_space_t)
    : NV_STATUS * uvm_va_space_t :=
  let '(status, e1) :=
    update_callback reg (tools_is_fault_callback_needed (va_tools s))
                    UVM_PERF_EVENT_FAULT (perf_events s) in
  if negb (is_ok status) then (status, set_perf_events e1 s)
  else
    let '(status, e2) :=
      update_callback reg (tools_is_migration_callback_needed (va_tools s))
                      UVM_PERF_EVENT_MIGRATION e1 in
    if negb (is_ok status) then (status, set_perf_events e2 s)
    else (NV_OK, set_perf_events e2 s).

Definition set_va_space (v : nat) (s : uvm_va_space_t) (st : tools_globals) :=
  Globals (g_tools_va_space_list st) (g_tools_enabled_event_count st)
          (<[v := s]> (va_spaces st)) (trackers st).

Definition set_va_space_list (l : list nat) (st : tools_globals) :=
  Globals l (g_tools_enabled_event_count st) (va_spaces st) (trackers st).

Definition tools_update_status {hdr : uvm_types_h} (reg : uvm_perf_event_t → NV_STATUS)
    (v : nat) (st : tools_globals) : NV_STATUS * tools_globals :=
  match va_spaces st !! v with
  | None => (NV_OK, st)
  | Some s =>
      let '(status, s1) := tools_update_perf_events_callbacks reg s in
      if negb (is_ok status) then (status, set_va_space v s1 st)
      else
        let should_be_enabled := tools_are_enabled (va_tools s1) in
        if negb (eqb should_be_enabled (tools_enabled (va_tools s1))) then
          let l := if should_be_enabled
                   then v :: g_tools_va_space_list st
                   else filter (λ x, x ≠ v) (g_tools_va_space_list st) in
          (NV_OK, set_va_space v (set_tools_enabled should_be_enabled s1)
                    (set_va_space_list l st))
        else (NV_OK, set_va_space v s1 st)
  end.

Definition tracker_subscribed (t : uvm_tools_event_tracker_t) : Z :=
  match body t with
  | inl q => subscribed_queues q
  | inr c => subscribed_counters c
  end.

(** [destroy_event_tracker]: the lists are left as [unsubscribe] leaves
    them for the tracker's whole subscribed mask (lines 382-389 and
    405-411), the mapped buffers go back to their owner, the enabled
    state is updated and the tracker is freed. The function returns
    nothing; the status of [tools_update_status] is only asserted. *)
Definition destroy_event_tracker {hdr : uvm_types_h} (reg : uvm_perf_event_t → NV_STATUS)
    (p : nat) (st : tools_globals) : tools_globals :=
  match trackers st !! p with
  | None => st
  | Some t =>
      let st2 :=
        match uvm_file t with
        | Some v =>
            let st1 := unsubscribe p (tracker_subscribed t) st in
            snd (tools_update_status reg v st1)
        | None => st
        end in
      Globals (g_tools_va_space_list st2) (g_tools_enabled_event_count st2)
              (va_spaces st2) (delete p (trackers st2))
  end.

(** The status that [destroy_event_tracker] asserts to be [NV_OK]. *)
Definition destroy_update_status {hdr : uvm_types_h} (reg : uvm_perf_event_t → NV_STATUS)
    (p : nat) (st : tools_globals) : NV_STATUS :=
  match trackers st !! p with
  | Some (Tracker (Some v) b) =>
      fst (tools_update_status reg v (unsubscribe p (tracker_subscribed (Tracker (Some v) b)) st))
  | _ => NV_OK
  end.

(** ** Building event records

    A local [UvmEventEntry entry;] starts with whatever the stack holds:
    [stack] below is that content, [sizeof(entry)] bytes of it. *)

Definition g_hal_to_tools_fault_type_table (t : uvm_fault_type_t) : UvmEventFaultType :=
  match t with
  | UVM_FAULT_TYPE_INVALID_PDE => UvmFaultTypeInvalidPde
  | UVM_FAULT_TYPE_INVALID_PTE => UvmFaultTypeInvalidPte
  | UVM_FAULT_TYPE_ATOMIC => UvmFaultTypeAtomic
  | UVM_FAULT_TYPE_WRITE => UvmFaultTypeWrite
  | UVM_FAULT_TYPE_PDE_SIZE => UvmFaultTypeInvalidPdeSize
  | UVM_FAULT_TYPE_VA_LIMIT_VIOLATION => UvmFaultTypeLimitViolation
  | UVM_FAULT_TYPE_UNBOUND_INST_BLOCK => UvmFaultTypeUnboundInstBlock
  | UVM_FAULT_TYPE_PRIV_VIOLATION => UvmFaultTypePrivViolation
  | UVM_FAULT_TYPE_PITCH_MASK_VIOLATION => UvmFaultTypePitchMaskViolation
  | UVM_FAULT_TYPE_WORK_CREATION => UvmFaultTypeWorkCreation
  | UVM_FAULT_TYPE_UNSUPPORTED_APERTURE => UvmFaultTypeUnsupportedAperture
  | UVM_FAULT_TYPE_COMPRESSION_FAILURE => UvmFaultTypeCompressionFailure
  | UVM_FAULT_TYPE_UNSUPPORTED_KIND => UvmFaultTypeUnsupportedKind
  | UVM_FAULT_TYPE_REGION_VIOLATION => UvmFaultTypeRegionViolation
  | UVM_FAULT_TYPE_POISONED => UvmFaultTypePoison
  end.

Definition g_hal_to_tools_fault_access_type_table (t : uvm_fault_access_type_t)
    : UvmEventMemoryAccessType :=
  match t with
  | UVM_FAULT_ACCESS_TYPE_ATOMIC_STRONG => UvmEventMemoryAccessTypeAtomic
  | UVM_FAULT_ACCESS_TYPE_ATOMIC_WEAK => UvmEventMemoryAccessTypeAtomic
  | UVM_FAULT_ACCESS_TYPE_WRITE => UvmEventMemoryAccessTypeWrite
  | UVM_FAULT_ACCESS_TYPE_READ => UvmEventMemoryAccessTypeRead
  | UVM_FAULT_ACCESS_TYPE_PREFETCH => UvmEventMemoryAccessTypePrefetch
  end.

Definition g_hal_to_tools_fault_client_type_table (t : uvm_fault_client_type_t)
    : UvmEventFaultClientType :=
  match t with
  | UVM_FAULT_CLIENT_TYPE_GPC => UvmEventFaultClientTypeGpc
  | UVM_FAULT_CLIENT_TYPE_HUB => UvmEventFaultClientTypeHub
  end.

(** The members of [uvm_fault_buffer_entry_t] that the file reads. *)
Record uvm_fault_buffer_entry_t := FaultBufferEntry {
  fault_type : uvm_fault_type_t;
  fault_access_type : uvm_fault_access_type_t;
  fault_source_client_type : uvm_fault_client_type_t;
  is_replayable : bool;
  fault_source_gpc_id : Z;
  fault_source_channel_id : Z;
  fault_source_client_id : Z;
  fault_address : Z;
  fault_timestamp : Z
}.

(** Lines 699-716 of [record_gpu_fault_instance]: the record handed to
    [uvm_tools_record_event]. [gpu_id] is [uvm_id_value(gpu->id)]. *)
Definition gpu_fault_entry {hdr : uvm_types_h} (stack : UvmEventEntry) (gpu_id : Z)
    (fault_entry : uvm_fault_buffer_entry_t) (batch_id timestamp : Z) : UvmEventEntry :=
  let entry := memset0 stack in
  let entry := store f_eventType (Z.of_nat UvmEventTypeGpuFault) entry in
  let entry := store gf_gpuIndex gpu_id entry in
  let entry := store gf_faultType
                 (UvmEventFaultType_value
                    (g_hal_to_tools_fault_type_table (fault_type fault_entry))) entry in
  let entry := store gf_accessType
                 (UvmEventMemoryAccessType_value
                    (g_hal_to_tools_fault_access_type_table (fault_access_type fault_entry)))
                 entry in
  let entry := store gf_clientType
                 (UvmEventFaultClientType_value
                    (g_hal_to_tools_fault_client_type_table
                       (fault_source_client_type fault_entry))) entry in
  let entry := if is_replayable fault_entry
               then store gf_gpcId (fault_source_gpc_id fault_entry) entry
               else store gf_channelId (fault_source_channel_id fault_entry) entry in
  let entry := store gf_clientId (fault_source_client_id fault_entry) entry in
  let entry := store gf_address (fault_address fault_entry) entry in
  let entry := store gf_timeStamp timestamp entry in
  let entry := store gf_timeStampGpu (fault_timestamp fault_entry) entry in
  store gf_batchId batch_id entry.

Definition record_gpu_fault_instance {hdr : uvm_types_h} (stack : UvmEventEntry)
    (gpu_id : Z) (tools : uvm_va_space_tools_t) (fault_entry : uvm_fault_buffer_entry_t)
    (batch_id timestamp : Z) (trackers : gmap nat uvm_tools_event_tracker_t)
    : gmap nat uvm_tools_event_tracker_t :=
  uvm_tools_record_event tools
    (gpu_fault_entry stack gpu_id fault_entry batch_id timestamp) trackers.

(** The members that [record_gpu_fault_instance] populates. *)
Definition gpu_fault_fields {hdr : uvm_types_h} : list field :=
  [f_eventType; gf_gpuIndex; gf_faultType; gf_accessType; gf_clientType;
   gf_gpcId; gf_channelId; gf_clientId; gf_address; gf_timeStamp;
   gf_timeStampGpu; gf_batchId].

(** Lines 1096-1101 of [uvm_tools_test_hmm_split_invalidate]: the record
    handed to [uvm_tools_record_event]. There is no [memset]. *)
Definition split_invalidate_entry {hdr : uvm_types_h} (stack : UvmEventEntry)
    : UvmEventEntry :=
  store f_eventType (Z.of_nat UvmEventTypeTestHmmSplitInvalidate) stack.

Definition uvm_tools_test_hmm_split_invalidate {hdr : uvm_types_h}
    (stack : UvmEventEntry) (tools : uvm_va_space_tools_t)
    (trackers : gmap nat uvm_tools_event_tracker_t)
    : gmap nat uvm_tools_event_tracker_t :=
  if negb (tools_enabled tools) then trackers
  else uvm_tools_record_event tools (split_invalidate_entry stack) trackers.

(** ** Deferred migration events *)

(** A pending migration within a VA block ([events_node] is the
    membership of its address in the list of the block record). *)
Record migration_data_t := MigrationData {
  bytes : Z;
  address : Z;
  end_timestamp_gpu_addr : Z;
  end_timestamp_gpu : Z;
  cause : Z
}.

(** The pending migrations of one push. [events] lists the addresses of
    the [migration_data_t] objects in list order; [src] and [dst] are the
    values of the processor ids. *)
Record block_migration_data_t := BlockMigrationData {
  dst : Z;
  src : Z;
  va_space : nat;
  channel : nat;
  events : list nat;
  start_timestamp_cpu : Z;
  end_timestamp_cpu : Z;
  start_timestamp_gpu_addr : Z;
  start_timestamp_gpu : Z;
  range_group_id : Z
}.

(** Lines 837-841: the members written for each sub-event. *)
Definition migration_entry_update {hdr : uvm_types_h} (mig : migration_data_t)
    (gpu_timestamp : Z) (entry : UvmEventEntry) : UvmEventEntry :=
  let entry := store mig_address (address mig) entry in
  let entry := store mig_migratedBytes (bytes mig) entry in
  let entry := store mig_beginTimeStampGpu gpu_timestamp entry in
  let entry := store mig_endTimeStampGpu (end_timestamp_gpu mig) entry in
  store mig_migrationCause (cause mig) entry.

(** The loop of lines 833-846 over the list [events], from the state in
    which [gpu_timestamp], [entry], the cache of details and the trackers
    are as given. Every iteration unlinks and frees the detail it
    visits and records one event; [emitted] collects the records handed
    to [uvm_tools_record_event], in call order. A list node that is not an
    allocated detail has no model ([None]). *)
Fixpoint record_migration_loop {hdr : uvm_types_h} (tools : uvm_va_space_tools_t)
    (events : list nat) (gpu_timestamp : Z) (entry : UvmEventEntry)
    (migration_data_cache : gmap nat migration_data_t)
    (trackers : gmap nat uvm_tools_event_tracker_t) (emitted : list UvmEventEntry)
    : option (gmap nat migration_data_t * gmap nat uvm_tools_event_tracker_t
              * list UvmEventEntry) :=
  match events with
  | [] => Some (migration_data_cache, trackers, emitted)
  | p :: rest =>
      match migration_data_cache !! p with
      | None => None
      | Some mig =>
          let entry := migration_entry_update mig gpu_timestamp entry in
          let gpu_timestamp := end_timestamp_gpu mig in
          let migration_data_cache := delete p migration_data_cache in
          let trackers := uvm_tools_record_event tools entry trackers in
          record_migration_loop tools rest gpu_timestamp entry migration_data_cache
            trackers (emitted ++ [entry])
      end
  end.

(** Lines 817-830: the members that are constant for the whole block. *)
Definition migration_entry_init {hdr : uvm_types_h} (stack : UvmEventEntry)
    (block_mig : block_migration_data_t) : UvmEventEntry :=
  let entry := memset0 stack in
  let entry := store f_eventType (Z.of_nat UvmEventTypeMigration) entry in
  let entry := store mig_srcIndex (src block_mig) entry in
  let entry := store mig_dstIndex (dst block_mig) entry in
  let entry := store mig_beginTimeStamp (start_timestamp_cpu block_mig) entry in
  let entry := store mig_endTimeStamp (end_timestamp_cpu block_mig) entry in
  store mig_rangeGroupId (range_group_id block_mig) entry.

(** [record_migration_events(args)], run by the background worker. The
    result is the cache of block records, the cache of details, the
    trackers, and the records handed to [uvm_tools_record_event] in call
    order. *)
Definition record_migration_events {hdr : uvm_types_h} (stack : UvmEventEntry)
    (args : nat) (block_migration_data_cache : gmap nat block_migration_data_t)
    (migration_data_cache : gmap nat migration_data_t)
    (spaces : gmap nat uvm_va_space_t)
    (trackers : gmap nat uvm_tools_event_tracker_t)
    : option (gmap nat block_migration_data_t * gmap nat migration_data_t
              * gmap nat uvm_tools_event_tracker_t * list UvmEventEntry) :=
  match block_migration_data_cache !! args with
  | None => None
  | Some block_mig =>
      match spaces !! va_space block_mig with
      | None => None
      | Some s =>
          let gpu_timestamp := start_timestamp_gpu block_mig in
          let entry := migration_entry_init stack block_mig in
          match record_migration_loop (va_tools s) (events block_mig) gpu_timestamp
                  entry migration_data_cache trackers [] with
          | None => None
          | Some (migs, trackers, emitted) =>
              Some (delete args block_migration_data_cache, migs, trackers, emitted)
          end
      end
  end.

Definition fields_disjoint_b (f g : field) : bool :=
  bool_decide (fields_disjoint f g).

Fixpoint pairwise_disjoint (fs : list field) : bool :=
  match fs with
  | [] => true
  | f :: fs' => forallb (fields_disjoint_b f) fs' && pairwise_disjoint fs'
  end.

(** What the theorem on migration events needs of the layout: the
    discriminant and the members written per sub-event share no byte and
    lie inside a record of [size] bytes, and the members that hold
    [NvU64] values are 8 bytes wide. *)
Definition migration_layout_ok {hdr : uvm_types_h} (size : nat) : bool :=
  pairwise_disjoint
    [f_eventType; mig_address; mig_migratedBytes; mig_beginTimeStampGpu;
     mig_endTimeStampGpu; mig_migrationCause]
  && forallb (λ f, bool_decide (f_off f + f_len f ≤ size))
       [mig_address; mig_migratedBytes; mig_beginTimeStampGpu; mig_endTimeStampGpu]
  && forallb (λ f, bool_decide (f_len f = 8))
       [mig_address; mig_migratedBytes; mig_beginTimeStampGpu; mig_endTimeStampGpu].

(** The same for every member of [UvmEventMigrationInfo] that
    [record_migration_events] writes: no two of them share a byte, all
    lie inside a record of [size] bytes, and the members that hold
    [NvU64] values are 8 bytes wide. *)
Definition migration_record_layout_ok {hdr : uvm_types_h} (size : nat) : bool :=
  pairwise_disjoint
    [f_eventType; mig_migrationCause; mig_srcIndex; mig_dstIndex; mig_address;
     mig_migratedBytes; mig_beginTimeStamp; mig_endTimeStamp; mig_rangeGroupId;
     mig_beginTimeStampGpu; mig_endTimeStampGpu]
  && forallb (λ f, bool_decide (f_off f + f_len f ≤ size))
       [f_eventType; mig_migrationCause; mig_srcIndex; mig_dstIndex; mig_address;
        mig_migratedBytes; mig_beginTimeStamp; mig_endTimeStamp; mig_rangeGroupId;
        mig_beginTimeStampGpu; mig_endTimeStampGpu]
  && forallb (λ f, bool_decide (f_len f = 8))
       [mig_address; mig_migratedBytes; mig_beginTimeStamp; mig_endTimeStamp;
        mig_rangeGroupId; mig_beginTimeStampGpu; mig_endTimeStampGpu].

(** The members of the block in a record. *)
Definition block_members {hdr : uvm_types_h} (e : UvmEventEntry) : list Z :=
  [load f_eventType e; load mig_srcIndex e; load mig_dstIndex e;
   load mig_beginTimeStamp e; load mig_endTimeStamp e; load mig_rangeGroupId e].

Definition is_NvU64 (v : Z) : Prop := (0 ≤ v < 2 ^ 64)%Z.

(** ** Channels with pending events, and the flush

    [pending_event_count] holds [channel->tools.pending_event_count] for
    the channels that ever had one (0 otherwise); the member is declared
    in uvm_channel.h, which is not part of the sources, and is kept as an
    integer. [pushes] are the pushes that carry a completion callback of
    this file and whose completion has not been signaled, each with its
    channel and its queue item, oldest first. [g_tools_queue] holds the
    items scheduled for the background worker, [delivered] the items the
    worker has run. *)
Record channel_state := ChannelState {
  g_tools_channel_list : list nat;
  pending_event_count : gmap nat Z;
  pushes : list (nat * nat);
  g_tools_queue : list nat;
  delivered : list nat
}.

Definition count_of (c : nat) (st : channel_state) : Z :=
  default 0%Z (pending_event_count st !! c).

Definition add_pending_event_for_channel (channel : nat) (st : channel_state)
    : channel_state :=
  let old := count_of channel st in
  ChannelState
    (if (old =? 0)%Z then g_tools_channel_list st ++ [channel]
     else g_tools_channel_list st)
    (<[channel := (old + 1)%Z]> (pending_event_count st))
    (pushes st) (g_tools_queue st) (delivered st).

Definition remove_pending_event_for_channel (channel : nat) (st : channel_state)
    : channel_state :=
  let new := (count_of channel st - 1)%Z in
  ChannelState
    (if (new =? 0)%Z then filter (λ x, x ≠ channel) (g_tools_channel_list st)
     else g_tools_channel_list st)
    (<[channel := new]> (pending_event_count st))
    (pushes st) (g_tools_queue st) (delivered st).

Definition nv_kthread_q_schedule_q_item (item : nat) (st : channel_state)
    : channel_state :=
  ChannelState (g_tools_channel_list st) (pending_event_count st) (pushes st)
               (g_tools_queue st ++ [item]) (delivered st).

(** What [on_block_migration_complete], [on_replay_complete] and
    [on_map_remote_complete] do to the channels and the worker (lines
    875-878, 925-928 and 1476-1479). *)
Definition on_complete (channel item : nat) (st : channel_state) : channel_state :=
  nv_kthread_q_schedule_q_item item (remove_pending_event_for_channel channel st).

Definition set_pushes (ps : list (nat * nat)) (st : channel_state) : channel_state :=
  ChannelState (g_tools_channel_list st) (pending_event_count st) ps
               (g_tools_queue st) (delivered st).

(** What the submission paths do (lines 1030-1035, 1162-1167 and
    1543-1548): the push gets its completion callback and its channel a
    pending event. *)
Definition submit (channel item : nat) (st : channel_state) : channel_state :=
  add_pending_event_for_channel channel
    (set_pushes (pushes st ++ [(channel, item)]) st).

(** The completion callbacks of the pushes [ps] that are on [channel],
    oldest first. *)
Fixpoint complete_all (channel : nat) (ps : list (nat * nat)) (st : channel_state)
    : channel_state :=
  match ps with
  | [] => st
  | (c, item) :: ps' =>
      if decide (c = channel) then complete_all channel ps' (on_complete c item st)
      else complete_all channel ps' st
  end.

(** Modelled from the spec: [uvm_channel_update_progress_all] belongs to
    uvm_channel.c, which is not part of the sources. Section 4.4 has the
    hardware-progress mechanism invoke the completion signal of a batch
    it observes done, and has the flush force a channel through it so
    that what is pending on the channel is delivered: forcing a channel
    signals the completion of every push pending on it. *)
Definition uvm_channel_update_progress_all (channel : nat) (st : channel_state)
    : channel_state :=
  complete_all channel (pushes st)
    (set_pushes (filter (λ x, x.1 ≠ channel) (pushes st)) st).

(** Modelled from the spec: [nv_kthread_q_flush] (nv-kthread-q.c, not
    part of the sources) waits until the background worker has run
    everything scheduled so far. *)
Definition nv_kthread_q_flush (st : channel_state) : channel_state :=
  ChannelState (g_tools_channel_list st) (pending_event_count st) (pushes st)
               [] (delivered st ++ g_tools_queue st).

(** What other threads may do while the flush holds no lock: submit a
    push, force the progress of a channel, or (the worker) run what is
    scheduled. *)
Inductive env_action :=
  | EnvSubmit (channel item : nat)
  | EnvProgress (channel : nat)
  | EnvWorker.

Definition env_step (st : channel_state) (a : env_action) : channel_state :=
  match a with
  | EnvSubmit c item => submit c item st
  | EnvProgress c => uvm_channel_update_progress_all c st
  | EnvWorker => nv_kthread_q_flush st
  end.

Definition env_run (acts : list env_action) (st : channel_state) : channel_state :=
  foldl env_step st acts.

Definition list_first_entry (l : list nat) : option nat := head l.

(** The entry after [c]; [None] when [c] is the last entry or is not on
    the list (the C expression then yields no channel). *)
Fixpoint list_next_entry (c : nat) (l : list nat) : option nat :=
  match l with
  | [] => None
  | x :: l' => if decide (x = c) then head l' else list_next_entry c l'
  end.

(** Lines 1255-1258: every entry of the list is retained. *)
Definition retain_channels (st : channel_state) : channel_state :=
  foldl (λ st c,
           ChannelState (g_tools_channel_list st)
             (<[c := (count_of c st + 1)%Z]> (pending_event_count st))
             (pushes st) (g_tools_queue st) (delivered st))
        st (g_tools_channel_list st).

(** Lines 1267-1270, [n] iterations from the [i]-th on. The loop runs
    without the lock: [env (2 * i + 1)] is what other threads do before
    the progress of the [i]-th channel is forced, [env (2 * i + 2)] what
    they do before the next entry is read. [forced] collects the
    channels forced, in order. *)
Fixpoint progress_loop (env : nat → list env_action) (n i : nat) (channel : option nat)
    (st : channel_state) (forced : list nat) : option (channel_state * list nat) :=
  match n with
  | 0 => Some (st, forced)
  | S n' =>
      match channel with
      | None => None
      | Some c =>
          let st := env_run (env (2 * i + 1)) st in
          let st := uvm_channel_update_progress_all c st in
          let st := env_run (env (2 * i + 2)) st in
          progress_loop env n' (S i) (list_next_entry c (g_tools_channel_list st))
            st (forced ++ [c])
      end
  end.

(** Lines 1275-1280 over the entries [l] the list has when the loop
    starts ([list_for_each_entry_safe] has read the next entry before the
    current one is unlinked). [released] collects the channels released,
    in order. *)
Fixpoint release_loop (l : list nat) (i channel_count : nat) (st : channel_state)
    (released : list nat) : channel_state * list nat :=
  match l with
  | [] => (st, released)
  | c :: l' =>
      if decide (i = channel_count) then (st, released)
      else release_loop l' (S i) channel_count
             (remove_pending_event_for_channel c st) (released ++ [c])
  end.

(** [tools_schedule_completed_events]. [env 0] is what other threads do
    between the unlock of line 1259 and the first read of the list. The
    result carries the channels forced and the channels released. *)
Definition tools_schedule_completed_events (env : nat → list env_action)
    (st : channel_state) : option (channel_state * list nat * list nat) :=
  let channel_count := length (g_tools_channel_list st) in
  let st1 := retain_channels st in
  if decide (channel_count = 0) then Some (st1, [], [])
  else
    let st2 := env_run (env 0) st1 in
    match progress_loop env channel_count 0
            (list_first_entry (g_tools_channel_list st2)) st2 [] with
    | None => None
    | Some (st3, forced) =>
        let '(st4, released) :=
          release_loop (g_tools_channel_list st3) 0 channel_count st3 [] in
        Some (st4, forced, released)
    end.

Definition uvm_tools_flush_events (env : nat → list env_action) (st : channel_state)
    : option (channel_state * list nat * list nat) :=
  match tools_schedule_completed_events env st with
  | None => None
  | Some (st', forced, released) => Some (nv_kthread_q_flush st', forced, released)
  end.

(** Number of pushes pending on a channel. *)
Definition pending_pushes (c : nat) (st : channel_state) : nat :=
  length (filter (λ x, x.1 = c) (pushes st)).

(** What ties the counts to the list while the channels [R] are
    retained by a flush and [k] completions of pushes of channel [c0]
    are under way (their pushes are taken, their callbacks not yet run):
    the list has no repetition; the count of a channel is the number of
    its pending pushes, plus the completions under way, plus one when it
    is retained; a channel is on the list exactly when its count is not
    zero. *)
Definition channel_counts_flight (R : list nat) (c0 k : nat) (st : channel_state)
    : Prop :=
  NoDup (g_tools_channel_list st)
  ∧ (∀ c, count_of c st
          = (Z.of_nat (pending_pushes c st)
             + (if decide (c = c0) then Z.of_nat k else 0)
             + (if decide (c ∈ R) then 1 else 0))%Z)
  ∧ (∀ c, c ∈ g_tools_channel_list st ↔ (0 < count_of c st)%Z).

Definition channel_counts (R : list nat) (st : channel_state) : Prop :=
  NoDup (g_tools_channel_list st)
  ∧ (∀ c, count_of c st
          = (Z.of_nat (pending_pushes c st) + (if decide (c ∈ R) then 1 else 0))%Z)
  ∧ (∀ c, c ∈ g_tools_channel_list st ↔ (0 < count_of c st)%Z).

(** The same, with the retained channels at the head of the list, in
    order: this is what holds from the retain loop to the release
    loop. *)
Definition channel_inv (R : list nat) (st : channel_state) : Prop :=
  channel_counts R st ∧ R `prefix_of` g_tools_channel_list st.

(** A push is still pending, or its item is with the worker. *)
Definition push_covered (x : nat * nat) (st : channel_state) : Prop :=
  x ∈ pushes st ∨ x.2 ∈ g_tools_queue st ∨ x.2 ∈ delivered st.

(** An item is on its way to the consumer, or there. *)
Definition item_done (item : nat) (st : channel_state) : Prop :=
  item ∈ g_tools_queue st ∨ item ∈ delivered st.

(** ** Concrete header and states used in examples *)

(** An instance of the header, for the examples: 64 event types, 10
    counters, records of 64 bytes. *)
Definition uvm_types_example : uvm_types_h := {|
  UvmEventFaultType_value := λ t,
    match t with
    | UvmFaultTypeInvalidPde => 1 | UvmFaultTypeInvalidPte => 2
    | UvmFaultTypeWrite => 3 | UvmFaultTypeAtomic => 4
    | UvmFaultTypeInvalidPdeSize => 5 | UvmFaultTypeLimitViolation => 6
    | UvmFaultTypeUnboundInstBlock => 7 | UvmFaultTypePrivViolation => 8
    | UvmFaultTypePitchMaskViolation => 9 | UvmFaultTypeWorkCreation => 10
    | UvmFaultTypeUnsupportedAperture => 11 | UvmFaultTypeCompressionFailure => 12
    | UvmFaultTypeUnsupportedKind => 13 | UvmFaultTypeRegionViolation => 14
    | UvmFaultTypePoison => 15
    end%Z;
  UvmEventMemoryAccessType_value := λ t,
    match t with
    | UvmEventMemoryAccessTypeRead => 1 | UvmEventMemoryAccessTypeWrite => 2
    | UvmEventMemoryAccessTypeAtomic => 3 | UvmEventMemoryAccessTypePrefetch => 4
    end%Z;
  UvmEventFaultClientType_value := λ t,
    match t with
    | UvmEventFaultClientTypeGpc => 1 | UvmEventFaultClientTypeHub => 2
    end%Z;
  UvmEventNumTypesAll := 64;
  UVM_TOTAL_COUNTERS := 10;
  UvmEventTypeCpuFault := 1;
  UvmEventTypeMigration := 2;
  UvmEventTypeGpuFault := 3;
  UvmEventTypeReadDuplicate := 7;
  UvmEventTypeTestHmmSplitInvalidate := 62;
  UvmCounterNameBytesXferHtD := 0;
  UvmCounterNameBytesXferDtH := 1;
  UvmCounterNameCpuPageFaultCount := 2;
  UvmCounterNameGpuPageFaultCount := 9;
  NV_PROCESSOR_UUID_CPU_DEFAULT := replicate 16 0%Z;
  mig_migrationCause := Field 1 1;
  mig_srcIndex := Field 2 1;
  mig_dstIndex := Field 3 1;
  mig_address := Field 8 8;
  mig_migratedBytes := Field 16 8;
  mig_beginTimeStamp := Field 24 8;
  mig_endTimeStamp := Field 32 8;
  mig_rangeGroupId := Field 40 8;
  mig_beginTimeStampGpu := Field 48 8;
  mig_endTimeStampGpu := Field 56 8;
  gf_gpuIndex := Field 3 1;
  gf_faultType := Field 1 1;
  gf_accessType := Field 2 1;
  gf_clientType := Field 36 1;
  gf_gpcId := Field 4 2;
  gf_channelId := Field 4 2;
  gf_clientId := Field 6 2;
  gf_address := Field 8 8;
  gf_timeStamp := Field 16 8;
  gf_timeStampGpu := Field 24 8;
  gf_batchId := Field 32 4
|}.

(** A queue tracker of collector [v], capacity 4, record size 64, not
    subscribed to anything. *)
Definition example_queue_tracker (v : nat) : uvm_tools_event_tracker_t :=
  Tracker (Some v)
    (inl (Queue 0 (replicate 4 (replicate 64 0%Z)) 4 2
                (ControlData 0 0 0 0 (replicate 64 0%Z)) 0 false 0)).

(** An all-processors counter tracker of collector [v] whose own
    processor is [uuid]. *)
Definition example_counter_tracker (v : nat) (all : bool) (uuid : NvProcessorUuid)
    : uvm_tools_event_tracker_t :=
  Tracker (Some v) (inr (Counter 0 (replicate 10 0%Z) all uuid)).

Definition example_va_space : uvm_va_space_t :=
  VaSpace (VaTools false (replicate 64 []) (replicate 10 [])) (PerfEvents false false).

(** One collector (address 1) and two queue trackers of it (addresses 10
    and 11); nothing is subscribed. *)
Definition example_globals : tools_globals :=
  Globals [] (replicate 64 0%Z) {[ 1 := example_va_space ]}
          {[ 10 := example_queue_tracker 1; 11 := example_queue_tracker 1 ]}.

(** The same collector with a counter tracker (address 12). *)
Definition example_globals_counter : tools_globals :=
  Globals [] (replicate 64 0%Z) {[ 1 := example_va_space ]}
          {[ 12 := example_counter_tracker 1 true (replicate 16 0%Z) ]}.

(** Collector 1 with queue tracker 10 on its lists for CPU faults (event
    type 1) and migrations (event type 2); no callback is registered yet
    and the collector is not enabled yet: the state in which the attach
    path calls [tools_update_status]. *)
Definition example_globals_attaching : tools_globals :=
  Globals [] (<[1 := 1%Z]> (<[2 := 1%Z]> (replicate 64 0%Z)))
          {[ 1 := VaSpace (VaTools false
                             (<[1 := [10]]> (<[2 := [10]]> (replicate 64 [])))
                             (replicate 10 []))
                          (PerfEvents false false) ]}
          {[ 10 := Tracker (Some 1)
                     (inl (Queue 6 (replicate 4 (replicate 64 0%Z)) 4 2
                                 (ControlData 0 0 0 0 (replicate 64 0%Z)) 0 false 0)) ]}.

(** Registration succeeds for the fault callback and then runs out of
    memory for the migration callback. *)
Definition example_registration (event : uvm_perf_event_t) : NV_STATUS :=
  match event with
  | UVM_PERF_EVENT_FAULT => NV_OK
  | UVM_PERF_EVENT_MIGRATION => NV_ERR_NO_MEMORY
  end.

(** A completed block record (address 100) of collector 1 with two
    details (addresses 200 and 201), and a collector whose queue tracker
    10 is subscribed to migrations. *)
Definition example_block : block_migration_data_t :=
  BlockMigrationData 1 0 1 7 [200; 201] 10 20 0 1000 0.

Definition example_details : gmap nat migration_data_t :=
  {[ 200 := MigrationData 4096 65536 0 1500 1;
     201 := MigrationData 8192 131072 0 1900 1 ]}.

Definition example_spaces_migration : gmap nat uvm_va_space_t :=
  {[ 1 := VaSpace (VaTools true (<[2 := [10]]> (replicate 64 [])) (replicate 10 []))
                  (PerfEvents false true) ]}.

(** Collector 1, enabled, with queue tracker 10 on its list for
    migrations (event type 2) only, and the migration callback
    registered. *)
Definition example_globals_enabled : tools_globals :=
  Globals [1] (<[2 := 1%Z]> (replicate 64 0%Z))
          {[ 1 := VaSpace (VaTools true (<[2 := [10]]> (replicate 64 []))
                             (replicate 10 []))
                          (PerfEvents false true) ]}
          {[ 10 := Tracker (Some 1)
                     (inl (Queue 4 (replicate 4 (replicate 64 0%Z)) 4 2
                                 (ControlData 0 0 0 0 (replicate 64 0%Z)) 0 false 0)) ]}.

(** Registration always runs out of memory. *)
Definition example_no_registration (event : uvm_perf_event_t) : NV_STATUS :=
  NV_ERR_NO_MEMORY.

(** A replayable write fault at address 4096. *)
Definition example_fault_entry : uvm_fault_buffer_entry_t :=
  FaultBufferEntry UVM_FAULT_TYPE_WRITE UVM_FAULT_ACCESS_TYPE_WRITE
                   UVM_FAULT_CLIENT_TYPE_GPC true 1 0 2 4096 1000.

(** ** Concrete queues used in examples *)

(** Capacity 4, threshold 2, every cursor and counter zero. *)
Definition scenario_queue : uvm_tools_queue_t :=
  Queue 0 (replicate 4 (replicate 8 0%Z)) 4 2
        (ControlData 0 0 0 0 (replicate 16 0%Z)) 0 false 0.

(** An event record of type [ty] with one payload byte [b]. *)
Definition scenario_entry (ty b : Z) : UvmEventEntry :=
  [ty; b; 0; 0; 0; 0; 0; 0]%Z.

(** Capacity 1: the only slot is the reserved one. *)
Definition degenerate_queue : uvm_tools_queue_t :=
  Queue 0 [replicate 8 0%Z] 1 0
        (ControlData 0 0 0 0 (replicate 16 0%Z)) 0 false 0.

(** ** Concrete channels used in examples *)

(** No channel has a pending event, nothing is with the worker. *)
Definition channels_initial : channel_state := ChannelState [] ∅ [] [] [].

(** Channels 1 and 2 have one push pending each. *)
Definition example_channels : channel_state :=
  submit 2 102 (submit 1 101 channels_initial).

(** While the flush runs, before it forces its first channel, a push is
    submitted on channel 3. *)
Definition example_env (j : nat) : list env_action :=
  if decide (j = 1) then [EnvSubmit 3 103] else [].

(** ** Event masks of the subscription requests

    Further declarations of uvm_types.h, which is not part of the
    sources: the number of event types without the test events, and the
    range of the test events. *)
Class uvm_event_ranges := {
  UvmEventNumTypes : nat;
  UvmEventTestTypesFirst : nat;
  UvmEventTestTypesLast : nat
}.

(** The bitmap operations of the kernel's bitmap.h, which is not part of
    the sources, on a bitmap of [EVENT_FLAGS_BITS] = 64 bits held in one
    word: [bitmap_set] sets the [len] bits from [start] on,
    [bitmap_andnot] and [bitmap_and] return whether their result has a
    bit set. *)
Definition bitmap_zero : Z := 0%Z.

Definition bitmap_set (map start len : Z) : Z :=
  Z.lor map (Z.shiftl (Z.ones len) start).

Definition bitmap_or (a b : Z) : Z := Z.lor a b.

Definition bitmap_andnot (a b : Z) : bool :=
  negb (Z.land a (wrap64 (Z.lnot b)) =? 0)%Z.

Definition bitmap_and (a b : Z) : bool :=
  negb (Z.land a b =? 0)%Z.

(** [mask_contains_invalid_events]; [uvm_enable_builtin_tests] is the
    module parameter of that name. The second component tells whether
    the hint of line 1675 is printed. *)
Definition mask_contains_invalid_events {rng : uvm_event_ranges}
    (uvm_enable_builtin_tests : bool) (event_flags : Z) : bool * bool :=
  let event_mask := event_flags in
  let tests_events_mask :=
    bitmap_set bitmap_zero (Z.of_nat UvmEventTestTypesFirst)
      (Z.of_nat UvmEventTestTypesLast - Z.of_nat UvmEventTestTypesFirst + 1) in
  let valid_events_mask :=
    bitmap_set bitmap_zero 1 (Z.of_nat UvmEventNumTypes - 1) in
  let valid_events_mask :=
    if uvm_enable_builtin_tests
    then bitmap_or valid_events_mask tests_events_mask
    else valid_events_mask in
  if negb (bitmap_andnot event_mask valid_events_mask) then (false, false)
  else
    (true, negb uvm_enable_builtin_tests && bitmap_and event_mask tests_events_mask).

(** The event numbering of the examples: 22 event types, test events 62
    and 63. *)
Definition uvm_event_ranges_example : uvm_event_ranges := {|
  UvmEventNumTypes := 22;
  UvmEventTestTypesFirst := 62;
  UvmEventTestTypesLast := 63
|}.

(** The collector of [example_globals] on the list of enabled
    collectors, with tracker 10 subscribed to event type 2. *)
Definition example_globals_listed : tools_globals :=
  set_va_space_list [1]
    (registry_run (hdr := uvm_types_example) [Subscribe 10 4] example_globals).

(** A record of event type 2, otherwise zero. *)
Definition example_entry : UvmEventEntry := 2%Z :: replicate 63 0%Z.

(** ** The table of processor identities

    Declarations of uvm_processors.h and nvtypes.h, which are not part
    of the sources: the value of the CPU's processor id, the number of
    processor ids, the size of an [NvProcessorUuid], and the macros
    that tell whether a processor id is the CPU's or a GPU's. *)
Class uvm_processors_h := {
  UVM_ID_CPU_VALUE : nat;
  UVM_ID_MAX_PROCESSORS : nat;
  NV_UUID_LEN : nat;
  (* the tests of a processor id, on the value of the id *)
  UVM_ID_IS_CPU : nat → bool;
  UVM_ID_IS_GPU : nat → bool
}.

(** The members of [uvm_gpu_t] that the file reads: [uvm_id_value(gpu->id)]
    and [uvm_gpu_uuid(gpu)]. *)
Record uvm_gpu_t := Gpu {
  gpu_id : nat;
  gpu_uuid : NvProcessorUuid
}.

(** The loop of lines 1876-1880 over the GPUs registered in the
    collector's address space. *)
Definition uuid_table_loop (gpus : list uvm_gpu_t)
    (acc : list NvProcessorUuid * nat) : list NvProcessorUuid * nat :=
  foldl (λ '(uuids, count) gpu,
           (<[gpu_id gpu := gpu_uuid gpu]> uuids,
            if decide (count < gpu_id gpu + 1) then gpu_id gpu + 1 else count))
        acc gpus.

(** [uvm_api_tools_get_processor_uuid_table]. [alloc_ok] tells whether
    [uvm_kvmalloc_zero] succeeds, [gpus] are the GPUs of the address
    space, [count] is [params->count] at the call. The result is the
    status, [params->count] at the return, and what is copied to
    [params->tablePtr], if anything. The count is kept as a natural
    number: it is one more than a processor id. *)
Definition uvm_api_tools_get_processor_uuid_table {hdr : uvm_types_h}
    {prc : uvm_processors_h} (alloc_ok : bool) (gpus : list uvm_gpu_t) (count : nat)
    : NV_STATUS * nat * option (list NvProcessorUuid) :=
  if negb alloc_ok then (NV_ERR_NO_MEMORY, count, None)
  else
    let uuids := replicate UVM_ID_MAX_PROCESSORS (replicate NV_UUID_LEN 0%Z) in
    let uuids := <[UVM_ID_CPU_VALUE := NV_PROCESSOR_UUID_CPU_DEFAULT]> uuids in
    let count := 1 in
    let '(uuids, count) := uuid_table_loop gpus (uuids, count) in
    (NV_OK, count, Some (take count uuids)).

(** Processor ids of the examples: the CPU is 0, there are 33 ids. *)
Definition uvm_processors_example : uvm_processors_h := {|
  UVM_ID_CPU_VALUE := 0;
  UVM_ID_MAX_PROCESSORS := 33;
  NV_UUID_LEN := 16;
  UVM_ID_IS_CPU := λ id, bool_decide (id = 0);
  UVM_ID_IS_GPU := λ id, bool_decide (0 < id < 33)
|}.

(** ** Reading and writing the memory of the observed process

    [PAGE_SIZE] and [ENOMEM] come from the kernel headers, which are not
    part of the sources. *)
Class kernel_h := {
  PAGE_SIZE : Z;
  ENOMEM : Z
}.

Definition UVM_PAGE_ALIGN_DOWN {krn : kernel_h} (x : Z) : Z :=
  Z.land x (wrap64 (Z.lnot (PAGE_SIZE - 1))).








(** Pages of 4096 bytes; [ENOMEM] is 12. *)
Definition kernel_example : kernel_h := {| PAGE_SIZE := 4096; ENOMEM := 12 |}.





(** ** Mapping the buffers of a tracker

    A mapping of the calling process, as far as [check_vmas] looks at it:
    its range and whether its file is the UVM device
    ([uvm_file_is_nvidia_uvm]). *)
Record vmap := Vmap {
  vm_start : Z;
  vm_end : Z;
  vm_is_nvidia_uvm : bool
}.

(** The loop of [check_vmas], at most [fuel] iterations of it.
    [vmap_from_vaddr] is the lookup of the kernel ([None] for
    [INVALID_ADDRESS]), which is not part of the sources. *)
Fixpoint check_vmas_loop (vmap_from_vaddr : Z → option vmap) (fuel : nat)
    (addr region_end : Z) : option NV_STATUS :=
  match fuel with
  | O => None
  | S fuel' =>
      match vmap_from_vaddr addr with
      | None => Some NV_ERR_INVALID_ARGUMENT
      | Some vma =>
          if negb (vm_start vma <=? addr)%Z || vm_is_nvidia_uvm vma
          then Some NV_ERR_INVALID_ARGUMENT
          else
            let addr := vm_end vma in
            if (addr <? region_end)%Z
            then check_vmas_loop vmap_from_vaddr fuel' addr region_end
            else Some NV_OK
      end
  end.

(** [check_vmas]; the end of the region is computed in [NvU64]. *)
Definition check_vmas (vmap_from_vaddr : Z → option vmap) (start_va size : Z)
    : option NV_STATUS :=
  check_vmas_loop vmap_from_vaddr (S (Z.to_nat size)) start_va (wrap64 (start_va + size)).

(** The lookup answers with the mapping that holds the address. *)
Definition vmap_lookup_ok (vmap_from_vaddr : Z → option vmap) : Prop :=
  ∀ a v, vmap_from_vaddr a = Some v →
    (vm_start v ≤ a < vm_end v)%Z
    ∧ ∀ a', (vm_start v ≤ a' < vm_end v)%Z → vmap_from_vaddr a' = Some v.

Definition DIV_ROUND_UP (n d : Z) : Z := (wrap64 (n + d - 1) / d)%Z.

(** What the functions that [map_user_pages] calls and that are not part
    of the sources answer: [uvm_api_range_invalid], whether
    [uvm_kvmalloc] succeeds, the mappings of the process, the value of
    [NV_PIN_USER_PAGES], the address that [allocate] returns ([None] for
    [INVALID_ADDRESS]), and [errno_to_nv_status]. *)
Record map_user_pages_outcomes := MapUserPagesOutcomes {
  range_invalid : bool;
  kvmalloc_ok : bool;
  vmap_from_vaddr : Z → option vmap;
  pin_user_pages : Z;
  allocate : option Z;
  errno_to_nv_status : Z → NV_STATUS
}.

(** What a call leaves behind: the status, [*addr] ([None] for [NULL]),
    whether [*pages] is not [NULL], the number of user pages that are
    still pinned, whether the array of pages is still allocated, and
    whether the pages were mapped into the kernel. *)
Record map_user_pages_result := MapUserPagesResult {
  mup_status : NV_STATUS;
  mup_addr : option Z;
  mup_pages : bool;
  mup_pinned : Z;
  mup_array_allocated : bool;
  mup_mapped : bool
}.

(** The label [fail] of [map_user_pages], reached with [*pages] not
    [NULL], the given [status], and [ret] pages pinned when [ret] is
    positive. *)
Definition map_user_pages_fail (o : map_user_pages_outcomes) (status : NV_STATUS)
    (ret : Z) (mapped : bool) : map_user_pages_result :=
  let pinned := Z.max ret 0 in
  let pinned := if (0 <? ret)%Z then (pinned - ret)%Z else pinned in
  let status := if (0 <? ret)%Z then status
                else if (ret <? 0)%Z then errno_to_nv_status o ret else status in
  MapUserPagesResult status None false pinned false mapped.

(** [map_user_pages]. *)
Definition map_user_pages {krn : kernel_h} (o : map_user_pages_outcomes)
    (user_va size : Z) : option map_user_pages_result :=
  let num_pages := DIV_ROUND_UP size PAGE_SIZE in
  if range_invalid o
  then Some (MapUserPagesResult NV_ERR_INVALID_ADDRESS None false 0 false false)
  else if negb (kvmalloc_ok o)
  then Some (MapUserPagesResult NV_ERR_NO_MEMORY None false 0 false false)
  else
    match check_vmas (vmap_from_vaddr o) user_va size with
    | None => None
    | Some NV_OK =>
        let ret := pin_user_pages o in
        if negb (ret =? num_pages)%Z
        then Some (map_user_pages_fail o NV_ERR_INVALID_ARGUMENT ret false)
        else
          match allocate o with
          | Some addr =>
              if (addr =? 0)%Z then Some (map_user_pages_fail o NV_OK ret true)
              else Some (MapUserPagesResult NV_OK (Some addr) true (Z.max ret 0) true true)
          | None => Some (map_user_pages_fail o NV_OK ret false)
          end
    | Some status => Some (map_user_pages_fail o status 0 false)
    end.

(** Two mappings: an anonymous one from 4096 to 12288 and the UVM device
    from 12288 to 16384. *)
Definition vmap_example (a : Z) : option vmap :=
  if bool_decide (4096 ≤ a < 12288)%Z then Some (Vmap 4096 12288 false)
  else if bool_decide (12288 ≤ a < 16384)%Z then Some (Vmap 12288 16384 true)
  else None.

(** Everything succeeds up to the allocation of kernel addresses, which
    fails. *)
Definition map_user_pages_example : map_user_pages_outcomes :=
  MapUserPagesOutcomes false true vmap_example 2 None (λ _, NV_ERR_INVALID_ARGUMENT).

(** ** Start and stop of the module *)

(** What the functions that [uvm_tools_init] calls and that are not part
    of the sources answer: whether each [NV_KMEM_CACHE_CREATE]
    succeeds, the value of [nv_kthread_q_init], and whether
    [create_special_file] succeeds. *)
Record init_outcomes := InitOutcomes {
  event_tracker_cache_ok : bool;
  block_migration_data_cache_ok : bool;
  migration_data_cache_ok : bool;
  replay_data_cache_ok : bool;
  block_map_remote_data_cache_ok : bool;
  map_remote_data_cache_ok : bool;
  kthread_q_init : Z;
  create_special_file_ok : bool
}.

(** The statics that [uvm_tools_init] sets up: for each cache whether
    the pointer is not [NULL], whether the worker of [g_tools_queue]
    runs, and whether the special file exists. *)
Record tools_module := ToolsModule {
  g_tools_event_tracker_cache : bool;
  g_tools_block_migration_data_cache : bool;
  g_tools_migration_data_cache : bool;
  g_tools_replay_data_cache : bool;
  g_tools_block_map_remote_data_cache : bool;
  g_tools_map_remote_data_cache : bool;
  g_tools_queue_running : bool;
  special_file : bool
}.

(** [_uvm_tools_destroy_cache_all]: [kmem_cache_destroy_safe] destroys
    the cache that a pointer holds and sets the pointer to [NULL]. *)
Definition _uvm_tools_destroy_cache_all (m : tools_module) : tools_module :=
  ToolsModule false false false false false false
              (g_tools_queue_running m) (special_file m).

Definition nv_kthread_q_stop (m : tools_module) : tools_module :=
  ToolsModule (g_tools_event_tracker_cache m) (g_tools_block_migration_data_cache m)
              (g_tools_migration_data_cache m) (g_tools_replay_data_cache m)
              (g_tools_block_map_remote_data_cache m) (g_tools_map_remote_data_cache m)
              false (special_file m).

(** [uvm_tools_init]: the value returned and the statics. *)
Definition uvm_tools_init {krn : kernel_h} (o : init_outcomes) (m : tools_module)
    : Z * tools_module :=
  let ret := (- ENOMEM)%Z in
  let m := ToolsModule (event_tracker_cache_ok o) (g_tools_block_migration_data_cache m)
             (g_tools_migration_data_cache m) (g_tools_replay_data_cache m)
             (g_tools_block_map_remote_data_cache m) (g_tools_map_remote_data_cache m)
             (g_tools_queue_running m) (special_file m) in
  if negb (g_tools_event_tracker_cache m) then (ret, _uvm_tools_destroy_cache_all m)
  else
  let m := ToolsModule (g_tools_event_tracker_cache m) (block_migration_data_cache_ok o)
             (g_tools_migration_data_cache m) (g_tools_replay_data_cache m)
             (g_tools_block_map_remote_data_cache m) (g_tools_map_remote_data_cache m)
             (g_tools_queue_running m) (special_file m) in
  if negb (g_tools_block_migration_data_cache m) then (ret, _uvm_tools_destroy_cache_all m)
  else
  let m := ToolsModule (g_tools_event_tracker_cache m) (g_tools_block_migration_data_cache m)
             (migration_data_cache_ok o) (g_tools_replay_data_cache m)
             (g_tools_block_map_remote_data_cache m) (g_tools_map_remote_data_cache m)
             (g_tools_queue_running m) (special_file m) in
  if negb (g_tools_migration_data_cache m) then (ret, _uvm_tools_destroy_cache_all m)
  else
  let m := ToolsModule (g_tools_event_tracker_cache m) (g_tools_block_migration_data_cache m)
             (g_tools_migration_data_cache m) (replay_data_cache_ok o)
             (g_tools_block_map_remote_data_cache m) (g_tools_map_remote_data_cache m)
             (g_tools_queue_running m) (special_file m) in
  if negb (g_tools_replay_data_cache m) then (ret, _uvm_tools_destroy_cache_all m)
  else
  let m := ToolsModule (g_tools_event_tracker_cache m) (g_tools_block_migration_data_cache m)
             (g_tools_migration_data_cache m) (g_tools_replay_data_cache m)
             (block_map_remote_data_cache_ok o) (g_tools_map_remote_data_cache m)
             (g_tools_queue_running m) (special_file m) in
  if negb (g_tools_block_map_remote_data_cache m) then (ret, _uvm_tools_destroy_cache_all m)
  else
  let m := ToolsModule (g_tools_event_tracker_cache m) (g_tools_block_migration_data_cache m)
             (g_tools_migration_data_cache m) (g_tools_replay_data_cache m)
             (g_tools_block_map_remote_data_cache m) (map_remote_data_cache_ok o)
             (g_tools_queue_running m) (special_file m) in
  if negb (g_tools_map_remote_data_cache m) then (ret, _uvm_tools_destroy_cache_all m)
  else
  let ret := kthread_q_init o in
  if (ret <? 0)%Z then (ret, _uvm_tools_destroy_cache_all m)
  else
  let m := ToolsModule (g_tools_event_tracker_cache m) (g_tools_block_migration_data_cache m)
             (g_tools_migration_data_cache m) (g_tools_replay_data_cache m)
             (g_tools_block_map_remote_data_cache m) (g_tools_map_remote_data_cache m)
             true (special_file m) in
  if negb (create_special_file_ok o)
  then (ret, _uvm_tools_destroy_cache_all (nv_kthread_q_stop m))
  else
    (ret, ToolsModule (g_tools_event_tracker_cache m) (g_tools_block_migration_data_cache m)
            (g_tools_migration_data_cache m) (g_tools_replay_data_cache m)
            (g_tools_block_map_remote_data_cache m) (g_tools_map_remote_data_cache m)
            (g_tools_queue_running m) true).

(** [uvm_tools_exit]. *)
Definition uvm_tools_exit (m : tools_module) : tools_module :=
  _uvm_tools_destroy_cache_all (nv_kthread_q_stop m).

(** The statics before [uvm_tools_init]. *)
Definition tools_module_initial : tools_module :=
  ToolsModule false false false false false false false false.

(** Everything that [uvm_tools_init] sets up. *)
Definition tools_module_up (m : tools_module) : bool :=
  g_tools_event_tracker_cache m && g_tools_block_migration_data_cache m
  && g_tools_migration_data_cache m && g_tools_replay_data_cache m
  && g_tools_block_map_remote_data_cache m && g_tools_map_remote_data_cache m
  && g_tools_queue_running m && special_file m.

(** No cache is left and the worker does not run. *)
Definition tools_module_down (m : tools_module) : bool :=
  negb (g_tools_event_tracker_cache m || g_tools_block_migration_data_cache m
        || g_tools_migration_data_cache m || g_tools_replay_data_cache m
        || g_tools_block_map_remote_data_cache m || g_tools_map_remote_data_cache m
        || g_tools_queue_running m).

Definition init_caches_ok (o : init_outcomes) : bool :=
  event_tracker_cache_ok o && block_migration_data_cache_ok o
  && migration_data_cache_ok o && replay_data_cache_ok o
  && block_map_remote_data_cache_ok o && map_remote_data_cache_ok o.

(** ** Fault events

    The layout of [UvmEventCpuFaultInfo], from uvm_types.h, which is
    not part of the sources. *)
Class uvm_cpu_fault_layout := {
  cf_accessType : field;
  cf_address : field;
  cf_timeStamp : field;
  cf_pid : field;
  cf_threadId : field;
  cf_pc : field
}.

(** [event_data->fault], as far as [uvm_tools_record_fault] reads it:
    processor ids by their values, the merged instances of the buffer
    entry in list order. *)
Record fault_event_data := FaultEventData {
  fault_proc_id : nat;
  fault_preferred_location : nat;
  fault_cpu_is_write : bool;
  fault_cpu_fault_va : Z;
  fault_cpu_pc : Z;
  fault_gpu_buffer_entry : uvm_fault_buffer_entry_t;
  fault_gpu_merged_instances : list uvm_fault_buffer_entry_t;
  fault_gpu_batch_id : Z
}.

(** Lines 737-752: the record of a CPU fault. [timestamp], [pid] and
    [tid] are the values of [NV_GETTIME], [uvm_get_stale_process_id] and
    [uvm_get_stale_thread_id]. *)
Definition cpu_fault_entry {hdr : uvm_types_h} {cfl : uvm_cpu_fault_layout}
    (stack : UvmEventEntry) (d : fault_event_data) (timestamp pid tid : Z)
    : UvmEventEntry :=
  let entry := memset0 stack in
  let entry := store f_eventType (Z.of_nat UvmEventTypeCpuFault) entry in
  let entry := if fault_cpu_is_write d
               then store cf_accessType
                      (UvmEventMemoryAccessType_value UvmEventMemoryAccessTypeWrite) entry
               else store cf_accessType
                      (UvmEventMemoryAccessType_value UvmEventMemoryAccessTypeRead) entry in
  let entry := store cf_address (fault_cpu_fault_va d) entry in
  let entry := store cf_timeStamp timestamp entry in
  let entry := store cf_pid pid entry in
  let entry := store cf_threadId tid entry in
  store cf_pc (fault_cpu_pc d) entry.

(** [uvm_tools_record_fault]. [gpu_of] is [uvm_va_space_get_gpu] on the
    collector's address space; [stack] is what the stack holds under the
    local records. The result is the trackers and the records handed to
    [uvm_tools_record_event], in call order. *)
Definition uvm_tools_record_fault {hdr : uvm_types_h} {prc : uvm_processors_h}
    {cfl : uvm_cpu_fault_layout} (stack : UvmEventEntry) (gpu_of : nat → uvm_gpu_t)
    (timestamp pid tid : Z) (d : fault_event_data) (tools : uvm_va_space_tools_t)
    (trackers : gmap nat uvm_tools_event_tracker_t)
    : gmap nat uvm_tools_event_tracker_t * list UvmEventEntry :=
  if UVM_ID_IS_CPU (fault_proc_id d) then
    let '(trackers, emitted) :=
      if tools_is_event_enabled tools UvmEventTypeCpuFault then
        let entry := cpu_fault_entry stack d timestamp pid tid in
        (uvm_tools_record_event tools entry trackers, [entry])
      else (trackers, []) in
    let trackers :=
      if tools_is_counter_enabled tools UvmCounterNameCpuPageFaultCount then
        let trackers :=
          uvm_tools_inc_counter tools UvmCounterNameCpuPageFaultCount 1
            NV_PROCESSOR_UUID_CPU_DEFAULT trackers in
        let preferred_location := fault_preferred_location d in
        if UVM_ID_IS_GPU preferred_location then
          let gpu := gpu_of preferred_location in
          uvm_tools_inc_counter tools UvmCounterNameCpuPageFaultCount 1
            (gpu_uuid gpu) trackers
        else trackers
      else trackers in
    (trackers, emitted)
  else
    let gpu := gpu_of (fault_proc_id d) in
    let '(trackers, emitted) :=
      if tools_is_event_enabled tools UvmEventTypeGpuFault then
        let instances :=
          fault_gpu_buffer_entry d :: fault_gpu_merged_instances d in
        (foldl (λ h fault_instance,
                  record_gpu_fault_instance stack (Z.of_nat (gpu_id gpu)) tools
                    fault_instance (fault_gpu_batch_id d) timestamp h)
               trackers instances,
         (λ fault_instance,
            gpu_fault_entry stack (Z.of_nat (gpu_id gpu)) fault_instance
              (fault_gpu_batch_id d) timestamp) <$> instances)
      else (trackers, []) in
    let trackers :=
      if tools_is_counter_enabled tools UvmCounterNameGpuPageFaultCount then
        uvm_tools_inc_counter tools UvmCounterNameGpuPageFaultCount 1
          (gpu_uuid gpu) trackers
      else trackers in
    (trackers, emitted).

(** A layout of [UvmEventCpuFaultInfo] for the examples. *)
Definition uvm_cpu_fault_layout_example : uvm_cpu_fault_layout := {|
  cf_accessType := Field 1 1;
  cf_address := Field 8 8;
  cf_timeStamp := Field 16 8;
  cf_pid := Field 24 4;
  cf_threadId := Field 28 4;
  cf_pc := Field 32 8
|}.

(** One increment by 1 of counter [i], when [b] holds. *)
Definition bump_when (b : bool) (i : nat) (c : uvm_tools_counter_t)
    : uvm_tools_counter_t :=
  if b then set_counters (alter (λ v, wrap64 (v + 1)%Z) i (counters c)) c else c.

(** A collector whose lists for the two page-fault counters hold the
    counter tracker at address 12: a tracker of all processors whose own
    processor is not the GPU of [example_gpu_of]. *)
Definition example_fault_tools : uvm_va_space_tools_t :=
  VaTools true (replicate 64 []) (<[2 := [12]]> (<[9 := [12]]> (replicate 10 []))).

Definition example_fault_trackers : gmap nat uvm_tools_event_tracker_t :=
  {[ 12 := example_counter_tracker 1 true (replicate 16 2%Z) ]}.

Definition example_gpu_of (id : nat) : uvm_gpu_t := Gpu id (replicate 16 1%Z).

(** A CPU write fault on memory whose preferred location is GPU 1, and a
    fault of GPU 1 with one merged instance. *)
Definition example_cpu_fault : fault_event_data :=
  FaultEventData 0 1 true 4096 0 example_fault_entry [] 0.

Definition example_gpu_fault : fault_event_data :=
  FaultEventData 1 1 false 0 0 example_fault_entry [example_fault_entry] 3.

(** ** Submission and completion of deferred migration events *)

(** [uvm_make_resident_cause_t] and [UvmEventMigrationCause], with the
    enumerators the table of lines 932-942 names. *)
Inductive uvm_make_resident_cause_t :=
  | UVM_MAKE_RESIDENT_CAUSE_REPLAYABLE_FAULT
  | UVM_MAKE_RESIDENT_CAUSE_NON_REPLAYABLE_FAULT
  | UVM_MAKE_RESIDENT_CAUSE_ACCESS_COUNTER
  | UVM_MAKE_RESIDENT_CAUSE_PREFETCH
  | UVM_MAKE_RESIDENT_CAUSE_EVICTION
  | UVM_MAKE_RESIDENT_CAUSE_API_TOOLS
  | UVM_MAKE_RESIDENT_CAUSE_API_MIGRATE
  | UVM_MAKE_RESIDENT_CAUSE_API_SET_RANGE_GROUP
  | UVM_MAKE_RESIDENT_CAUSE_API_HINT.

Inductive UvmEventMigrationCause :=
  | UvmEventMigrationCauseInvalid | UvmEventMigrationCauseUser
  | UvmEventMigrationCauseCoherence | UvmEventMigrationCausePrefetch
  | UvmEventMigrationCauseEviction | UvmEventMigrationCauseAccessCounters.

(** The values of the enumerators (uvm_types.h) and of
    [UVM_RANGE_GROUP_ID_NONE] (uvm_range_group.h); neither header is part
    of the sources. *)
Class uvm_migration_h := {
  UvmEventMigrationCause_value : UvmEventMigrationCause → Z;
  UVM_RANGE_GROUP_ID_NONE : Z
}.

Definition g_make_resident_to_tools_migration_cause (c : uvm_make_resident_cause_t)
    : UvmEventMigrationCause :=
  match c with
  | UVM_MAKE_RESIDENT_CAUSE_REPLAYABLE_FAULT => UvmEventMigrationCauseCoherence
  | UVM_MAKE_RESIDENT_CAUSE_NON_REPLAYABLE_FAULT => UvmEventMigrationCauseCoherence
  | UVM_MAKE_RESIDENT_CAUSE_ACCESS_COUNTER => UvmEventMigrationCauseAccessCounters
  | UVM_MAKE_RESIDENT_CAUSE_PREFETCH => UvmEventMigrationCausePrefetch
  | UVM_MAKE_RESIDENT_CAUSE_EVICTION => UvmEventMigrationCauseEviction
  | UVM_MAKE_RESIDENT_CAUSE_API_TOOLS => UvmEventMigrationCauseInvalid
  | UVM_MAKE_RESIDENT_CAUSE_API_MIGRATE => UvmEventMigrationCauseUser
  | UVM_MAKE_RESIDENT_CAUSE_API_SET_RANGE_GROUP => UvmEventMigrationCauseCoherence
  | UVM_MAKE_RESIDENT_CAUSE_API_HINT => UvmEventMigrationCauseUser
  end.

(** The completion callbacks this file installs in a push. *)
Inductive push_callback :=
  | OnBlockMigrationComplete | OnReplayComplete | OnMapRemoteComplete.

(** [uvm_push_info_t], as far as this file uses it: [None] is [NULL]. *)
Record uvm_push_info_t := PushInfo {
  pi_on_complete : option push_callback;
  pi_on_complete_data : option nat
}.

(** [uvm_tools_record_block_migration_begin]. [v] is the address of the
    collector and [tools] its tools state; [push_channel], [push_info] and
    [push_timestamp] are [push->channel], what
    [uvm_push_info_from_push(push)] points to and the address that
    [uvm_push_timestamp(push)] returns; [range_find] is the id of the
    range group that [uvm_range_group_range_find] finds ([None] for
    [NULL]); [alloc] is what [kmem_cache_alloc] returns: the address and
    the content of the memory, or [None] for [NULL]; [now] is the value
    of [NV_GETTIME]. The result is the push info, the cache of block
    records and the channels. *)
Definition uvm_tools_record_block_migration_begin {hdr : uvm_types_h}
    {mgh : uvm_migration_h} (v : nat) (tools : uvm_va_space_tools_t)
    (push_channel : nat) (push_info : uvm_push_info_t) (push_timestamp : Z)
    (dst_id src_id : Z) (make_resident_cause : uvm_make_resident_cause_t)
    (range_find : option Z) (alloc : option (nat * block_migration_data_t)) (now : Z)
    (block_migration_data_cache : gmap nat block_migration_data_t)
    (st : channel_state)
    : uvm_push_info_t * gmap nat block_migration_data_t * channel_state :=
  if negb (tools_enabled tools) then (push_info, block_migration_data_cache, st)
  else if tools_is_event_enabled tools UvmEventTypeMigration then
    match alloc with
    | None => (push_info, block_migration_data_cache, st)
    | Some (block_mig, mem) =>
        let id :=
          match make_resident_cause with
          | UVM_MAKE_RESIDENT_CAUSE_EVICTION => UVM_RANGE_GROUP_ID_NONE
          | _ => match range_find with
                 | Some id => id
                 | None => UVM_RANGE_GROUP_ID_NONE
                 end
          end in
        let b := BlockMigrationData dst_id src_id v push_channel [] now
                   (end_timestamp_cpu mem) push_timestamp (start_timestamp_gpu mem) id in
        (PushInfo (Some OnBlockMigrationComplete) (Some block_mig),
         <[block_mig := b]> block_migration_data_cache,
         add_pending_event_for_channel push_channel st)
    end
  else (push_info, block_migration_data_cache, st).

(** [event_data->migration], as far as [uvm_tools_record_migration] reads
    it: the push info and the timestamp address of its push, and the
    values of the processor ids. *)
Record migration_event := MigrationEvent {
  me_push_info : uvm_push_info_t;
  me_push_timestamp : Z;
  me_address : Z;
  me_bytes : Z;
  me_cause : uvm_make_resident_cause_t;
  me_src : nat;
  me_dst : nat
}.

(** [list_add_tail(&mig->events_node, &block_mig->events)] *)
Definition block_add_tail (mig : nat) (b : block_migration_data_t)
    : block_migration_data_t :=
  BlockMigrationData (dst b) (src b) (va_space b) (channel b) (events b ++ [mig])
    (start_timestamp_cpu b) (end_timestamp_cpu b) (start_timestamp_gpu_addr b)
    (start_timestamp_gpu b) (range_group_id b).

(** Lines 971-974: the members written in the detail allocated at
    memory that held [mem]. *)
Definition migration_detail {mgh : uvm_migration_h} (d : migration_event)
    (mem : migration_data_t) : migration_data_t :=
  MigrationData (me_bytes d) (me_address d) (me_push_timestamp d) (end_timestamp_gpu mem)
    (UvmEventMigrationCause_value (g_make_resident_to_tools_migration_cause (me_cause d))).

(** Lines 980-996: the two byte counters. *)
Definition record_migration_counters {hdr : uvm_types_h} {prc : uvm_processors_h}
    (gpu_of : nat → uvm_gpu_t) (d : migration_event) (tools : uvm_va_space_tools_t)
    (trackers : gmap nat uvm_tools_event_tracker_t)
    : gmap nat uvm_tools_event_tracker_t :=
  let trackers :=
    if UVM_ID_IS_CPU (me_src d) && tools_is_counter_enabled tools UvmCounterNameBytesXferHtD
    then uvm_tools_inc_counter tools UvmCounterNameBytesXferHtD (me_bytes d)
           (gpu_uuid (gpu_of (me_dst d))) trackers
    else trackers in
  if UVM_ID_IS_CPU (me_dst d) && tools_is_counter_enabled tools UvmCounterNameBytesXferDtH
  then uvm_tools_inc_counter tools UvmCounterNameBytesXferDtH (me_bytes d)
         (gpu_uuid (gpu_of (me_src d))) trackers
  else trackers.

(** [uvm_tools_record_migration]. [alloc] is what [kmem_cache_alloc]
    returns, as above. The result is the cache of block records, the
    cache of details and the trackers; a push whose callback is set and
    whose data is not an allocated block record has no model ([None]). *)
Definition uvm_tools_record_migration {hdr : uvm_types_h} {prc : uvm_processors_h}
    {mgh : uvm_migration_h} (gpu_of : nat → uvm_gpu_t) (d : migration_event)
    (alloc : option (nat * migration_data_t)) (tools : uvm_va_space_tools_t)
    (block_migration_data_cache : gmap nat block_migration_data_t)
    (migration_data_cache : gmap nat migration_data_t)
    (trackers : gmap nat uvm_tools_event_tracker_t)
    : option (gmap nat block_migration_data_t * gmap nat migration_data_t
              * gmap nat uvm_tools_event_tracker_t) :=
  if tools_is_event_enabled tools UvmEventTypeMigration then
    match pi_on_complete (me_push_info d) with
    | Some _ =>
        match alloc with
        | None => Some (block_migration_data_cache, migration_data_cache, trackers)
        | Some (mig, mem) =>
            match pi_on_complete_data (me_push_info d) with
            | None => None
            | Some block_mig =>
                match block_migration_data_cache !! block_mig with
                | None => None
                | Some b =>
                    Some (<[block_mig := block_add_tail mig b]> block_migration_data_cache,
                          <[mig := migration_detail d mem]> migration_data_cache,
                          record_migration_counters gpu_of d tools trackers)
                end
            end
        end
    | None =>
        Some (block_migration_data_cache, migration_data_cache,
              record_migration_counters gpu_of d tools trackers)
    end
  else
    Some (block_migration_data_cache, migration_data_cache,
          record_migration_counters gpu_of d tools trackers).

(** The calls of [uvm_tools_record_migration] for the copies of one
    push, in call order, each with the answer of its allocation. *)
Fixpoint record_migrations {hdr : uvm_types_h} {prc : uvm_processors_h}
    {mgh : uvm_migration_h} (gpu_of : nat → uvm_gpu_t)
    (calls : list (migration_event * option (nat * migration_data_t)))
    (tools : uvm_va_space_tools_t)
    (block_migration_data_cache : gmap nat block_migration_data_t)
    (migration_data_cache : gmap nat migration_data_t)
    (trackers : gmap nat uvm_tools_event_tracker_t)
    : option (gmap nat block_migration_data_t * gmap nat migration_data_t
              * gmap nat uvm_tools_event_tracker_t) :=
  match calls with
  | [] => Some (block_migration_data_cache, migration_data_cache, trackers)
  | (d, alloc) :: rest =>
      match uvm_tools_record_migration gpu_of d alloc tools block_migration_data_cache
              migration_data_cache trackers with
      | None => None
      | Some (blocks, migs, trackers) =>
          record_migrations gpu_of rest tools blocks migs trackers
      end
  end.

(** Line 866: a detail reads its GPU timestamp. *)
Definition completed_detail (gpu_mem : Z → Z) (m : migration_data_t) : migration_data_t :=
  MigrationData (bytes m) (address m) (end_timestamp_gpu_addr m)
    (gpu_mem (end_timestamp_gpu_addr m)) (cause m).

(** The loop of lines 865-866: every detail on the list reads its GPU
    timestamp. [gpu_mem] is the memory the GPU writes timestamps to. A
    list node that is not an allocated detail has no model. *)
Fixpoint migration_complete_loop (gpu_mem : Z → Z) (l : list nat)
    (migration_data_cache : gmap nat migration_data_t)
    : option (gmap nat migration_data_t) :=
  match l with
  | [] => Some migration_data_cache
  | p :: rest =>
      match migration_data_cache !! p with
      | None => None
      | Some mig =>
          migration_complete_loop gpu_mem rest
            (<[p := completed_detail gpu_mem mig]> migration_data_cache)
      end
  end.

(** [on_block_migration_complete(ptr)]; [now] is the value of
    [NV_GETTIME]. *)
Definition on_block_migration_complete (ptr : nat) (now : Z) (gpu_mem : Z → Z)
    (block_migration_data_cache : gmap nat block_migration_data_t)
    (migration_data_cache : gmap nat migration_data_t) (st : channel_state)
    : option (gmap nat block_migration_data_t * gmap nat migration_data_t
              * channel_state) :=
  match block_migration_data_cache !! ptr with
  | None => None
  | Some b =>
      let b := BlockMigrationData (dst b) (src b) (va_space b) (channel b) (events b)
                 (start_timestamp_cpu b) now (start_timestamp_gpu_addr b)
                 (gpu_mem (start_timestamp_gpu_addr b)) (range_group_id b) in
      match migration_complete_loop gpu_mem (events b) migration_data_cache with
      | None => None
      | Some migs =>
          Some (<[ptr := b]> block_migration_data_cache, migs,
                on_complete (channel b) ptr st)
      end
  end.

(** Values for the examples. *)
Definition uvm_migration_example : uvm_migration_h := {|
  UvmEventMigrationCause_value c :=
    match c with
    | UvmEventMigrationCauseInvalid => 0
    | UvmEventMigrationCauseUser => 1
    | UvmEventMigrationCauseCoherence => 2
    | UvmEventMigrationCausePrefetch => 3
    | UvmEventMigrationCauseEviction => 4
    | UvmEventMigrationCauseAccessCounters => 5
    end%Z;
  UVM_RANGE_GROUP_ID_NONE := 0
|}.

(** A push whose block record is allocated at address 100, and two
    copies recorded on it whose details are allocated at addresses 200
    and 201; the GPU writes the address plus 1000 wherever it writes a
    timestamp. *)
Definition example_push_info : uvm_push_info_t :=
  PushInfo (Some OnBlockMigrationComplete) (Some 100).

Definition example_migration_calls : list (migration_event * (nat * migration_data_t)) :=
  [(MigrationEvent example_push_info 508 65536 4096 UVM_MAKE_RESIDENT_CAUSE_PREFETCH 0 1,
    (200, MigrationData 0 0 0 0 0));
   (MigrationEvent example_push_info 516 131072 8192 UVM_MAKE_RESIDENT_CAUSE_PREFETCH 0 1,
    (201, MigrationData 0 0 0 0 0))].

Definition example_gpu_mem (a : Z) : Z := wrap64 (a + 1000).

(** ** Deferred map-remote events *)

(** The event type and the layout of [UvmEventMapRemoteInfo], from
    uvm_types.h, which is not part of the sources. *)
Class uvm_map_remote_h := {
  UvmEventTypeMapRemote : nat;
  mr_srcIndex : field;
  mr_dstIndex : field;
  mr_mapRemoteCause : field;
  mr_timeStamp : field;
  mr_address : field;
  mr_size : field;
  mr_timeStampGpu : field
}.

(** The pending map-remote operations of one push. [bmr_events] lists
    the addresses of the [map_remote_data_t] objects in list order;
    [bmr_src] and [bmr_dst] are the values of the processor ids,
    [bmr_cause] the value of the [UvmEventMapRemoteCause]. *)
Record block_map_remote_data_t := BlockMapRemoteData {
  bmr_src : nat;
  bmr_dst : nat;
  bmr_cause : Z;
  bmr_timestamp : Z;
  bmr_va_space : nat;
  bmr_channel : nat;
  bmr_events : list nat
}.

Record map_remote_data_t := MapRemoteData {
  mrd_address : Z;
  mrd_size : Z;
  mrd_timestamp_gpu : Z;
  mrd_timestamp_gpu_addr : Z
}.

(** Lines 1434-1440: the members that are constant for the whole block. *)
Definition map_remote_entry_init {mrh : uvm_map_remote_h} (stack : UvmEventEntry)
    (b : block_map_remote_data_t) : UvmEventEntry :=
  let entry := memset0 stack in
  let entry := store f_eventType (Z.of_nat UvmEventTypeMapRemote) entry in
  let entry := store mr_srcIndex (Z.of_nat (bmr_src b)) entry in
  let entry := store mr_dstIndex (Z.of_nat (bmr_dst b)) entry in
  let entry := store mr_mapRemoteCause (bmr_cause b) entry in
  store mr_timeStamp (bmr_timestamp b) entry.

(** Lines 1446-1448: the members written for each sub-event. *)
Definition map_remote_entry_update {mrh : uvm_map_remote_h} (m : map_remote_data_t)
    (entry : UvmEventEntry) : UvmEventEntry :=
  let entry := store mr_address (mrd_address m) entry in
  let entry := store mr_size (mrd_size m) entry in
  store mr_timeStampGpu (mrd_timestamp_gpu m) entry.

(** The loop of lines 1443-1452 over the list [l]. Every iteration
    unlinks and frees the detail it visits and records one event;
    [emitted] collects the records handed to [uvm_tools_record_event], in
    call order. A list node that is not an allocated detail has no
    model ([None]). *)
Fixpoint record_map_remote_loop {hdr : uvm_types_h} {mrh : uvm_map_remote_h}
    (tools : uvm_va_space_tools_t) (l : list nat) (entry : UvmEventEntry)
    (map_remote_data_cache : gmap nat map_remote_data_t)
    (trackers : gmap nat uvm_tools_event_tracker_t) (emitted : list UvmEventEntry)
    : option (gmap nat map_remote_data_t * gmap nat uvm_tools_event_tracker_t
              * list UvmEventEntry) :=
  match l with
  | [] => Some (map_remote_data_cache, trackers, emitted)
  | p :: rest =>
      match map_remote_data_cache !! p with
      | None => None
      | Some map_remote =>
          let entry := map_remote_entry_update map_remote entry in
          let map_remote_data_cache := delete p map_remote_data_cache in
          let trackers := uvm_tools_record_event tools entry trackers in
          record_map_remote_loop tools rest entry map_remote_data_cache trackers
            (emitted ++ [entry])
      end
  end.

(** [record_map_remote_events(args)], run by the background worker. The
    result is the two caches, the trackers, and the records handed to
    [uvm_tools_record_event] in call order. *)
Definition record_map_remote_events {hdr : uvm_types_h} {mrh : uvm_map_remote_h}
    (stack : UvmEventEntry) (args : nat)
    (block_map_remote_data_cache : gmap nat block_map_remote_data_t)
    (map_remote_data_cache : gmap nat map_remote_data_t)
    (spaces : gmap nat uvm_va_space_t)
    (trackers : gmap nat uvm_tools_event_tracker_t)
    : option (gmap nat block_map_remote_data_t * gmap nat map_remote_data_t
              * gmap nat uvm_tools_event_tracker_t * list UvmEventEntry) :=
  match block_map_remote_data_cache !! args with
  | None => None
  | Some block_map_remote =>
      match spaces !! bmr_va_space block_map_remote with
      | None => None
      | Some s =>
          let entry := map_remote_entry_init stack block_map_remote in
          match record_map_remote_loop (va_tools s) (bmr_events block_map_remote) entry
                  map_remote_data_cache trackers [] with
          | None => None
          | Some (details, trackers, emitted) =>
              Some (delete args block_map_remote_data_cache, details, trackers, emitted)
          end
      end
  end.

(** Line 1472: a detail reads its GPU timestamp. *)
Definition completed_map_remote (gpu_mem : Z → Z) (m : map_remote_data_t)
    : map_remote_data_t :=
  MapRemoteData (mrd_address m) (mrd_size m) (gpu_mem (mrd_timestamp_gpu_addr m))
    (mrd_timestamp_gpu_addr m).

(** The loop of lines 1471-1472. A list node that is not an allocated
    detail has no model. *)
Fixpoint map_remote_complete_loop (gpu_mem : Z → Z) (l : list nat)
    (map_remote_data_cache : gmap nat map_remote_data_t)
    : option (gmap nat map_remote_data_t) :=
  match l with
  | [] => Some map_remote_data_cache
  | p :: rest =>
      match map_remote_data_cache !! p with
      | None => None
      | Some m =>
          map_remote_complete_loop gpu_mem rest
            (<[p := completed_map_remote gpu_mem m]> map_remote_data_cache)
      end
  end.

(** [on_map_remote_complete(ptr)] *)
Definition on_map_remote_complete (ptr : nat) (gpu_mem : Z → Z)
    (block_map_remote_data_cache : gmap nat block_map_remote_data_t)
    (map_remote_data_cache : gmap nat map_remote_data_t) (st : channel_state)
    : option (gmap nat map_remote_data_t * channel_state) :=
  match block_map_remote_data_cache !! ptr with
  | None => None
  | Some block_map_remote =>
      match map_remote_complete_loop gpu_mem (bmr_events block_map_remote)
              map_remote_data_cache with
      | None => None
      | Some details =>
          Some (details, on_complete (bmr_channel block_map_remote) ptr st)
      end
  end.

(** Lines 1507-1516: the record of a mapping made by the CPU. *)
Definition map_remote_cpu_entry {mrh : uvm_map_remote_h} (stack : UvmEventEntry)
    (processor residency : nat) (cause_value now addr region_size : Z) : UvmEventEntry :=
  let entry := memset0 stack in
  let entry := store f_eventType (Z.of_nat UvmEventTypeMapRemote) entry in
  let entry := store mr_srcIndex (Z.of_nat processor) entry in
  let entry := store mr_dstIndex (Z.of_nat residency) entry in
  let entry := store mr_mapRemoteCause cause_value entry in
  let entry := store mr_timeStamp now entry in
  let entry := store mr_address addr entry in
  let entry := store mr_size region_size entry in
  store mr_timeStampGpu 0 entry.

(** One call of [uvm_tools_record_map_remote]: the arguments, the values
    of [NV_GETTIME] and of [uvm_push_timestamp(push)], and what the two
    calls of [kmem_cache_alloc] return when they are reached (the
    address, for a detail with the content of the memory; [None] for
    [NULL]). *)
Record map_remote_call := MapRemoteCall {
  mc_processor : nat;
  mc_residency : nat;
  mc_address : Z;
  mc_region_size : Z;
  mc_cause : Z;
  mc_now : Z;
  mc_push_timestamp : Z;
  mc_alloc_block : option nat;
  mc_alloc : option (nat * map_remote_data_t)
}.

(** The state [uvm_tools_record_map_remote] works on: the push info of
    the push, the two caches, the trackers, the channels, and the
    records handed to [uvm_tools_record_event] so far. *)
Record map_remote_state := MapRemoteState {
  mrs_push_info : uvm_push_info_t;
  mrs_blocks : gmap nat block_map_remote_data_t;
  mrs_details : gmap nat map_remote_data_t;
  mrs_trackers : gmap nat uvm_tools_event_tracker_t;
  mrs_channels : channel_state;
  mrs_emitted : list UvmEventEntry
}.

(** Lines 1559-1561: the members written in the detail allocated at
    memory that held [mem]. *)
Definition map_remote_detail (c : map_remote_call) (mem : map_remote_data_t)
    : map_remote_data_t :=
  MapRemoteData (mc_address c) (mc_region_size c) (mrd_timestamp_gpu mem)
    (mc_push_timestamp c).

(** Lines 1555-1563, for the block record at [block_map_remote]. *)
Definition map_remote_append (c : map_remote_call) (block_map_remote : nat)
    (σ : map_remote_state) : option map_remote_state :=
  match mc_alloc c with
  | None => Some σ
  | Some (map_remote, mem) =>
      match mrs_blocks σ !! block_map_remote with
      | None => None
      | Some b =>
          let m := map_remote_detail c mem in
          let b := BlockMapRemoteData (bmr_src b) (bmr_dst b) (bmr_cause b)
                     (bmr_timestamp b) (bmr_va_space b) (bmr_channel b)
                     (bmr_events b ++ [map_remote]) in
          Some (MapRemoteState (mrs_push_info σ) (<[block_map_remote := b]> (mrs_blocks σ))
                  (<[map_remote := m]> (mrs_details σ)) (mrs_trackers σ)
                  (mrs_channels σ) (mrs_emitted σ))
      end
  end.

(** [uvm_tools_record_map_remote] on the push of channel [push_channel]
    whose push info the state holds. [v] is the address of the collector
    and [tools] its tools state; [stack] is what the stack holds under
    the local record. A push whose callback is set and whose data is not
    an allocated block record has no model ([None]). *)
Definition uvm_tools_record_map_remote {hdr : uvm_types_h} {prc : uvm_processors_h}
    {mrh : uvm_map_remote_h} (stack : UvmEventEntry) (v : nat)
    (tools : uvm_va_space_tools_t) (push_channel : nat) (c : map_remote_call)
    (σ : map_remote_state) : option map_remote_state :=
  if negb (tools_enabled tools) then Some σ
  else if negb (tools_is_event_enabled tools UvmEventTypeMapRemote) then Some σ
  else if UVM_ID_IS_CPU (mc_processor c) then
    let entry := map_remote_cpu_entry stack (mc_processor c) (mc_residency c) (mc_cause c)
                   (mc_now c) (mc_address c) (mc_region_size c) in
    Some (MapRemoteState (mrs_push_info σ) (mrs_blocks σ) (mrs_details σ)
            (uvm_tools_record_event tools entry (mrs_trackers σ)) (mrs_channels σ)
            (mrs_emitted σ ++ [entry]))
  else
    match pi_on_complete (mrs_push_info σ) with
    | None =>
        match mc_alloc_block c with
        | None => Some σ
        | Some block_map_remote =>
            let b := BlockMapRemoteData (mc_processor c) (mc_residency c) (mc_cause c)
                       (mc_now c) v push_channel [] in
            map_remote_append c block_map_remote
              (MapRemoteState (PushInfo (Some OnMapRemoteComplete) (Some block_map_remote))
                 (<[block_map_remote := b]> (mrs_blocks σ)) (mrs_details σ)
                 (mrs_trackers σ)
                 (add_pending_event_for_channel push_channel (mrs_channels σ))
                 (mrs_emitted σ))
        end
    | Some _ =>
        match pi_on_complete_data (mrs_push_info σ) with
        | None => None
        | Some block_map_remote => map_remote_append c block_map_remote σ
        end
    end.

(** Calls of [uvm_tools_record_map_remote] on one push, in call order. *)
Fixpoint record_map_remotes {hdr : uvm_types_h} {prc : uvm_processors_h}
    {mrh : uvm_map_remote_h} (stack : UvmEventEntry) (v : nat)
    (tools : uvm_va_space_tools_t) (push_channel : nat) (calls : list map_remote_call)
    (σ : map_remote_state) : option map_remote_state :=
  match calls with
  | [] => Some σ
  | c :: rest =>
      match uvm_tools_record_map_remote stack v tools push_channel c σ with
      | None => None
      | Some σ => record_map_remotes stack v tools push_channel rest σ
      end
  end.

(** What the theorems on map-remote events need of the layout: the
    members of [UvmEventMapRemoteInfo] share no byte and lie inside a
    record of [size] bytes, and the members that hold [NvU64] values are
    8 bytes wide. *)
Definition map_remote_layout_ok {mrh : uvm_map_remote_h} (size : nat) : bool :=
  pairwise_disjoint
    [f_eventType; mr_srcIndex; mr_dstIndex; mr_mapRemoteCause; mr_timeStamp;
     mr_address; mr_size; mr_timeStampGpu]
  && forallb (λ f, bool_decide (f_off f + f_len f ≤ size))
       [mr_srcIndex; mr_dstIndex; mr_mapRemoteCause; mr_timeStamp;
        mr_address; mr_size; mr_timeStampGpu]
  && forallb (λ f, bool_decide (f_len f = 8))
       [mr_timeStamp; mr_address; mr_size; mr_timeStampGpu].

(** A layout of [UvmEventMapRemoteInfo] for the examples. *)
Definition uvm_map_remote_example : uvm_map_remote_h := {|
  UvmEventTypeMapRemote := 10;
  mr_srcIndex := Field 1 1;
  mr_dstIndex := Field 2 1;
  mr_mapRemoteCause := Field 3 1;
  mr_timeStamp := Field 24 8;
  mr_address := Field 8 8;
  mr_size := Field 16 8;
  mr_timeStampGpu := Field 32 8
|}.

(** Two mappings of GPU 1 recorded on one push: the first call
    allocates the block record at address 100; the details are
    allocated at addresses 200 and 201. The second call names other
    processors and another cause than the first. *)
Definition example_map_remote_calls : list map_remote_call :=
  [MapRemoteCall 1 2 65536 4096 1 10 508 (Some 100) (Some (200, MapRemoteData 0 0 0 0));
   MapRemoteCall 3 4 131072 8192 2 11 516 None (Some (201, MapRemoteData 0 0 0 0))].

Definition example_map_remote_space : uvm_va_space_t :=
  VaSpace (VaTools true (<[10 := [10]]> (replicate 64 [])) (replicate 10 []))
          (PerfEvents false false).

(** ** Fault replay events *)

(** The event type and the layout of [UvmEventGpuFaultReplayInfo], from
    uvm_types.h, which is not part of the sources. *)
Class uvm_replay_h := {
  UvmEventTypeGpuFaultReplay : nat;
  rp_gpuIndex : field;
  rp_batchId : field;
  rp_clientType : field;
  rp_timeStamp : field;
  rp_timeStampGpu : field
}.

(** A pending fault replay; [rd_gpu_id] is the value of the GPU id. *)
Record replay_data_t := ReplayData {
  rd_channel : nat;
  rd_gpu_id : nat;
  rd_batch_id : Z;
  rd_client_type : uvm_fault_client_type_t;
  rd_timestamp : Z;
  rd_timestamp_gpu : Z;
  rd_timestamp_gpu_addr : Z
}.

(** Lines 889-895: the record of a replay. *)
Definition replay_entry {hdr : uvm_types_h} {rph : uvm_replay_h} (stack : UvmEventEntry)
    (gpu_id : nat) (batch_id : Z) (client_type : uvm_fault_client_type_t)
    (timestamp timestamp_gpu : Z) : UvmEventEntry :=
  let entry := memset0 stack in
  let entry := store f_eventType (Z.of_nat UvmEventTypeGpuFaultReplay) entry in
  let entry := store rp_gpuIndex (Z.of_nat gpu_id) entry in
  let entry := store rp_batchId batch_id entry in
  let entry := store rp_clientType
                 (UvmEventFaultClientType_value
                    (g_hal_to_tools_fault_client_type_table client_type)) entry in
  let entry := store rp_timeStamp timestamp entry in
  store rp_timeStampGpu timestamp_gpu entry.

(** [record_replay_event_helper]: the record goes to every enabled
    collector. *)
Definition record_replay_event_helper {hdr : uvm_types_h} {rph : uvm_replay_h}
    (stack : UvmEventEntry) (gpu_id : nat) (batch_id : Z)
    (client_type : uvm_fault_client_type_t) (timestamp timestamp_gpu : Z)
    (st : tools_globals) : tools_globals :=
  let entry := replay_entry stack gpu_id batch_id client_type timestamp timestamp_gpu in
  Globals (g_tools_va_space_list st) (g_tools_enabled_event_count st) (va_spaces st)
    (uvm_tools_broadcast_event (g_tools_va_space_list st) (va_spaces st) entry
       (trackers st)).

(** [record_replay_events(args)], run by the background worker. *)
Definition record_replay_events {hdr : uvm_types_h} {rph : uvm_replay_h}
    (stack : UvmEventEntry) (args : nat) (replay_data_cache : gmap nat replay_data_t)
    (st : tools_globals) : option (gmap nat replay_data_t * tools_globals) :=
  match replay_data_cache !! args with
  | None => None
  | Some replay =>
      Some (delete args replay_data_cache,
            record_replay_event_helper stack (rd_gpu_id replay) (rd_batch_id replay)
              (rd_client_type replay) (rd_timestamp replay) (rd_timestamp_gpu replay) st)
  end.

(** [on_replay_complete(ptr)]; [gpu_mem] is the memory the GPU writes
    timestamps to. *)
Definition on_replay_complete (ptr : nat) (gpu_mem : Z → Z)
    (replay_data_cache : gmap nat replay_data_t) (chans : channel_state)
    : option (gmap nat replay_data_t * channel_state) :=
  match replay_data_cache !! ptr with
  | None => None
  | Some replay =>
      let replay := ReplayData (rd_channel replay) (rd_gpu_id replay) (rd_batch_id replay)
                      (rd_client_type replay) (rd_timestamp replay)
                      (gpu_mem (rd_timestamp_gpu_addr replay))
                      (rd_timestamp_gpu_addr replay) in
      Some (<[ptr := replay]> replay_data_cache, on_complete (rd_channel replay) ptr chans)
  end.

(** [uvm_tools_broadcast_replay]. [push_channel], [push_info] and
    [push_timestamp] are [push->channel], what
    [uvm_push_info_from_push(push)] points to and the address that
    [uvm_push_timestamp(push)] returns; [alloc] is what
    [kmem_cache_alloc] returns (the address and the content of the
    memory, [None] for [NULL]); [now] is the value of [NV_GETTIME]. *)
Definition uvm_tools_broadcast_replay {hdr : uvm_types_h} {rph : uvm_replay_h}
    (gpu_id : nat) (push_channel : nat) (push_info : uvm_push_info_t)
    (push_timestamp : Z) (batch_id : Z) (client_type : uvm_fault_client_type_t)
    (alloc : option (nat * replay_data_t)) (now : Z) (st : tools_globals)
    (replay_data_cache : gmap nat replay_data_t) (chans : channel_state)
    : uvm_push_info_t * gmap nat replay_data_t * channel_state :=
  if negb (tools_is_event_enabled_in_any_va_space UvmEventTypeGpuFaultReplay st)
  then (push_info, replay_data_cache, chans)
  else
    match alloc with
    | None => (push_info, replay_data_cache, chans)
    | Some (replay, mem) =>
        let r := ReplayData push_channel gpu_id batch_id client_type now
                   (rd_timestamp_gpu mem) push_timestamp in
        (PushInfo (Some OnReplayComplete) (Some replay),
         <[replay := r]> replay_data_cache,
         add_pending_event_for_channel push_channel chans)
    end.

(** [uvm_tools_broadcast_replay_sync]; [time_gpu] is the value of
    [gpu->parent->host_hal->get_time(gpu)]. *)
Definition uvm_tools_broadcast_replay_sync {hdr : uvm_types_h} {rph : uvm_replay_h}
    (stack : UvmEventEntry) (gpu_id : nat) (batch_id : Z)
    (client_type : uvm_fault_client_type_t) (now time_gpu : Z) (st : tools_globals)
    : tools_globals :=
  if negb (tools_is_event_enabled_in_any_va_space UvmEventTypeGpuFaultReplay st) then st
  else record_replay_event_helper stack gpu_id batch_id client_type now time_gpu st.

(** What the theorem on replay events needs of the layout: the
    discriminant shares no byte with the other members of
    [UvmEventGpuFaultReplayInfo]. *)
Definition replay_layout_ok {rph : uvm_replay_h} : bool :=
  forallb (fields_disjoint_b f_eventType)
    [rp_gpuIndex; rp_batchId; rp_clientType; rp_timeStamp; rp_timeStampGpu].

(** A layout of [UvmEventGpuFaultReplayInfo] for the examples. *)
Definition uvm_replay_example : uvm_replay_h := {|
  UvmEventTypeGpuFaultReplay := 4;
  rp_gpuIndex := Field 1 1;
  rp_batchId := Field 4 4;
  rp_clientType := Field 2 1;
  rp_timeStamp := Field 8 8;
  rp_timeStampGpu := Field 16 8
|}.

(* ===================================================================== *)
(** * Part II: properties                                                 *)
(* ===================================================================== *)

(** ** Event records: stores and loads *)

Section entry_bytes.
Implicit Types (e : UvmEventEntry) (f g : field).

Lemma length_le_bytes n v : length (le_bytes n v) = n.
Proof. revert v. induction n as [|n IH]; intros v; cbn; [done|by rewrite IH]. Qed.

Lemma le_value_bytes n v : le_value (le_bytes n v) = (v mod 256 ^ Z.of_nat n)%Z.
Proof.
  revert v. induction n as [|n IH]; intros v.
  - cbn. by rewrite Z.mod_1_r.
  - cbn [le_bytes le_value]. rewrite IH.
    rewrite Nat2Z.inj_succ, Z.pow_succ_r by lia.
    rewrite Z.rem_mul_r; [done|lia|]. apply Z.pow_pos_nonneg; lia.
Qed.

Lemma length_store f v e : length (store f v e) = length e.
Proof. apply length_inserts. Qed.

Lemma length_memset0 e : length (memset0 e) = length e.
Proof. apply length_replicate. Qed.

Lemma memset0_lookup e i : i < length e → memset0 e !! i = Some 0%Z.
Proof. intros Hi. by apply lookup_replicate_2. Qed.

(** A store leaves the bytes outside the member alone. *)
Lemma store_lookup_outside f v e i :
  in_field f i = false → store f v e !! i = e !! i.
Proof.
  unfold in_field, store. intros Hout. apply bool_decide_eq_false in Hout.
  destruct (decide (i < f_off f)).
  - by apply list_lookup_inserts_lt.
  - apply list_lookup_inserts_ge. rewrite length_le_bytes. lia.
Qed.

Lemma load_store_same f v e :
  f_off f + f_len f ≤ length e →
  load f (store f v e) = (v mod 256 ^ Z.of_nat (f_len f))%Z.
Proof.
  intros Hfit. unfold load, store. rewrite <- le_value_bytes. f_equal.
  apply list_eq. intros i.
  destruct (decide (i < f_len f)) as [Hi|Hi].
  - rewrite lookup_take_lt, lookup_drop by done.
    rewrite list_lookup_inserts by (rewrite ?length_le_bytes; lia).
    f_equal. lia.
  - rewrite lookup_take_ge by lia. symmetry. apply lookup_ge_None.
    rewrite length_le_bytes. lia.
Qed.

Lemma load_store_other f g v e :
  fields_disjoint f g → load g (store f v e) = load g e.
Proof.
  intros Hd. unfold load. f_equal. apply list_eq. intros i.
  destruct (decide (i < f_len g)) as [Hi|Hi].
  - rewrite !lookup_take_lt, !lookup_drop by done.
    apply store_lookup_outside. unfold in_field. apply bool_decide_eq_false.
    unfold fields_disjoint in Hd. lia.
  - by rewrite !lookup_take_ge by lia.
Qed.

End entry_bytes.

(** ** Ring queue: masking and occupancy *)

Section ring_arith.
Local Open Scope Z_scope.

Lemma capacity_pos c : is_capacity c → 0 < c.
Proof. intros (k & Hk & ->). apply Z.pow_pos_nonneg; lia. Qed.

Lemma capacity_mask c : is_capacity c → wrap32 (c - 1) = c - 1.
Proof.
  intros (k & Hk & ->). unfold wrap32. apply Z.mod_small.
  assert (0 < 2 ^ k) by (apply Z.pow_pos_nonneg; lia).
  assert (2 ^ k ≤ 2 ^ 32) by (apply Z.pow_le_mono_r; lia).
  lia.
Qed.

(** Masking with [queue_mask] is reduction modulo the capacity. *)
Lemma land_capacity_mask c x : is_capacity c → Z.land x (wrap32 (c - 1)) = x mod c.
Proof.
  intros Hc. rewrite capacity_mask by done.
  destruct Hc as (k & Hk & ->).
  replace (2 ^ k - 1) with (Z.ones k) by (rewrite Z.ones_equiv; lia).
  apply Z.land_ones. lia.
Qed.

Lemma wrap32_mod_capacity c x : is_capacity c → wrap32 x mod c = x mod c.
Proof.
  intros Hc. pose proof (capacity_pos _ Hc) as Hpos.
  destruct Hc as (k & Hk & ->). unfold wrap32.
  apply Z.mod_mod_divide.
  exists (2 ^ (32 - k)). rewrite <- Z.pow_add_r by lia. f_equal. lia.
Qed.

Lemma masked_free_slots c gb pb :
  is_capacity c →
  Z.land (wrap32 (c + Z.land gb (wrap32 (c - 1)) - Z.land pb (wrap32 (c - 1))))
         (wrap32 (c - 1)) = (c + gb - pb) mod c.
Proof.
  intros Hc. rewrite !land_capacity_mask, wrap32_mod_capacity by done.
  rewrite Zminus_mod_idemp_r.
  replace (c + gb mod c - pb) with ((c - pb) + gb mod c) by lia.
  rewrite Zplus_mod_idemp_r. f_equal. lia.
Qed.

Lemma masked_next c pb :
  is_capacity c →
  Z.land (wrap32 (Z.land pb (wrap32 (c - 1)) + 1)) (wrap32 (c - 1)) = (pb + 1) mod c.
Proof.
  intros Hc. rewrite !land_capacity_mask, wrap32_mod_capacity by done.
  apply Zplus_mod_idemp_l.
Qed.

Lemma masked_unread c pb ga :
  is_capacity c →
  Z.land (wrap32 (c + pb - ga)) (wrap32 (c - 1)) = (pb - ga) mod c.
Proof.
  intros Hc. rewrite !land_capacity_mask, wrap32_mod_capacity by done.
  replace (c + pb - ga) with (pb - ga + 1 * c) by lia.
  apply Z_mod_plus_full.
Qed.

(** Full means: all but the reserved slot are occupied. *)
Lemma free_one_iff_stored c d :
  2 ≤ c → ((c - d) mod c = 1 ↔ d mod c = c - 1).
Proof.
  intros Hc.
  pose proof (Z.div_mod d c ltac:(lia)) as Hd.
  pose proof (Z.mod_pos_bound d c ltac:(lia)) as Hb.
  replace (c - d) with ((c - d mod c) + (- (d / c)) * c) by lia.
  rewrite Z_mod_plus_full.
  destruct (decide (d mod c = 0)) as [Hz|Hz].
  - rewrite Hz, Z.sub_0_r, Z_mod_same_full. lia.
  - rewrite Z.mod_small by lia. lia.
Qed.

End ring_arith.

(** ** Ring queue: one enqueue *)

Section ring_enqueue.
Local Open Scope Z_scope.
Implicit Types (q : uvm_tools_queue_t) (entry e : UvmEventEntry).

Lemma enqueue_is_full_spec q :
  is_capacity (queue_buffer_count q) →
  enqueue_is_full q = true ↔ free_slots q = 1.
Proof.
  intros Hc. unfold enqueue_is_full, enqueue_read_cursors, queue_mask_of, free_slots.
  cbn [sn_get_behind sn_put_behind].
  rewrite masked_free_slots by done. apply Z.eqb_eq.
Qed.

Lemma free_slots_stored q :
  2 ≤ queue_buffer_count q →
  free_slots q = 1 ↔ stored_count q = queue_buffer_count q - 1.
Proof.
  intros Hc. unfold free_slots, stored_count.
  rewrite <- free_one_iff_stored by done.
  by replace (queue_buffer_count q + get_behind (control q) - put_behind (control q))
    with (queue_buffer_count q - (put_behind (control q) - get_behind (control q))) by lia.
Qed.

Lemma enqueue_event_full entry q :
  enqueue_is_full q = true → enqueue_event entry q = drop_event entry q.
Proof. intros H. unfold enqueue_event. by rewrite H. Qed.

Lemma enqueue_event_capacity entry q :
  queue_buffer_count (enqueue_event entry q) = queue_buffer_count q.
Proof.
  unfold enqueue_event. destruct (enqueue_is_full q); [done|].
  by destruct (wakeup_due _ _).
Qed.

Lemma enqueue_event_control_store entry q :
  enqueue_is_full q = false →
  control (enqueue_event entry q)
  = set_put (sn_put_ahead (enqueue_read_cursors q))
            (sn_put_ahead (enqueue_read_cursors q)) (control q).
Proof.
  intros H. unfold enqueue_event. rewrite H. by destruct (wakeup_due _ _).
Qed.

Lemma enqueue_event_queue_store entry q :
  enqueue_is_full q = false →
  queue (enqueue_event entry q)
  = <[Z.to_nat (sn_put_behind (enqueue_read_cursors q)) := entry]> (queue q).
Proof.
  intros H. unfold enqueue_event. rewrite H. by destruct (wakeup_due _ _).
Qed.

Lemma read_cursors_put_behind q :
  is_capacity (queue_buffer_count q) →
  sn_put_behind (enqueue_read_cursors q)
  = put_behind (control q) mod queue_buffer_count q.
Proof. intros Hc. cbn. unfold queue_mask_of. by rewrite land_capacity_mask. Qed.

Lemma read_cursors_get_behind q :
  is_capacity (queue_buffer_count q) →
  sn_get_behind (enqueue_read_cursors q)
  = get_behind (control q) mod queue_buffer_count q.
Proof. intros Hc. cbn. unfold queue_mask_of. by rewrite land_capacity_mask. Qed.

Lemma read_cursors_put_ahead q :
  is_capacity (queue_buffer_count q) →
  sn_put_ahead (enqueue_read_cursors q)
  = (put_behind (control q) + 1) mod queue_buffer_count q.
Proof. intros Hc. cbn. unfold queue_mask_of. by rewrite masked_next. Qed.

(** A stored record occupies one more slot, as long as the reserved slot
    is not reached. *)
Lemma enqueue_event_stored_count entry q :
  is_capacity (queue_buffer_count q) →
  2 ≤ queue_buffer_count q →
  stored_count (enqueue_event entry q)
  = Z.min (stored_count q + 1) (queue_buffer_count q - 1).
Proof.
  intros Hc H2.
  pose proof (Z.mod_pos_bound (put_behind (control q) - get_behind (control q))
                (queue_buffer_count q) ltac:(lia)) as Hb.
  destruct (enqueue_is_full q) eqn:Hfull.
  - rewrite enqueue_event_full by done.
    apply enqueue_is_full_spec, free_slots_stored in Hfull; [|done..].
    unfold stored_count in *. cbn. lia.
  - assert (stored_count q ≠ queue_buffer_count q - 1) as Hne.
    { intros Hs. apply free_slots_stored, enqueue_is_full_spec in Hs; [|done..].
      congruence. }
    unfold stored_count in *.
    rewrite enqueue_event_capacity, enqueue_event_control_store by done.
    cbn [set_put put_behind get_behind]. fold (queue_mask_of q).
    change (Z.land (wrap32 (Z.land (put_behind (control q)) (queue_mask_of q) + 1))
                   (queue_mask_of q))
      with (sn_put_ahead (enqueue_read_cursors q)).
    rewrite read_cursors_put_ahead by done.
    rewrite Zminus_mod_idemp_l.
    replace (put_behind (control q) + 1 - get_behind (control q))
      with ((put_behind (control q) - get_behind (control q)) + 1) by lia.
    rewrite <- Zplus_mod_idemp_l. rewrite Z.mod_small by lia. lia.
Qed.

Lemma enqueue_all_app es1 es2 q :
  enqueue_all (es1 ++ es2) q = enqueue_all es2 (enqueue_all es1 q).
Proof. apply foldl_app. Qed.

Lemma enqueue_all_capacity es q :
  queue_buffer_count (enqueue_all es q) = queue_buffer_count q.
Proof.
  revert q. induction es as [|e es IH]; intros q; [done|].
  cbn. unfold enqueue_all in IH. by rewrite IH, enqueue_event_capacity.
Qed.

Lemma enqueue_all_stored_count es q :
  is_capacity (queue_buffer_count q) →
  2 ≤ queue_buffer_count q →
  stored_count (enqueue_all es q)
  = Z.min (stored_count q + Z.of_nat (length es)) (queue_buffer_count q - 1).
Proof.
  revert q. induction es as [|e es IH]; intros q Hc H2.
  - cbn. unfold stored_count.
    pose proof (Z.mod_pos_bound (put_behind (control q) - get_behind (control q))
                  (queue_buffer_count q) ltac:(lia)). lia.
  - change (enqueue_all (e :: es) q) with (enqueue_all es (enqueue_event e q)).
    rewrite IH; rewrite ?enqueue_event_capacity; [|done..].
    rewrite enqueue_event_stored_count by done.
    rewrite length_cons. lia.
Qed.

(** Once [C - 1] enqueues have gone by without the consumer moving, the
    queue is full. *)
Lemma enqueue_all_full es q :
  is_capacity (queue_buffer_count q) →
  2 ≤ queue_buffer_count q →
  queue_buffer_count q - 1 ≤ Z.of_nat (length es) →
  enqueue_is_full (enqueue_all es q) = true.
Proof.
  intros Hc H2 Hlen.
  apply enqueue_is_full_spec; [by rewrite enqueue_all_capacity|].
  apply free_slots_stored; [by rewrite enqueue_all_capacity|].
  rewrite enqueue_all_stored_count, enqueue_all_capacity by done.
  unfold stored_count.
  pose proof (Z.mod_pos_bound (put_behind (control q) - get_behind (control q))
                (queue_buffer_count q) ltac:(lia)). lia.
Qed.

End ring_enqueue.

Section ring_claims.
Local Open Scope Z_scope.

(** C1 (amended to capacities of at least 2 for its second sentence).
    For a ring queue whose capacity [C] is a power of two, one enqueue
    does the following. If the free-slot count [(C + get_behind -
    put_behind) mod C] is 1, it increments the drop counter of the entry's
    event type and changes nothing else: no record is written and the
    producer cursors stay. Otherwise the record is copied into slot
    [put_behind] (masked) and no drop counter changes. Consequently, when
    [2 ≤ C], after any number of enqueues with the consumer not moving at
    most [C - 1] records are stored, and every enqueue beyond the
    [(C-1)]-th takes the drop path, so that the stored slots stay as they
    were. *)
Theorem enqueue_event_drop_or_store (q : uvm_tools_queue_t) (entry : UvmEventEntry) :
  is_capacity (queue_buffer_count q) →
  let C := queue_buffer_count q in
  let ty := entry_eventType entry in
  (free_slots q = 1 →
     enqueue_event entry q = drop_event entry q
     ∧ queue (enqueue_event entry q) = queue q
     ∧ put_ahead (control (enqueue_event entry q)) = put_ahead (control q)
     ∧ put_behind (control (enqueue_event entry q)) = put_behind (control q)
     ∧ (∀ d, dropped (control q) !! ty = Some d →
             dropped (control (enqueue_event entry q)) !! ty = Some (wrap64 (d + 1)))
     ∧ (∀ j, j ≠ ty →
             dropped (control (enqueue_event entry q)) !! j = dropped (control q) !! j))
  ∧ (free_slots q ≠ 1 →
     queue (enqueue_event entry q)
       = <[Z.to_nat (put_behind (control q) mod C) := entry]> (queue q)
     ∧ dropped (control (enqueue_event entry q)) = dropped (control q))
  ∧ (2 ≤ C → ∀ es : list UvmEventEntry,
       stored_count (enqueue_all es q) ≤ C - 1
       ∧ stored_count (enqueue_all es q) = Z.min (stored_count q + Z.of_nat (length es)) (C - 1)
       ∧ ∀ es1 e es2, es = es1 ++ e :: es2 → C - 1 ≤ Z.of_nat (length es1) →
           let q1 := enqueue_all es1 q in
           enqueue_all (es1 ++ [e]) q = drop_event e q1
           ∧ queue (enqueue_all (es1 ++ [e]) q) = queue q1
           ∧ ∀ d, dropped (control q1) !! entry_eventType e = Some d →
               dropped (control (enqueue_all (es1 ++ [e]) q)) !! entry_eventType e
               = Some (wrap64 (d + 1))).
Proof.
  intros Hc. cbv zeta. split; [|split].
  - intros Hfree. apply enqueue_is_full_spec in Hfree; [|done].
    rewrite enqueue_event_full by done. cbn.
    repeat split; try done.
    + intros d Hd. by rewrite list_lookup_alter_eq, Hd.
    + intros j Hj. by rewrite list_lookup_alter_ne.
  - intros Hfree.
    assert (enqueue_is_full q = false) as Hfull.
    { destruct (enqueue_is_full q) eqn:E; [|done].
      by apply enqueue_is_full_spec in E. }
    rewrite enqueue_event_queue_store, enqueue_event_control_store by done.
    by rewrite read_cursors_put_behind.
  - intros H2 es. split; [|split].
    + rewrite enqueue_all_stored_count by done. lia.
    + by apply enqueue_all_stored_count.
    + intros es1 e es2 -> Hlen.
      assert (enqueue_all (es1 ++ [e]) q = drop_event e (enqueue_all es1 q)) as Heq.
      { rewrite enqueue_all_app. cbn. apply enqueue_event_full.
        by apply enqueue_all_full. }
      rewrite Heq. cbn. repeat split; try done.
      intros d Hd. by rewrite list_lookup_alter_eq, Hd.
Qed.

(** The theorem at the queue of capacity 4: five enqueues store three
    records and the fifth is dropped. *)
Lemma enqueue_event_drop_or_store_witness :
  is_capacity (queue_buffer_count scenario_queue)
  ∧ stored_count (enqueue_all (replicate 5 (scenario_entry 2 7)) scenario_queue) ≤ 3.
Proof.
  assert (is_capacity (queue_buffer_count scenario_queue)) as Hc.
  { exists 2. cbn. lia. }
  split; [exact Hc|].
  pose proof (enqueue_event_drop_or_store scenario_queue (scenario_entry 2 7) Hc)
    as (_ & _ & H).
  exact (proj1 (H ltac:(cbn; lia) (replicate 5 (scenario_entry 2 7)))).
Defined.

(** C1 as stated fails at capacity 1 (a power of two): the free-slot
    count is always 0, so no enqueue is ever dropped; each one overwrites
    slot 0 although [C - 1 = 0] records may be stored. *)
Lemma capacity_one_never_drops :
  is_capacity (queue_buffer_count degenerate_queue)
  ∧ free_slots degenerate_queue ≠ 1
  ∧ queue (enqueue_event (scenario_entry 2 7) degenerate_queue) = [scenario_entry 2 7]
  ∧ dropped (control (enqueue_event (scenario_entry 2 7) degenerate_queue))
    = dropped (control degenerate_queue)
  ∧ queue (enqueue_all [scenario_entry 2 7; scenario_entry 2 9] degenerate_queue)
    = [scenario_entry 2 9]
  ∧ dropped (control (enqueue_all [scenario_entry 2 7; scenario_entry 2 9] degenerate_queue))
      !! 2%nat = Some 0.
Proof.
  split; [exists 0; cbn; lia|].
  split; [by vm_compute|].
  by vm_compute.
Qed.

(** *** Which values of the control block are masked *)

Lemma read_cursors_range q :
  is_capacity (queue_buffer_count q) →
  let C := queue_buffer_count q in
  let sn := enqueue_read_cursors q in
  0 ≤ sn_get_behind sn < C ∧ 0 ≤ sn_put_behind sn < C ∧ 0 ≤ sn_put_ahead sn < C.
Proof.
  intros Hc. cbv zeta. pose proof (capacity_pos _ Hc).
  rewrite read_cursors_get_behind, read_cursors_put_behind, read_cursors_put_ahead by done.
  repeat split; apply Z.mod_pos_bound; lia.
Qed.

(** The wakeup test gives the same answer on the raw and on the masked
    [get_ahead]. *)
Lemma queue_needs_wakeup_masked q sn :
  is_capacity (queue_buffer_count q) →
  queue_needs_wakeup q sn
  = queue_needs_wakeup q
      (Snapshot (Z.land (sn_get_ahead sn) (queue_mask_of q))
                (sn_get_behind sn) (sn_put_ahead sn) (sn_put_behind sn)).
Proof.
  intros Hc. unfold queue_needs_wakeup, queue_mask_of. cbn.
  rewrite !masked_unread by done. rewrite land_capacity_mask by done.
  by rewrite Zminus_mod_idemp_r.
Qed.

Lemma publish_event_get_ahead_irrelevant entry q ga :
  let q' := set_control (set_get ga (get_behind (control q)) (control q)) q in
  queue (publish_event entry q') = queue (publish_event entry q)
  ∧ put_ahead (control (publish_event entry q')) = put_ahead (control (publish_event entry q))
  ∧ put_behind (control (publish_event entry q')) = put_behind (control (publish_event entry q))
  ∧ dropped (control (publish_event entry q')) = dropped (control (publish_event entry q)).
Proof. done. Qed.

Lemma enqueue_event_queue_control entry q :
  queue (enqueue_event entry q)
    = (if enqueue_is_full q then queue q else queue (publish_event entry q))
  ∧ control (enqueue_event entry q)
    = (if enqueue_is_full q then control (drop_event entry q)
       else control (publish_event entry q)).
Proof.
  unfold enqueue_event. destruct (enqueue_is_full q); [done|].
  by destruct (wakeup_due _ _).
Qed.

(** C5 (amended: [get_ahead] is not masked). In every enqueue,
    [get_behind] and [put_behind] are masked into [[0, capacity)] when they
    are read, before any arithmetic and before [put_behind] indexes the
    record array, and the next producer position is masked too; so the
    only slot written has an index below the capacity whatever the
    consumer wrote, and the array keeps its length. [get_ahead] is read as
    it is: it enters only the unread count, whose result is masked into
    [[0, capacity)] (the wakeup test answers as it would on the masked
    value), and the wakeup state; the record array and the control block
    after the enqueue do not depend on it. *)
Theorem enqueue_event_masks_indices (q : uvm_tools_queue_t) (entry : UvmEventEntry) :
  is_capacity (queue_buffer_count q) →
  let C := queue_buffer_count q in
  let sn := enqueue_read_cursors q in
  (0 ≤ sn_get_behind sn < C ∧ 0 ≤ sn_put_behind sn < C ∧ 0 ≤ sn_put_ahead sn < C)
  ∧ (queue (enqueue_event entry q) = queue q
     ∨ ∃ i : nat, (Z.of_nat i < C) ∧ queue (enqueue_event entry q) = <[i := entry]> (queue q))
  ∧ length (queue (enqueue_event entry q)) = length (queue q)
  ∧ sn_get_ahead (enqueue_wakeup_snapshot q) = get_ahead (control q)
  ∧ (let unread := Z.land (wrap32 (C + sn_put_ahead sn - get_ahead (control q)))
                          (queue_mask_of q) in
     0 ≤ unread < C
     ∧ unread = (sn_put_ahead sn - get_ahead (control q) mod C) mod C)
  ∧ (∀ ga, let q' := set_control (set_get ga (get_behind (control q)) (control q)) q in
       queue (enqueue_event entry q') = queue (enqueue_event entry q)
       ∧ put_ahead (control (enqueue_event entry q')) = put_ahead (control (enqueue_event entry q))
       ∧ put_behind (control (enqueue_event entry q')) = put_behind (control (enqueue_event entry q))
       ∧ dropped (control (enqueue_event entry q')) = dropped (control (enqueue_event entry q))).
Proof.
  intros Hc. cbv zeta. pose proof (capacity_pos _ Hc) as Hpos.
  pose proof (read_cursors_range q Hc) as Hr. cbv zeta in Hr.
  split; [exact Hr|]. split; [|split; [|split; [done|split]]].
  - destruct (enqueue_event_queue_control entry q) as [-> _].
    destruct (enqueue_is_full q); [by left|right].
    exists (Z.to_nat (sn_put_behind (enqueue_read_cursors q))). split; [lia|done].
  - destruct (enqueue_event_queue_control entry q) as [-> _].
    destruct (enqueue_is_full q); [done|]. cbn. by rewrite length_insert.
  - unfold queue_mask_of. rewrite masked_unread by done.
    split; [apply Z.mod_pos_bound; lia|]. by rewrite Zminus_mod_idemp_r.
  - intros ga.
    destruct (enqueue_event_queue_control entry q) as [-> ->].
    destruct (enqueue_event_queue_control entry
                (set_control (set_get ga (get_behind (control q)) (control q)) q))
      as [-> ->].
    change (enqueue_is_full (set_control (set_get ga (get_behind (control q)) (control q)) q))
      with (enqueue_is_full q).
    by destruct (enqueue_is_full q).
Qed.

(** A consumer that wrote 7 into [get_ahead] of a queue of capacity 4. *)
Lemma enqueue_event_masks_indices_witness :
  is_capacity (queue_buffer_count scenario_queue)
  ∧ length (queue (enqueue_event (scenario_entry 2 7)
       (set_control (set_get 7 0 (control scenario_queue)) scenario_queue))) = 4%nat.
Proof.
  assert (is_capacity (queue_buffer_count scenario_queue)) as Hc.
  { exists 2. cbn. lia. }
  split; [exact Hc|].
  pose proof (enqueue_event_masks_indices
                (set_control (set_get 7 0 (control scenario_queue)) scenario_queue)
                (scenario_entry 2 7) Hc) as (_ & _ & H & _).
  exact H.
Defined.

(** C5 as stated fails for [get_ahead]: the value 7 written by the
    consumer of a queue of capacity 4 is used as it is, in the unread
    count and in the wakeup state, where it is kept. *)
Lemma get_ahead_is_not_masked :
  let q := set_control (set_put 0 0 (set_get 7 0 (control scenario_queue))) scenario_queue in
  is_capacity (queue_buffer_count q)
  ∧ ¬ (0 ≤ sn_get_ahead (enqueue_wakeup_snapshot q) < queue_buffer_count q)
  ∧ wakeup_get (enqueue_event (scenario_entry 2 7) q) = 7.
Proof.
  cbv zeta. split; [exists 2; cbn; lia|]. split; [cbn; lia|]. by vm_compute.
Qed.

(** *** Wakeups *)

Lemma enqueue_event_store_eq entry q :
  enqueue_is_full q = false →
  enqueue_event entry q
  = if wakeup_due (publish_event entry q) (enqueue_wakeup_snapshot q)
    then signal_wakeup (get_ahead (control q)) (publish_event entry q)
    else publish_event entry q.
Proof. intros H. unfold enqueue_event. by rewrite H. Qed.

Lemma wakeup_due_spec entry q :
  is_capacity (queue_buffer_count q) →
  wakeup_due (publish_event entry q) (enqueue_wakeup_snapshot q) = true
  ↔ notification_threshold q
      ≤ (put_behind (control (publish_event entry q)) - get_ahead (control q))
          mod queue_buffer_count q
    ∧ ¬ (is_wakeup_get_valid q = true ∧ wakeup_get q = get_ahead (control q)).
Proof.
  intros Hc. unfold wakeup_due, queue_needs_wakeup, queue_mask_of.
  cbn [publish_event set_control set_queue set_put queue_buffer_count
       notification_threshold is_wakeup_get_valid wakeup_get control put_behind
       enqueue_wakeup_snapshot sn_put_behind sn_get_ahead].
  rewrite masked_unread by done.
  rewrite andb_true_iff, negb_true_iff, andb_false_iff, Z.leb_le.
  split; intros [H1 H2]; (split; [done|]).
  - intros [Hv Hg]. destruct H2 as [H2|H2]; [congruence|].
    apply Z.eqb_neq in H2. done.
  - destruct (is_wakeup_get_valid q); [|by left]. right. apply Z.eqb_neq.
    intros Hg. by apply H2.
Qed.

(** C8 (amended in its scenario: the fourth record signals nothing).
    For every enqueue that stores a record: both producer cursors are
    published with the next position; the unread count is then taken from
    the published cursor and [get_ahead] as read, and compared with the
    notification threshold; the wait condition is released exactly when
    the count has reached the threshold and no wakeup has been signaled
    for this very [get_ahead], and signaling records that [get_ahead] in
    the wakeup state. In a queue of capacity 4 with threshold 2, empty and
    never signaled, three records of type [M] are stored with drop counter
    0, one wakeup having been signaled (by the second); a fourth leaves
    the three stored, sets the drop counter to 1 and signals no further
    wakeup: the wakeup state stays as the second record set it. *)
Theorem enqueue_event_wakeup (q : uvm_tools_queue_t) (entry : UvmEventEntry) :
  is_capacity (queue_buffer_count q) →
  free_slots q ≠ 1 →
  let C := queue_buffer_count q in
  let q' := enqueue_event entry q in
  let ga := get_ahead (control q) in
  let unread := (put_behind (control q') - ga) mod C in
  let due := notification_threshold q ≤ unread
             ∧ ¬ (is_wakeup_get_valid q = true ∧ wakeup_get q = ga) in
  (put_behind (control q') = (put_behind (control q) + 1) mod C
   ∧ put_ahead (control q') = put_behind (control q'))
  ∧ (due → wait_queue q' = S (wait_queue q)
           ∧ is_wakeup_get_valid q' = true ∧ wakeup_get q' = ga)
  ∧ (¬ due → wait_queue q' = wait_queue q
             ∧ is_wakeup_get_valid q' = is_wakeup_get_valid q
             ∧ wakeup_get q' = wakeup_get q)
  ∧ (∀ (q0 : uvm_tools_queue_t) (M : nat) (e1 e2 e3 e4 : UvmEventEntry),
       queue_buffer_count q0 = 4 → notification_threshold q0 = 2 →
       length (queue q0) = 4%nat →
       get_ahead (control q0) = 0 → get_behind (control q0) = 0 →
       put_ahead (control q0) = 0 → put_behind (control q0) = 0 →
       is_wakeup_get_valid q0 = false →
       dropped (control q0) !! M = Some 0 →
       entry_eventType e1 = M → entry_eventType e2 = M →
       entry_eventType e3 = M → entry_eventType e4 = M →
       let q2 := enqueue_all [e1; e2] q0 in
       let q3 := enqueue_all [e1; e2; e3] q0 in
       let q4 := enqueue_all [e1; e2; e3; e4] q0 in
       (stored_count q3 = 3 ∧ dropped (control q3) !! M = Some 0
        ∧ queue q3 !! 0%nat = Some e1 ∧ queue q3 !! 1%nat = Some e2
        ∧ queue q3 !! 2%nat = Some e3)
       ∧ (wait_queue (enqueue_all [e1] q0) = wait_queue q0
          ∧ wait_queue q2 = S (wait_queue q0) ∧ wait_queue q3 = wait_queue q2)
       ∧ (stored_count q4 = 3 ∧ dropped (control q4) !! M = Some 1
          ∧ queue q4 = queue q3)
       ∧ (wait_queue q4 = wait_queue q3
          ∧ is_wakeup_get_valid q4 = true ∧ wakeup_get q4 = 0)).
Proof.
  intros Hc Hfree. cbv zeta.
  assert (enqueue_is_full q = false) as Hfull.
  { destruct (enqueue_is_full q) eqn:E; [|done].
    by apply enqueue_is_full_spec in E. }
  pose proof (wakeup_due_spec entry q Hc) as Hdue.
  rewrite enqueue_event_store_eq by done.
  assert (control (if wakeup_due (publish_event entry q) (enqueue_wakeup_snapshot q)
                   then signal_wakeup (get_ahead (control q)) (publish_event entry q)
                   else publish_event entry q) = control (publish_event entry q)) as ->
    by (by destruct (wakeup_due _ _)).
  split; [|split; [|split]].
  - cbn [publish_event set_control control set_put put_behind put_ahead].
    by rewrite read_cursors_put_ahead.
  - intros Hd. apply Hdue in Hd. by rewrite Hd.
  - intros Hd. destruct (wakeup_due _ _); [|done]. exfalso. by apply Hd, Hdue.
  - clear. intros q0 M e1 e2 e3 e4.
    destruct q0 as [sq mem C T [ga gb pa pb dr] wq valid wg]. cbn.
    intros -> -> Hlen -> -> -> -> -> Hd H1 H2 H3 H4.
    destruct mem as [|s0 [|s1 [|s2 [|s3 [|]]]]]; try done.
    unfold enqueue_all; cbn [foldl].
    cbv -[entry_eventType alter lookup insert list_lookup list_alter list_insert wrap64].
    rewrite H4, list_lookup_alter_eq, Hd. done.
Qed.

(** The rule at the second record of the scenario: the unread count
    reaches the threshold 2 and the wait condition is released. *)
Lemma enqueue_event_wakeup_witness :
  let q1 := enqueue_event (scenario_entry 2 7) scenario_queue in
  is_capacity (queue_buffer_count q1) ∧ free_slots q1 ≠ 1
  ∧ put_behind (control (enqueue_event (scenario_entry 2 8) q1)) = 2.
Proof.
  cbv zeta.
  assert (is_capacity (queue_buffer_count
            (enqueue_event (scenario_entry 2 7) scenario_queue))) as Hc.
  { exists 2. split; [lia | by vm_compute]. }
  assert (free_slots (enqueue_event (scenario_entry 2 7) scenario_queue) ≠ 1) as Hf.
  { by vm_compute. }
  split; [exact Hc|]. split; [exact Hf|].
  pose proof (enqueue_event_wakeup _ (scenario_entry 2 8) Hc Hf) as ((H & _) & _).
  rewrite H. by vm_compute.
Defined.

(** C8 as stated fails in its last clause: the fourth record of the
    scenario finds the queue full and leaves by the drop path, which
    releases no wait condition. The scenario's wakeup is the one the
    second record signaled. *)
Lemma fourth_record_signals_no_wakeup :
  let e := scenario_entry 2 7 in
  let q3 := enqueue_all [e; e; e] scenario_queue in
  enqueue_event e q3 = drop_event e q3
  ∧ wait_queue (enqueue_event e q3) ≠ S (wait_queue q3)
  ∧ wait_queue (enqueue_event e q3) = wait_queue q3
  ∧ wait_queue (enqueue_all [e] scenario_queue) = 0%nat
  ∧ wait_queue (enqueue_all [e; e] scenario_queue) = 1%nat
  ∧ wait_queue q3 = 1%nat.
Proof. cbv zeta. by vm_compute. Qed.

End ring_claims.

(** ** Enabled state: what a failed registration leaves behind *)

Section status_claims.
Context {hdr : uvm_types_h}.
Implicit Types (reg : uvm_perf_event_t → NV_STATUS) (s : uvm_va_space_t).

Lemma update_callback_failure reg needed event e status e' :
  update_callback reg needed event e = (status, e') →
  is_ok status = false →
  e' = e ∧ status = reg event ∧ needed = true
  ∧ is_event_callback_registered e event = false.
Proof.
  unfold update_callback, uvm_perf_register_event_callback_locked.
  destruct needed, (is_event_callback_registered e event) eqn:Hr; cbn;
    try (intros [= <- <-]; done).
  destruct (reg event) eqn:Hreg; intros [= <- <-]; done.
Qed.

Lemma update_callback_registered reg event e :
  is_event_callback_registered e event = true →
  update_callback reg true event e = (NV_OK, e).
Proof. intros Hr. unfold update_callback. by rewrite Hr. Qed.

(** A failure of [tools_update_perf_events_callbacks] leaves the lists
    and the migration callback as they were and returns the status of the
    failed registration; the collector is as it was unless the fault
    callback has changed. *)
Lemma update_callbacks_failure reg s status s' :
  tools_update_perf_events_callbacks reg s = (status, s') →
  is_ok status = false →
  va_tools s' = va_tools s
  ∧ migration_callback_registered (perf_events s')
    = migration_callback_registered (perf_events s)
  ∧ (status = reg UVM_PERF_EVENT_FAULT ∨ status = reg UVM_PERF_EVENT_MIGRATION)
  ∧ (fault_callback_registered (perf_events s')
     = fault_callback_registered (perf_events s) → s' = s).
Proof.
  unfold tools_update_perf_events_callbacks.
  destruct (update_callback reg (tools_is_fault_callback_needed (va_tools s))
              UVM_PERF_EVENT_FAULT (perf_events s)) as [st1 e1] eqn:H1.
  assert (migration_callback_registered e1
          = migration_callback_registered (perf_events s)) as Hm1.
  { revert H1. unfold update_callback, uvm_perf_register_event_callback_locked.
    destruct (tools_is_fault_callback_needed _),
      (is_event_callback_registered _ _); cbn;
      try (intros [= <- <-]; done).
    destruct (reg UVM_PERF_EVENT_FAULT); intros [= <- <-]; done. }
  assert (∀ e2, e2 = e1 →
            va_tools (set_perf_events e2 s) = va_tools s
            ∧ migration_callback_registered (perf_events (set_perf_events e2 s))
              = migration_callback_registered (perf_events s)
            ∧ (fault_callback_registered (perf_events (set_perf_events e2 s))
               = fault_callback_registered (perf_events s)
               → set_perf_events e2 s = s)) as Hframe.
  { intros e2 ->. split; [done|]. split; [done|]. cbn. intros Hf.
    destruct s as [t [f m]], e1 as [f1 m1]. cbn in *. by subst. }
  destruct (is_ok st1) eqn:Hok1; cbn [negb].
  - destruct (update_callback reg (tools_is_migration_callback_needed (va_tools s))
                UVM_PERF_EVENT_MIGRATION e1) as [st2 e2] eqn:H2.
    destruct (is_ok st2) eqn:Hok2; cbn [negb]; intros [= <- <-] Hbad; [done|].
    apply update_callback_failure in H2 as (He2 & -> & _ & _); [|done].
    destruct (Hframe e2 He2) as (? & ? & ?). repeat split; try done. by right.
  - intros [= <- <-] _.
    apply update_callback_failure in H1 as (He1 & -> & _ & _); [|done].
    destruct (Hframe e1 eq_refl) as (? & ? & ?). repeat split; try done. by left.
Qed.

(** When the registration of the fault callback is attempted and fails,
    nothing has changed. *)
Lemma update_callbacks_fault_failure reg s :
  tools_is_fault_callback_needed (va_tools s) = true →
  fault_callback_registered (perf_events s) = false →
  is_ok (reg UVM_PERF_EVENT_FAULT) = false →
  tools_update_perf_events_callbacks reg s = (reg UVM_PERF_EVENT_FAULT, s).
Proof.
  intros Hn Hr Hbad.
  unfold tools_update_perf_events_callbacks, update_callback,
    uvm_perf_register_event_callback_locked.
  rewrite Hn. cbn [is_event_callback_registered]. rewrite Hr. cbn [negb].
  destruct (reg UVM_PERF_EVENT_FAULT); cbn in *; try done; by destruct s.
Qed.

(** X1. A failure of [tools_update_status] is the status of a failed
    registration, and it leaves the enabled flag and the lists of every
    collector, the list of enabled collectors, the counts and the
    trackers as they were. *)
Lemma update_status_failure reg v st status st' :
  tools_update_status reg v st = (status, st') →
  is_ok status = false →
  (status = reg UVM_PERF_EVENT_FAULT ∨ status = reg UVM_PERF_EVENT_MIGRATION)
  ∧ g_tools_va_space_list st' = g_tools_va_space_list st
  ∧ g_tools_enabled_event_count st' = g_tools_enabled_event_count st
  ∧ trackers st' = trackers st
  ∧ (∀ v', va_tools <$> va_spaces st' !! v' = va_tools <$> va_spaces st !! v')
  ∧ (∀ v', migration_callback_registered ∘ perf_events <$> va_spaces st' !! v'
           = migration_callback_registered ∘ perf_events <$> va_spaces st !! v').
Proof.
  unfold tools_update_status.
  destruct (va_spaces st !! v) as [s|] eqn:Hv; [|by intros [= <- <-]].
  destruct (tools_update_perf_events_callbacks reg s) as [st1 s1] eqn:H1.
  destruct (is_ok st1) eqn:Hok; cbn [negb].
  - destruct (negb _); intros [= <- <-]; done.
  - intros [= <- <-] _.
    destruct (update_callbacks_failure _ _ _ _ H1 Hok) as (Htools & Hmig & Hst & _).
    split; [done|]. cbn. repeat split.
    + intros v'. destruct (decide (v = v')) as [<-|Hne].
      * by rewrite lookup_insert_eq, Hv; cbn; rewrite Htools.
      * by rewrite lookup_insert_ne.
    + intros v'. destruct (decide (v = v')) as [<-|Hne].
      * by rewrite lookup_insert_eq, Hv; cbn; rewrite Hmig.
      * by rewrite lookup_insert_ne.
Qed.

Lemma update_status_fault_failure reg v st s :
  va_spaces st !! v = Some s →
  tools_is_fault_callback_needed (va_tools s) = true →
  fault_callback_registered (perf_events s) = false →
  is_ok (reg UVM_PERF_EVENT_FAULT) = false →
  tools_update_status reg v st = (reg UVM_PERF_EVENT_FAULT, st).
Proof.
  intros Hv Hn Hr Hbad. unfold tools_update_status. rewrite Hv.
  rewrite update_callbacks_fault_failure by done. rewrite Hbad. cbn [negb].
  f_equal. unfold set_va_space. rewrite insert_id by done. by destruct st.
Qed.

End status_claims.

(** The lemma on the collector whose second registration fails: the
    status is that of the migration registration, and the lists, the
    counts and the trackers are as they were. *)
Lemma update_status_failure_witness :
  let r := tools_update_status (hdr := uvm_types_example) example_registration 1
             example_globals_attaching in
  is_ok r.1 = false
  ∧ r.1 = example_registration UVM_PERF_EVENT_MIGRATION
  ∧ g_tools_va_space_list r.2 = g_tools_va_space_list example_globals_attaching
  ∧ g_tools_enabled_event_count r.2
    = g_tools_enabled_event_count example_globals_attaching
  ∧ trackers r.2 = trackers example_globals_attaching
  ∧ va_tools <$> va_spaces r.2 !! 1
    = va_tools <$> va_spaces example_globals_attaching !! 1.
Proof.
  cbv zeta.
  assert (is_ok (tools_update_status (hdr := uvm_types_example) example_registration 1
                   example_globals_attaching).1 = false) as Hbad by (by vm_compute).
  destruct (update_status_failure (hdr := uvm_types_example) example_registration 1
              example_globals_attaching _ _ (surjective_pairing _) Hbad)
    as (_ & Hl & Hc & Ht & Hv & _).
  split; [exact Hbad|]. split; [by vm_compute|].
  split; [exact Hl|]. split; [exact Hc|]. split; [exact Ht|]. exact (Hv 1).
Defined.

(** C9 (the code does not do it when the second registration fails).
    A collector has a queue tracker on its lists for CPU faults and for
    migrations, no callback registered, and is not enabled. In
    [tools_update_status] the fault callback is registered, then the
    registration of the migration callback fails with
    [NV_ERR_NO_MEMORY]: that status is returned, the collector is still
    not enabled and on no list, but the fault callback stays registered,
    so the registration state is not what it was. *)
Theorem update_status_partial_registration :
  let r := tools_update_status (hdr := uvm_types_example) example_registration 1
             example_globals_attaching in
  r.1 = NV_ERR_NO_MEMORY
  ∧ fault_callback_registered ∘ perf_events <$> va_spaces example_globals_attaching !! 1
    = Some false
  ∧ fault_callback_registered ∘ perf_events <$> va_spaces r.2 !! 1 = Some true
  ∧ migration_callback_registered ∘ perf_events <$> va_spaces r.2 !! 1 = Some false
  ∧ tools_enabled ∘ va_tools <$> va_spaces r.2 !! 1 = Some false
  ∧ g_tools_va_space_list r.2 = []
  ∧ va_spaces r.2 ≠ va_spaces example_globals_attaching.
Proof.
  cbv zeta. repeat split; by vm_compute.
Qed.

(** ** Event records: what reaches the ring buffers *)

Section record_claims.
Context {hdr : uvm_types_h}.

(** X2. [record_gpu_fault_instance] clears the record before it populates
    it: every byte that belongs to none of the populated members is
    zero in the record handed to [uvm_tools_record_event]. *)
Lemma gpu_fault_entry_zero_outside stack gpu_id fault_entry batch_id timestamp i :
  i < length stack →
  forallb (λ f, negb (in_field f i)) gpu_fault_fields = true →
  gpu_fault_entry stack gpu_id fault_entry batch_id timestamp !! i = Some 0%Z.
Proof.
  intros Hi Hout. cbn in Hout.
  repeat (apply andb_true_iff in Hout as [?%negb_true_iff Hout]).
  unfold gpu_fault_entry. cbv zeta.
  destruct (is_replayable fault_entry);
    rewrite !store_lookup_outside by done; by apply memset0_lookup.
Qed.

(** [uvm_tools_test_hmm_split_invalidate] hands on the stack content:
    every byte after the discriminant is what the stack held. *)
Lemma split_invalidate_entry_stack stack i :
  1 ≤ i → split_invalidate_entry stack !! i = stack !! i.
Proof.
  intros Hi. unfold split_invalidate_entry. apply store_lookup_outside.
  unfold in_field. apply bool_decide_eq_false. cbn. lia.
Qed.

End record_claims.

(** The lemma on a record built over a stack full of [0xAA]: byte 40,
    which belongs to no populated member, is zero. *)
Lemma gpu_fault_entry_zero_outside_witness :
  gpu_fault_entry (hdr := uvm_types_example) (replicate 64 170%Z) 3
    example_fault_entry 7 1000 !! 40
  = Some 0%Z.
Proof.
  apply (gpu_fault_entry_zero_outside (hdr := uvm_types_example)).
  - cbn. lia.
  - by vm_compute.
Defined.

(** ** Walking a list of trackers *)

(** A [list_for_each_entry] loop that updates every visited object in
    place: each object on the list is updated once, the others not at
    all. The list of a [struct list] has no repetition. *)
Lemma foldl_alter_lookup {A} (f : A → A) (l : list nat) (h : gmap nat A) (p : nat) :
  NoDup l →
  foldl (λ h p, alter f p h) h l !! p
  = if decide (p ∈ l) then f <$> h !! p else h !! p.
Proof.
  revert h. induction l as [|a l IH]; intros h Hnd.
  - cbn. case_decide as Hin; [by apply elem_of_nil in Hin|done].
  - apply NoDup_cons in Hnd as [Ha Hnd]. cbn [foldl]. rewrite IH by done.
    destruct (decide (p = a)) as [->|Hne].
    + rewrite decide_False by done.
      rewrite decide_True by (apply elem_of_cons; by left).
      apply lookup_alter_eq.
    + rewrite lookup_alter_ne by done.
      destruct (decide (p ∈ l)) as [Hin|Hin].
      * by rewrite decide_True by (apply elem_of_cons; by right).
      * rewrite decide_False; [done|]. rewrite elem_of_cons. by intros [?|?].
Qed.

(** ** Deferred migration events: what the worker emits *)

Section migration_claims.
Context {hdr : uvm_types_h}.

Lemma fields_disjoint_sym f g : fields_disjoint f g → fields_disjoint g f.
Proof. unfold fields_disjoint. lia. Qed.

Lemma migration_entry_update_length mig ts entry :
  length (migration_entry_update mig ts entry) = length entry.
Proof. unfold migration_entry_update. by rewrite !length_store. Qed.

(** What one sub-event leaves in the record. *)
Lemma migration_entry_update_loads size mig ts entry :
  migration_layout_ok size = true →
  length entry = size →
  is_NvU64 ts → is_NvU64 (end_timestamp_gpu mig) →
  let e := migration_entry_update mig ts entry in
  load mig_beginTimeStampGpu e = ts
  ∧ load mig_endTimeStampGpu e = end_timestamp_gpu mig
  ∧ load mig_address e = wrap64 (address mig)
  ∧ load mig_migratedBytes e = wrap64 (bytes mig)
  ∧ load f_eventType e = load f_eventType entry.
Proof.
  intros Hlay Hlen Hts Hend. cbv zeta.
  unfold migration_layout_ok in Hlay. cbn in Hlay.
  unfold fields_disjoint_b in Hlay.
  repeat match goal with
         | H : _ && _ = true |- _ => apply andb_true_iff in H as [? ?]
         | H : bool_decide _ = true |- _ => apply bool_decide_eq_true in H
         end.
  unfold migration_entry_update.
  assert (∀ v, is_NvU64 v → (v mod 256 ^ Z.of_nat 8)%Z = v) as Hfit.
  { intros v Hv. apply Z.mod_small. exact Hv. }
  assert (∀ f g, fields_disjoint f g → fields_disjoint g f) as Hsym
    by apply fields_disjoint_sym.
  repeat split.
  - do 2 (rewrite load_store_other by auto).
    rewrite load_store_same by (rewrite !length_store; lia).
    replace (f_len mig_beginTimeStampGpu) with 8 by done. by apply Hfit.
  - do 1 (rewrite load_store_other by auto).
    rewrite load_store_same by (rewrite !length_store; lia).
    replace (f_len mig_endTimeStampGpu) with 8 by done. by apply Hfit.
  - do 4 (rewrite load_store_other by auto).
    rewrite load_store_same by (rewrite ?length_store; lia).
    by replace (f_len mig_address) with 8 by done.
  - do 3 (rewrite load_store_other by auto).
    rewrite load_store_same by (rewrite !length_store; lia).
    by replace (f_len mig_migratedBytes) with 8 by done.
  - by do 5 (rewrite load_store_other by auto).
Qed.

Lemma Forall2_lookup_delete {A} (m : gmap nat A) p0 ps xs :
  p0 ∉ ps →
  Forall2 (λ p x, m !! p = Some x) ps xs →
  Forall2 (λ p x, delete p0 m !! p = Some x) ps xs.
Proof.
  intros Hp Hall. induction Hall as [|p x ps xs Hx Hall IH]; constructor.
  - rewrite lookup_delete_ne; [done|]. intros ->. apply Hp, elem_of_cons. by left.
  - apply IH. intros Hin. apply Hp, elem_of_cons. by right.
Qed.

(** The loop: one record per detail, in list order, each carrying the
    GPU end timestamp of the detail before it as its begin timestamp;
    the details it visited are freed, the others untouched. *)
Lemma record_migration_loop_spec size tools ps :
  ∀ ms ts entry (migs : gmap nat migration_data_t)
    (trackers : gmap nat uvm_tools_event_tracker_t) emitted,
  migration_layout_ok size = true →
  length entry = size →
  NoDup ps →
  Forall2 (λ p m, migs !! p = Some m) ps ms →
  is_NvU64 ts →
  Forall (λ m, is_NvU64 (end_timestamp_gpu m)) ms →
  ∃ migs' new,
    record_migration_loop tools ps ts entry migs trackers emitted
    = Some (migs', foldl (λ h e, uvm_tools_record_event tools e h) trackers new,
            emitted ++ new)
    ∧ length new = length ms
    ∧ (∀ i m e, ms !! i = Some m → new !! i = Some e →
         load mig_endTimeStampGpu e = end_timestamp_gpu m
         ∧ load mig_beginTimeStampGpu e
           = match i with
             | 0 => ts
             | S j => default 0%Z (end_timestamp_gpu <$> ms !! j)
             end
         ∧ load mig_address e = wrap64 (address m)
         ∧ load mig_migratedBytes e = wrap64 (bytes m)
         ∧ load f_eventType e = load f_eventType entry)
    ∧ (∀ p, p ∈ ps → migs' !! p = None)
    ∧ (∀ p, p ∉ ps → migs' !! p = migs !! p).
Proof.
  induction ps as [|p ps IH]; intros ms ts entry migs trackers emitted
    Hlay Hlen Hnd Hall Hts Hends.
  - apply Forall2_nil_inv_l in Hall as ->.
    exists migs, []. cbn. rewrite app_nil_r. repeat split; try done.
    intros p Hp. by apply elem_of_nil in Hp.
  - apply Forall2_cons_inv_l in Hall as (m & ms' & Hm & Hall & ->).
    apply NoDup_cons in Hnd as [Hp Hnd].
    apply Forall_cons in Hends as [Hend Hends].
    cbn [record_migration_loop]. rewrite Hm.
    destruct (IH ms' (end_timestamp_gpu m) (migration_entry_update m ts entry)
                (delete p migs)
                (uvm_tools_record_event tools (migration_entry_update m ts entry) trackers)
                (emitted ++ [migration_entry_update m ts entry]))
      as (migs' & new & Heq & Hlen' & Hnew & Hfreed & Hframe); try done.
    { by rewrite migration_entry_update_length. }
    { by apply Forall2_lookup_delete. }
    destruct (migration_entry_update_loads size m ts entry Hlay Hlen Hts Hend)
      as (Hb & He & Ha & Hby & Hty).
    exists migs', (migration_entry_update m ts entry :: new).
    rewrite Heq, <- app_assoc. cbn [app foldl length].
    split; [done|]. split; [by rewrite Hlen'|]. split; [|split].
    + intros [|i] m' e Hm' He'.
      * cbn in Hm', He'. injection Hm' as <-. injection He' as <-. done.
      * cbn in Hm', He'. destruct (Hnew i m' e Hm' He') as (He1 & Hb1 & Ha1 & Hby1 & Hty1).
        split; [done|]. split; [|by rewrite Hty1].
        rewrite Hb1. by destruct i.
    + intros p' Hp'. apply elem_of_cons in Hp' as [->|Hp'].
      * rewrite Hframe by done. apply lookup_delete_eq.
      * by apply Hfreed.
    + intros p' Hp'. apply not_elem_of_cons in Hp' as [Hne Hp'].
      rewrite Hframe by done. by apply lookup_delete_ne.
Qed.

(** The full layout gives the part of it that the loop needs. *)
Lemma migration_record_layout_sub size :
  migration_record_layout_ok size = true → migration_layout_ok size = true.
Proof.
  intros Hlay. unfold migration_record_layout_ok in Hlay. cbn in Hlay.
  unfold fields_disjoint_b in Hlay.
  repeat match goal with
         | H : _ && _ = true |- _ => apply andb_true_iff in H as [? ?]
         | H : bool_decide _ = true |- _ => apply bool_decide_eq_true in H
         end.
  unfold migration_layout_ok. cbn. unfold fields_disjoint_b.
  repeat (apply andb_true_iff; split); try done;
    apply bool_decide_eq_true;
    first [assumption | apply fields_disjoint_sym; assumption].
Qed.

(** What lines 822-830 leave in the record. *)
Lemma migration_entry_init_loads size stack b :
  migration_record_layout_ok size = true →
  length stack = size →
  UvmEventTypeMigration < 256 →
  let e := migration_entry_init stack b in
  entry_eventType e = UvmEventTypeMigration
  ∧ load mig_srcIndex e = (src b mod 256 ^ Z.of_nat (f_len mig_srcIndex))%Z
  ∧ load mig_dstIndex e = (dst b mod 256 ^ Z.of_nat (f_len mig_dstIndex))%Z
  ∧ load mig_beginTimeStamp e = wrap64 (start_timestamp_cpu b)
  ∧ load mig_endTimeStamp e = wrap64 (end_timestamp_cpu b)
  ∧ load mig_rangeGroupId e = wrap64 (range_group_id b).
Proof.
  intros Hlay Hlen Hty. cbv zeta.
  unfold migration_record_layout_ok in Hlay. cbn in Hlay.
  unfold fields_disjoint_b in Hlay.
  repeat match goal with
         | H : _ && _ = true |- _ => apply andb_true_iff in H as [? ?]
         | H : bool_decide _ = true |- _ => apply bool_decide_eq_true in H
         end.
  assert (∀ f g, fields_disjoint f g → fields_disjoint g f) as Hsym
    by apply fields_disjoint_sym.
  unfold entry_eventType, migration_entry_init.
  repeat split.
  - do 5 (rewrite load_store_other by auto).
    rewrite load_store_same by (rewrite length_memset0; cbn in *; lia).
    cbn [f_len f_eventType]. rewrite Z.mod_small by lia. lia.
  - do 4 (rewrite load_store_other by auto).
    by rewrite load_store_same by (rewrite ?length_store, length_memset0; lia).
  - do 3 (rewrite load_store_other by auto).
    by rewrite load_store_same by (rewrite ?length_store, length_memset0; lia).
  - do 2 (rewrite load_store_other by auto).
    rewrite load_store_same by (rewrite ?length_store, length_memset0; lia).
    by replace (f_len mig_beginTimeStamp) with 8 by done.
  - do 1 (rewrite load_store_other by auto).
    rewrite load_store_same by (rewrite ?length_store, length_memset0; lia).
    by replace (f_len mig_endTimeStamp) with 8 by done.
  - rewrite load_store_same by (rewrite ?length_store, length_memset0; lia).
    by replace (f_len mig_rangeGroupId) with 8 by done.
Qed.

(** One sub-event leaves the members of the block as they are and
    writes its cause. *)
Lemma migration_entry_update_keeps size mig ts entry :
  migration_record_layout_ok size = true →
  length entry = size →
  let e := migration_entry_update mig ts entry in
  block_members e = block_members entry
  ∧ load mig_migrationCause e
    = (cause mig mod 256 ^ Z.of_nat (f_len mig_migrationCause))%Z.
Proof.
  intros Hlay Hlen. cbv zeta.
  unfold migration_record_layout_ok in Hlay. cbn in Hlay.
  unfold fields_disjoint_b in Hlay.
  repeat match goal with
         | H : _ && _ = true |- _ => apply andb_true_iff in H as [? ?]
         | H : bool_decide _ = true |- _ => apply bool_decide_eq_true in H
         end.
  assert (∀ f g, fields_disjoint f g → fields_disjoint g f) as Hsym
    by apply fields_disjoint_sym.
  assert (∀ g, fields_disjoint mig_address g → fields_disjoint mig_migratedBytes g →
               fields_disjoint mig_beginTimeStampGpu g →
               fields_disjoint mig_endTimeStampGpu g →
               fields_disjoint mig_migrationCause g →
               load g (migration_entry_update mig ts entry) = load g entry) as Hk.
  { intros g ? ? ? ? ?. unfold migration_entry_update.
    by do 5 (rewrite load_store_other by done). }
  split.
  - unfold block_members. by rewrite !Hk by auto.
  - unfold migration_entry_update.
    by rewrite load_store_same by (rewrite ?length_store; lia).
Qed.

(** Every record of the loop carries the members of the block as the
    record had them when the loop began, and the cause of its detail. *)
Lemma record_migration_loop_members size tools ps :
  ∀ ms ts entry (migs : gmap nat migration_data_t)
    (trackers : gmap nat uvm_tools_event_tracker_t) emitted r,
  migration_record_layout_ok size = true →
  length entry = size →
  NoDup ps →
  Forall2 (λ p m, migs !! p = Some m) ps ms →
  record_migration_loop tools ps ts entry migs trackers emitted = Some r →
  ∃ new,
    r.2 = emitted ++ new
    ∧ ∀ i m e, ms !! i = Some m → new !! i = Some e →
        block_members e = block_members entry
        ∧ load mig_migrationCause e
          = (cause m mod 256 ^ Z.of_nat (f_len mig_migrationCause))%Z.
Proof.
  induction ps as [|p ps IH]; intros ms ts entry migs trackers emitted r
    Hlay Hlen Hnd Hall Hrun.
  - cbn in Hrun. injection Hrun as <-. exists []. cbn. rewrite app_nil_r.
    split; [done|]. intros i m e _ He. by rewrite lookup_nil in He.
  - apply Forall2_cons_inv_l in Hall as (m & ms' & Hm & Hall & ->).
    apply NoDup_cons in Hnd as [Hp Hnd].
    cbn [record_migration_loop] in Hrun. rewrite Hm in Hrun.
    destruct (migration_entry_update_keeps size m ts entry Hlay Hlen) as [Hkeep Hcause].
    destruct (IH ms' _ _ _ _ _ r Hlay
                (eq_trans (migration_entry_update_length m ts entry) Hlen) Hnd
                (Forall2_lookup_delete migs p ps ms' Hp Hall) Hrun)
      as (new & Hr & Hnew).
    exists (migration_entry_update m ts entry :: new).
    split; [by rewrite Hr, <- app_assoc|].
    intros [|i] m' e Hm' He'.
    + cbn in Hm', He'. injection Hm' as <-. injection He' as <-. done.
    + cbn in Hm', He'. destruct (Hnew i m' e Hm' He') as [Hk Hc].
      split; [by rewrite Hk|exact Hc].
Qed.

(** Records of one event type, recorded one after the other: every
    tracker on the list of that type has had each of them enqueued, in
    order; the other trackers are as they were. *)
Lemma record_events_lookup tools ty (out : list UvmEventEntry) :
  ∀ (h : gmap nat uvm_tools_event_tracker_t) p,
  NoDup (tools_queues tools !!! ty) →
  Forall (λ e, entry_eventType e = ty) out →
  foldl (λ h e, uvm_tools_record_event tools e h) h out !! p
  = if decide (p ∈ tools_queues tools !!! ty)
    then (λ t, foldl (λ t e, tracker_enqueue e t) t out) <$> h !! p
    else h !! p.
Proof.
  induction out as [|e out IH]; intros h p Hnd Hty.
  - cbn. case_decide; [|done]. by destruct (h !! p).
  - apply Forall_cons in Hty as [He Hty]. cbn [foldl]. rewrite IH by done.
    assert (uvm_tools_record_event tools e h !! p
            = if decide (p ∈ tools_queues tools !!! ty)
              then tracker_enqueue e <$> h !! p else h !! p) as ->.
    { unfold uvm_tools_record_event. rewrite He. by apply foldl_alter_lookup. }
    case_decide; [|done]. by destruct (h !! p).
Qed.

Lemma foldl_tracker_enqueue_queue (out : list UvmEventEntry) :
  ∀ f q,
  foldl (λ t e, tracker_enqueue e t) (Tracker f (inl q)) out
  = Tracker f (inl (enqueue_all out q)).
Proof.
  induction out as [|e out IH]; intros f q; [done|].
  cbn [foldl]. unfold tracker_enqueue at 2. cbn [body uvm_file]. by rewrite IH.
Qed.

(** C2. A block record with [K] details on its list, all allocated,
    handed to [record_migration_events]: the worker calls
    [uvm_tools_record_event] exactly [K] times, in the order of the list.
    Every record is a migration event and carries the source, the
    destination, the CPU timestamps and the range group of the block;
    the [i]-th record carries the cause, the address, the byte count and
    the GPU end timestamp of the [i]-th detail; its GPU begin timestamp
    is the GPU end timestamp of the detail before it, that is of the
    record emitted before it, and the start GPU timestamp of the block
    for the first. Every queue tracker on the collector's list for
    migration events has had the [K] records enqueued, in that order,
    and every tracker that is not on that list is as it was. The loop
    ends when the list is used up; afterwards the block record and every
    one of its details are freed, and nothing else is. *)
Theorem record_migration_events_chain (size : nat) (stack : UvmEventEntry) (args : nat)
    (blocks : gmap nat block_migration_data_t) (migs : gmap nat migration_data_t)
    (spaces : gmap nat uvm_va_space_t) (trackers : gmap nat uvm_tools_event_tracker_t)
    (b : block_migration_data_t) (s : uvm_va_space_t) (ms : list migration_data_t) :
  migration_record_layout_ok size = true →
  length stack = size →
  UvmEventTypeMigration < 256 →
  blocks !! args = Some b →
  spaces !! va_space b = Some s →
  NoDup (events b) →
  Forall2 (λ p m, migs !! p = Some m) (events b) ms →
  is_NvU64 (start_timestamp_gpu b) →
  Forall (λ m, is_NvU64 (end_timestamp_gpu m)) ms →
  NoDup (tools_queues (va_tools s) !!! UvmEventTypeMigration) →
  ∃ migs' trackers' out,
    record_migration_events stack args blocks migs spaces trackers
    = Some (delete args blocks, migs', trackers', out)
    ∧ trackers' = foldl (λ h e, uvm_tools_record_event (va_tools s) e h) trackers out
    ∧ length out = length ms
    ∧ (∀ i m e, ms !! i = Some m → out !! i = Some e →
         entry_eventType e = UvmEventTypeMigration
         ∧ load mig_srcIndex e = (src b mod 256 ^ Z.of_nat (f_len mig_srcIndex))%Z
         ∧ load mig_dstIndex e = (dst b mod 256 ^ Z.of_nat (f_len mig_dstIndex))%Z
         ∧ load mig_beginTimeStamp e = wrap64 (start_timestamp_cpu b)
         ∧ load mig_endTimeStamp e = wrap64 (end_timestamp_cpu b)
         ∧ load mig_rangeGroupId e = wrap64 (range_group_id b)
         ∧ load mig_migrationCause e
           = (cause m mod 256 ^ Z.of_nat (f_len mig_migrationCause))%Z
         ∧ load mig_address e = wrap64 (address m)
         ∧ load mig_migratedBytes e = wrap64 (bytes m)
         ∧ load mig_endTimeStampGpu e = end_timestamp_gpu m
         ∧ load mig_beginTimeStampGpu e
           = match i with
             | 0 => start_timestamp_gpu b
             | S j => default 0%Z (end_timestamp_gpu <$> ms !! j)
             end)
    ∧ (∀ i e e', out !! i = Some e → out !! S i = Some e' →
         load mig_beginTimeStampGpu e' = load mig_endTimeStampGpu e)
    ∧ (∀ e, out !! 0 = Some e → load mig_beginTimeStampGpu e = start_timestamp_gpu b)
    ∧ (∀ p f q, trackers !! p = Some (Tracker f (inl q)) →
         p ∈ tools_queues (va_tools s) !!! UvmEventTypeMigration →
         trackers' !! p = Some (Tracker f (inl (enqueue_all out q))))
    ∧ (∀ p, p ∉ tools_queues (va_tools s) !!! UvmEventTypeMigration →
         trackers' !! p = trackers !! p)
    ∧ delete args blocks !! args = None
    ∧ (∀ p, p ∈ events b → migs' !! p = None)
    ∧ (∀ p, p ∉ events b → migs' !! p = migs !! p).
Proof.
  intros Hfull Hlen Hbyte Hb Hs Hnd Hall Hts Hends Hlist.
  pose proof (migration_record_layout_sub size Hfull) as Hlay.
  assert (length (migration_entry_init stack b) = size) as Hlen_init.
  { unfold migration_entry_init. by rewrite !length_store, length_memset0. }
  unfold record_migration_events. rewrite Hb, Hs.
  destruct (record_migration_loop_spec size (va_tools s) (events b) ms
              (start_timestamp_gpu b) (migration_entry_init stack b) migs trackers []
              Hlay) as (migs' & out & Heq & Hlen' & Hout & Hfreed & Hframe); try done.
  destruct (record_migration_loop_members size (va_tools s) (events b) ms
              (start_timestamp_gpu b) (migration_entry_init stack b) migs trackers [] _
              Hfull Hlen_init Hnd Hall Heq) as (out' & Hout' & Hmembers).
  cbn [snd app] in Hout'. subst out'.
  destruct (migration_entry_init_loads size stack b Hfull Hlen Hbyte)
    as (Hty & Hsrc & Hdst & Hbcpu & Hecpu & Hrg).
  assert (∀ i m e, ms !! i = Some m → out !! i = Some e →
            entry_eventType e = UvmEventTypeMigration
            ∧ load mig_srcIndex e = (src b mod 256 ^ Z.of_nat (f_len mig_srcIndex))%Z
            ∧ load mig_dstIndex e = (dst b mod 256 ^ Z.of_nat (f_len mig_dstIndex))%Z
            ∧ load mig_beginTimeStamp e = wrap64 (start_timestamp_cpu b)
            ∧ load mig_endTimeStamp e = wrap64 (end_timestamp_cpu b)
            ∧ load mig_rangeGroupId e = wrap64 (range_group_id b)
            ∧ load mig_migrationCause e
              = (cause m mod 256 ^ Z.of_nat (f_len mig_migrationCause))%Z) as Hblock.
  { intros i m e Hm He. destruct (Hmembers i m e Hm He) as [Hk Hc].
    unfold block_members in Hk. injection Hk as Hk1 Hk2 Hk3 Hk4 Hk5 Hk6.
    unfold entry_eventType in *. rewrite Hk1, Hk2, Hk3, Hk4, Hk5, Hk6. done. }
  assert (Forall (λ e, entry_eventType e = UvmEventTypeMigration) out) as Htypes.
  { apply Forall_lookup. intros i e He.
    assert (is_Some (ms !! i)) as [m Hm].
    { apply lookup_lt_is_Some. rewrite <- Hlen'. by eapply lookup_lt_Some. }
    by destruct (Hblock i m e Hm He) as (? & _). }
  rewrite Heq. cbn [app]. eexists migs', _, out.
  split; [reflexivity|]. split; [reflexivity|]. split; [done|].
  split; [|split; [|split; [|split; [|split; [|split; [|split]]]]]].
  - intros i m e Hm He.
    destruct (Hout i m e Hm He) as (? & ? & ? & ? & ?).
    destruct (Hblock i m e Hm He) as (? & ? & ? & ? & ? & ? & ?). done.
  - intros i e e' He He'.
    assert (is_Some (ms !! i)) as [m Hm].
    { apply lookup_lt_is_Some. rewrite <- Hlen'. by eapply lookup_lt_Some. }
    assert (is_Some (ms !! S i)) as [m' Hm'].
    { apply lookup_lt_is_Some. rewrite <- Hlen'. by eapply lookup_lt_Some. }
    destruct (Hout i m e Hm He) as (-> & _).
    destruct (Hout (S i) m' e' Hm' He') as (_ & -> & _).
    by rewrite Hm.
  - intros e He.
    assert (is_Some (ms !! 0)) as [m Hm].
    { apply lookup_lt_is_Some. rewrite <- Hlen'. by eapply lookup_lt_Some. }
    by destruct (Hout 0 m e Hm He) as (_ & -> & _).
  - intros p f q Hp Hin.
    rewrite (record_events_lookup _ UvmEventTypeMigration) by done.
    rewrite decide_True by done. rewrite Hp. cbn.
    by rewrite foldl_tracker_enqueue_queue.
  - intros p Hnin.
    rewrite (record_events_lookup _ UvmEventTypeMigration) by done.
    by rewrite decide_False by done.
  - apply lookup_delete_eq.
  - done.
  - done.
Qed.

End migration_claims.

(** The theorem at a block record with two details and a queue tracker
    on the collector's list for migration events. *)
Lemma record_migration_events_chain_witness :
  let blocks : gmap nat block_migration_data_t := {[ 100 := example_block ]} in
  let trs : gmap nat uvm_tools_event_tracker_t := {[ 10 := example_queue_tracker 1 ]} in
  let ms := [MigrationData 4096 65536 0 1500 1; MigrationData 8192 131072 0 1900 1] in
  let s := VaSpace (VaTools true (<[2 := [10]]> (replicate 64 [])) (replicate 10 []))
                   (PerfEvents false true) in
  migration_record_layout_ok (hdr := uvm_types_example) 64 = true
  ∧ length (replicate 64 170%Z) = 64
  ∧ UvmEventTypeMigration (uvm_types_h := uvm_types_example) < 256
  ∧ blocks !! 100 = Some example_block
  ∧ example_spaces_migration !! va_space example_block = Some s
  ∧ NoDup (events example_block)
  ∧ Forall2 (λ p m, example_details !! p = Some m) (events example_block) ms
  ∧ is_NvU64 (start_timestamp_gpu example_block)
  ∧ Forall (λ m, is_NvU64 (end_timestamp_gpu m)) ms
  ∧ NoDup (tools_queues (va_tools s)
             !!! UvmEventTypeMigration (uvm_types_h := uvm_types_example))
  ∧ ∃ migs' trackers' out,
      record_migration_events (hdr := uvm_types_example) (replicate 64 170%Z) 100
        blocks example_details example_spaces_migration trs
      = Some (delete 100 blocks, migs', trackers', out)
      ∧ length out = 2
      ∧ trackers' !! 10
        = Some (Tracker (Some 1)
                  (inl (enqueue_all out
                          (Queue 0 (replicate 4 (replicate 64 0%Z)) 4 2
                             (ControlData 0 0 0 0 (replicate 64 0%Z)) 0 false 0)))).
Proof.
  cbv zeta.
  assert (migration_record_layout_ok (hdr := uvm_types_example) 64 = true) as H1
    by (by vm_compute).
  assert (length (replicate 64 170%Z) = 64) as H2 by (by vm_compute).
  assert (UvmEventTypeMigration (uvm_types_h := uvm_types_example) < 256) as Hty
    by (cbn; lia).
  assert (({[ 100 := example_block ]} : gmap nat block_migration_data_t) !! 100
          = Some example_block) as H3 by (by vm_compute).
  assert (example_spaces_migration !! va_space example_block
          = Some (VaSpace (VaTools true (<[2 := [10]]> (replicate 64 []))
                                   (replicate 10 []))
                          (PerfEvents false true))) as H4 by (by vm_compute).
  assert (NoDup (events example_block)) as H5.
  { cbn. apply NoDup_cons. split; [|apply NoDup_singleton].
    intros Hin. apply list_elem_of_singleton in Hin. lia. }
  assert (Forall2 (λ p m, example_details !! p = Some m) (events example_block)
            [MigrationData 4096 65536 0 1500 1; MigrationData 8192 131072 0 1900 1])
    as H6.
  { cbn. repeat constructor. }
  assert (is_NvU64 (start_timestamp_gpu example_block)) as H7
    by (unfold is_NvU64; cbn; lia).
  assert (Forall (λ m, is_NvU64 (end_timestamp_gpu m))
            [MigrationData 4096 65536 0 1500 1; MigrationData 8192 131072 0 1900 1])
    as H8 by (repeat constructor; unfold is_NvU64; cbn; lia).
  assert (NoDup (tools_queues
                   (va_tools (VaSpace (VaTools true (<[2 := [10]]> (replicate 64 []))
                                               (replicate 10 []))
                                      (PerfEvents false true)))
                   !!! UvmEventTypeMigration (uvm_types_h := uvm_types_example))) as H9
    by (cbn; apply NoDup_singleton).
  repeat (split; [assumption|]).
  destruct (record_migration_events_chain (hdr := uvm_types_example) 64
              (replicate 64 170%Z) 100 {[ 100 := example_block ]} example_details
              example_spaces_migration {[ 10 := example_queue_tracker 1 ]}
              example_block _ _ H1 H2 Hty H3 H4 H5 H6 H7 H8 H9)
    as (migs' & trackers' & out & Heq & _ & Hlen & _ & _ & _ & Hdeliver & _).
  exists migs', trackers', out. split; [exact Heq|]. split; [exact Hlen|].
  apply Hdeliver; [reflexivity|]. cbn. apply list_elem_of_singleton. reflexivity.
Defined.

(** C6 (the code does not do it on one path). The split-invalidate test
    event is recorded from a local record that is never cleared: with
    the stack holding the byte 170 everywhere, and a queue tracker
    subscribed to the event type, the record copied into slot 0 of the
    ring buffer is the discriminant followed by 63 bytes of stack
    content; byte 1, which no statement of the function populates, is
    170 and not 0. *)
Theorem split_invalidate_copies_stack_bytes :
  let stack := replicate 64 170%Z in
  let tools := VaTools true (<[62 := [10]]> (replicate 64 [])) (replicate 10 []) in
  let trs : gmap nat uvm_tools_event_tracker_t := {[ 10 := example_queue_tracker 1 ]} in
  ∃ q, uvm_tools_test_hmm_split_invalidate (hdr := uvm_types_example) stack tools trs !! 10
       = Some (Tracker (Some 1) (inl q))
     ∧ queue q !! 0 = Some (62%Z :: replicate 63 170%Z)
     ∧ split_invalidate_entry (hdr := uvm_types_example) stack !! 1 = Some 170%Z
     ∧ gpu_fault_entry (hdr := uvm_types_example) stack 1
         (FaultBufferEntry UVM_FAULT_TYPE_WRITE UVM_FAULT_ACCESS_TYPE_WRITE
            UVM_FAULT_CLIENT_TYPE_GPC true 3 0 5 4096 77) 9 88 !! 37 = Some 0%Z.
Proof.
  cbv zeta. eexists. split; [by vm_compute|]. by vm_compute.
Qed.

(** ** Counters *)

Section counter_claims.
Context {hdr : uvm_types_h}.
Implicit Types (c : uvm_tools_counter_t) (t : uvm_tools_event_tracker_t).

Lemma counter_applies_cpu_fault proc c :
  counter_applies UvmCounterNameCpuPageFaultCount proc c = true
  ↔ (all_processors c = true ∧ proc = NV_PROCESSOR_UUID_CPU_DEFAULT)
    ∨ processor c = proc.
Proof.
  unfold counter_applies, counter_matches_processor, uvm_processor_uuid_eq.
  rewrite bool_decide_eq_true_2 by done.
  rewrite orb_true_iff, andb_true_iff, !bool_decide_eq_true. done.
Qed.

Lemma counter_applies_other counter proc c :
  counter ≠ UvmCounterNameCpuPageFaultCount →
  counter_applies counter proc c = true
  ↔ all_processors c = true ∨ processor c = proc.
Proof.
  intros Hne.
  unfold counter_applies, counter_matches_processor, uvm_processor_uuid_eq.
  rewrite bool_decide_eq_false_2 by done.
  rewrite orb_true_iff, andb_true_iff, !bool_decide_eq_true. intuition.
Qed.

Lemma inc_counter_lookup tools counter amount proc
    (trackers : gmap nat uvm_tools_event_tracker_t) p t c :
  NoDup (tools_counters tools !!! counter) →
  p ∈ tools_counters tools !!! counter →
  trackers !! p = Some t → body t = inr c →
  (0 < amount)%Z →
  uvm_tools_inc_counter tools counter amount proc trackers !! p
  = Some (Tracker (uvm_file t)
            (inr (if counter_applies counter proc c
                  then set_counters (alter (λ v, wrap64 (v + amount)%Z) counter (counters c)) c
                  else c))).
Proof.
  intros Hnd Hin Ht Hc Hpos. unfold uvm_tools_inc_counter.
  apply Z.ltb_lt in Hpos as ->.
  rewrite foldl_alter_lookup, decide_True, Ht by done. cbn.
  unfold tracker_inc_counter. rewrite Hc.
  destruct (counter_applies counter proc c); [done|].
  destruct t as [f b]. cbn in *. by subst.
Qed.

(** C4. One call of [uvm_tools_inc_counter] with a positive amount, seen
    from a subscriber [c] on the list of the counter: its accumulator for
    that counter moves by [amount] once, or not at all, and nothing else
    of the subscriber changes. For the CPU page-fault counter it moves
    exactly when the all-processors rule applies ([c] is an all-processors
    subscriber and the identity is the default CPU identity) or the
    identity is the subscriber's own; when both hold it still moves once.
    For every other counter an all-processors subscriber moves whatever
    the identity, and a specific-processor subscriber moves exactly when
    the identity is its own. *)
Theorem inc_counter_one_rule (tools : uvm_va_space_tools_t) (counter : nat)
    (amount : Z) (proc : NvProcessorUuid)
    (trackers : gmap nat uvm_tools_event_tracker_t)
    (p : nat) (t : uvm_tools_event_tracker_t) (c : uvm_tools_counter_t) :
  NoDup (tools_counters tools !!! counter) →
  p ∈ tools_counters tools !!! counter →
  trackers !! p = Some t → body t = inr c →
  (0 < amount)%Z →
  let moved := alter (λ v, wrap64 (v + amount)%Z) counter (counters c) in
  ∃ c', uvm_tools_inc_counter tools counter amount proc trackers !! p
          = Some (Tracker (uvm_file t) (inr c'))
    ∧ (counters c' = moved ∨ counters c' = counters c)
    ∧ subscribed_counters c' = subscribed_counters c
    ∧ all_processors c' = all_processors c ∧ processor c' = processor c
    ∧ (∀ v, counters c !! counter = Some v →
            moved !! counter = Some (wrap64 (v + amount)%Z))
    ∧ (counter = UvmCounterNameCpuPageFaultCount →
         ((all_processors c = true ∧ proc = NV_PROCESSOR_UUID_CPU_DEFAULT)
          ∨ processor c = proc → counters c' = moved)
         ∧ (¬ ((all_processors c = true ∧ proc = NV_PROCESSOR_UUID_CPU_DEFAULT)
               ∨ processor c = proc) → counters c' = counters c))
    ∧ (counter ≠ UvmCounterNameCpuPageFaultCount →
         (all_processors c = true → counters c' = moved)
         ∧ (all_processors c = false →
              (processor c = proc → counters c' = moved)
              ∧ (processor c ≠ proc → counters c' = counters c))).
Proof.
  intros Hnd Hin Ht Hc Hpos. cbv zeta.
  eexists. split; [by eapply inc_counter_lookup|].
  split; [by destruct (counter_applies counter proc c); [left|right]|].
  split; [by destruct (counter_applies _ _ _)|].
  split; [by destruct (counter_applies _ _ _)|].
  split; [by destruct (counter_applies _ _ _)|].
  split; [intros v Hv; by rewrite list_lookup_alter_eq, Hv|].
  split.
  - intros ->. split.
    + intros Hr. apply counter_applies_cpu_fault in Hr. by rewrite Hr.
    + intros Hr. destruct (counter_applies _ _ _) eqn:E; [|done].
      by apply counter_applies_cpu_fault in E.
  - intros Hne. split; [|intros Hall; split].
    + intros Hall.
      assert (counter_applies counter proc c = true) as ->; [|done].
      apply counter_applies_other; auto.
    + intros Hp.
      assert (counter_applies counter proc c = true) as ->; [|done].
      apply counter_applies_other; auto.
    + intros Hp. destruct (counter_applies _ _ _) eqn:E; [|done].
      apply counter_applies_other in E; [|done]. destruct E; congruence.
Qed.

(** C10. With amount 0 the increment touches no tracker: every
    accumulator of every subscriber is as it was. *)
Theorem inc_counter_zero (tools : uvm_va_space_tools_t) (counter : nat)
    (proc : NvProcessorUuid) (trackers : gmap nat uvm_tools_event_tracker_t) :
  uvm_tools_inc_counter tools counter 0 proc trackers = trackers.
Proof. done. Qed.

End counter_claims.

(** An all-processors subscriber whose own processor is the default CPU
    identity: for a CPU fault reported against that identity both rules
    hold, and the accumulator moves from 0 to 1. *)
Lemma inc_counter_one_rule_witness :
  let tools := VaTools true (replicate 64 []) (<[2 := [12]]> (replicate 10 [])) in
  let trs : gmap nat uvm_tools_event_tracker_t :=
    {[ 12 := example_counter_tracker 1 true (replicate 16 0%Z) ]} in
  NoDup (tools_counters tools !!! 2) ∧ 12 ∈ tools_counters tools !!! 2
  ∧ (0 < 1)%Z
  ∧ ∃ c', uvm_tools_inc_counter (hdr := uvm_types_example) tools 2 1
            (replicate 16 0%Z) trs !! 12
          = Some (Tracker (Some 1) (inr c'))
          ∧ counters c' !! 2 = Some 1%Z.
Proof.
  cbv zeta.
  assert (NoDup (tools_counters
            (VaTools true (replicate 64 []) (<[2 := [12]]> (replicate 10 []))) !!! 2))
    as Hnd by (cbn; apply NoDup_singleton).
  assert (12 ∈ tools_counters
            (VaTools true (replicate 64 []) (<[2 := [12]]> (replicate 10 []))) !!! 2)
    as Hin by (cbn; apply list_elem_of_singleton; done).
  split; [exact Hnd|]. split; [exact Hin|]. split; [lia|].
  destruct (inc_counter_one_rule (hdr := uvm_types_example) _ 2 1 (replicate 16 0%Z)
              {[ 12 := example_counter_tracker 1 true (replicate 16 0%Z) ]} 12
              (example_counter_tracker 1 true (replicate 16 0%Z))
              (Counter 0 (replicate 10 0%Z) true (replicate 16 0%Z))
              Hnd Hin (lookup_singleton_eq _ _) eq_refl ltac:(lia))
    as (c' & Hl & _ & _ & _ & _ & _ & Hcpu & _).
  exists c'. split; [exact Hl|].
  destruct (Hcpu eq_refl) as [Hmove _].
  rewrite Hmove; [done|]. by right.
Defined.

(** ** Registry: the loops over the list heads *)

Section registry_loops.

Lemma foldl_pair_cond_alter {A B} (P : nat → bool) (f : A → A) (g : B → B)
    (xs : list nat) (cnt : list A) (ls : list B) :
  foldl (λ '(cnt, ls) i, if P i then (alter f i cnt, alter g i ls) else (cnt, ls))
        (cnt, ls) xs
  = (foldl (λ c i, if P i then alter f i c else c) cnt xs,
     foldl (λ l i, if P i then alter g i l else l) ls xs).
Proof.
  revert cnt ls. induction xs as [|x xs IH]; intros cnt ls; [done|].
  cbn [foldl]. destruct (P x); apply IH.
Qed.

Lemma foldl_cond_alter_length {A} (P : nat → bool) (f : A → A) xs (l : list A) :
  length (foldl (λ l i, if P i then alter f i l else l) l xs) = length l.
Proof.
  revert l. induction xs as [|x xs IH]; intros l; [done|].
  cbn [foldl]. rewrite IH. destruct (P x); [apply length_alter|done].
Qed.

(** A loop [for (i = 0; i < n; i++) if (P i) a[i] = f(a[i])]. *)
Lemma foldl_cond_alter_lookup {A} (P : nat → bool) (f : A → A) n (l : list A) j :
  foldl (λ l i, if P i then alter f i l else l) l (seq 0 n) !! j
  = if bool_decide (j < n) && P j then f <$> l !! j else l !! j.
Proof.
  induction n as [|n IH].
  - cbn. rewrite bool_decide_eq_false_2 by lia. done.
  - rewrite seq_S, foldl_app. cbn [foldl plus].
    destruct (decide (j = n)) as [->|Hne].
    + rewrite bool_decide_eq_true_2 by lia. cbn [andb].
      destruct (P n) eqn:HP.
      * rewrite list_lookup_alter_eq, IH.
        rewrite bool_decide_eq_false_2 by lia. done.
      * rewrite IH. rewrite bool_decide_eq_false_2 by lia. done.
    + assert (foldl (λ l i, if P i then alter f i l else l) l (seq 0 n) !! j
              = (if P n
                 then alter f n (foldl (λ l i, if P i then alter f i l else l) l (seq 0 n))
                 else foldl (λ l i, if P i then alter f i l else l) l (seq 0 n)) !! j) as <-.
      { destruct (P n); [|done]. by rewrite list_lookup_alter_ne. }
      rewrite IH.
      destruct (decide (j < n)).
      * by rewrite !bool_decide_eq_true_2 by lia.
      * by rewrite !bool_decide_eq_false_2 by lia.
Qed.

End registry_loops.

(** ** Registry: bits of the masks *)

Section mask_bits.
Local Open Scope Z_scope.

Lemma testbit_wrap64 x i : 0 ≤ i < 64 → Z.testbit (wrap64 x) i = Z.testbit x i.
Proof. intros Hi. unfold wrap64. apply Z.mod_pow2_bits_low. lia. Qed.

Lemma insertable_bit mask sub i :
  0 ≤ i < 64 →
  Z.testbit (Z.land mask (wrap64 (Z.lnot sub))) i
  = Z.testbit mask i && negb (Z.testbit sub i).
Proof.
  intros Hi. rewrite Z.land_spec, testbit_wrap64, Z.lnot_spec by lia. done.
Qed.

Lemma unsubscribed_bit mask sub i :
  0 ≤ i < 64 →
  Z.testbit (Z.land sub (wrap64 (Z.lnot mask))) i
  = Z.testbit sub i && negb (Z.testbit mask i).
Proof.
  intros Hi. rewrite Z.land_spec, testbit_wrap64, Z.lnot_spec by lia. done.
Qed.

Lemma wrap32_succ n : wrap32 (wrap32 n + 1) = wrap32 (n + 1).
Proof. unfold wrap32. apply Zplus_mod_idemp_l. Qed.

Lemma wrap32_pred n : wrap32 (wrap32 n - 1) = wrap32 (n - 1).
Proof. unfold wrap32. apply Zminus_mod_idemp_l. Qed.

Lemma wrap32_idemp n : wrap32 (wrap32 n) = wrap32 n.
Proof. unfold wrap32. apply Z.mod_mod. lia. Qed.

End mask_bits.

(** ** Registry: sums over the collectors *)

Section map_sums.
Context {A : Type} (g : A → nat).

Lemma map_sum_insert_fresh (m : gmap nat A) k x :
  m !! k = None → map_sum g (<[k := x]> m) = g x + map_sum g m.
Proof.
  intros Hk. unfold map_sum. apply (map_fold_insert_L (λ _ a acc, g a + acc)); [|done].
  intros. lia.
Qed.

Lemma map_sum_insert (m : gmap nat A) k x y :
  m !! k = Some x →
  map_sum g (<[k := y]> m) + g x = map_sum g m + g y.
Proof.
  intros Hk.
  rewrite <- (insert_delete_id m k x) at 2 by done.
  rewrite <- (insert_delete_eq m k y).
  rewrite !map_sum_insert_fresh by apply lookup_delete_eq. lia.
Qed.

Lemma map_sum_zero (m : gmap nat A) :
  map_sum g m = 0 ↔ ∀ k x, m !! k = Some x → g x = 0.
Proof.
  unfold map_sum.
  induction m as [|k x m Hk Hfold IH] using map_first_key_ind.
  - rewrite map_fold_empty. split; [|done]. intros _ k x Hl.
    by rewrite lookup_empty in Hl.
  - rewrite map_fold_insert_first_key by done. split.
    + intros Hsum j y Hj. apply lookup_insert_Some in Hj as [[<- <-]|[Hne Hj]]; [lia|].
      assert (map_fold (λ _ a acc, g a + acc) 0 m = 0) as Hz by lia.
      by apply (proj1 IH Hz j).
    + intros Hall.
      rewrite (Hall k x) by apply lookup_insert_eq.
      rewrite (proj2 IH); [done|].
      intros j y Hj. apply (Hall j). rewrite lookup_insert_ne; [done|].
      intros <-. congruence.
Qed.

End map_sums.

(** ** Registry: the enabled counts *)

Section registry_claims.
Context {hdr : uvm_types_h}.

Lemma insert_event_tracker_eq node n mask sub (ls : list (list nat)) (cnt : list Z) :
  insert_event_tracker node n mask sub ls cnt
  = (foldl (λ c i, if Z.testbit (Z.land mask (wrap64 (Z.lnot sub))) (Z.of_nat i)
                   then alter (λ n, wrap32 (n + 1)) i c else c) cnt (seq 0 n),
     foldl (λ l i, if Z.testbit (Z.land mask (wrap64 (Z.lnot sub))) (Z.of_nat i)
                   then alter (cons node) i l else l) ls (seq 0 n),
     Z.lor sub mask, Z.land mask (wrap64 (Z.lnot sub))).
Proof.
  unfold insert_event_tracker.
  by rewrite (foldl_pair_cond_alter
                (λ i, Z.testbit (Z.land mask (wrap64 (Z.lnot sub))) (Z.of_nat i))).
Qed.

Lemma remove_event_tracker_eq node n mask sub (ls : list (list nat)) (cnt : list Z) :
  remove_event_tracker node n mask sub ls cnt
  = (foldl (λ c i, if Z.testbit (Z.land mask sub) (Z.of_nat i)
                   then alter (λ n, wrap32 (n - 1)) i c else c) cnt (seq 0 n),
     foldl (λ l i, if Z.testbit (Z.land mask sub) (Z.of_nat i)
                   then alter (filter (λ x, x ≠ node)) i l else l) ls (seq 0 n),
     Z.land sub (wrap64 (Z.lnot mask))).
Proof.
  unfold remove_event_tracker.
  by rewrite (foldl_pair_cond_alter (λ i, Z.testbit (Z.land mask sub) (Z.of_nat i))).
Qed.

(** Unlinking a node from the list it is on takes one element away. *)
Lemma length_filter_remove (p : nat) (l : list nat) :
  NoDup l → p ∈ l → S (length (filter (λ x, x ≠ p) l)) = length l.
Proof.
  induction l as [|a l IH]; intros Hnd Hin; [by apply elem_of_nil in Hin|].
  apply NoDup_cons in Hnd as [Ha Hnd].
  destruct (decide (a = p)) as [->|Hne].
  - rewrite filter_cons_False by (intros Hp; by apply Hp). cbn. f_equal.
    clear IH Hin Hnd. induction l as [|b l IH]; [done|].
    rewrite filter_cons_True.
    + cbn. f_equal. apply IH. intros Hin. apply Ha, elem_of_cons. by right.
    + intros ->. apply Ha, elem_of_cons. by left.
  - rewrite filter_cons_True by done. cbn. f_equal. apply IH; [done|].
    apply elem_of_cons in Hin as [->|Hin]; done.
Qed.

(** The frame of one registry operation on a queue tracker [p] of
    collector [v]: when the new lists and counts move together, list by
    list, and the tracker is on a list exactly when its new mask says so,
    the registry stays consistent. *)
Lemma registry_update_inv st p v q s ls' cnt' sub' :
  registry_inv st →
  trackers st !! p = Some (Tracker (Some v) (inl q)) →
  va_spaces st !! v = Some s →
  length ls' = length (tools_queues (va_tools s)) →
  length cnt' = length (g_tools_enabled_event_count st) →
  (∀ i l c, tools_queues (va_tools s) !! i = Some l →
     g_tools_enabled_event_count st !! i = Some c →
     ∃ l' (d : Z), ls' !! i = Some l' ∧ NoDup l'
       ∧ (∀ p', p' ≠ p → (p' ∈ l' ↔ p' ∈ l))
       ∧ (p ∈ l' ↔ Z.testbit sub' (Z.of_nat i) = true)
       ∧ Z.of_nat (length l') = (Z.of_nat (length l) + d)%Z
       ∧ cnt' !! i = Some (wrap32 (c + d))) →
  registry_inv
    (Globals (g_tools_va_space_list st) cnt'
       (<[v := set_tools_queues ls' s]> (va_spaces st))
       (<[p := Tracker (Some v) (inl (set_subscribed_queues sub' q))]> (trackers st))).
Proof.
  intros (H64 & Hlen & Hq & Hls & Hmem & Hcnt) Hp Hv Hll Hcl Hstep.
  assert (∀ i, i < UvmEventNumTypesAll →
            ∃ l c, tools_queues (va_tools s) !! i = Some l
                   ∧ g_tools_enabled_event_count st !! i = Some c) as Hex.
  { intros i Hi.
    destruct (lookup_lt_is_Some_2 (tools_queues (va_tools s)) i) as [l Hl];
      [rewrite (Hls v s) by done; lia|].
    destruct (lookup_lt_is_Some_2 (g_tools_enabled_event_count st) i) as [c Hc]; [lia|].
    eauto. }
  split; [done|]. split; [cbn; lia|]. split; [|split; [|split]]; cbn.
  - intros p' t' Ht'. apply lookup_insert_Some in Ht' as [[_ <-]|[_ Ht']]; [done|].
    by eapply Hq.
  - intros v' s' Hs'. apply lookup_insert_Some in Hs' as [[_ <-]|[_ Hs']].
    + cbn. rewrite Hll. by eapply Hls.
    + by eapply Hls.
  - intros v' s' i l' Hs' Hl'.
    apply lookup_insert_Some in Hs' as [[<- <-]|[Hne Hs']].
    + cbn in Hl'.
      assert (i < UvmEventNumTypesAll) as Hi.
      { apply lookup_lt_Some in Hl'. rewrite Hll, (Hls v s) in Hl' by done. done. }
      destruct (Hex i Hi) as (l & c & Hl & Hc).
      destruct (Hstep i l c Hl Hc) as (l'' & d & Hl'' & Hnd & Hoth & Hown & _).
      assert (l'' = l') as -> by congruence.
      split; [done|]. intros p'.
      destruct (decide (p' = p)) as [->|Hpne].
      * rewrite Hown, lookup_insert_eq. split.
        -- intros Hb. eexists. split; [done|]. done.
        -- intros (q0 & [= <-] & Hb). done.
      * rewrite Hoth, lookup_insert_ne by done. by apply (Hmem v s i l).
    + destruct (Hmem v' s' i l' Hs' Hl') as [Hnd Hin]. split; [done|].
      intros p'. rewrite Hin.
      destruct (decide (p' = p)) as [->|Hpne].
      * rewrite lookup_insert_eq, Hp. split; intros (q0 & [= ] & _); congruence.
      * by rewrite lookup_insert_ne.
  - intros i Hi.
    destruct (Hex i Hi) as (l & c & Hl & Hc).
    destruct (Hstep i l c Hl Hc) as (l' & d & Hl' & _ & _ & _ & Hd & Hc').
    rewrite Hc'. f_equal.
    rewrite Hcnt in Hc by done. injection Hc as <-.
    unfold event_subscribers. cbn.
    pose proof (map_sum_insert (λ s, length (tools_queues (va_tools s) !!! i))
                  (va_spaces st) v s (set_tools_queues ls' s) Hv) as Hsum.
    cbn in Hsum.
    rewrite (list_lookup_total_correct _ _ _ Hl) in Hsum.
    rewrite (list_lookup_total_correct _ _ _ Hl') in Hsum.
    unfold wrap32. rewrite Zplus_mod_idemp_l. f_equal. lia.
Qed.

Lemma subscribe_inv p mask st :
  registry_inv st → registry_inv (subscribe p mask st).
Proof.
  intros Hinv. pose proof Hinv as (H64 & Hlen & Hq & Hls & Hmem & Hcnt).
  unfold subscribe.
  destruct (trackers st !! p) as [[[v|] [q|c]]|] eqn:Hp; try done.
  2:{ by specialize (Hq _ _ Hp). }
  destruct (va_spaces st !! v) as [s|] eqn:Hv; [|done].
  rewrite insert_event_tracker_eq.
  apply registry_update_inv; try done.
  - apply foldl_cond_alter_length.
  - apply foldl_cond_alter_length.
  - intros i l c Hl Hc.
    assert (i < UvmEventNumTypesAll) as Hi.
    { apply lookup_lt_Some in Hl. by rewrite (Hls v s) in Hl. }
    destruct (Hmem v s i l Hv Hl) as [Hnd Hin].
    rewrite !foldl_cond_alter_lookup, Hl, Hc.
    rewrite bool_decide_eq_true_2 by done. cbn [andb].
    rewrite insertable_bit by lia.
    assert (p ∈ l ↔ Z.testbit (subscribed_queues q) (Z.of_nat i) = true) as Hown.
    { rewrite Hin, Hp. split; [by intros (q0 & [= <-] & Hb)|]. intros Hb. eauto. }
    assert (c = wrap32 c) as Hwrap.
    { rewrite Hcnt in Hc by done. injection Hc as <-. by rewrite wrap32_idemp. }
    cbn [set_subscribed_queues subscribed_queues]. rewrite Z.lor_spec. clear Hin.
    destruct (Z.testbit mask (Z.of_nat i)) eqn:Hm;
      destruct (Z.testbit (subscribed_queues q) (Z.of_nat i)) eqn:Hs; cbn.
    + exists l, 0%Z. split; [done|]. split; [done|]. split; [done|].
      split; [exact Hown|]. split; [lia|]. by rewrite Z.add_0_r, <- Hwrap.
    + exists (p :: l), 1%Z. split; [done|]. split.
      { apply NoDup_cons. split; [|done]. intros Hp'. by apply Hown in Hp'. }
      split.
      { intros p' Hne. rewrite elem_of_cons. split; [by intros [?|?]|by right]. }
      split.
      { split; [done|]. intros _. apply elem_of_cons. by left. }
      split; [cbn; lia|done].
    + exists l, 0%Z. split; [done|]. split; [done|]. split; [done|].
      split; [exact Hown|]. split; [lia|]. by rewrite Z.add_0_r, <- Hwrap.
    + exists l, 0%Z. split; [done|]. split; [done|]. split; [done|].
      split; [exact Hown|]. split; [lia|]. by rewrite Z.add_0_r, <- Hwrap.
Qed.

Lemma unsubscribe_inv p mask st :
  registry_inv st → registry_inv (unsubscribe p mask st).
Proof.
  intros Hinv. pose proof Hinv as (H64 & Hlen & Hq & Hls & Hmem & Hcnt).
  unfold unsubscribe.
  destruct (trackers st !! p) as [[[v|] [q|c]]|] eqn:Hp; try done.
  2:{ by specialize (Hq _ _ Hp). }
  destruct (va_spaces st !! v) as [s|] eqn:Hv; [|done].
  rewrite remove_event_tracker_eq.
  apply registry_update_inv; try done.
  - apply foldl_cond_alter_length.
  - apply foldl_cond_alter_length.
  - intros i l c Hl Hc.
    assert (i < UvmEventNumTypesAll) as Hi.
    { apply lookup_lt_Some in Hl. by rewrite (Hls v s) in Hl. }
    destruct (Hmem v s i l Hv Hl) as [Hnd Hin].
    rewrite !foldl_cond_alter_lookup, Hl, Hc.
    rewrite bool_decide_eq_true_2 by done. cbn [andb].
    rewrite unsubscribed_bit by lia. rewrite Z.land_spec.
    assert (p ∈ l ↔ Z.testbit (subscribed_queues q) (Z.of_nat i) = true) as Hown.
    { rewrite Hin, Hp. split; [by intros (q0 & [= <-] & Hb)|]. intros Hb. eauto. }
    assert (c = wrap32 c) as Hwrap.
    { rewrite Hcnt in Hc by done. injection Hc as <-. by rewrite wrap32_idemp. }
    clear Hin.
    destruct (Z.testbit mask (Z.of_nat i)) eqn:Hm;
      destruct (Z.testbit (subscribed_queues q) (Z.of_nat i)) eqn:Hs; cbn.
    + exists (filter (λ x, x ≠ p) l), (-1)%Z. split; [done|]. split.
      { by apply NoDup_filter. }
      split.
      { intros p' Hne. rewrite list_elem_of_filter. split; [by intros [_ ?]|done]. }
      split.
      { rewrite list_elem_of_filter. split; [by intros [? _]|done]. }
      split; [|done].
      pose proof (length_filter_remove p l Hnd (proj2 Hown eq_refl)). lia.
    + exists l, 0%Z. split; [done|]. split; [done|]. split; [done|].
      split; [exact Hown|]. split; [lia|]. by rewrite Z.add_0_r, <- Hwrap.
    + exists l, 0%Z. split; [done|]. split; [done|]. split; [done|].
      split; [exact Hown|]. split; [lia|]. by rewrite Z.add_0_r, <- Hwrap.
    + exists l, 0%Z. split; [done|]. split; [done|]. split; [done|].
      split; [exact Hown|]. split; [lia|]. by rewrite Z.add_0_r, <- Hwrap.
Qed.

(** *** Tearing a tracker down *)

Lemma remove_lists_shrink node n mask sub (ls : list (list nat)) (cnt : list Z) i :
  (remove_event_tracker node n mask sub ls cnt).1.2 !!! i ≠ [] → ls !!! i ≠ [].
Proof.
  rewrite remove_event_tracker_eq. cbn [fst snd].
  rewrite !list_lookup_total_alt, foldl_cond_alter_lookup.
  destruct (bool_decide (i < n) && _); [|done].
  destruct (ls !! i) as [l|]; cbn; [|done].
  intros Hne ->. by apply Hne.
Qed.

Lemma event_enabled_mono (t t' : uvm_va_space_tools_t) :
  (∀ i, tools_queues t' !!! i ≠ [] → tools_queues t !!! i ≠ []) →
  ∀ e, tools_is_event_enabled t' e = true → tools_is_event_enabled t e = true.
Proof.
  intros Hq e. unfold tools_is_event_enabled.
  rewrite !negb_true_iff, !bool_decide_eq_false. apply Hq.
Qed.

Lemma counter_enabled_mono (t t' : uvm_va_space_tools_t) :
  (∀ i, tools_counters t' !!! i ≠ [] → tools_counters t !!! i ≠ []) →
  ∀ c, tools_is_counter_enabled t' c = true → tools_is_counter_enabled t c = true.
Proof.
  intros Hq e. unfold tools_is_counter_enabled.
  rewrite !negb_true_iff, !bool_decide_eq_false. apply Hq.
Qed.

(** No callback becomes needed by taking subscriptions away. *)
Lemma callbacks_needed_mono (t t' : uvm_va_space_tools_t) :
  (∀ i, tools_queues t' !!! i ≠ [] → tools_queues t !!! i ≠ []) →
  (∀ i, tools_counters t' !!! i ≠ [] → tools_counters t !!! i ≠ []) →
  (tools_is_fault_callback_needed t' = true → tools_is_fault_callback_needed t = true)
  ∧ (tools_is_migration_callback_needed t' = true
     → tools_is_migration_callback_needed t = true).
Proof.
  intros Hq Hc.
  pose proof (event_enabled_mono t t' Hq) as He.
  pose proof (counter_enabled_mono t t' Hc) as Hn.
  unfold tools_is_fault_callback_needed, tools_is_migration_callback_needed.
  rewrite !orb_true_iff. split; intros [[[?|?]|?]|?]; auto 10.
Qed.

Lemma unsubscribe_va_space p mask st v b s :
  trackers st !! p = Some (Tracker (Some v) b) →
  va_spaces st !! v = Some s →
  ∃ s', va_spaces (unsubscribe p mask st) !! v = Some s'
    ∧ perf_events s' = perf_events s
    ∧ (∀ i, tools_queues (va_tools s') !!! i ≠ [] → tools_queues (va_tools s) !!! i ≠ [])
    ∧ (∀ i, tools_counters (va_tools s') !!! i ≠ []
            → tools_counters (va_tools s) !!! i ≠ []).
Proof.
  intros Hp Hv. unfold unsubscribe. rewrite Hp, Hv. destruct b as [q|c].
  - pose proof (remove_lists_shrink p UvmEventNumTypesAll mask (subscribed_queues q)
                  (tools_queues (va_tools s)) (g_tools_enabled_event_count st)) as Hsh.
    destruct (remove_event_tracker _ _ _ _ _ _) as [[cnt ls] sub]. cbn in *.
    rewrite lookup_insert_eq. eexists. split; [done|]. cbn. done.
  - pose proof (remove_lists_shrink p UVM_TOTAL_COUNTERS mask (subscribed_counters c)
                  (tools_counters (va_tools s)) (g_tools_enabled_event_count st)) as Hsh.
    destruct (remove_event_tracker _ _ _ _ _ _) as [[cnt ls] sub]. cbn in *.
    rewrite lookup_insert_eq. eexists. split; [done|]. cbn. done.
Qed.

Lemma update_callback_no_attempt reg needed event e :
  (needed = true → is_event_callback_registered e event = true) →
  (update_callback reg needed event e).1 = NV_OK.
Proof.
  intros Hn. unfold update_callback. destruct needed.
  - by rewrite Hn.
  - by destruct (is_event_callback_registered e event).
Qed.

Lemma update_callback_other reg needed e :
  (update_callback reg needed UVM_PERF_EVENT_FAULT e).1 = NV_OK →
  migration_callback_registered (update_callback reg needed UVM_PERF_EVENT_FAULT e).2
  = migration_callback_registered e.
Proof.
  unfold update_callback, uvm_perf_register_event_callback_locked.
  destruct needed, (is_event_callback_registered _ _); cbn; try done.
  by destruct (reg UVM_PERF_EVENT_FAULT).
Qed.

(** X3. The status that [destroy_event_tracker] asserts: with the callbacks
    registered wherever they are needed, the update after the removal
    attempts no registration, so no status of a registration can come
    back. *)
Lemma destroy_update_status_ok (reg : uvm_perf_event_t → NV_STATUS) p st v b s :
  trackers st !! p = Some (Tracker (Some v) b) →
  va_spaces st !! v = Some s →
  (tools_is_fault_callback_needed (va_tools s) = true
   → fault_callback_registered (perf_events s) = true) →
  (tools_is_migration_callback_needed (va_tools s) = true
   → migration_callback_registered (perf_events s) = true) →
  destroy_update_status reg p st = NV_OK.
Proof.
  intros Hp Hv Hf Hm. unfold destroy_update_status. rewrite Hp.
  destruct (unsubscribe_va_space p (tracker_subscribed (Tracker (Some v) b)) st v b s Hp Hv)
    as (s' & Hs' & Hpe & Hq & Hc).
  destruct (callbacks_needed_mono (va_tools s) (va_tools s') Hq Hc) as [Hfn Hmn].
  unfold tools_update_status. rewrite Hs'.
  unfold tools_update_perf_events_callbacks. rewrite Hpe.
  pose proof (update_callback_no_attempt reg (tools_is_fault_callback_needed (va_tools s'))
                UVM_PERF_EVENT_FAULT (perf_events s)
                (λ Hn, Hf (Hfn Hn))) as H1.
  pose proof (update_callback_other reg _ _ H1) as Hm1.
  destruct (update_callback reg (tools_is_fault_callback_needed (va_tools s'))
              UVM_PERF_EVENT_FAULT (perf_events s)) as [st1 e1].
  cbn in H1, Hm1. subst st1. cbn [is_ok negb].
  pose proof (update_callback_no_attempt reg
                (tools_is_migration_callback_needed (va_tools s'))
                UVM_PERF_EVENT_MIGRATION e1
                (λ Hn, eq_trans Hm1 (Hm (Hmn Hn)))) as H2.
  destruct (update_callback reg (tools_is_migration_callback_needed (va_tools s'))
              UVM_PERF_EVENT_MIGRATION e1) as [st2 e2].
  cbn in H2. subst st2. cbn [is_ok negb].
  by destruct (negb _).
Qed.

Lemma registry_run_inv ops st :
  registry_inv st → registry_inv (registry_run ops st).
Proof.
  revert st. induction ops as [|op ops IH]; intros st Hinv; [done|].
  cbn. apply IH. destruct op; [by apply subscribe_inv|by apply unsubscribe_inv].
Qed.

(** A registry in which nothing is subscribed is consistent. *)
Lemma registry_inv_initial st :
  UvmEventNumTypesAll ≤ 64 →
  g_tools_enabled_event_count st = replicate UvmEventNumTypesAll 0%Z →
  (∀ v s, va_spaces st !! v = Some s →
     tools_queues (va_tools s) = replicate UvmEventNumTypesAll []) →
  (∀ p t, trackers st !! p = Some t →
     ∃ q, body t = inl q ∧ subscribed_queues q = 0%Z) →
  registry_inv st.
Proof.
  intros H64 Hcnt Hls Htr.
  split; [done|]. split; [by rewrite Hcnt, length_replicate|].
  split; [|split; [|split]].
  - intros p t Ht. destruct (Htr p t Ht) as (q & Hb & _).
    unfold is_queue. by rewrite Hb.
  - intros v s Hs. by rewrite (Hls v s Hs), length_replicate.
  - intros v s i l Hs Hl. rewrite (Hls v s Hs) in Hl.
    apply lookup_replicate in Hl as [-> _].
    split; [apply NoDup_nil_2|]. intros p. split.
    + intros Hin. by apply elem_of_nil in Hin.
    + intros (q & Ht & Hb). destruct (Htr _ _ Ht) as (q' & [= <-] & Hz).
      rewrite Hz in Hb. by rewrite Z.bits_0 in Hb.
  - intros i Hi. rewrite Hcnt, lookup_replicate_2 by done. f_equal.
    assert (event_subscribers i st = 0) as ->; [|done].
    apply map_sum_zero. intros v s Hs. rewrite (Hls v s Hs).
    by rewrite lookup_total_replicate_2.
Qed.

(** C7 (amended: the count is the number of subscribers, not of
    collectors). From a consistent registry of queue trackers, after any
    sequence of subscribe and unsubscribe operations, the global enabled
    count of every event type is the number of trackers on the lists of
    that type over all collectors, in [NvU32] arithmetic; as long as that
    number fits [NvU32], the count is zero exactly when no collector has
    a subscriber for the type. *)
Theorem enabled_count_is_subscriber_count (ops : list registry_op) (st : tools_globals) :
  registry_inv st →
  let st' := registry_run ops st in
  ∀ i, i < UvmEventNumTypesAll →
    g_tools_enabled_event_count st' !! i
      = Some (wrap32 (Z.of_nat (event_subscribers i st')))
    ∧ ((Z.of_nat (event_subscribers i st') < 2 ^ 32)%Z →
         g_tools_enabled_event_count st' !! i = Some (Z.of_nat (event_subscribers i st'))
         ∧ (g_tools_enabled_event_count st' !! i = Some 0%Z
            ↔ ∀ v s, va_spaces st' !! v = Some s →
                     tools_queues (va_tools s) !!! i = [])).
Proof.
  intros Hinv st' i Hi.
  pose proof (registry_run_inv ops st Hinv) as (_ & _ & _ & _ & _ & Hcnt).
  fold st' in Hcnt. rewrite Hcnt by done. split; [done|].
  intros Hfit. unfold wrap32. rewrite Z.mod_small by lia. split; [done|].
  split.
  - intros [= Hz] v s Hs.
    assert (event_subscribers i st' = 0) as Hzero by lia.
    apply length_zero_iff_nil.
    by apply (proj1 (map_sum_zero _ _) Hzero v s).
  - intros Hall.
    assert (event_subscribers i st' = 0) as ->; [|done].
    apply map_sum_zero. intros v s Hs. by rewrite (Hall v s Hs).
Qed.

End registry_claims.

(** The lemma on an enabled collector whose only tracker is destroyed
    while no registration could succeed: the status is [NV_OK]. *)
Lemma destroy_update_status_ok_witness :
  destroy_update_status (hdr := uvm_types_example) example_no_registration 10
    example_globals_enabled
  = NV_OK.
Proof.
  eapply (destroy_update_status_ok (hdr := uvm_types_example)).
  - by vm_compute.
  - by vm_compute.
  - by vm_compute.
  - by vm_compute.
Defined.

Lemma example_globals_inv : registry_inv (hdr := uvm_types_example) example_globals.
Proof.
  apply registry_inv_initial; cbn; [lia|done|..].
  - intros v s Hs. apply lookup_singleton_Some in Hs as [_ <-]. done.
  - intros p t Ht. apply lookup_insert_Some in Ht as [[_ <-]|[_ Ht]]; [by eexists|].
    apply lookup_singleton_Some in Ht as [_ <-]. by eexists.
Qed.

(** Two trackers of one collector subscribe to event type 2, and one of
    them leaves again. *)
Lemma enabled_count_is_subscriber_count_witness :
  registry_inv (hdr := uvm_types_example) example_globals
  ∧ g_tools_enabled_event_count
      (registry_run (hdr := uvm_types_example)
         [Subscribe 10 4; Subscribe 11 4; Unsubscribe 10 4] example_globals) !! 2
    = Some 1%Z.
Proof.
  split; [exact example_globals_inv|].
  pose proof (enabled_count_is_subscriber_count (hdr := uvm_types_example)
                [Subscribe 10 4; Subscribe 11 4; Unsubscribe 10 4] example_globals
                example_globals_inv 2 ltac:(cbn; lia)) as [H _].
  rewrite H. by vm_compute.
Defined.

(** C7 as stated fails: two trackers of the same collector subscribed to
    event type 2 make the count 2, while one collector has a non-empty
    list for that type. *)
Lemma enabled_count_is_not_collector_count :
  let st := registry_run (hdr := uvm_types_example)
              [Subscribe 10 4; Subscribe 11 4] example_globals in
  g_tools_enabled_event_count st !! 2 = Some 2%Z
  ∧ collectors_subscribed 2 st = 1
  ∧ event_subscribers 2 st = 2.
Proof. cbv zeta. by vm_compute. Qed.

(** ** The flush *)

Section flush_claims.
Implicit Types (st : channel_state) (R l : list nat) (c channel item : nat).
Local Open Scope Z_scope.

Lemma count_of_add c c' st :
  count_of c' (add_pending_event_for_channel c st)
  = if decide (c' = c) then count_of c st + 1 else count_of c' st.
Proof.
  unfold add_pending_event_for_channel, count_of at 1; cbn.
  case_decide as Hc.
  - subst. by rewrite lookup_insert_eq.
  - by rewrite lookup_insert_ne.
Qed.

Lemma count_of_remove c c' st :
  count_of c' (remove_pending_event_for_channel c st)
  = if decide (c' = c) then count_of c st - 1 else count_of c' st.
Proof.
  unfold remove_pending_event_for_channel, count_of at 1; cbn.
  case_decide as Hc.
  - subst. by rewrite lookup_insert_eq.
  - by rewrite lookup_insert_ne.
Qed.

Lemma pending_pushes_snoc c c' item st :
  Z.of_nat (pending_pushes c' (set_pushes (pushes st ++ [(c, item)]) st))
  = Z.of_nat (pending_pushes c' st) + (if decide (c' = c) then 1 else 0).
Proof.
  unfold pending_pushes; cbn. rewrite filter_app, length_app.
  rewrite filter_cons, filter_nil; cbn.
  repeat case_decide; subst; cbn; try lia; congruence.
Qed.

Lemma filter_ne_notin c l : c ∉ l → filter (λ x, x ≠ c) l = l.
Proof.
  induction l as [|x l IH]; [done|]. intros Hc.
  apply not_elem_of_cons in Hc as [Hx Hl].
  rewrite filter_cons_True by done. by rewrite IH.
Qed.

Lemma prefix_filter_ne c R l :
  R `prefix_of` l → c ∉ R → R `prefix_of` filter (λ x, x ≠ c) l.
Proof.
  intros [t ->] Hc. rewrite filter_app, filter_ne_notin by done.
  by eexists.
Qed.

Lemma elem_of_filter_ne c c' l : c' ∈ filter (λ x, x ≠ c) l ↔ c' ≠ c ∧ c' ∈ l.
Proof. by rewrite list_elem_of_filter. Qed.

(** Adding a pending event to [c] when the account of [c] goes up by
    one. *)
Lemma add_pending_counts (T T' : nat → Z) c st :
  NoDup (g_tools_channel_list st) →
  (∀ c', count_of c' st = T c') →
  (∀ c', c' ∈ g_tools_channel_list st ↔ 0 < count_of c' st) →
  0 ≤ T c →
  (∀ c', T' c' = if decide (c' = c) then T c + 1 else T c') →
  let st' := add_pending_event_for_channel c st in
  NoDup (g_tools_channel_list st')
  ∧ (∀ c', count_of c' st' = T' c')
  ∧ (∀ c', c' ∈ g_tools_channel_list st' ↔ 0 < count_of c' st').
Proof.
  intros Hnd Hcnt Hmem HT HT' st'. split_and!.
  - subst st'; cbn. destruct (Z.eqb_spec (count_of c st) 0) as [H0|H0]; [|done].
    apply NoDup_app. split_and!; [done| |apply NoDup_singleton].
    intros x Hx ->%list_elem_of_singleton. apply Hmem in Hx. lia.
  - intros c'. subst st'. rewrite count_of_add, HT'.
    case_decide; by rewrite Hcnt.
  - intros c'. subst st'. rewrite count_of_add. cbn.
    destruct (Z.eqb_spec (count_of c st) 0) as [H0|H0].
    + rewrite elem_of_app, list_elem_of_singleton, Hmem.
      case_decide; subst; [rewrite H0; intuition lia|intuition].
    + rewrite Hmem. case_decide; subst; [|done].
      rewrite Hcnt in *. intuition lia.
Qed.

(** Removing a pending event from [c] when the account of [c] goes
    down by one and was not zero. *)
Lemma remove_pending_counts (T T' : nat → Z) c st :
  NoDup (g_tools_channel_list st) →
  (∀ c', count_of c' st = T c') →
  (∀ c', c' ∈ g_tools_channel_list st ↔ 0 < count_of c' st) →
  0 < T c →
  (∀ c', T' c' = if decide (c' = c) then T c - 1 else T c') →
  let st' := remove_pending_event_for_channel c st in
  NoDup (g_tools_channel_list st')
  ∧ (∀ c', count_of c' st' = T' c')
  ∧ (∀ c', c' ∈ g_tools_channel_list st' ↔ 0 < count_of c' st').
Proof.
  intros Hnd Hcnt Hmem HT HT' st'. split_and!.
  - subst st'; cbn. destruct (Z.eqb_spec (count_of c st - 1) 0) as [H0|H0]; [|done].
    by apply NoDup_filter.
  - intros c'. subst st'. rewrite count_of_remove, HT'.
    case_decide; by rewrite Hcnt.
  - intros c'. subst st'. rewrite count_of_remove. cbn.
    destruct (Z.eqb_spec (count_of c st - 1) 0) as [H0|H0].
    + rewrite elem_of_filter_ne, Hmem.
      case_decide; subst; [rewrite H0; intuition lia|intuition].
    + rewrite Hmem. case_decide; subst; [|done].
      rewrite Hcnt in *. intuition lia.
Qed.


Lemma channel_counts_flight_0 R c0 st :
  channel_counts_flight R c0 0 st ↔ channel_counts R st.
Proof.
  unfold channel_counts_flight, channel_counts.
  split; intros (Hnd & Hcnt & Hmem); split_and!; try done;
    intros c; rewrite Hcnt; repeat case_decide; lia.
Qed.

Lemma submit_counts R c item st :
  channel_counts R st → channel_counts R (submit c item st).
Proof.
  intros (Hnd & Hcnt & Hmem). unfold submit.
  apply (add_pending_counts
           (λ c', Z.of_nat (pending_pushes c' st)
                  + (if decide (c' ∈ R) then 1 else 0))); try done.
  - case_decide; lia.
  - intros c'. change (pending_pushes c' (add_pending_event_for_channel c ?s))
      with (pending_pushes c' s).
    rewrite pending_pushes_snoc. repeat case_decide; subst; lia || done.
Qed.

Lemma submit_inv R c item st :
  channel_inv R st → channel_inv R (submit c item st).
Proof.
  intros [Hc Hp]. split; [by apply submit_counts|].
  cbn. destruct (_ =? _); [|done]. by apply prefix_app_r.
Qed.

Lemma on_complete_counts R c item k st :
  channel_counts_flight R c (S k) st →
  R `prefix_of` g_tools_channel_list st →
  channel_counts_flight R c k (on_complete c item st)
  ∧ R `prefix_of` g_tools_channel_list (on_complete c item st).
Proof.
  intros (Hnd & Hcnt & Hmem) Hp. split.
  - apply (remove_pending_counts
             (λ c', Z.of_nat (pending_pushes c' st)
                    + (if decide (c' = c) then Z.of_nat (S k) else 0)
                    + (if decide (c' ∈ R) then 1 else 0))); try done.
    + rewrite decide_True by done. case_decide; lia.
    + intros c'. change (pending_pushes c' (on_complete c item st))
        with (pending_pushes c' st).
      repeat case_decide; subst; lia || done.
  - cbn. destruct (Z.eqb_spec (count_of c st - 1) 0) as [H0|H0]; [|done].
    apply prefix_filter_ne; [done|]. intros Hin.
    specialize (Hcnt c). rewrite !decide_True in Hcnt by done. lia.
Qed.

Lemma complete_all_fields c ps st :
  pushes (complete_all c ps st) = pushes st
  ∧ g_tools_queue (complete_all c ps st)
    = g_tools_queue st ++ (filter (λ x, x.1 = c) ps).*2
  ∧ delivered (complete_all c ps st) = delivered st.
Proof.
  revert st. induction ps as [|[c' item] ps IH]; intros st.
  - cbn. by rewrite app_nil_r.
  - rewrite filter_cons. cbn [complete_all fst].
    destruct (decide (c' = c)) as [->|Hne].
    + destruct (IH (on_complete c item st)) as (-> & -> & ->).
      cbn. by rewrite <-app_assoc.
    + apply IH.
Qed.

Lemma complete_all_counts R c ps st :
  channel_counts_flight R c (length (filter (λ x, x.1 = c) ps)) st →
  R `prefix_of` g_tools_channel_list st →
  channel_inv R (complete_all c ps st).
Proof.
  revert st. induction ps as [|[c' item] ps IH]; intros st.
  - cbn. intros Hc Hp. split; [|done]. by apply (channel_counts_flight_0 R c).
  - rewrite filter_cons. cbn [complete_all fst].
    destruct (decide (c' = c)) as [->|Hne]; [|apply IH].
    cbn [length]. intros Hc Hp.
    destruct (on_complete_counts R c item _ st Hc Hp).
    by apply IH.
Qed.

Lemma length_filter_other (c c' : nat) (ps : list (nat * nat)) :
  length (filter (λ x, x.1 = c') (filter (λ x, x.1 ≠ c) ps))
  = if decide (c' = c) then 0%nat
    else length (filter (λ x, x.1 = c') ps).
Proof.
  induction ps as [|[a item] ps IH]; [cbn; by case_decide|].
  rewrite !filter_cons. cbn [fst].
  destruct (decide (a ≠ c)) as [Hac|Hac];
    [rewrite filter_cons; cbn [fst]|];
    destruct (decide (a = c')) as [->|Hac']; cbn [length];
    rewrite IH; repeat case_decide; subst; try done; try lia.
Qed.

Lemma progress_inv R c st :
  channel_inv R st → channel_inv R (uvm_channel_update_progress_all c st).
Proof.
  intros [(Hnd & Hcnt & Hmem) Hp]. unfold uvm_channel_update_progress_all.
  apply complete_all_counts; [|done].
  split_and!; try done. intros c'. change (count_of c' (set_pushes ?p st))
    with (count_of c' st). rewrite Hcnt. unfold pending_pushes; cbn.
  rewrite length_filter_other. repeat case_decide; subst; try done; lia.
Qed.

Lemma worker_inv R st : channel_inv R st → channel_inv R (nv_kthread_q_flush st).
Proof. done. Qed.

Lemma env_step_inv R a st : channel_inv R st → channel_inv R (env_step st a).
Proof.
  destruct a; cbn; [apply submit_inv|apply progress_inv|apply worker_inv].
Qed.

Lemma env_run_inv R acts st : channel_inv R st → channel_inv R (env_run acts st).
Proof.
  unfold env_run. revert st.
  induction acts as [|a acts IH]; intros st Hst; cbn; [done|].
  by apply IH, env_step_inv.
Qed.


Lemma retain_fold l : ∀ st,
  NoDup l →
  let st' := foldl (λ st c,
               ChannelState (g_tools_channel_list st)
                 (<[c := (count_of c st + 1)%Z]> (pending_event_count st))
                 (pushes st) (g_tools_queue st) (delivered st)) st l in
  g_tools_channel_list st' = g_tools_channel_list st
  ∧ pushes st' = pushes st
  ∧ g_tools_queue st' = g_tools_queue st
  ∧ delivered st' = delivered st
  ∧ ∀ c, count_of c st' = count_of c st + (if decide (c ∈ l) then 1 else 0).
Proof.
  induction l as [|a l IH]; intros st Hnd; cbn.
  - split_and!; try done. intros c. rewrite decide_False; [lia|].
    apply not_elem_of_nil.
  - apply NoDup_cons in Hnd as [Ha Hnd].
    destruct (IH (ChannelState (g_tools_channel_list st)
                    (<[a := count_of a st + 1]> (pending_event_count st))
                    (pushes st) (g_tools_queue st) (delivered st)) Hnd)
      as (-> & -> & -> & -> & Hc).
    split_and!; try done. intros c. rewrite Hc.
    unfold count_of at 1; cbn.
    destruct (decide (c = a)) as [->|Hne].
    + rewrite lookup_insert_eq; cbn.
      rewrite decide_False by done.
      rewrite decide_True; [lia|]. apply elem_of_cons; by left.
    + rewrite lookup_insert_ne by done. fold (count_of c st).
      destruct (decide (c ∈ l)) as [Hin|Hin].
      * rewrite decide_True; [done|]. apply elem_of_cons; by right.
      * rewrite decide_False; [done|]. intros [?|?]%elem_of_cons; done.
Qed.

Lemma retain_channels_inv st :
  channel_counts [] st →
  let st' := retain_channels st in
  channel_inv (g_tools_channel_list st) st'
  ∧ g_tools_channel_list st' = g_tools_channel_list st
  ∧ pushes st' = pushes st
  ∧ g_tools_queue st' = g_tools_queue st
  ∧ delivered st' = delivered st
  ∧ ∀ c, count_of c st'
         = count_of c st
           + (if decide (c ∈ g_tools_channel_list st) then 1 else 0).
Proof.
  intros (Hnd & Hcnt & Hmem) st'.
  destruct (retain_fold (g_tools_channel_list st) st Hnd)
    as (Hl & Hp & Hq & Hd & Hc).
  fold (retain_channels st) in Hl, Hp, Hq, Hd, Hc. fold st' in Hl, Hp, Hq, Hd, Hc.
  split_and!; try done.
  split; [|by rewrite Hl]. split_and!.
  - by rewrite Hl.
  - intros c. rewrite Hc, Hcnt. unfold pending_pushes. rewrite Hp.
    rewrite (decide_False (P := c ∈ [])) by apply not_elem_of_nil. lia.
  - intros c. rewrite Hl, Hc. specialize (Hmem c). specialize (Hcnt c).
    rewrite (decide_False (P := c ∈ [])) in Hcnt by apply not_elem_of_nil.
    destruct (decide (c ∈ g_tools_channel_list st)) as [Hin|Hin].
    + split; [|done]. intros _. lia.
    + replace (count_of c st + 0) with (count_of c st) by lia. done.
Qed.

Lemma list_next_entry_lookup l : ∀ i c,
  NoDup l → l !! i = Some c → list_next_entry c l = l !! S i.
Proof.
  induction l as [|x l IH]; intros i c Hnd Hi; [done|].
  apply NoDup_cons in Hnd as [Hx Hnd]. cbn [list_next_entry].
  destruct i as [|i]; cbn in Hi.
  - injection Hi as ->. rewrite decide_True by done. apply head_lookup.
  - rewrite decide_False; [by apply IH|].
    intros ->. apply Hx. by eapply list_elem_of_lookup_2.
Qed.

(** *** Where the items go *)

Lemma progress_fields c st :
  let st' := uvm_channel_update_progress_all c st in
  pushes st' = filter (λ x, x.1 ≠ c) (pushes st)
  ∧ g_tools_queue st'
    = g_tools_queue st ++ (filter (λ x, x.1 = c) (pushes st)).*2
  ∧ delivered st' = delivered st.
Proof.
  intros st'. subst st'. unfold uvm_channel_update_progress_all.
  destruct (complete_all_fields c (pushes st)
              (set_pushes (filter (λ x, x.1 ≠ c) (pushes st)) st))
    as (-> & -> & ->). done.
Qed.

Lemma progress_done c (x : nat * nat) st :
  push_covered x st → x.1 = c →
  item_done x.2 (uvm_channel_update_progress_all c st).
Proof.
  intros Hx Hc. destruct (progress_fields c st) as (Hp & Hq & Hd).
  unfold item_done. rewrite Hq, Hd.
  destruct Hx as [Hx|[Hx|Hx]]; [left|left|by right]; apply elem_of_app.
  - right. apply list_elem_of_fmap. exists x. split; [done|].
    by apply list_elem_of_filter.
  - by left.
Qed.

Lemma progress_keeps c (x : nat * nat) st :
  x.1 ≠ c → x ∈ pushes st → x ∈ pushes (uvm_channel_update_progress_all c st).
Proof.
  intros Hc Hx. destruct (progress_fields c st) as (-> & _ & _).
  by apply list_elem_of_filter.
Qed.

Lemma item_done_step item a st : item_done item st → item_done item (env_step st a).
Proof.
  unfold item_done. destruct a as [c it|c|]; cbn [env_step].
  - done.
  - destruct (progress_fields c st) as (_ & -> & ->).
    rewrite elem_of_app. tauto.
  - cbn. rewrite elem_of_app. tauto.
Qed.

Lemma push_covered_step x a st : push_covered x st → push_covered x (env_step st a).
Proof.
  intros Hx. destruct a as [c it|c|]; cbn [env_step].
  - destruct Hx as [Hx|Hx]; [left|by right].
    cbn. apply elem_of_app. by left.
  - destruct (decide (x.1 = c)) as [Hc|Hc].
    + right. by apply progress_done.
    + destruct Hx as [Hx|Hx]; [left; by apply progress_keeps|].
      right. by apply (item_done_step _ (EnvProgress c)).
  - destruct Hx as [Hx|Hx]; [by left|].
    right. by apply (item_done_step _ EnvWorker).
Qed.

Lemma item_done_run item acts st : item_done item st → item_done item (env_run acts st).
Proof.
  unfold env_run. revert st.
  induction acts as [|a acts IH]; intros st Hst; cbn; [done|].
  by apply IH, item_done_step.
Qed.

Lemma push_covered_run x acts st :
  push_covered x st → push_covered x (env_run acts st).
Proof.
  unfold env_run. revert st.
  induction acts as [|a acts IH]; intros st Hst; cbn; [done|].
  by apply IH, push_covered_step.
Qed.

(** Other threads that only submit remove no push, and leave theirs. *)
Lemma env_run_submits acts : ∀ st (x : nat * nat),
  (∀ a, a ∈ acts → ∃ c item, a = EnvSubmit c item) →
  x ∈ pushes st ∨ EnvSubmit x.1 x.2 ∈ acts →
  x ∈ pushes (env_run acts st).
Proof.
  unfold env_run.
  induction acts as [|a acts IH]; intros st x Hall Hx; cbn.
  - destruct Hx as [Hx|Hx]; [done|]. by apply elem_of_nil in Hx.
  - apply IH; [intros b Hb; apply Hall, elem_of_cons; by right|].
    destruct (Hall a) as (c & item & ->); [apply elem_of_cons; by left|].
    cbn. rewrite elem_of_app, list_elem_of_singleton.
    destruct Hx as [Hx|[Hx|Hx]%elem_of_cons]; [by left; left| |by right].
    left; right. injection Hx as <- <-. by destruct x.
Qed.


(** *** The loops *)

Lemma progress_loop_spec env R n : ∀ i (next : option nat) st forced,
  channel_inv R st →
  (i + n = length R)%nat →
  (n ≠ 0%nat → next = R !! i) →
  ∃ st', progress_loop env n i next st forced = Some (st', forced ++ drop i R)
    ∧ channel_inv R st'
    ∧ (∀ x, push_covered x st → push_covered x st')
    ∧ (∀ item, item_done item st → item_done item st')
    ∧ (∀ x, push_covered x st → x.1 ∈ drop i R → item_done x.2 st')
    ∧ ((∀ j a, a ∈ env j → ∃ c item, a = EnvSubmit c item) →
       ∀ x : nat * nat, x.1 ∉ R →
         x ∈ pushes st
         ∨ (∃ j, (2 * i + 1 ≤ j ≤ 2 * i + 2 * n)%nat ∧ EnvSubmit x.1 x.2 ∈ env j) →
         x ∈ pushes st').
Proof.
  induction n as [|n IH]; intros i next st forced Hinv Hlen Hch.
  - exists st. cbn [progress_loop].
    rewrite drop_ge, app_nil_r by lia. split_and!; try done.
    + intros x _ Hx. by apply elem_of_nil in Hx.
    + intros _ x _ [Hx|(j & Hj & _)]; [done|lia].
  - rewrite Hch by done.
    destruct (lookup_lt_is_Some_2 R i) as [c Hc]; [lia|].
    rewrite Hc. cbn [progress_loop].
    set (sa := env_run (env (2 * i + 1)%nat) st).
    set (sb := uvm_channel_update_progress_all c sa).
    set (sc := env_run (env (2 * i + 2)%nat) sb).
    assert (channel_inv R sc) as Hsc
      by (apply env_run_inv, progress_inv, env_run_inv, Hinv).
    assert (c ∈ R) as HcR by (by eapply list_elem_of_lookup_2).
    destruct (IH (S i) (list_next_entry c (g_tools_channel_list sc)) sc
                (forced ++ [c]) Hsc) as (st' & Hrun & Hinv' & Hcov & Hdone & Hforced & Hsub).
    { lia. }
    { intros Hn. destruct Hsc as [(Hnd & _ & _) [t Ht]].
      rewrite (list_next_entry_lookup _ i c Hnd).
      - rewrite Ht. apply lookup_app_l. lia.
      - rewrite Ht. by apply lookup_app_l_Some. }
    exists st'. split_and!.
    + rewrite Hrun. by rewrite (drop_S _ _ _ Hc), <-app_assoc.
    + done.
    + intros x Hx.
      by apply Hcov, push_covered_run, (push_covered_step _ (EnvProgress c)),
        push_covered_run.
    + intros item Hx. apply Hdone, item_done_run.
      by apply (item_done_step _ (EnvProgress c)), item_done_run.
    + intros x Hx. rewrite (drop_S _ _ _ Hc).
      intros [Hx1|Hx1]%elem_of_cons.
      * apply Hdone, item_done_run, progress_done; [|done].
        by apply push_covered_run.
      * apply Hforced; [|done].
        by apply push_covered_run, (push_covered_step _ (EnvProgress c)),
          push_covered_run.
    + intros Hall x HxR Hx. apply Hsub; [done..|].
      assert (x.1 ≠ c) as Hne by (intros Heq; by rewrite Heq in HxR).
      destruct Hx as [Hx|(j & Hj & Hx)].
      * left. apply env_run_submits; [apply Hall|left].
        apply progress_keeps; [done|].
        apply env_run_submits; [apply Hall|by left].
      * destruct (decide (j = 2 * i + 1)%nat) as [->|Hj1].
        { left. apply env_run_submits; [apply Hall|left].
          apply progress_keeps; [done|].
          apply env_run_submits; [apply Hall|by right]. }
        destruct (decide (j = 2 * i + 2)%nat) as [->|Hj2].
        { left. apply env_run_submits; [apply Hall|by right]. }
        right. exists j. split; [lia|done].
Qed.

Lemma release_loop_spec r : ∀ t i n st released,
  channel_counts r st → NoDup r → (i + length r = n)%nat →
  ∃ st', release_loop (r ++ t) i n st released = (st', released ++ r)
    ∧ channel_counts [] st'
    ∧ pushes st' = pushes st
    ∧ g_tools_queue st' = g_tools_queue st
    ∧ delivered st' = delivered st.
Proof.
  induction r as [|c r IH]; intros t i n st released Hst Hnd Hlen.
  - exists st. rewrite app_nil_r. cbn in Hlen. split_and!; try done.
    destruct t as [|c t]; cbn; [done|].
    rewrite decide_True; [done|lia].
  - apply NoDup_cons in Hnd as [Hc Hnd]. cbn in Hlen.
    cbn [app release_loop]. rewrite decide_False by lia.
    destruct Hst as (Hl & Hcnt & Hmem).
    destruct (IH t (S i) n (remove_pending_event_for_channel c st)
                (released ++ [c])) as (st' & Hrun & Hst' & Hp & Hq & Hd);
      [|done|lia|].
    { apply (remove_pending_counts
               (λ c', Z.of_nat (pending_pushes c' st)
                      + (if decide (c' ∈ c :: r) then 1 else 0))); try done.
      - rewrite decide_True; [lia|]. apply elem_of_cons; by left.
      - intros c'. change (pending_pushes c' (remove_pending_event_for_channel c st))
          with (pending_pushes c' st).
        destruct (decide (c' = c)) as [->|Hne].
        + rewrite decide_False by done.
          rewrite decide_True; [lia|]. apply elem_of_cons; by left.
        + destruct (decide (c' ∈ r)) as [Hin|Hin].
          * rewrite decide_True; [done|]. apply elem_of_cons; by right.
          * rewrite decide_False; [done|]. intros [?|?]%elem_of_cons; done. }
    exists st'. rewrite Hrun, <-app_assoc. done.
Qed.

Lemma pushes_pending (x : nat * nat) st :
  x ∈ pushes st → (0 < pending_pushes x.1 st)%nat.
Proof.
  intros Hx. unfold pending_pushes.
  assert (x ∈ filter (λ y : nat * nat, y.1 = x.1) (pushes st)) as Hf
    by (by apply list_elem_of_filter).
  destruct (filter _ _); [by apply elem_of_nil in Hf|cbn; lia].
Qed.

Lemma channel_counts_initial : channel_counts [] channels_initial.
Proof.
  split_and!.
  - apply NoDup_nil_2.
  - intros c. unfold count_of; cbn. rewrite lookup_empty; cbn.
    by rewrite decide_False by apply not_elem_of_nil.
  - intros c. unfold count_of; cbn. rewrite lookup_empty; cbn.
    split; [by intros ?%elem_of_nil|lia].
Qed.

(** X4. Whatever the threads have done from the start, the counts and the
    list agree when no flush is under way. *)
Lemma channel_counts_reachable acts :
  channel_counts [] (env_run acts channels_initial).
Proof.
  apply (env_run_inv []). split; [apply channel_counts_initial|apply prefix_nil].
Qed.

(** C3. For every flush call made when the counts and the list agree
  (the list has no repetition, the count of a channel is the number of
  its pending pushes, and a channel is on the list exactly when its
  count is not zero), whatever other threads do while it runs: the
  channels on the list at the start are exactly the channels with a
  pending push; the retain loop leaves the list as it is and raises
  the count of exactly these channels by one; the flush returns,
  having forced the progress of exactly these channels, in the order
  of the list, and having released exactly these; every push that was
  pending at the start has its item delivered when the flush returns,
  the worker has nothing left scheduled, and the counts and the list
  agree again. A channel that is not on the list at the start is not
  forced: when the other threads only submit, a push they submit on
  such a channel while the flush runs is still pending when the flush
  returns. *)
Theorem flush_events_snapshot env st :
  channel_counts [] st →
  let R := g_tools_channel_list st in
  (∀ c, c ∈ R ↔ (0 < pending_pushes c st)%nat)
  ∧ g_tools_channel_list (retain_channels st) = R
  ∧ (∀ c, count_of c (retain_channels st)
          = count_of c st + (if decide (c ∈ R) then 1 else 0))
  ∧ ∃ st', uvm_tools_flush_events env st = Some (st', R, R)
      ∧ (∀ c item, (c, item) ∈ pushes st → item ∈ delivered st')
      ∧ g_tools_queue st' = []
      ∧ channel_counts [] st'
      ∧ ((∀ j a, a ∈ env j → ∃ c item, a = EnvSubmit c item) →
         ∀ j c item,
           R ≠ [] → (j ≤ 2 * length R)%nat →
           EnvSubmit c item ∈ env j → c ∉ R →
           (c, item) ∈ pushes st').
Proof.
  intros Hst R.
  destruct (retain_channels_inv st Hst) as (Hinv & Hl & Hp & Hq & Hd & Hc).
  fold R in Hinv, Hl, Hc.
  assert (∀ c, c ∈ R ↔ (0 < pending_pushes c st)%nat) as HR.
  { intros c. destruct Hst as (_ & Hcnt & Hmem). unfold R.
    rewrite (Hmem c), Hcnt.
    rewrite decide_False by apply not_elem_of_nil. lia. }
  split_and!; try done.
  unfold uvm_tools_flush_events, tools_schedule_completed_events.
  fold R. destruct (decide (length R = 0%nat)) as [H0|H0].
  { apply nil_length_inv in H0. eexists. split; [by rewrite H0|].
    split_and!.
    - intros c item Hx. apply pushes_pending, HR in Hx.
      rewrite H0 in Hx. by apply elem_of_nil in Hx.
    - done.
    - destruct Hinv as [Hinv _]. by rewrite H0 in Hinv.
    - intros _ j c item HRn. done. }
  set (st1 := retain_channels st) in *.
  set (st2 := env_run (env 0%nat) st1).
  assert (channel_inv R st2) as Hinv2 by (by apply env_run_inv).
  destruct (progress_loop_spec env R (length R) 0%nat
              (list_first_entry (g_tools_channel_list st2)) st2 [] Hinv2)
    as (st3 & Hrun & Hinv3 & Hcov & Hdone & Hforced & Hsub).
  { done. }
  { intros _. destruct Hinv2 as [_ [t Ht]]. unfold list_first_entry.
    rewrite head_lookup, Ht. apply lookup_app_l. lia. }
  rewrite Hrun, drop_0. cbn [app].
  destruct Hinv3 as [Hcnt3 [t Ht]].
  destruct (release_loop_spec R t 0%nat (length R) st3 [] Hcnt3)
    as (st4 & Hrel & Hst4 & Hp4 & Hq4 & Hd4).
  { destruct Hst as (Hnd & _). done. }
  { done. }
  rewrite Ht, Hrel. cbn [app].
  eexists. split; [done|]. split_and!.
  - intros c item Hx. cbn. rewrite Hq4, Hd4.
    assert (item_done (c, item).2 st3) as [Hi|Hi].
    { apply Hforced; [|rewrite drop_0; by apply HR, (pushes_pending (c, item))].
      apply push_covered_run. left. by rewrite Hp. }
    + apply elem_of_app. by right.
    + apply elem_of_app. by left.
  - done.
  - done.
  - intros Hall j c item _ Hj Hx HcR.
    change (pushes (nv_kthread_q_flush st4)) with (pushes st4). rewrite Hp4.
    apply (Hsub Hall (c, item)); [done|].
    destruct j as [|j].
    + left. apply env_run_submits; [apply Hall|by right].
    + right. exists (S j). split; [lia|done].
Qed.

End flush_claims.

(** The theorem on two channels with one pending push each, while a
  push is submitted on a third channel during the flush: channels 1
  and 2 are forced and released, their items are delivered, and the
  push on channel 3 is still pending. *)
Lemma flush_events_snapshot_witness :
channel_counts [] example_channels
∧ ∃ st', uvm_tools_flush_events example_env example_channels
         = Some (st', [1; 2], [1; 2])
    ∧ 101 ∈ delivered st' ∧ 102 ∈ delivered st'
    ∧ (3, 103) ∈ pushes st'.
Proof.
assert (channel_counts [] example_channels) as Hst.
{ apply submit_counts, submit_counts, channel_counts_initial. }
split; [exact Hst|].
destruct (flush_events_snapshot example_env example_channels Hst)
  as (_ & _ & _ & st' & Hrun & Hdel & _ & _ & Hlate).
exists st'. split_and!.
- exact Hrun.
- apply (Hdel 1). vm_compute. apply elem_of_cons; by left.
- apply (Hdel 2). vm_compute. apply elem_of_cons; right. apply elem_of_cons; by left.
- apply (Hlate) with (j := 1).
  + intros j a. unfold example_env. case_decide.
    * intros ->%list_elem_of_singleton. by eexists _, _.
    * by intros ?%elem_of_nil.
  + done.
  + vm_compute. lia.
  + apply list_elem_of_singleton. done.
  + vm_compute. intros [?|[?|?%elem_of_nil]%elem_of_cons]%elem_of_cons; done.
Defined.

(** The same run, evaluated: the flush forces and releases channels 1
    and 2, whose counts are back to zero, and leaves channel 3 on the
    list with its push. *)
Lemma flush_events_example_run :
  ∃ st', uvm_tools_flush_events example_env example_channels
         = Some (st', [1; 2], [1; 2])
    ∧ g_tools_channel_list st' = [3]
    ∧ pushes st' = [(3, 103)]
    ∧ g_tools_queue st' = []
    ∧ delivered st' = [101; 102]
    ∧ count_of 1 st' = 0%Z ∧ count_of 2 st' = 0%Z ∧ count_of 3 st' = 1%Z.
Proof. eexists. split; [by vm_compute|]. by vm_compute. Qed.

(** ** Event masks: which masks are refused *)

Section mask_claims.
Context {hdr : uvm_types_h} {rng : uvm_event_ranges}.
Local Open Scope Z_scope.

Lemma bitmap_set_zero_bit start len i :
  0 ≤ start → 0 ≤ len → 0 ≤ i →
  Z.testbit (bitmap_set bitmap_zero start len) i
  = bool_decide (start ≤ i < start + len).
Proof.
  intros Hs Hl Hi. unfold bitmap_set, bitmap_zero.
  rewrite Z.lor_0_l, Z.shiftl_spec by done.
  case_bool_decide as Hr.
  - apply Z.ones_spec_low. lia.
  - destruct (decide (i < start)) as [Hlt|Hge].
    + apply Z.testbit_neg_r. lia.
    + apply Z.ones_spec_high. lia.
Qed.

Lemma word_bit_range a i : 0 ≤ a < 2 ^ 64 → Z.testbit a i = true → 0 ≤ i < 64.
Proof.
  intros Ha Hi. split.
  - destruct (decide (0 ≤ i)) as [|Hn]; [done|].
    rewrite Z.testbit_neg_r in Hi by lia. done.
  - destruct (decide (i < 64)) as [|Hn]; [done|].
    rewrite <-(Z.mod_small a (2 ^ 64)) in Hi by done.
    rewrite Z.mod_pow2_bits_high in Hi by lia. done.
Qed.

Lemma nonneg_nonzero_bit r :
  0 ≤ r → negb (r =? 0) = true ↔ ∃ i, Z.testbit r i = true.
Proof.
  intros Hr. rewrite negb_true_iff, Z.eqb_neq. split.
  - intros Hne. exists (Z.log2 r). apply Z.bit_log2. lia.
  - intros (i & Hi) ->. by rewrite Z.bits_0 in Hi.
Qed.

Lemma bitmap_andnot_spec a b :
  0 ≤ a < 2 ^ 64 →
  bitmap_andnot a b = true
  ↔ ∃ i, 0 ≤ i < 64 ∧ Z.testbit a i = true ∧ Z.testbit b i = false.
Proof.
  intros Ha. unfold bitmap_andnot.
  rewrite nonneg_nonzero_bit by (apply Z.land_nonneg; lia). split.
  - intros (i & Hi). rewrite Z.land_spec in Hi.
    apply andb_true_iff in Hi as [Hai Hbi].
    pose proof (word_bit_range a i Ha Hai) as Hr.
    rewrite testbit_wrap64, Z.lnot_spec in Hbi by lia.
    exists i. by apply negb_true_iff in Hbi.
  - intros (i & Hr & Hai & Hbi). exists i.
    rewrite Z.land_spec, testbit_wrap64, Z.lnot_spec, Hai, Hbi by lia. done.
Qed.

Lemma bitmap_and_spec a b :
  0 ≤ a < 2 ^ 64 →
  bitmap_and a b = true
  ↔ ∃ i, 0 ≤ i < 64 ∧ Z.testbit a i = true ∧ Z.testbit b i = true.
Proof.
  intros Ha. unfold bitmap_and.
  rewrite nonneg_nonzero_bit by (apply Z.land_nonneg; lia). split.
  - intros (i & Hi). rewrite Z.land_spec in Hi.
    apply andb_true_iff in Hi as [Hai Hbi].
    exists i. split; [by eapply word_bit_range|done].
  - intros (i & Hr & Hai & Hbi). exists i.
    by rewrite Z.land_spec, Hai, Hbi.
Qed.

(** X5. With the event numbering as the build checks of lines 1662-1669
    want it, [mask_contains_invalid_events] refuses a mask exactly when
    it has a bit that is neither an event type from 1 to
    [UvmEventNumTypes - 1] nor, with the built-in tests enabled, a test
    event type. So bit 0 is always refused and the empty mask never is.
    The hint about the built-in tests is printed exactly when the tests
    are disabled and the mask has the bit of a test event type. *)
Theorem mask_contains_invalid_events_spec (uvm_enable_builtin_tests : bool)
    (event_flags : Z) :
  (1 ≤ UvmEventNumTypes)%nat →
  (UvmEventNumTypes ≤ UvmEventTestTypesFirst)%nat →
  (UvmEventTestTypesFirst ≤ UvmEventTestTypesLast)%nat →
  (UvmEventTestTypesLast < UvmEventNumTypesAll)%nat →
  (UvmEventNumTypesAll ≤ 64)%nat →
  0 ≤ event_flags < 2 ^ 64 →
  let valid (i : Z) :=
    1 ≤ i < Z.of_nat UvmEventNumTypes
    ∨ (uvm_enable_builtin_tests = true
       ∧ Z.of_nat UvmEventTestTypesFirst ≤ i ≤ Z.of_nat UvmEventTestTypesLast) in
  let r := mask_contains_invalid_events uvm_enable_builtin_tests event_flags in
  (r.1 = true ↔ ∃ i, 0 ≤ i < 64 ∧ Z.testbit event_flags i = true ∧ ¬ valid i)
  ∧ (Z.testbit event_flags 0 = true → r.1 = true)
  ∧ (event_flags = 0 → r = (false, false))
  ∧ (r.2 = true ↔
       uvm_enable_builtin_tests = false
       ∧ ∃ i, Z.of_nat UvmEventTestTypesFirst ≤ i ≤ Z.of_nat UvmEventTestTypesLast
              ∧ Z.testbit event_flags i = true).
Proof.
  intros H1 H2 H3 H4 H5 Hf valid r.
  set (tests := bitmap_set bitmap_zero (Z.of_nat UvmEventTestTypesFirst)
                  (Z.of_nat UvmEventTestTypesLast - Z.of_nat UvmEventTestTypesFirst + 1)).
  set (regular := bitmap_set bitmap_zero 1 (Z.of_nat UvmEventNumTypes - 1)).
  set (mask := if uvm_enable_builtin_tests then bitmap_or regular tests else regular).
  assert (∀ i, 0 ≤ i → Z.testbit mask i = true ↔ valid i) as Hmask.
  { intros i Hi. subst mask valid regular tests. cbv beta.
    destruct uvm_enable_builtin_tests; unfold bitmap_or;
      rewrite ?Z.lor_spec, ?orb_true_iff, !bitmap_set_zero_bit by lia;
      rewrite ?bool_decide_eq_true; intuition (try lia; try done). }
  assert (r.1 = bitmap_andnot event_flags mask) as Hr1.
  { subst r. unfold mask_contains_invalid_events. fold tests regular mask.
    by destruct (bitmap_andnot event_flags mask). }
  assert (r.1 = true ↔ ∃ i, 0 ≤ i < 64 ∧ Z.testbit event_flags i = true ∧ ¬ valid i)
    as Hinv.
  { rewrite Hr1, bitmap_andnot_spec by done. split.
    - intros (i & Hi & Ha & Hb). exists i. split; [done|]. split; [done|].
      intros Hv. destruct (Hmask i) as [_ Hm]; [lia|]. specialize (Hm Hv). congruence.
    - intros (i & Hi & Ha & Hb). exists i. split; [done|]. split; [done|].
      destruct (Z.testbit mask i) eqn:Hm; [|done].
      destruct Hb. destruct (Hmask i) as [Hm' _]; [lia|]. by apply Hm'. }
  split_and!.
  - exact Hinv.
  - intros H0. apply Hinv. exists 0. split; [lia|]. split; [done|].
    subst valid. cbv beta. lia.
  - intros ->. subst r. unfold mask_contains_invalid_events.
    fold tests regular mask. unfold bitmap_andnot. by rewrite Z.land_0_l.
  - subst r. unfold mask_contains_invalid_events. fold tests regular mask.
    destruct (bitmap_andnot event_flags mask) eqn:Hb; cbn [negb snd].
    + rewrite andb_true_iff, negb_true_iff, bitmap_and_spec by done.
      split; intros [Ht (i & Hi)]; (split; [done|]); exists i.
      * destruct Hi as (Hi & Ha & Hb'). split; [|done].
        subst tests. rewrite bitmap_set_zero_bit in Hb' by lia.
        apply bool_decide_eq_true in Hb'. lia.
      * destruct Hi as (Hi & Ha). split; [lia|]. split; [done|].
        subst tests. rewrite bitmap_set_zero_bit by lia.
        apply bool_decide_eq_true. lia.
    + split; [done|]. intros [-> (i & Hi & Ha)].
      assert (bitmap_andnot event_flags mask = true); [|congruence].
      apply bitmap_andnot_spec; [done|]. exists i. split; [lia|]. split; [done|].
      destruct (Z.testbit mask i) eqn:Hm; [|done].
      destruct (Hmask i) as [Hm' _]; [lia|]. apply Hm' in Hm.
      subst valid. cbv beta in Hm.
      destruct Hm as [Hm|[Hm _]]; [lia|done].
Qed.

End mask_claims.

(** The theorem with 22 event types and the test events 62 and 63: the
    mask of event types 1 and 2 is accepted; the mask of event type 62
    is refused, with the hint, when the tests are disabled. *)
Lemma mask_contains_invalid_events_spec_witness :
  mask_contains_invalid_events (rng := uvm_event_ranges_example) false 6 = (false, false)
  ∧ ((mask_contains_invalid_events (rng := uvm_event_ranges_example) false (2 ^ 62)).2 = true
     ↔ false = false
       ∧ ∃ i, (62 ≤ i ≤ 63)%Z ∧ Z.testbit (2 ^ 62) i = true).
Proof.
  split; [by vm_compute|].
  refine (proj2 (proj2 (proj2
    (mask_contains_invalid_events_spec (hdr := uvm_types_example)
       (rng := uvm_event_ranges_example) false (2 ^ 62) _ _ _ _ _ _)))).
  - vm_compute. lia.
  - vm_compute. lia.
  - vm_compute. lia.
  - vm_compute. lia.
  - vm_compute. lia.
  - lia.
Defined.

(** ** Enabled state: what a successful update establishes *)

Section status_success.
Context {hdr : uvm_types_h}.

Lemma update_callback_ok reg needed event e e' :
  update_callback reg needed event e = (NV_OK, e') →
  is_event_callback_registered e' event = needed
  ∧ ∀ event', event' ≠ event →
      is_event_callback_registered e' event' = is_event_callback_registered e event'.
Proof.
  unfold update_callback, uvm_perf_register_event_callback_locked,
    uvm_perf_unregister_event_callback_locked.
  destruct needed, (is_event_callback_registered e event) eqn:Hr; cbn [negb].
  - by intros [= <-].
  - destruct (reg event); intros [= <-].
    split; [by destruct event|]. intros []; by destruct event.
  - intros [= <-]. split; [by destruct event|]. intros []; by destruct event.
  - by intros [= <-].
Qed.

Lemma update_callbacks_ok reg s s' :
  tools_update_perf_events_callbacks reg s = (NV_OK, s') →
  va_tools s' = va_tools s
  ∧ fault_callback_registered (perf_events s')
    = tools_is_fault_callback_needed (va_tools s)
  ∧ migration_callback_registered (perf_events s')
    = tools_is_migration_callback_needed (va_tools s).
Proof.
  unfold tools_update_perf_events_callbacks.
  destruct (update_callback reg (tools_is_fault_callback_needed (va_tools s))
              UVM_PERF_EVENT_FAULT (perf_events s)) as [st1 e1] eqn:H1.
  destruct st1; cbn [is_ok negb]; try by intros [= <-].
  destruct (update_callback reg (tools_is_migration_callback_needed (va_tools s))
              UVM_PERF_EVENT_MIGRATION e1) as [st2 e2] eqn:H2.
  destruct st2; cbn [is_ok negb]; intros [= <-].
  destruct (update_callback_ok _ _ _ _ _ H1) as [Hf _].
  destruct (update_callback_ok _ _ _ _ _ H2) as [Hm Ho].
  specialize (Ho UVM_PERF_EVENT_FAULT). cbn in *.
  split_and!; [done| |done]. rewrite Ho; done.
Qed.

Lemma event_enabled_are_enabled tools e :
  e < UvmEventNumTypesAll →
  tools_is_event_enabled tools e = true → tools_are_enabled tools = true.
Proof.
  intros He Hen. unfold tools_are_enabled. apply orb_true_iff. right.
  apply existsb_exists. exists e. split; [|done]. apply in_seq. lia.
Qed.

Lemma counter_enabled_are_enabled tools c :
  c < UVM_TOTAL_COUNTERS →
  tools_is_counter_enabled tools c = true → tools_are_enabled tools = true.
Proof.
  intros He Hen. unfold tools_are_enabled. apply orb_true_iff. left.
  apply existsb_exists. exists c. split; [|done]. apply in_seq. lia.
Qed.

(** X6. When [tools_update_status] returns [NV_OK] for a collector
    whose membership in the list of enabled collectors agrees with its
    enabled flag: its subscription lists are untouched, its enabled flag
    says whether any of its lists is not empty, each producer callback
    is registered exactly when a subscription needs it, and the
    collector is on the list (once) exactly when it is enabled; the
    other collectors, the trackers and the counts are untouched. With
    the event types and counters of the two callbacks inside their
    arrays, a registered callback implies the enabled flag: this is what
    [uvm_tools_record_fault] and [uvm_tools_record_migration] assert. *)
Theorem update_status_success reg v st s st' :
  va_spaces st !! v = Some s →
  tools_update_status reg v st = (NV_OK, st') →
  NoDup (g_tools_va_space_list st) →
  (v ∈ g_tools_va_space_list st ↔ tools_enabled (va_tools s) = true) →
  ∃ s', va_spaces st' !! v = Some s'
    ∧ tools_queues (va_tools s') = tools_queues (va_tools s)
    ∧ tools_counters (va_tools s') = tools_counters (va_tools s)
    ∧ tools_enabled (va_tools s') = tools_are_enabled (va_tools s)
    ∧ fault_callback_registered (perf_events s')
      = tools_is_fault_callback_needed (va_tools s)
    ∧ migration_callback_registered (perf_events s')
      = tools_is_migration_callback_needed (va_tools s)
    ∧ NoDup (g_tools_va_space_list st')
    ∧ (v ∈ g_tools_va_space_list st' ↔ tools_enabled (va_tools s') = true)
    ∧ (∀ v', v' ≠ v →
         (v' ∈ g_tools_va_space_list st' ↔ v' ∈ g_tools_va_space_list st)
         ∧ va_spaces st' !! v' = va_spaces st !! v')
    ∧ trackers st' = trackers st
    ∧ g_tools_enabled_event_count st' = g_tools_enabled_event_count st
    ∧ (UvmEventTypeCpuFault < UvmEventNumTypesAll →
       UvmEventTypeGpuFault < UvmEventNumTypesAll →
       UvmCounterNameCpuPageFaultCount < UVM_TOTAL_COUNTERS →
       UvmCounterNameGpuPageFaultCount < UVM_TOTAL_COUNTERS →
       fault_callback_registered (perf_events s') = true →
       tools_enabled (va_tools s') = true)
    ∧ (UvmEventTypeMigration < UvmEventNumTypesAll →
       UvmEventTypeReadDuplicate < UvmEventNumTypesAll →
       UvmCounterNameBytesXferDtH < UVM_TOTAL_COUNTERS →
       UvmCounterNameBytesXferHtD < UVM_TOTAL_COUNTERS →
       migration_callback_registered (perf_events s') = true →
       tools_enabled (va_tools s') = true).
Proof.
  intros Hv Hrun Hnd Hon. unfold tools_update_status in Hrun. rewrite Hv in Hrun.
  destruct (tools_update_perf_events_callbacks reg s) as [status s1] eqn:H1.
  destruct status; cbn [is_ok negb] in Hrun; try by inversion Hrun.
  destruct (update_callbacks_ok _ _ _ H1) as (Ht & Hf & Hm).
  rewrite Ht in Hrun.
  set (should := tools_are_enabled (va_tools s)) in *.
  assert (∃ s', va_spaces st' !! v = Some s'
            ∧ va_tools s' = VaTools should (tools_queues (va_tools s))
                              (tools_counters (va_tools s))
            ∧ perf_events s' = perf_events s1
            ∧ g_tools_va_space_list st'
              = (if eqb should (tools_enabled (va_tools s))
                 then g_tools_va_space_list st
                 else if should then v :: g_tools_va_space_list st
                      else filter (λ x, x ≠ v) (g_tools_va_space_list st))
            ∧ (∀ v', v' ≠ v → va_spaces st' !! v' = va_spaces st !! v')
            ∧ trackers st' = trackers st
            ∧ g_tools_enabled_event_count st' = g_tools_enabled_event_count st)
    as (s' & Hs' & Htools & Hpe & Hlist & Hother & Htr & Hcnt).
  { destruct (eqb should (tools_enabled (va_tools s))) eqn:Heq; cbn [negb] in Hrun;
      injection Hrun as <-; cbn.
    - exists s1. rewrite lookup_insert_eq. split_and!; try done.
      + rewrite Ht. apply eqb_prop in Heq. rewrite Heq. by destruct (va_tools s).
      + intros v' Hne. by rewrite lookup_insert_ne.
    - eexists. rewrite lookup_insert_eq. split; [done|]. cbn. rewrite Ht.
      split_and!; try done.
      intros v' Hne. by rewrite lookup_insert_ne. }
  exists s'. rewrite Htools, Hpe, Hlist. cbn.
  assert (tools_is_fault_callback_needed (va_tools s) = true →
          UvmEventTypeCpuFault < UvmEventNumTypesAll →
          UvmEventTypeGpuFault < UvmEventNumTypesAll →
          UvmCounterNameCpuPageFaultCount < UVM_TOTAL_COUNTERS →
          UvmCounterNameGpuPageFaultCount < UVM_TOTAL_COUNTERS →
          should = true) as Hfault.
  { unfold tools_is_fault_callback_needed. rewrite !orb_true_iff.
    intros [[[H|H]|H]|H] ? ? ? ?;
      eauto using event_enabled_are_enabled, counter_enabled_are_enabled. }
  assert (tools_is_migration_callback_needed (va_tools s) = true →
          UvmEventTypeMigration < UvmEventNumTypesAll →
          UvmEventTypeReadDuplicate < UvmEventNumTypesAll →
          UvmCounterNameBytesXferDtH < UVM_TOTAL_COUNTERS →
          UvmCounterNameBytesXferHtD < UVM_TOTAL_COUNTERS →
          should = true) as Hmig.
  { unfold tools_is_migration_callback_needed. rewrite !orb_true_iff.
    intros [[[H|H]|H]|H] ? ? ? ?;
      eauto using event_enabled_are_enabled, counter_enabled_are_enabled. }
  assert (NoDup (if eqb should (tools_enabled (va_tools s))
                 then g_tools_va_space_list st
                 else if should then v :: g_tools_va_space_list st
                      else filter (λ x, x ≠ v) (g_tools_va_space_list st))
          ∧ ∀ v', v' ∈ (if eqb should (tools_enabled (va_tools s))
                        then g_tools_va_space_list st
                        else if should then v :: g_tools_va_space_list st
                             else filter (λ x, x ≠ v) (g_tools_va_space_list st))
                  ↔ if decide (v' = v) then should = true
                    else v' ∈ g_tools_va_space_list st) as [Hnd' Hin'].
  { clear Hfault Hmig Hrun Htools. clearbody should.
    destruct should, (tools_enabled (va_tools s)); cbn [eqb].
    - split; [done|]. intros v'. case_decide; subst; [|done]. by rewrite Hon.
    - split.
      + apply NoDup_cons. split; [|done]. rewrite Hon. done.
      + intros v'. rewrite elem_of_cons. case_decide; subst; [tauto|].
        split; [by intros [?|?]|by right].
    - split; [by apply NoDup_filter|].
      intros v'. rewrite list_elem_of_filter. case_decide; subst; [|tauto].
      split; [by intros [? _]|done].
    - split; [done|]. intros v'. case_decide; subst; [|done]. by rewrite Hon. }
  split_and!; try done.
  - rewrite Hin'. by rewrite decide_True.
  - intros v' Hne. split; [|by apply Hother].
    rewrite Hin'. by rewrite decide_False.
  - rewrite Hf. auto.
  - rewrite Hm. auto.
Qed.

End status_success.

(** The theorem on the collector that is being attached, when every
    registration succeeds: the collector becomes enabled, is put on the
    list, and both callbacks are registered. *)
Lemma update_status_success_witness :
  ∃ s', va_spaces (tools_update_status (hdr := uvm_types_example) (λ _, NV_OK) 1
                     example_globals_attaching).2 !! 1 = Some s'
    ∧ tools_enabled (va_tools s') = true
    ∧ fault_callback_registered (perf_events s') = true
    ∧ migration_callback_registered (perf_events s') = true
    ∧ g_tools_va_space_list (tools_update_status (hdr := uvm_types_example) (λ _, NV_OK) 1
                               example_globals_attaching).2 = [1].
Proof.
  destruct (tools_update_status (hdr := uvm_types_example) (λ _, NV_OK) 1
              example_globals_attaching) as [status st'] eqn:Hrun.
  assert (status = NV_OK) as -> by (by vm_compute in Hrun; injection Hrun as <- _).
  destruct (update_status_success (hdr := uvm_types_example) (λ _, NV_OK) 1
              example_globals_attaching _ st' eq_refl Hrun)
    as (s' & Hs' & _ & _ & Hen & Hf & Hm & _).
  - apply NoDup_nil_2.
  - split; [by intros ?%elem_of_nil|done].
  - exists s'. split; [done|]. rewrite Hen, Hf, Hm.
    split_and!; try by vm_compute.
    vm_compute in Hrun. by injection Hrun as <-.
Defined.

(** ** Registry: linking twice, unlinking twice, and the round trip *)

Section insert_remove_laws.
Local Open Scope Z_scope.

Lemma foldl_cond_alter_false {A} (P : nat → bool) (f : A → A) n (l : list A) :
  (∀ j, (j < n)%nat → P j = false) →
  foldl (λ l i, if P i then alter f i l else l) l (seq 0 n) = l.
Proof.
  intros HP. apply list_eq. intros j. rewrite foldl_cond_alter_lookup.
  case_bool_decide as Hj; [|done]. by rewrite HP.
Qed.

Lemma land_lnot_lor_zero mask sub :
  0 ≤ mask < 2 ^ 64 → Z.land mask (wrap64 (Z.lnot (Z.lor sub mask))) = 0.
Proof.
  intros Hm. apply Z.bits_inj'. intros i Hi. rewrite Z.bits_0, Z.land_spec.
  destruct (Z.testbit mask i) eqn:Hb; [|done].
  pose proof (word_bit_range mask i Hm Hb) as Hr.
  rewrite testbit_wrap64, Z.lnot_spec, Z.lor_spec, Hb by lia.
  by rewrite orb_true_r.
Qed.

Lemma land_lnot_disjoint mask sub :
  0 ≤ sub < 2 ^ 64 → Z.land mask sub = 0 →
  Z.land sub (wrap64 (Z.lnot mask)) = sub.
Proof.
  intros Hs H0. apply Z.bits_inj'. intros i Hi. rewrite Z.land_spec.
  destruct (Z.testbit sub i) eqn:Hb; [|done].
  pose proof (word_bit_range sub i Hs Hb) as Hr.
  rewrite testbit_wrap64, Z.lnot_spec by lia.
  assert (Z.testbit (Z.land mask sub) i = false) as Hl by (by rewrite H0, Z.bits_0).
  rewrite Z.land_spec, Hb, andb_true_r in Hl. by rewrite Hl.
Qed.

Lemma lor_land_lnot mask sub :
  0 ≤ sub < 2 ^ 64 → Z.land mask sub = 0 →
  Z.land (Z.lor sub mask) (wrap64 (Z.lnot mask)) = sub.
Proof.
  intros Hs H0. rewrite Z.land_lor_distr_l.
  rewrite land_lnot_disjoint by done.
  assert (Z.land mask (wrap64 (Z.lnot mask)) = 0) as ->; [|apply Z.lor_0_r].
  apply Z.bits_inj'. intros i Hi. rewrite Z.bits_0, Z.land_spec.
  destruct (Z.testbit mask i) eqn:Hb; [|done].
  destruct (decide (i < 64)) as [Hlt|Hge].
  - rewrite testbit_wrap64, Z.lnot_spec, Hb by lia. done.
  - unfold wrap64. rewrite Z.mod_pow2_bits_high by lia. done.
Qed.

(** X7. For masks that are 64-bit values: linking a tracker a second
    time with the same mask links nothing and moves no count; unlinking
    with a mask of which the tracker has no bit changes nothing; and
    unlinking right after linking, for a tracker that had none of the
    bits and was on none of the lists, gives back the counts (when they
    are 32-bit values), the lists and the subscribed mask as they
    were. *)
Theorem insert_remove_event_tracker_laws (node n : nat) (mask sub : Z)
    (ls : list (list nat)) (cnt : list Z) :
  0 ≤ mask < 2 ^ 64 →
  0 ≤ sub < 2 ^ 64 →
  let r := insert_event_tracker node n mask sub ls cnt in
  insert_event_tracker node n mask r.1.2 r.1.1.2 r.1.1.1 = (r.1.1.1, r.1.1.2, r.1.2, 0)
  ∧ (Z.land mask sub = 0 →
     remove_event_tracker node n mask sub ls cnt = (cnt, ls, sub))
  ∧ (Z.land mask sub = 0 →
     (∀ i l, ls !! i = Some l → node ∉ l) →
     (∀ i c, cnt !! i = Some c → 0 ≤ c < 2 ^ 32) →
     remove_event_tracker node n mask r.1.2 r.1.1.2 r.1.1.1 = (cnt, ls, sub)).
Proof.
  intros Hm Hs r. subst r.
  rewrite (insert_event_tracker_eq node n mask sub ls cnt). cbn [fst snd].
  split_and!.
  - rewrite insert_event_tracker_eq, land_lnot_lor_zero by done.
    rewrite !(foldl_cond_alter_false (λ i : nat, Z.testbit 0 (Z.of_nat i)))
      by (intros; apply Z.bits_0).
    by rewrite <-Z.lor_assoc, Z.lor_diag.
  - intros H0. rewrite remove_event_tracker_eq, H0.
    rewrite !(foldl_cond_alter_false (λ i : nat, Z.testbit 0 (Z.of_nat i)))
      by (intros; apply Z.bits_0).
    rewrite land_lnot_disjoint by done. done.
  - intros H0 Hnode Hcnt. rewrite remove_event_tracker_eq.
    rewrite lor_land_lnot by done.
    assert (∀ i : nat, Z.testbit (Z.land mask (Z.lor sub mask)) (Z.of_nat i)
                      = Z.testbit (Z.land mask (wrap64 (Z.lnot sub))) (Z.of_nat i)) as HP.
    { intros i. rewrite !Z.land_spec, Z.lor_spec.
      destruct (Z.testbit mask (Z.of_nat i)) eqn:Hb; [|done].
      pose proof (word_bit_range mask _ Hm Hb) as Hr.
      rewrite testbit_wrap64, Z.lnot_spec by lia.
      assert (Z.testbit (Z.land mask sub) (Z.of_nat i) = false) as Hl
        by (by rewrite H0, Z.bits_0).
      rewrite Z.land_spec, Hb in Hl. cbn in Hl. by rewrite Hl. }
    f_equal. f_equal.
    + apply list_eq. intros j. rewrite foldl_cond_alter_lookup, HP.
      rewrite foldl_cond_alter_lookup.
      destruct (bool_decide (j < n)%nat && _); [|done].
      destruct (cnt !! j) as [c|] eqn:Hc; [|done]. cbn. f_equal.
      rewrite wrap32_pred. unfold wrap32.
      replace (c + 1 - 1) with c by lia. apply Z.mod_small. eauto.
    + apply list_eq. intros j. rewrite foldl_cond_alter_lookup, HP.
      rewrite foldl_cond_alter_lookup.
      destruct (bool_decide (j < n)%nat && _); [|done].
      destruct (ls !! j) as [l|] eqn:Hl; [|done].
      change (Some (filter (λ x, x ≠ node) (node :: l)) = Some l). f_equal.
      rewrite filter_cons_False by (intros Hne; by apply Hne).
      apply filter_ne_notin. eauto.
Qed.

End insert_remove_laws.

(** The theorem on an empty registry of 64 event types: tracker 10 is
    linked for event types 1 and 2 and unlinked again. *)
Lemma insert_remove_event_tracker_laws_witness :
  let r := insert_event_tracker 10 64 6 0 (replicate 64 []) (replicate 64 0%Z) in
  r.1.1.1 !! 1 = Some 1%Z
  ∧ remove_event_tracker 10 64 6 r.1.2 r.1.1.2 r.1.1.1
    = (replicate 64 0%Z, replicate 64 [], 0%Z).
Proof.
  split; [by vm_compute|].
  refine (proj2 (proj2 (insert_remove_event_tracker_laws 10 64 6 0
            (replicate 64 []) (replicate 64 0%Z) _ _)) _ _ _).
  - lia.
  - lia.
  - done.
  - intros i l [-> _]%lookup_replicate. apply not_elem_of_nil.
  - intros i c [-> _]%lookup_replicate. lia.
Defined.

(** ** Record and broadcast: who receives an event *)

Section delivery_claims.
Context {hdr : uvm_types_h}.

Lemma record_event_lookup tools entry (h : gmap nat uvm_tools_event_tracker_t) p :
  NoDup (tools_queues tools !!! entry_eventType entry) →
  uvm_tools_record_event tools entry h !! p
  = if decide (p ∈ tools_queues tools !!! entry_eventType entry)
    then tracker_enqueue entry <$> h !! p else h !! p.
Proof. intros Hnd. unfold uvm_tools_record_event. by apply foldl_alter_lookup. Qed.

(** The list of event type [ty] of the collector at [v]. *)
Lemma broadcast_event_lookup (spaces : gmap nat uvm_va_space_t) entry p vs :
  ∀ h : gmap nat uvm_tools_event_tracker_t,
  let L v := match spaces !! v with
             | Some s => tools_queues (va_tools s) !!! entry_eventType entry
             | None => []
             end in
  (∀ v, NoDup (L v)) →
  (∀ v v', v ≠ v' → p ∈ L v → p ∉ L v') →
  NoDup vs →
  uvm_tools_broadcast_event vs spaces entry h !! p
  = if decide (Exists (λ v, p ∈ L v) vs)
    then tracker_enqueue entry <$> h !! p else h !! p.
Proof.
  intros h L HL Hdisj. revert h. unfold uvm_tools_broadcast_event.
  induction vs as [|v vs IH]; intros h Hnd; cbn [foldl].
  - rewrite decide_False; [done|]. by intros ?%Exists_nil.
  - apply NoDup_cons in Hnd as [Hv Hnd]. rewrite IH by done.
    assert ((match spaces !! v with
             | Some va_space => uvm_tools_record_event (va_tools va_space) entry h
             | None => h
             end) !! p
            = if decide (p ∈ L v) then tracker_enqueue entry <$> h !! p else h !! p)
      as ->.
    { subst L. cbv beta. specialize (HL v). cbv beta in HL.
      destruct (spaces !! v) as [s|].
      - by apply record_event_lookup.
      - rewrite decide_False; [done|]. apply not_elem_of_nil. }
    destruct (decide (p ∈ L v)) as [Hin|Hin].
    + rewrite decide_False.
      * rewrite decide_True; [done|]. by apply Exists_cons_hd.
      * intros (v' & Hv' & Hp)%Exists_exists.
        apply (Hdisj v v'); [|done..]. intros ->. done.
    + destruct (decide (Exists (λ v0, p ∈ L v0) vs)) as [Hex|Hex].
      * rewrite decide_True; [done|]. by apply Exists_cons_tl.
      * rewrite decide_False; [done|]. by intros [?|?]%Exists_cons.
Qed.

(** X8. In a registry that holds queue trackers only, with the list of
    enabled collectors free of repetition: [uvm_tools_broadcast_event]
    enqueues the record exactly once into every tracker that is
    subscribed to the record's event type and whose collector is on the
    list of enabled collectors, and leaves every other tracker as it
    is. *)
Theorem broadcast_event_exactly_once (st : tools_globals) (entry : UvmEventEntry)
    (p : nat) (t : uvm_tools_event_tracker_t) :
  registry_inv st →
  NoDup (g_tools_va_space_list st) →
  entry_eventType entry < UvmEventNumTypesAll →
  trackers st !! p = Some t →
  let receives :=
    ∃ v, uvm_file t = Some v ∧ v ∈ g_tools_va_space_list st
         ∧ is_Some (va_spaces st !! v)
         ∧ Z.testbit (tracker_subscribed t) (Z.of_nat (entry_eventType entry)) = true in
  let h := uvm_tools_broadcast_event (g_tools_va_space_list st) (va_spaces st)
             entry (trackers st) in
  (receives → h !! p = Some (tracker_enqueue entry t))
  ∧ (¬ receives → h !! p = Some t).
Proof.
  intros (H64 & Hlc & Hq & Hlen & Hlists & Hcnt) Hnd Hty Hp receives h.
  set (L v := match va_spaces st !! v with
              | Some s => tools_queues (va_tools s) !!! entry_eventType entry
              | None => []
              end).
  assert (∀ v s, va_spaces st !! v = Some s →
            tools_queues (va_tools s) !! entry_eventType entry
            = Some (tools_queues (va_tools s) !!! entry_eventType entry)) as Hget.
  { intros v s Hs. apply list_lookup_lookup_total_lt. rewrite (Hlen v s Hs). lia. }
  assert (∀ v p', p' ∈ L v ↔
            ∃ q, is_Some (va_spaces st !! v)
                 ∧ trackers st !! p' = Some (Tracker (Some v) (inl q))
                 ∧ Z.testbit (subscribed_queues q) (Z.of_nat (entry_eventType entry)) = true)
    as HL.
  { intros v p'. subst L. cbv beta. destruct (va_spaces st !! v) as [s|] eqn:Hs.
    - destruct (Hlists v s _ _ Hs (Hget v s Hs)) as [_ Hmem]. rewrite Hmem.
      split; intros (q & Hq'); exists q; [split; [by eexists|done]|tauto].
    - split; [by intros ?%elem_of_nil|]. by intros (q & [? [=]] & _). }
  assert (h !! p = if decide (Exists (λ v, p ∈ L v) (g_tools_va_space_list st))
                   then tracker_enqueue entry <$> trackers st !! p
                   else trackers st !! p) as Hh.
  { subst h. apply broadcast_event_lookup; [| |done].
    - intros v. subst L. cbv beta. destruct (va_spaces st !! v) as [s|] eqn:Hs.
      + by destruct (Hlists v s _ _ Hs (Hget v s Hs)).
      + apply NoDup_nil_2.
    - intros v v' Hne (q & _ & Hp1 & _)%HL (q' & _ & Hp2 & _)%HL.
      rewrite Hp1 in Hp2. by injection Hp2. }
  assert (receives ↔ Exists (λ v, p ∈ L v) (g_tools_va_space_list st)) as Hrec.
  { subst receives. rewrite Exists_exists. split.
    - intros (v & Hf & Hv & Hs & Hbit). exists v. split; [done|]. apply HL.
      pose proof (Hq p t Hp) as Hisq. destruct t as [f [q|c]]; [|done].
      cbn in Hf. subst f. exists q. done.
    - intros (v & Hv & (q & Hs & Hp' & Hbit)%HL). exists v.
      rewrite Hp in Hp'. injection Hp' as ->. done. }
  rewrite Hh, Hp. split; intros Hr.
  - rewrite decide_True; [done|]. by apply Hrec.
  - rewrite decide_False; [done|]. by rewrite <-Hrec.
Qed.

End delivery_claims.

(** The theorem on one enabled collector with two trackers, one of them
    subscribed to the event type of the record: that one receives the
    record. *)
Lemma broadcast_event_exactly_once_witness :
  uvm_tools_broadcast_event (g_tools_va_space_list example_globals_listed)
    (va_spaces example_globals_listed) example_entry
    (trackers example_globals_listed) !! 10
  = tracker_enqueue example_entry <$> trackers example_globals_listed !! 10.
Proof.
  destruct (trackers example_globals_listed !! 10) as [t|] eqn:Ht;
    [|by vm_compute in Ht].
  refine (proj1 (broadcast_event_exactly_once (hdr := uvm_types_example)
                   example_globals_listed example_entry 10 t _ _ _ Ht) _).
  - exact (registry_run_inv (hdr := uvm_types_example) [Subscribe 10 4] example_globals
             example_globals_inv).
  - apply NoDup_singleton.
  - vm_compute. lia.
  - exists 1. vm_compute in Ht. injection Ht as <-.
    split; [done|]. split; [apply list_elem_of_singleton; done|].
    split; [by eexists|done].
Defined.

(** ** Ring queue: what the consumer finds *)

Section ring_fifo.
Local Open Scope Z_scope.

Lemma mod_add_ne a d c : 0 < d < c → (a + d) mod c ≠ a mod c.
Proof.
  intros Hd Heq.
  assert (d mod c = 0) as H0.
  { replace d with ((a + d) - a) by lia. rewrite Zminus_mod, Heq, Z.sub_diag.
    apply Z.mod_0_l. lia. }
  rewrite Z.mod_small in H0 by lia. lia.
Qed.

Lemma stored_count_range q : 0 < queue_buffer_count q → 0 ≤ stored_count q < queue_buffer_count q.
Proof. intros Hc. unfold stored_count. apply Z.mod_pos_bound. lia. Qed.

Lemma enqueue_event_not_full q :
  is_capacity (queue_buffer_count q) →
  stored_count q + 1 ≤ queue_buffer_count q - 1 →
  enqueue_is_full q = false.
Proof.
  intros Hc Hs. pose proof (capacity_pos _ Hc) as Hpos.
  pose proof (stored_count_range q Hpos) as Hr.
  destruct (enqueue_is_full q) eqn:Hfull; [|done].
  apply enqueue_is_full_spec in Hfull; [|done].
  apply free_slots_stored in Hfull; lia.
Qed.

(** X9. For a queue whose capacity is a power of two and whose ring has
    as many slots, and records that all fit (the records stored plus the
    new ones are at most capacity minus one), the consumer writing
    nothing meanwhile: after the enqueues the slots from the old
    producer position on hold the new records in the order of the
    calls, every other slot is as it was, the producer cursor has
    advanced by their number modulo the capacity, no drop counter has
    moved, and the consumer cursors are untouched. *)
Theorem enqueue_all_fifo (es : list UvmEventEntry) : ∀ q : uvm_tools_queue_t,
  is_capacity (queue_buffer_count q) →
  length (queue q) = Z.to_nat (queue_buffer_count q) →
  stored_count q + Z.of_nat (length es) ≤ queue_buffer_count q - 1 →
  let C := queue_buffer_count q in
  let q' := enqueue_all es q in
  let pb := put_behind (control q) in
  (∀ (i : nat) e, es !! i = Some e →
     queue q' !! Z.to_nat ((pb + Z.of_nat i) mod C) = Some e)
  ∧ (∀ j : nat, (∀ i : nat, (i < length es)%nat →
                   j ≠ Z.to_nat ((pb + Z.of_nat i) mod C)) →
       queue q' !! j = queue q !! j)
  ∧ put_behind (control q') mod C = (pb + Z.of_nat (length es)) mod C
  ∧ get_behind (control q') = get_behind (control q)
  ∧ get_ahead (control q') = get_ahead (control q)
  ∧ dropped (control q') = dropped (control q)
  ∧ stored_count q' = stored_count q + Z.of_nat (length es).
Proof.
  induction es as [|e es IH]; intros q Hc Hlen Hroom C q' pb.
  - subst q'. cbn. split_and!; try done.
    + by rewrite Z.add_0_r.
    + lia.
  - pose proof (capacity_pos _ Hc) as Hpos.
    pose proof (stored_count_range q Hpos) as Hr.
    cbn [length] in Hroom.
    assert (enqueue_is_full q = false) as Hnf
      by (apply enqueue_event_not_full; [done|lia]).
    set (q1 := enqueue_event e q).
    assert (queue_buffer_count q1 = C) as HC1 by apply enqueue_event_capacity.
    assert (queue q1 = <[Z.to_nat (pb mod C) := e]> (queue q)) as Hq1.
    { subst q1. rewrite enqueue_event_queue_store by done.
      by rewrite read_cursors_put_behind. }
    assert (control q1 = set_put ((pb + 1) mod C) ((pb + 1) mod C) (control q)) as Hc1.
    { subst q1. rewrite enqueue_event_control_store by done.
      by rewrite read_cursors_put_ahead. }
    assert (stored_count q1 = stored_count q + 1) as Hs1.
    { subst q1. rewrite enqueue_event_stored_count by (done || lia). lia. }
    destruct (IH q1) as (Hslots & Hframe & Hpb & Hgb & Hga & Hdr & Hst).
    { by rewrite HC1. }
    { rewrite Hq1, length_insert, HC1. done. }
    { rewrite HC1, Hs1. lia. }
    rewrite HC1, Hc1 in Hslots, Hframe, Hpb. cbn [put_behind set_put] in Hslots, Hframe, Hpb.
    assert (∀ x, ((pb + 1) mod C + x) mod C = (pb + (1 + x)) mod C) as Hmod.
    { intros x. rewrite Zplus_mod_idemp_l. f_equal. lia. }
    change (enqueue_all (e :: es) q) with (enqueue_all es q1) in q'. subst q'.
    split_and!.
    + intros [|i] e' He'; cbn in He'.
      * injection He' as <-. rewrite Hframe.
        -- rewrite Hq1, Z.add_0_r. apply list_lookup_insert_eq.
           rewrite Hlen. pose proof (Z.mod_pos_bound pb C Hpos). lia.
        -- intros i Hi. rewrite Hmod, Z.add_0_r. intros Heq.
           apply Z2Nat.inj in Heq; try (apply Z.mod_pos_bound; lia).
           symmetry in Heq. revert Heq. apply mod_add_ne. lia.
      * rewrite <-(Hslots i e' He'), Hmod. do 3 f_equal. lia.
    + intros j Hj. rewrite Hframe.
      * rewrite Hq1. apply list_lookup_insert_ne.
        specialize (Hj 0%nat). cbn [length] in Hj. rewrite Z.add_0_r in Hj.
        intros Heq. apply Hj; [lia|done].
      * intros i Hi. rewrite Hmod. specialize (Hj (S i)). cbn [length] in Hj.
        replace (pb + (1 + Z.of_nat i)) with (pb + Z.of_nat (S i)) by lia.
        apply Hj. lia.
    + rewrite Hpb, Hmod. f_equal. cbn [length]. lia.
    + by rewrite Hgb, Hc1.
    + by rewrite Hga, Hc1.
    + by rewrite Hdr, Hc1.
    + rewrite Hst, Hs1. cbn [length]. lia.
Qed.

End ring_fifo.

(** The theorem on the empty queue of capacity 4 and three records. *)
Lemma enqueue_all_fifo_witness :
  let es := [scenario_entry 2 7; scenario_entry 2 8; scenario_entry 3 9] in
  queue (enqueue_all es scenario_queue) !! 2 = Some (scenario_entry 3 9)
  ∧ stored_count (enqueue_all es scenario_queue) = 3%Z.
Proof.
  cbv zeta.
  destruct (enqueue_all_fifo
              [scenario_entry 2 7; scenario_entry 2 8; scenario_entry 3 9]
              scenario_queue)
    as (Hslots & _ & _ & _ & _ & _ & Hst).
  - exists 2%Z. split; [lia|by vm_compute].
  - by vm_compute.
  - vm_compute. by intros [=].
  - split; [|exact Hst]. exact (Hslots 2 (scenario_entry 3 9) eq_refl).
Defined.

(** ** The table of processor identities *)

Section uuid_table.
Context {hdr : uvm_types_h} {prc : uvm_processors_h}.

Lemma uuid_table_loop_spec gpus : ∀ uuids count,
  NoDup (gpu_id <$> gpus) →
  let r := uuid_table_loop gpus (uuids, count) in
  length r.1 = length uuids
  ∧ count ≤ r.2
  ∧ (∀ g, g ∈ gpus → gpu_id g < r.2)
  ∧ (r.2 = count ∨ ∃ g, g ∈ gpus ∧ r.2 = gpu_id g + 1)
  ∧ (∀ g, g ∈ gpus → gpu_id g < length uuids → r.1 !! gpu_id g = Some (gpu_uuid g))
  ∧ (∀ i, i ∉ gpu_id <$> gpus → r.1 !! i = uuids !! i).
Proof.
  unfold uuid_table_loop.
  induction gpus as [|g gpus IH]; intros uuids count Hnd; cbn [foldl fmap list_fmap].
  - cbn. split_and!; [done|lia| |by left| |done];
      by intros g ?%elem_of_nil.
  - cbn [fmap list_fmap] in Hnd. apply NoDup_cons in Hnd as [Hg Hnd].
    set (count1 := if decide (count < gpu_id g + 1) then gpu_id g + 1 else count).
    destruct (IH (<[gpu_id g := gpu_uuid g]> uuids) count1 Hnd)
      as (Hlen & Hle & Hids & Hcnt & Hget & Hframe).
    assert (count ≤ count1 ∧ gpu_id g < count1
            ∧ (count1 = count ∨ count1 = gpu_id g + 1)) as (Hc1 & Hc2 & Hc3)
      by (subst count1; case_decide; lia).
    rewrite length_insert in Hlen, Hget.
    split_and!.
    + done.
    + lia.
    + intros g' [->|Hin]%elem_of_cons; [lia|by apply Hids].
    + destruct Hcnt as [Hcnt|(g' & Hin & Hcnt)].
      * destruct Hc3 as [Hc3|Hc3]; [left; lia|].
        right. exists g. split; [apply elem_of_cons; by left|lia].
      * right. exists g'. split; [apply elem_of_cons; by right|done].
    + intros g' [->|Hin]%elem_of_cons Hlt; [|by apply Hget].
      rewrite Hframe by done. by apply list_lookup_insert_eq.
    + intros i Hi. apply not_elem_of_cons in Hi as [Hne Hi].
      rewrite Hframe by done. by apply list_lookup_insert_ne.
Qed.

(** X10. When the allocation succeeds and the GPUs of the address space
    have distinct processor ids below [UVM_ID_MAX_PROCESSORS], none of
    them the CPU's: [uvm_api_tools_get_processor_uuid_table] returns
    [NV_OK]; the count it reports is 1 without GPUs and otherwise the
    largest GPU id plus one; the table it copies out has exactly that
    many entries, holds the identity of each GPU at the GPU's id, the
    CPU's default identity at the CPU's id when that is below the count,
    and the zero identity everywhere else. *)
Theorem processor_uuid_table_spec (gpus : list uvm_gpu_t) (count0 : nat) :
  NoDup (gpu_id <$> gpus) →
  (∀ g, g ∈ gpus → gpu_id g < UVM_ID_MAX_PROCESSORS ∧ gpu_id g ≠ UVM_ID_CPU_VALUE) →
  UVM_ID_CPU_VALUE < UVM_ID_MAX_PROCESSORS →
  ∃ count table,
    uvm_api_tools_get_processor_uuid_table true gpus count0 = (NV_OK, count, Some table)
    ∧ 1 ≤ count
    ∧ (∀ g, g ∈ gpus → gpu_id g < count)
    ∧ (count = 1 ∨ ∃ g, g ∈ gpus ∧ count = gpu_id g + 1)
    ∧ length table = count
    ∧ (∀ g, g ∈ gpus → table !! gpu_id g = Some (gpu_uuid g))
    ∧ (UVM_ID_CPU_VALUE < count →
       table !! UVM_ID_CPU_VALUE = Some NV_PROCESSOR_UUID_CPU_DEFAULT)
    ∧ (∀ i, i < count → i ≠ UVM_ID_CPU_VALUE → i ∉ gpu_id <$> gpus →
       table !! i = Some (replicate NV_UUID_LEN 0%Z)).
Proof.
  intros Hnd Hids Hcpu. unfold uvm_api_tools_get_processor_uuid_table. cbn [negb].
  pose proof (uuid_table_loop_spec gpus
                (<[UVM_ID_CPU_VALUE := NV_PROCESSOR_UUID_CPU_DEFAULT]>
                   (replicate UVM_ID_MAX_PROCESSORS (replicate NV_UUID_LEN 0%Z)))
                1 Hnd) as Hloop.
  cbv zeta in Hloop.
  destruct (uuid_table_loop gpus _) as [uuids count]. cbn [fst snd] in Hloop.
  destruct Hloop as (Hlen & Hle & Hlt & Hcnt & Hget & Hframe).
  rewrite length_insert, length_replicate in Hlen, Hget.
  assert (count ≤ UVM_ID_MAX_PROCESSORS) as Hmax.
  { destruct Hcnt as [->|(g & Hg & ->)]; [lia|]. destruct (Hids g Hg). lia. }
  exists count, (take count uuids). split_and!; try done.
  - rewrite length_take. lia.
  - intros g Hg. rewrite lookup_take_lt by auto. apply Hget; [done|].
    by destruct (Hids g Hg).
  - intros Hc. rewrite lookup_take_lt by done. rewrite Hframe.
    + apply list_lookup_insert_eq. by rewrite length_replicate.
    + intros (g & Heq & Hg)%list_elem_of_fmap. destruct (Hids g Hg). congruence.
  - intros i Hi Hne Hnot. rewrite lookup_take_lt by done. rewrite Hframe by done.
    rewrite list_lookup_insert_ne by done.
    apply lookup_replicate_2. lia.
Qed.

End uuid_table.

(** The theorem on an address space with the GPUs of ids 1 and 3: the
    count is 4 and entry 2 is the zero identity. *)
Lemma processor_uuid_table_spec_witness :
  ∃ table,
    uvm_api_tools_get_processor_uuid_table (hdr := uvm_types_example)
      (prc := uvm_processors_example) true
      [Gpu 1 (replicate 16 1%Z); Gpu 3 (replicate 16 3%Z)] 0
    = (NV_OK, 4, Some table)
    ∧ table !! 3 = Some (replicate 16 3%Z)
    ∧ table !! 2 = Some (replicate 16 0%Z).
Proof.
  destruct (processor_uuid_table_spec (hdr := uvm_types_example)
              (prc := uvm_processors_example)
              [Gpu 1 (replicate 16 1%Z); Gpu 3 (replicate 16 3%Z)] 0)
    as (count & table & Hrun & _ & _ & _ & _ & Hget & _ & Hzero).
  - vm_compute. apply NoDup_cons. split; [by intros [=]%list_elem_of_singleton|].
    apply NoDup_singleton.
  - intros g [->|[->|[]%elem_of_nil]%elem_of_cons]%elem_of_cons; vm_compute; lia.
  - vm_compute. lia.
  - assert (count = 4) as -> by (vm_compute in Hrun; by injection Hrun as <- _).
    exists table. split; [done|]. split.
    + apply (Hget (Gpu 3 (replicate 16 3%Z))).
      apply elem_of_cons; right. apply elem_of_cons; by left.
    + apply (Hzero 2); [lia|done|].
      vm_compute. intros [[=]|[[=]|[]%elem_of_nil]%elem_of_cons]%elem_of_cons.
Defined.

(** ** Reading and writing the memory of the observed process *)

Section access_claims.
Context {krn : kernel_h}.
Local Open Scope Z_scope.







End access_claims.


(** ** Mapping the buffers of a tracker *)

Section pages_claims.
Context {krn : kernel_h}.
Local Open Scope Z_scope.

Lemma check_vmas_loop_spec f region_end fuel : ∀ addr,
  vmap_lookup_ok f →
  (1 ≤ fuel)%nat → (Z.to_nat (region_end - addr) ≤ fuel)%nat →
  ∃ st, check_vmas_loop f fuel addr region_end = Some st
    ∧ (st = NV_OK ∨ st = NV_ERR_INVALID_ARGUMENT)
    ∧ (st = NV_OK ↔
       ∀ a, a = addr ∨ addr ≤ a < region_end →
            ∃ v, f a = Some v ∧ vm_is_nvidia_uvm v = false).
Proof.
  induction fuel as [|fuel IH]; intros addr Hf H1 Hfuel; [lia|].
  cbn [check_vmas_loop].
  destruct (f addr) as [v|] eqn:Hv.
  2:{ exists NV_ERR_INVALID_ARGUMENT. split; [done|]. split; [by right|].
      split; [done|]. intros Hall. destruct (Hall addr) as (v & Hv' & _); [by left|].
      congruence. }
  destruct (Hf addr v Hv) as [Hin Hsame].
  destruct (Z.leb_spec (vm_start v) addr) as [_|]; [|lia]. cbn [negb orb].
  destruct (vm_is_nvidia_uvm v) eqn:Huvm.
  { exists NV_ERR_INVALID_ARGUMENT. split; [done|]. split; [by right|].
    split; [done|]. intros Hall. destruct (Hall addr) as (v' & Hv' & Hu); [by left|].
    congruence. }
  destruct (Z.ltb_spec (vm_end v) region_end) as [Hlt|Hge].
  - destruct (IH (vm_end v) Hf) as (st & Hrun & Hst & Hiff); [lia|lia|].
    exists st. split; [done|]. split; [done|]. rewrite Hiff. split.
    + intros Hall a Ha. destruct (decide (a < vm_end v)) as [Ha'|Ha'].
      * exists v. split; [|done]. apply Hsame. lia.
      * apply Hall. lia.
    + intros Hall a Ha. apply Hall. lia.
  - exists NV_OK. split; [done|]. split; [by left|]. split; [|done].
    intros _ a Ha. exists v. split; [|done]. apply Hsame. lia.
Qed.

(** X12. With a lookup that answers with the mapping that holds the
    address, [check_vmas] returns, with [NV_OK] or
    [NV_ERR_INVALID_ARGUMENT]; it returns [NV_OK] exactly when the first
    address and every address from it up to the end of the region (the
    sum computed in 64 bits) lie in mappings that are not of the UVM
    device. The first address is checked also when the size is zero, and
    it is the only address checked when the sum wraps around. *)
Theorem check_vmas_spec (f : Z → option vmap) (start_va size : Z) :
  vmap_lookup_ok f →
  0 ≤ start_va < 2 ^ 64 →
  0 ≤ size < 2 ^ 64 →
  let region_end := wrap64 (start_va + size) in
  ∃ st, check_vmas f start_va size = Some st
    ∧ (st = NV_OK ∨ st = NV_ERR_INVALID_ARGUMENT)
    ∧ (st = NV_OK ↔
       ∀ a, a = start_va ∨ start_va ≤ a < region_end →
            ∃ v, f a = Some v ∧ vm_is_nvidia_uvm v = false).
Proof.
  intros Hf Hs Hsz region_end. unfold check_vmas. fold region_end.
  apply check_vmas_loop_spec; [done|lia|].
  assert (region_end - start_va ≤ size); [|lia].
  subst region_end. unfold wrap64.
  destruct (decide (start_va + size < 2 ^ 64)) as [Hlt|Hge].
  - rewrite Z.mod_small by lia. lia.
  - assert ((start_va + size) mod 2 ^ 64 = start_va + size - 2 ^ 64) as ->; [|lia].
    symmetry. apply (Z.mod_unique_pos _ _ 1); lia.
Qed.

(** X13. With a lookup that answers with the mapping that holds the
    address, a region as for [check_vmas], pages of more than one byte
    (so that the number of pages fits the [long] that holds it), and
    [errno_to_nv_status] turning negative values into failures,
    [map_user_pages] returns, and
    in every case [*pages] is [NULL] exactly when [*addr] is. When
    [*addr] is [NULL], no user page is left pinned and the array of
    pages is freed; when it is not, the status is [NV_OK], as many pages
    are pinned as the region has and they are mapped. A failure status
    comes with [*addr] [NULL]. But [NV_OK] with [*addr] [NULL] is
    returned as well, exactly when every check passed, all the pages
    were pinned, and the allocation of kernel addresses failed
    (or returned address 0): [status] is not set on that path. *)
Theorem map_user_pages_outcomes_spec (o : map_user_pages_outcomes) (user_va size : Z) :
  vmap_lookup_ok (vmap_from_vaddr o) →
  0 ≤ user_va < 2 ^ 64 →
  0 ≤ size < 2 ^ 64 →
  (∀ e, e < 0 → errno_to_nv_status o e ≠ NV_OK) →
  1 < PAGE_SIZE →
  ∃ r, map_user_pages o user_va size = Some r
    ∧ (mup_pages r = false ↔ mup_addr r = None)
    ∧ (mup_addr r = None → mup_pinned r = 0 ∧ mup_array_allocated r = false)
    ∧ (mup_addr r ≠ None →
         mup_status r = NV_OK ∧ mup_pinned r = DIV_ROUND_UP size PAGE_SIZE
         ∧ mup_mapped r = true ∧ mup_array_allocated r = true)
    ∧ (mup_status r ≠ NV_OK → mup_addr r = None)
    ∧ (mup_status r = NV_OK ∧ mup_addr r = None ↔
         range_invalid o = false ∧ kvmalloc_ok o = true
         ∧ check_vmas (vmap_from_vaddr o) user_va size = Some NV_OK
         ∧ pin_user_pages o = DIV_ROUND_UP size PAGE_SIZE
         ∧ (allocate o = None ∨ allocate o = Some 0)).
Proof.
  intros Hf Hu Hs Herrno Hpage. unfold map_user_pages.
  destruct (check_vmas_spec (vmap_from_vaddr o) user_va size Hf Hu Hs)
    as (st & Hcv & Hst & _).
  set (num_pages := DIV_ROUND_UP size PAGE_SIZE).
  assert (0 ≤ num_pages) as Hn0.
  { subst num_pages. unfold DIV_ROUND_UP, wrap64.
    apply Z.div_pos; [|lia]. apply Z.mod_pos_bound. lia. }
  destruct (range_invalid o).
  { eexists. split; [done|]. cbn. intuition congruence. }
  destruct (kvmalloc_ok o); cbn [negb].
  2:{ eexists. split; [done|]. cbn. intuition congruence. }
  rewrite Hcv. destruct Hst as [->| ->].
  2:{ eexists. split; [done|]. cbn. intuition congruence. }
  assert (∀ status mapped,
            let r := map_user_pages_fail o status (pin_user_pages o) mapped in
            mup_addr r = None ∧ mup_pages r = false
            ∧ mup_pinned r = 0 ∧ mup_array_allocated r = false
            ∧ (0 ≤ pin_user_pages o → mup_status r = status)
            ∧ (pin_user_pages o < 0 → mup_status r ≠ NV_OK)) as Hfail.
  { intros status mapped r. subst r. unfold map_user_pages_fail. cbn.
    destruct (Z.ltb_spec 0 (pin_user_pages o)); [split_and!; try done; lia|].
    destruct (Z.ltb_spec (pin_user_pages o) 0); split_and!; try done; try lia.
    intros _. by apply Herrno. }
  destruct (Z.eqb_spec (pin_user_pages o) num_pages) as [Hpin|Hpin]; cbn [negb].
  2:{ destruct (Hfail NV_ERR_INVALID_ARGUMENT false) as (H2 & H3 & H4 & H5 & H6 & H7).
      eexists. split; [done|]. rewrite H2, H3, H4, H5.
      split_and!; try done. split.
      - intros [Hok _]. destruct (decide (0 ≤ pin_user_pages o)) as [Hp|Hp].
        + rewrite H6 in Hok by done. done.
        + apply H7 in Hok; [done|lia].
      - by intros (_ & _ & _ & ? & _). }
  destruct (allocate o) as [addr|] eqn:Halloc.
  - destruct (Z.eqb_spec addr 0) as [->|Hne].
    + destruct (Hfail NV_OK true) as (H2 & H3 & H4 & H5 & H6 & _).
      eexists. split; [done|]. rewrite H2, H3, H4, H5, H6 by lia.
      split_and!; try done. split; [|done]. intros _. split_and!; try done. by right.
    + eexists. split; [done|]. cbn. rewrite Hpin.
      split_and!; try done.
      * intros _. split_and!; try done. lia.
      * split; [by intros [_ ?]|].
        intros (_ & _ & _ & _ & [?|[= ?]]); done.
  - destruct (Hfail NV_OK false) as (H2 & H3 & H4 & H5 & H6 & _).
    eexists. split; [done|]. rewrite H2, H3, H4, H5, H6 by lia.
    split_and!; try done. split; [|done]. intros _. split_and!; try done. by left.
Qed.

End pages_claims.

Lemma vmap_example_ok : vmap_lookup_ok vmap_example.
Proof.
  intros a v. unfold vmap_example.
  destruct (decide (4096 ≤ a < 12288)%Z) as [H1|H1].
  - rewrite bool_decide_eq_true_2 by done. intros [= <-]. cbn.
    split; [done|]. intros a' Ha'. by rewrite bool_decide_eq_true_2.
  - rewrite bool_decide_eq_false_2 by done.
    destruct (decide (12288 ≤ a < 16384)%Z) as [H2|H2].
    + rewrite bool_decide_eq_true_2 by done. intros [= <-]. cbn.
      split; [done|]. intros a' Ha'.
      rewrite bool_decide_eq_false_2 by lia. by rewrite bool_decide_eq_true_2.
    + by rewrite bool_decide_eq_false_2.
Qed.

(** The theorem on the mappings of the examples: a region inside the
    anonymous mapping passes, a region that reaches the mapping of the
    UVM device does not. *)
Lemma check_vmas_spec_witness :
  check_vmas vmap_example 8192 4096 = Some NV_OK
  ∧ check_vmas vmap_example 8192 4097 = Some NV_ERR_INVALID_ARGUMENT
  ∧ ∃ st, check_vmas vmap_example 4096 0 = Some st ∧ st = NV_OK.
Proof.
  split; [by vm_compute|]. split; [by vm_compute|].
  destruct (check_vmas_spec vmap_example 4096 0) as (st & Hrun & _ & Hiff).
  - apply vmap_example_ok.
  - lia.
  - lia.
  - exists st. split; [done|]. apply Hiff. intros a [->|Ha].
    + by eexists.
    + change (wrap64 (4096 + 0)) with 4096%Z in Ha. lia.
Defined.

(** The theorem on a buffer of two pages whose pages are pinned while
    the allocation of kernel addresses fails: the status is [NV_OK] and
    the address is [NULL]. *)
Lemma map_user_pages_outcomes_spec_witness :
  ∃ r, map_user_pages (krn := kernel_example) map_user_pages_example 4096 8192 = Some r
    ∧ mup_status r = NV_OK ∧ mup_addr r = None ∧ mup_pinned r = 0%Z.
Proof.
  destruct (map_user_pages_outcomes_spec (krn := kernel_example)
              map_user_pages_example 4096 8192)
    as (r & Hrun & _ & Hnull & _ & _ & Hok).
  - apply vmap_example_ok.
  - lia.
  - lia.
  - done.
  - done.
  - exists r. split; [done|].
    destruct Hok as [_ Hok]. destruct Hok as [Hst Hnone].
    + split_and!; try done; try by vm_compute. by left.
    + split; [done|]. split; [done|]. by apply Hnull.
Defined.

(** ** Start and stop of the module *)

Section init_claims.
Context {krn : kernel_h}.
Local Open Scope Z_scope.

(** X14. From the statics as they are before the module starts, with
    [ENOMEM] positive: [uvm_tools_init] returns a negative value exactly
    when a cache could not be created (then [-ENOMEM]) or
    [nv_kthread_q_init] returned a negative value (then that value).
    When everything succeeds it returns the value of
    [nv_kthread_q_init] with the six caches, the worker and the special
    file in place, and [uvm_tools_exit] then leaves no cache and no
    worker. In every other case no cache is left and the worker does not
    run. When only [create_special_file] fails, the value returned is
    still that of [nv_kthread_q_init], which is not negative: [ret] is
    not set on that path. *)
Theorem uvm_tools_init_spec (o : init_outcomes) :
  0 < ENOMEM →
  let r := uvm_tools_init o tools_module_initial in
  (r.1 < 0 ↔ init_caches_ok o = false ∨ kthread_q_init o < 0)
  ∧ (init_caches_ok o = false → r.1 = - ENOMEM)
  ∧ (init_caches_ok o = true → r.1 = kthread_q_init o)
  ∧ (tools_module_up r.2 = true ↔
       init_caches_ok o = true ∧ 0 ≤ kthread_q_init o ∧ create_special_file_ok o = true)
  ∧ (tools_module_up r.2 = false → tools_module_down r.2 = true)
  ∧ (tools_module_up r.2 = true → tools_module_down (uvm_tools_exit r.2) = true)
  ∧ (init_caches_ok o = true → 0 ≤ kthread_q_init o →
     create_special_file_ok o = false →
     0 ≤ r.1 ∧ tools_module_down r.2 = true).
Proof.
  intros Henomem r. subst r.
  destruct o as [c1 c2 c3 c4 c5 c6 k f].
  destruct c1, c2, c3, c4, c5, c6;
    try (lazy -[Z.opp Z.lt Z.le iff ENOMEM];
         split_and!; try done; try lia;
         split; try done; try lia; try (by right); by intros [? _]).
  destruct (Z.ltb_spec k 0) as [Hk|Hk].
  - lazy -[Z.opp Z.lt Z.le Z.ltb iff ENOMEM]. rewrite (proj2 (Z.ltb_lt k 0) Hk).
    lazy -[Z.opp Z.lt Z.le iff ENOMEM].
    split_and!; try done; try lia;
      try (split; try done; try lia; try (by right);
           try (intros (_ & ? & _); lia)).
  - lazy -[Z.opp Z.lt Z.le Z.ltb iff ENOMEM]. rewrite (proj2 (Z.ltb_ge k 0) Hk).
    destruct f; lazy -[Z.opp Z.lt Z.le iff ENOMEM];
      split_and!; try done; try lia;
      try (split; try done; try lia;
           try (intros [?|?]; [done|lia]); try (by intros (_ & _ & ?))).
Qed.

End init_claims.

(** The theorem when only [create_special_file] fails: the value
    returned is 0 and nothing is left. *)
Lemma uvm_tools_init_spec_witness :
  let r := uvm_tools_init (krn := kernel_example)
             (InitOutcomes true true true true true true 0 false) tools_module_initial in
  (0 ≤ r.1)%Z ∧ tools_module_down r.2 = true.
Proof.
  cbv zeta.
  refine (proj2 (proj2 (proj2 (proj2 (proj2 (proj2
           (uvm_tools_init_spec (krn := kernel_example)
              (InitOutcomes true true true true true true 0 false) _)))))) _ _ _).
  - done.
  - done.
  - done.
  - done.
Defined.

(** ** Tearing a tracker down: nothing dangles *)

Section destroy_claims.
Context {hdr : uvm_types_h}.

Lemma update_callbacks_tools reg s :
  va_tools (tools_update_perf_events_callbacks reg s).2 = va_tools s.
Proof.
  unfold tools_update_perf_events_callbacks.
  destruct (update_callback reg _ UVM_PERF_EVENT_FAULT _) as [st1 e1].
  destruct (negb (is_ok st1)); [done|].
  destruct (update_callback reg _ UVM_PERF_EVENT_MIGRATION _) as [st2 e2].
  by destruct (negb (is_ok st2)).
Qed.

(** [tools_update_status] rewrites at most the collector it is called
    for, and leaves its lists alone. *)
Lemma update_status_shape reg v st :
  let st' := (tools_update_status reg v st).2 in
  trackers st' = trackers st
  ∧ g_tools_enabled_event_count st' = g_tools_enabled_event_count st
  ∧ (va_spaces st' = va_spaces st
     ∨ ∃ s s', va_spaces st !! v = Some s
               ∧ va_spaces st' = <[v := s']> (va_spaces st)
               ∧ tools_queues (va_tools s') = tools_queues (va_tools s)).
Proof.
  unfold tools_update_status.
  destruct (va_spaces st !! v) as [s|] eqn:Hv; [|by split_and!; [..|left]].
  pose proof (update_callbacks_tools reg s) as Ht.
  destruct (tools_update_perf_events_callbacks reg s) as [status s1].
  cbn [snd] in Ht.
  destruct (negb (is_ok status)); cbn.
  { split_and!; try done. right. exists s, s1. by rewrite Ht. }
  destruct (negb (eqb _ _)); cbn.
  - split_and!; try done. right. eexists s, _. split; [done|]. split; [done|].
    cbn. by rewrite Ht.
  - split_and!; try done. right. exists s, s1. by rewrite Ht.
Qed.

Lemma update_status_inv reg v st :
  registry_inv st → registry_inv (tools_update_status reg v st).2.
Proof.
  intros (H64 & Hlc & Hq & Hlen & Hlists & Hcnt).
  destruct (update_status_shape reg v st) as (Htr & Hc & Hshape).
  set (st' := (tools_update_status reg v st).2) in *.
  assert (∀ v' s', va_spaces st' !! v' = Some s' →
            ∃ s, va_spaces st !! v' = Some s
                 ∧ tools_queues (va_tools s') = tools_queues (va_tools s)) as Hsp.
  { intros v' s' Hs'. destruct Hshape as [Heq|(s & s1 & Hv & Heq & Hqs)].
    - rewrite Heq in Hs'. by exists s'.
    - rewrite Heq in Hs'. destruct (decide (v' = v)) as [->|Hne].
      + rewrite lookup_insert_eq in Hs'. injection Hs' as <-. by exists s.
      + rewrite lookup_insert_ne in Hs' by done. by exists s'. }
  assert (∀ i, event_subscribers i st' = event_subscribers i st) as Hsub.
  { intros i. unfold event_subscribers.
    destruct Hshape as [Heq|(s & s1 & Hv & Heq & Hqs)]; [by rewrite Heq|].
    rewrite Heq.
    pose proof (map_sum_insert (λ s0, length (tools_queues (va_tools s0) !!! i))
                  (va_spaces st) v s s1 Hv) as Hsum.
    cbv beta in Hsum. rewrite Hqs in Hsum. lia. }
  split_and!.
  - done.
  - by rewrite Hc.
  - intros p t. rewrite Htr. apply Hq.
  - intros v' s' Hs'. destruct (Hsp v' s' Hs') as (s & Hs & ->). by eapply Hlen.
  - intros v' s' i l Hs' Hl. destruct (Hsp v' s' Hs') as (s & Hs & Heq).
    rewrite Heq in Hl. rewrite Htr. by eapply Hlists.
  - intros i Hi. rewrite Hc, Hsub. by apply Hcnt.
Qed.

(** X15. In a registry that holds queue trackers only: after
    [destroy_event_tracker] the tracker is no longer allocated and no
    list of any collector holds its nodes, every other tracker is as it
    was, and the registry is consistent again (lists without
    repetition that hold exactly the subscribed trackers, counts equal
    to the number of subscribers), whatever the status of the update of
    the enabled state was. *)
Theorem destroy_event_tracker_unlinks (reg : uvm_perf_event_t → NV_STATUS) (p : nat)
    (st : tools_globals) (t : uvm_tools_event_tracker_t) :
  registry_inv st →
  trackers st !! p = Some t →
  let st' := destroy_event_tracker reg p st in
  trackers st' !! p = None
  ∧ (∀ p', p' ≠ p → trackers st' !! p' = trackers st !! p')
  ∧ (∀ v s i l, va_spaces st' !! v = Some s →
       tools_queues (va_tools s) !! i = Some l → p ∉ l)
  ∧ registry_inv st'.
Proof.
  intros Hinv Hp st'. subst st'. unfold destroy_event_tracker. rewrite Hp.
  set (st2 := match uvm_file t with
              | Some v => (tools_update_status reg v
                             (unsubscribe p (tracker_subscribed t) st)).2
              | None => st
              end).
  assert (registry_inv st2
          ∧ (∀ p', p' ≠ p → trackers st2 !! p' = trackers st !! p')
          ∧ ∀ v s i l, va_spaces st2 !! v = Some s →
              tools_queues (va_tools s) !! i = Some l → p ∉ l)
    as (Hinv2 & Hothers & Hnot).
  { pose proof Hinv as (H64 & Hlc & Hq & Hlen & Hlists & Hcnt).
    pose proof (Hq p t Hp) as Hisq.
    destruct t as [[v|] [q|c]]; try done; subst st2; cbn [uvm_file].
    2:{ split_and!; try done. intros v s i l Hs Hl Hin.
        apply (Hlists v s i l Hs Hl) in Hin as (q' & Hp' & _). congruence. }
    cbn [tracker_subscribed body].
    set (st1 := unsubscribe p (subscribed_queues q) st).
    assert (registry_inv st1) as Hinv1 by (by apply unsubscribe_inv).
    assert ((∀ p', p' ≠ p → trackers st1 !! p' = trackers st !! p')
            ∧ ∃ q', trackers st1 !! p = Some (Tracker (Some v) (inl q'))
                    ∧ (is_Some (va_spaces st !! v) →
                       ∀ i : nat, i < 64 →
                         Z.testbit (subscribed_queues q') (Z.of_nat i) = false))
      as (Hoth1 & q' & Hp1 & Hbits).
    { subst st1. unfold unsubscribe. rewrite Hp.
      destruct (va_spaces st !! v) as [s|] eqn:Hv.
      - rewrite remove_event_tracker_eq. cbn. split.
        + intros p' Hne. by rewrite lookup_insert_ne.
        + eexists. rewrite lookup_insert_eq. split; [done|]. cbn.
          intros _ i Hi. rewrite unsubscribed_bit by lia.
          by destruct (Z.testbit (subscribed_queues q) (Z.of_nat i)).
      - split; [done|]. exists q. split; [done|]. by intros [? [=]]. }
    destruct (update_status_shape reg v st1) as (Htr & _ & Hshape).
    split_and!.
    - by apply update_status_inv.
    - intros p' Hne. rewrite Htr. by apply Hoth1.
    - pose proof (update_status_inv reg v st1 Hinv1)
        as (_ & _ & _ & Hlen2 & Hlists2 & _).
      intros v' s' i l Hs' Hl Hin.
      apply (Hlists2 v' s' i l Hs' Hl) in Hin as (q2 & Hp2 & Hbit).
      rewrite Htr, Hp1 in Hp2. injection Hp2 as <- <-.
      assert (i < UvmEventNumTypesAll) as Hi.
      { apply lookup_lt_Some in Hl. by rewrite (Hlen2 v s' Hs') in Hl. }
      rewrite Hbits in Hbit; [done| |lia].
      destruct Hshape as [Heq|(s & s1 & Hv & _)].
      + rewrite Heq in Hs'.
        destruct Hinv1 as (_ & _ & _ & _ & _ & _).
        subst st1. unfold unsubscribe in Hs'. rewrite Hp in Hs'.
        destruct (va_spaces st !! v) as [s|] eqn:Hv; [by eexists|].
        by rewrite Hv in Hs'.
      + subst st1. unfold unsubscribe in Hv. rewrite Hp in Hv.
        destruct (va_spaces st !! v) as [s0|] eqn:Hv0; [by eexists|].
        by rewrite Hv0 in Hv. }
  cbn. split_and!.
  - apply lookup_delete_eq.
  - intros p' Hne. rewrite lookup_delete_ne by done. by apply Hothers.
  - done.
  - destruct Hinv2 as (H64 & Hlc & Hq & Hlen & Hlists & Hcnt).
    unfold registry_inv.
    cbn [trackers va_spaces g_tools_enabled_event_count g_tools_va_space_list].
    split_and!; try done.
    + intros p' t'. intros [_ Hp']%lookup_delete_Some. by eapply Hq.
    + intros v s i l Hs Hl. destruct (Hlists v s i l Hs Hl) as [Hnd Hmem].
      split; [done|]. intros p'. rewrite Hmem. split.
      * intros (q0 & Hp0 & Hb). exists q0. split; [|done].
        apply lookup_delete_Some. split; [|done]. intros ->.
        apply (Hnot v s i l Hs Hl). apply Hmem. eauto.
      * intros (q0 & [_ Hp0]%lookup_delete_Some & Hb). eauto.
Qed.

End destroy_claims.

(** The theorem on a collector with two trackers, one of them
    subscribed to event type 2 and destroyed. *)
Lemma destroy_event_tracker_unlinks_witness :
  let st := registry_run (hdr := uvm_types_example) [Subscribe 10 4] example_globals in
  let st' := destroy_event_tracker (hdr := uvm_types_example) example_no_registration
               10 st in
  trackers st' !! 10 = None
  ∧ g_tools_enabled_event_count st' !! 2 = Some 0%Z
  ∧ registry_inv (hdr := uvm_types_example) st'.
Proof.
  cbv zeta.
  destruct (trackers (registry_run (hdr := uvm_types_example) [Subscribe 10 4]
                        example_globals) !! 10) as [t|] eqn:Ht;
    [|by vm_compute in Ht].
  destruct (destroy_event_tracker_unlinks (hdr := uvm_types_example)
              example_no_registration 10 _ t
              (registry_run_inv (hdr := uvm_types_example) [Subscribe 10 4]
                 example_globals example_globals_inv) Ht)
    as (Hnone & _ & _ & Hinv).
  split; [exact Hnone|]. split; [by vm_compute|]. exact Hinv.
Defined.

(** ** Fault events: what a fault adds to the counters *)

Section fault_claims.
Context {hdr : uvm_types_h} {prc : uvm_processors_h} {cfl : uvm_cpu_fault_layout}.

Lemma foldl_alter_fixed {A} (f : A → A) (l : list nat) (h : gmap nat A) p x :
  h !! p = Some x → f x = x →
  foldl (λ h p, alter f p h) h l !! p = Some x.
Proof.
  intros Hp Hf. revert h Hp. induction l as [|p' l IH]; intros h Hp; cbn; [done|].
  apply IH. destruct (decide (p' = p)) as [->|Hne].
  - by rewrite lookup_alter_eq, Hp; cbn; rewrite Hf.
  - by rewrite lookup_alter_ne.
Qed.

Lemma record_event_counter_tracker tools entry
    (h : gmap nat uvm_tools_event_tracker_t) p f c :
  h !! p = Some (Tracker f (inr c)) →
  uvm_tools_record_event tools entry h !! p = Some (Tracker f (inr c)).
Proof. intros Hp. unfold uvm_tools_record_event. by apply foldl_alter_fixed. Qed.

Lemma record_gpu_fault_instances_counter_tracker stack gpu tools batch ts instances :
  ∀ (h : gmap nat uvm_tools_event_tracker_t) p f c,
  h !! p = Some (Tracker f (inr c)) →
  foldl (λ h fault_instance,
           record_gpu_fault_instance stack gpu tools fault_instance batch ts h)
        h instances !! p = Some (Tracker f (inr c)).
Proof.
  induction instances as [|i instances IH]; intros h p f c Hp; cbn; [done|].
  apply IH. by apply record_event_counter_tracker.
Qed.

(** X16. For a counter tracker on the collector's list of the counter
    concerned (a list without repetition). A CPU fault moves its
    [UvmCounterNameCpuPageFaultCount] once when the tracker counts all
    processors or its own processor is the CPU's default identity, and
    once more when the preferred location of the faulting memory is a
    GPU whose identity is the tracker's own processor (or is the CPU's
    default identity, for a tracker of all processors): a tracker of all
    processors whose own processor is not that GPU counts the fault
    once. A GPU fault moves [UvmCounterNameGpuPageFaultCount] once when
    the tracker counts all processors or its own processor is the
    faulting GPU. The records of the fault leave the tracker alone. *)
Theorem record_fault_counters (stack : UvmEventEntry) (gpu_of : nat → uvm_gpu_t)
    (timestamp pid tid : Z) (d : fault_event_data) (tools : uvm_va_space_tools_t)
    (trackers : gmap nat uvm_tools_event_tracker_t)
    (p : nat) (f : option nat) (c : uvm_tools_counter_t) :
  trackers !! p = Some (Tracker f (inr c)) →
  let r := (uvm_tools_record_fault stack gpu_of timestamp pid tid d tools trackers).1 in
  (UVM_ID_IS_CPU (fault_proc_id d) = true →
   NoDup (tools_counters tools !!! UvmCounterNameCpuPageFaultCount) →
   p ∈ tools_counters tools !!! UvmCounterNameCpuPageFaultCount →
   let i := UvmCounterNameCpuPageFaultCount in
   let u := gpu_uuid (gpu_of (fault_preferred_location d)) in
   let first := counter_applies i NV_PROCESSOR_UUID_CPU_DEFAULT c in
   let second := UVM_ID_IS_GPU (fault_preferred_location d) && counter_applies i u c in
   r !! p = Some (Tracker f (inr (bump_when second i (bump_when first i c))))
   ∧ (all_processors c = true → processor c ≠ u → u ≠ NV_PROCESSOR_UUID_CPU_DEFAULT →
      r !! p = Some (Tracker f (inr (bump_when true i c)))))
  ∧ (UVM_ID_IS_CPU (fault_proc_id d) = false →
     NoDup (tools_counters tools !!! UvmCounterNameGpuPageFaultCount) →
     p ∈ tools_counters tools !!! UvmCounterNameGpuPageFaultCount →
     UvmCounterNameGpuPageFaultCount ≠ UvmCounterNameCpuPageFaultCount →
     let i := UvmCounterNameGpuPageFaultCount in
     let u := gpu_uuid (gpu_of (fault_proc_id d)) in
     r !! p = Some (Tracker f (inr (bump_when
                (all_processors c || uvm_processor_uuid_eq (processor c) u) i c)))).
Proof.
  intros Hp r. subst r. unfold uvm_tools_record_fault. split.
  - intros Hcpu Hnd Hin. rewrite Hcpu.
    set (i := UvmCounterNameCpuPageFaultCount) in *.
    set (u := gpu_uuid (gpu_of (fault_preferred_location d))).
    set (first := counter_applies i NV_PROCESSOR_UUID_CPU_DEFAULT c).
    set (second := UVM_ID_IS_GPU (fault_preferred_location d) && counter_applies i u c).
    set (emit := if tools_is_event_enabled tools UvmEventTypeCpuFault
                 then _ else _).
    assert (emit.1 !! p = Some (Tracker f (inr c))) as Hp1.
    { subst emit. destruct (tools_is_event_enabled tools UvmEventTypeCpuFault); [|done].
      by apply record_event_counter_tracker. }
    destruct emit as [trackers1 emitted]. cbn [fst] in Hp1 |- *.
    assert (tools_is_counter_enabled tools i = true) as Hen.
    { unfold tools_is_counter_enabled. apply negb_true_iff, bool_decide_eq_false.
      intros Hnil. rewrite Hnil in Hin. by apply elem_of_nil in Hin. }
    rewrite Hen.
    pose proof (inc_counter_lookup tools i 1 NV_PROCESSOR_UUID_CPU_DEFAULT trackers1
                  p _ c Hnd Hin Hp1 eq_refl ltac:(lia)) as Hp2.
    cbn [uvm_file] in Hp2. fold first in Hp2.
    assert (r1 : uvm_tools_inc_counter tools i 1 NV_PROCESSOR_UUID_CPU_DEFAULT trackers1
                 !! p = Some (Tracker f (inr (bump_when first i c)))).
    { rewrite Hp2. unfold bump_when. by destruct first. }
    assert ((if UVM_ID_IS_GPU (fault_preferred_location d)
             then uvm_tools_inc_counter tools i 1 u
                    (uvm_tools_inc_counter tools i 1 NV_PROCESSOR_UUID_CPU_DEFAULT trackers1)
             else uvm_tools_inc_counter tools i 1 NV_PROCESSOR_UUID_CPU_DEFAULT trackers1)
            !! p = Some (Tracker f (inr (bump_when second i (bump_when first i c)))))
      as Hfinal.
    { subst second. destruct (UVM_ID_IS_GPU (fault_preferred_location d)); cbn [andb].
      - rewrite (inc_counter_lookup tools i 1 u _ p _ (bump_when first i c)
                   Hnd Hin r1 eq_refl ltac:(lia)).
        cbn [uvm_file]. unfold bump_when at 3.
        assert (counter_applies i u (bump_when first i c) = counter_applies i u c) as ->
          by (unfold bump_when; by destruct first).
        by destruct (counter_applies i u c).
      - done. }
    split; [exact Hfinal|].
    intros Hall Hne Hu. rewrite Hfinal.
    assert (first = true) as ->.
    { subst first. unfold counter_applies, counter_matches_processor.
      rewrite Hall. subst i. rewrite bool_decide_eq_true_2 by done.
      unfold uvm_processor_uuid_eq. by rewrite bool_decide_eq_true_2. }
    assert (second = false) as ->; [|done].
    { subst second. apply andb_false_iff. right.
      unfold counter_applies, counter_matches_processor.
      subst i. rewrite bool_decide_eq_true_2 by done.
      unfold uvm_processor_uuid_eq. rewrite !bool_decide_eq_false_2 by done.
      by rewrite andb_false_r. }
  - intros Hcpu Hnd Hin Hdiff. rewrite Hcpu.
    set (i := UvmCounterNameGpuPageFaultCount) in *.
    set (u := gpu_uuid (gpu_of (fault_proc_id d))).
    set (emit := if tools_is_event_enabled tools UvmEventTypeGpuFault
                 then _ else _).
    assert (emit.1 !! p = Some (Tracker f (inr c))) as Hp1.
    { subst emit. destruct (tools_is_event_enabled tools UvmEventTypeGpuFault); [|done].
      cbn [fst]. by apply record_gpu_fault_instances_counter_tracker. }
    destruct emit as [trackers1 emitted]. cbn [fst] in Hp1 |- *.
    assert (tools_is_counter_enabled tools i = true) as Hen.
    { unfold tools_is_counter_enabled. apply negb_true_iff, bool_decide_eq_false.
      intros Hnil. rewrite Hnil in Hin. by apply elem_of_nil in Hin. }
    rewrite Hen.
    rewrite (inc_counter_lookup tools i 1 u trackers1 p _ c Hnd Hin Hp1 eq_refl
               ltac:(lia)).
    cbn [uvm_file]. unfold bump_when, counter_applies, counter_matches_processor.
    subst i. rewrite bool_decide_eq_false_2 by done. rewrite andb_true_r. done.
Qed.

End fault_claims.

Lemma record_fault_counters_witness :
  (uvm_tools_record_fault (hdr := uvm_types_example) (prc := uvm_processors_example)
     (cfl := uvm_cpu_fault_layout_example) example_entry example_gpu_of 7 1 1
     example_cpu_fault example_fault_tools example_fault_trackers).1 !! 12
  = Some (Tracker (Some 1)
            (inr (Counter 0 (<[2 := 1%Z]> (replicate 10 0%Z)) true (replicate 16 2%Z))))
  ∧ (uvm_tools_record_fault (hdr := uvm_types_example) (prc := uvm_processors_example)
       (cfl := uvm_cpu_fault_layout_example) example_entry example_gpu_of 7 1 1
       example_gpu_fault example_fault_tools example_fault_trackers).1 !! 12
    = Some (Tracker (Some 1)
              (inr (Counter 0 (<[9 := 1%Z]> (replicate 10 0%Z)) true (replicate 16 2%Z)))).
Proof.
  split.
  - refine (proj2 (proj1 (record_fault_counters (hdr := uvm_types_example)
              (prc := uvm_processors_example) (cfl := uvm_cpu_fault_layout_example)
              example_entry example_gpu_of 7 1 1 example_cpu_fault example_fault_tools
              example_fault_trackers 12 (Some 1)
              (Counter 0 (replicate 10 0%Z) true (replicate 16 2%Z)) eq_refl)
            eq_refl _ _) eq_refl _ _).
    + apply NoDup_singleton.
    + apply list_elem_of_singleton; reflexivity.
    + discriminate.
    + discriminate.
  - refine (proj2 (record_fault_counters (hdr := uvm_types_example)
              (prc := uvm_processors_example) (cfl := uvm_cpu_fault_layout_example)
              example_entry example_gpu_of 7 1 1 example_gpu_fault example_fault_tools
              example_fault_trackers 12 (Some 1)
              (Counter 0 (replicate 10 0%Z) true (replicate 16 2%Z)) eq_refl)
            eq_refl _ _ _).
    + apply NoDup_singleton.
    + apply list_elem_of_singleton; reflexivity.
    + discriminate.
Defined.

(** ** Deferred migration events, from submission to delivery *)

Section migration_pipeline.
Context {hdr : uvm_types_h} {prc : uvm_processors_h} {mgh : uvm_migration_h}.

Lemma record_migrations_spec gpu_of tools bp cb
    (calls : list (migration_event * (nat * migration_data_t))) :
  ∀ (blocks : gmap nat block_migration_data_t) (migs : gmap nat migration_data_t)
    (trackers : gmap nat uvm_tools_event_tracker_t) b,
  tools_is_event_enabled tools UvmEventTypeMigration = true →
  blocks !! bp = Some b →
  Forall (λ call, me_push_info call.1 = PushInfo (Some cb) (Some bp)) calls →
  record_migrations gpu_of ((λ call, (call.1, Some call.2)) <$> calls) tools blocks
    migs trackers
  = Some (<[bp := foldl (λ b call, block_add_tail call.2.1 b) b calls]> blocks,
          foldl (λ h call, <[call.2.1 := migration_detail call.1 call.2.2]> h) migs calls,
          foldl (λ h call, record_migration_counters gpu_of call.1 tools h) trackers calls).
Proof.
  induction calls as [|[d [p mem]] calls IH]; intros blocks migs trackers b Hen Hb Hall.
  - cbn. by rewrite insert_id.
  - apply Forall_cons in Hall as [Hd Hall]. cbn [fst snd] in Hd.
    cbn [fmap list_fmap record_migrations fst snd foldl].
    unfold uvm_tools_record_migration. rewrite Hen, Hd. cbn [pi_on_complete pi_on_complete_data].
    rewrite Hb.
    rewrite (IH _ _ _ (block_add_tail p b)); [|done|by rewrite lookup_insert_eq|done].
    by rewrite insert_insert_eq.
Qed.

Lemma foldl_block_add_tail (calls : list (migration_event * (nat * migration_data_t))) :
  ∀ b,
  let b' := foldl (λ b call, block_add_tail call.2.1 b) b calls in
  events b' = events b ++ calls.*2.*1
  ∧ dst b' = dst b ∧ src b' = src b ∧ va_space b' = va_space b ∧ channel b' = channel b
  ∧ start_timestamp_cpu b' = start_timestamp_cpu b
  ∧ start_timestamp_gpu_addr b' = start_timestamp_gpu_addr b
  ∧ range_group_id b' = range_group_id b.
Proof.
  induction calls as [|[d [p mem]] calls IH]; intros b; cbn.
  - by rewrite app_nil_r.
  - destruct (IH (block_add_tail p b)) as (-> & -> & -> & -> & -> & -> & -> & ->).
    cbn. by rewrite <- app_assoc.
Qed.

Lemma foldl_insert_details (calls : list (migration_event * (nat * migration_data_t))) :
  ∀ (migs : gmap nat migration_data_t),
  NoDup (calls.*2.*1) →
  let migs' := foldl (λ h call, <[call.2.1 := migration_detail call.1 call.2.2]> h)
                 migs calls in
  Forall2 (λ p m, migs' !! p = Some m) (calls.*2.*1)
          ((λ call, migration_detail call.1 call.2.2) <$> calls)
  ∧ ∀ p, p ∉ calls.*2.*1 → migs' !! p = migs !! p.
Proof.
  induction calls as [|[d [p mem]] calls IH]; intros migs Hnd; cbn.
  - split; [constructor|done].
  - cbn in Hnd. apply NoDup_cons in Hnd as [Hp Hnd].
    destruct (IH (<[p := migration_detail d mem]> migs) Hnd) as [Hall Hframe].
    split.
    + constructor; [|done]. rewrite Hframe by done. by rewrite lookup_insert_eq.
    + intros p' Hp'. apply not_elem_of_cons in Hp' as [Hne Hp'].
      rewrite Hframe by done. by rewrite lookup_insert_ne.
Qed.

Lemma Forall2_lookup_insert_ne {A} (m : gmap nat A) p0 x ps xs :
  p0 ∉ ps →
  Forall2 (λ p y, m !! p = Some y) ps xs →
  Forall2 (λ p y, <[p0 := x]> m !! p = Some y) ps xs.
Proof.
  intros Hp Hall. induction Hall as [|p y ps xs Hy Hall IH]; constructor.
  - rewrite lookup_insert_ne; [done|]. intros ->. apply Hp, elem_of_cons. by left.
  - apply IH. intros Hin. apply Hp, elem_of_cons. by right.
Qed.

Lemma migration_complete_loop_spec gpu_mem ps :
  ∀ ms (migs : gmap nat migration_data_t),
  NoDup ps →
  Forall2 (λ p m, migs !! p = Some m) ps ms →
  ∃ migs',
    migration_complete_loop gpu_mem ps migs = Some migs'
    ∧ Forall2 (λ p m, migs' !! p = Some m) ps (completed_detail gpu_mem <$> ms)
    ∧ ∀ p, p ∉ ps → migs' !! p = migs !! p.
Proof.
  induction ps as [|p ps IH]; intros ms migs Hnd Hall.
  - apply Forall2_nil_inv_l in Hall as ->. exists migs. cbn. split; [done|].
    split; [constructor|done].
  - apply Forall2_cons_inv_l in Hall as (m & ms' & Hm & Hall & ->).
    apply NoDup_cons in Hnd as [Hp Hnd].
    cbn [migration_complete_loop]. rewrite Hm.
    destruct (IH ms' (<[p := completed_detail gpu_mem m]> migs) Hnd)
      as (migs' & Heq & Hall' & Hframe).
    { by apply Forall2_lookup_insert_ne. }
    exists migs'. split; [exact Heq|]. split.
    + cbn. constructor; [|done]. rewrite Hframe by done. by rewrite lookup_insert_eq.
    + intros p' Hp'. apply not_elem_of_cons in Hp' as [Hne Hp'].
      rewrite Hframe by done. by rewrite lookup_insert_ne.
Qed.

(** X17. A push of a collector that is enabled and has a subscriber to
    migrations, taken from [uvm_tools_record_block_migration_begin]
    (whose allocation succeeds at a free address) through any number of
    calls of [uvm_tools_record_migration] on that push (whose allocations
    succeed at distinct free addresses), [on_block_migration_complete]
    and [record_migration_events]: every step returns; the worker hands
    over one record per call, in call order; the record of a call
    carries the address and the byte count of the call and, as GPU end
    timestamp, what the GPU wrote at the timestamp address of that call;
    its GPU begin timestamp is the GPU end timestamp of the record
    before it, and for the first record what the GPU wrote at the
    timestamp address of the begin call. Afterwards both caches are as
    they were before the begin call, the pending count of the channel is
    back at its value, and the block record went to the worker once. *)
Theorem migration_pipeline_delivers (size : nat) (stack : UvmEventEntry)
    (gpu_of : nat → uvm_gpu_t) (v : nat) (s : uvm_va_space_t)
    (spaces : gmap nat uvm_va_space_t) (ch : nat) (pinfo : uvm_push_info_t) (ts0 : Z)
    (dst_id src_id : Z) (c : uvm_make_resident_cause_t) (range_find : option Z)
    (bp : nat) (mem : block_migration_data_t) (now now' : Z) (gpu_mem : Z → Z)
    (calls : list (migration_event * (nat * migration_data_t)))
    (blocks : gmap nat block_migration_data_t) (migs : gmap nat migration_data_t)
    (trackers : gmap nat uvm_tools_event_tracker_t) (st : channel_state) :
  migration_layout_ok size = true →
  length stack = size →
  spaces !! v = Some s →
  tools_enabled (va_tools s) = true →
  tools_is_event_enabled (va_tools s) UvmEventTypeMigration = true →
  blocks !! bp = None →
  NoDup (calls.*2.*1) →
  (∀ p, p ∈ calls.*2.*1 → migs !! p = None) →
  (∀ a, is_NvU64 (gpu_mem a)) →
  let r := uvm_tools_record_block_migration_begin v (va_tools s) ch pinfo ts0 dst_id
             src_id c range_find (Some (bp, mem)) now blocks st in
  Forall (λ call, me_push_info call.1 = r.1.1) calls →
  ∃ blocks2 migs2 blocks3 migs3 st3 out,
    let trackers2 :=
      foldl (λ h call, record_migration_counters gpu_of call.1 (va_tools s) h)
            trackers calls in
    record_migrations gpu_of ((λ call, (call.1, Some call.2)) <$> calls) (va_tools s)
      r.1.2 migs trackers
    = Some (blocks2, migs2, trackers2)
    ∧ on_block_migration_complete bp now' gpu_mem blocks2 migs2 r.2
      = Some (blocks3, migs3, st3)
    ∧ record_migration_events stack bp blocks3 migs3 spaces trackers2
      = Some (blocks, migs,
              foldl (λ h e, uvm_tools_record_event (va_tools s) e h) trackers2 out, out)
    ∧ count_of ch st3 = count_of ch st
    ∧ g_tools_queue st3 = g_tools_queue st ++ [bp]
    ∧ length out = length calls
    ∧ ∀ i call e, calls !! i = Some call → out !! i = Some e →
        load mig_address e = wrap64 (me_address call.1)
        ∧ load mig_migratedBytes e = wrap64 (me_bytes call.1)
        ∧ load mig_endTimeStampGpu e = gpu_mem (me_push_timestamp call.1)
        ∧ load mig_beginTimeStampGpu e
          = match i with
            | 0 => gpu_mem ts0
            | S j => default 0%Z
                       ((λ call, gpu_mem (me_push_timestamp call.1)) <$> calls !! j)
            end.
Proof.
  intros Hlay Hlen Hs Hen Hmig Hfresh Hnd Hfree Hmem r. subst r.
  unfold uvm_tools_record_block_migration_begin. rewrite Hen, Hmig. cbn [negb fst snd].
  set (id := match c with
             | UVM_MAKE_RESIDENT_CAUSE_EVICTION => UVM_RANGE_GROUP_ID_NONE
             | _ => match range_find with
                    | Some id => id
                    | None => UVM_RANGE_GROUP_ID_NONE
                    end
             end).
  set (b0 := BlockMigrationData dst_id src_id v ch [] now (end_timestamp_cpu mem) ts0
               (start_timestamp_gpu mem) id).
  intros Hcalls.
  set (ps := calls.*2.*1) in *.
  set (details := (λ call : migration_event * (nat * migration_data_t),
                     migration_detail call.1 call.2.2) <$> calls).
  set (bN := foldl (λ b (call : migration_event * (nat * migration_data_t)),
                      block_add_tail call.2.1 b) b0 calls).
  destruct (foldl_block_add_tail calls b0)
    as (Hev & Hdst & Hsrc & Hva & Hch & Hcpu & Haddr & Hrg).
  fold bN in Hev, Hdst, Hsrc, Hva, Hch, Hcpu, Haddr, Hrg. cbn in Hev, Hva, Hch, Haddr.
  fold ps in Hev.
  destruct (foldl_insert_details calls migs Hnd) as [Hdet Hdet_frame].
  fold ps details in Hdet, Hdet_frame.
  set (migs2 := foldl (λ h (call : migration_event * (nat * migration_data_t)),
                         <[call.2.1 := migration_detail call.1 call.2.2]> h) migs calls)
    in *.
  destruct (migration_complete_loop_spec gpu_mem ps details migs2 Hnd Hdet)
    as (migs3 & Hloop & Hdone & Hdone_frame).
  set (b3 := BlockMigrationData (dst bN) (src bN) (va_space bN) (channel bN) (events bN)
               (start_timestamp_cpu bN) now' (start_timestamp_gpu_addr bN)
               (gpu_mem (start_timestamp_gpu_addr bN)) (range_group_id bN)).
  exists (<[bp := bN]> (<[bp := b0]> blocks)), migs2,
         (<[bp := b3]> (<[bp := bN]> (<[bp := b0]> blocks))), migs3,
         (on_complete ch bp (add_pending_event_for_channel ch st)).
  destruct (record_migration_loop_spec size (va_tools s) ps
              (completed_detail gpu_mem <$> details) (gpu_mem ts0)
              (migration_entry_init stack b3) migs3
              (foldl (λ h call, record_migration_counters gpu_of call.1 (va_tools s) h)
                     trackers calls) [] Hlay)
    as (migs' & out & Hrun & Hlen_out & Hout & Hfreed & Hkept); try done.
  { unfold migration_entry_init. by rewrite !length_store, length_memset0. }
  { apply Forall_fmap, Forall_forall. intros m _. apply Hmem. }
  exists out. cbn zeta.
  assert (migs' = migs) as ->.
  { apply map_eq. intros p. destruct (decide (p ∈ ps)) as [Hin|Hnin].
    - by rewrite Hfreed, Hfree.
    - by rewrite Hkept, Hdone_frame, Hdet_frame. }
  split.
  { apply (record_migrations_spec gpu_of (va_tools s) bp OnBlockMigrationComplete);
      [done|by rewrite lookup_insert_eq|done]. }
  split.
  { unfold on_block_migration_complete. rewrite lookup_insert_eq.
    fold b3. replace (events b3) with ps by (by rewrite <- Hev).
    rewrite Hloop. replace (channel b3) with ch by (by rewrite <- Hch). done. }
  split.
  { unfold record_migration_events. rewrite lookup_insert_eq.
    replace (va_space b3) with v by (by rewrite <- Hva). rewrite Hs.
    replace (events b3) with ps by (by rewrite <- Hev).
    replace (start_timestamp_gpu b3) with (gpu_mem ts0) by (cbn; by rewrite Haddr).
    rewrite Hrun. cbn [app]. do 4 f_equal.
    apply map_eq. intros p. destruct (decide (p = bp)) as [->|Hne].
    - by rewrite lookup_delete_eq.
    - by rewrite lookup_delete_ne, !lookup_insert_ne. }
  split.
  { unfold on_complete. cbn [pending_event_count count_of].
    unfold count_of at 1. cbn. rewrite lookup_insert_eq. cbn.
    unfold count_of at 1. cbn. rewrite lookup_insert_eq. cbn. lia. }
  split; [done|].
  split.
  { rewrite Hlen_out. unfold details. by rewrite !length_fmap. }
  intros i call e Hcall He.
  assert ((completed_detail gpu_mem <$> details) !! i
          = Some (completed_detail gpu_mem (migration_detail call.1 call.2.2))) as Hm.
  { unfold details. by rewrite !list_lookup_fmap, Hcall. }
  destruct (Hout i _ e Hm He) as (Hend & Hbegin & Haddr' & Hbytes & _).
  split; [exact Haddr'|]. split; [exact Hbytes|]. split; [exact Hend|].
  rewrite Hbegin. destruct i as [|j]; [done|].
  unfold details. rewrite !list_lookup_fmap.
  by destruct (calls !! j).
Qed.

End migration_pipeline.

Lemma migration_pipeline_delivers_witness :
  let s := VaSpace (VaTools true (<[2 := [10]]> (replicate 64 [])) (replicate 10 []))
                   (PerfEvents false true) in
  let trs : gmap nat uvm_tools_event_tracker_t := {[ 10 := example_queue_tracker 1 ]} in
  let r := uvm_tools_record_block_migration_begin (hdr := uvm_types_example)
             (mgh := uvm_migration_example) 1 (va_tools s) 7 (PushInfo None None) 500 1 0
             UVM_MAKE_RESIDENT_CAUSE_PREFETCH None (Some (100, example_block)) 10
             (∅ : gmap nat block_migration_data_t) channels_initial in
  migration_layout_ok (hdr := uvm_types_example) 64 = true
  ∧ length (replicate 64 170%Z) = 64
  ∧ example_spaces_migration !! 1 = Some s
  ∧ tools_enabled (va_tools s) = true
  ∧ tools_is_event_enabled (va_tools s) (UvmEventTypeMigration (uvm_types_h := uvm_types_example))
    = true
  ∧ (∅ : gmap nat block_migration_data_t) !! 100 = None
  ∧ NoDup (example_migration_calls.*2.*1)
  ∧ (∀ p, p ∈ example_migration_calls.*2.*1 → (∅ : gmap nat migration_data_t) !! p = None)
  ∧ (∀ a, is_NvU64 (example_gpu_mem a))
  ∧ Forall (λ call, me_push_info call.1 = r.1.1) example_migration_calls
  ∧ ∃ blocks3 migs3 out,
      record_migration_events (hdr := uvm_types_example) (replicate 64 170%Z) 100
        blocks3 migs3 example_spaces_migration
        (foldl (λ h call, record_migration_counters (hdr := uvm_types_example)
                            (prc := uvm_processors_example) example_gpu_of call.1
                            (va_tools s) h) trs example_migration_calls)
      = Some (∅, ∅,
              foldl (λ h e, uvm_tools_record_event (va_tools s) e h)
                (foldl (λ h call, record_migration_counters (hdr := uvm_types_example)
                                    (prc := uvm_processors_example) example_gpu_of call.1
                                    (va_tools s) h) trs example_migration_calls) out,
              out)
      ∧ length out = 2.
Proof.
  cbv zeta.
  assert (migration_layout_ok (hdr := uvm_types_example) 64 = true) as H1
    by (by vm_compute).
  assert (length (replicate 64 170%Z) = 64) as H2 by (by vm_compute).
  assert (example_spaces_migration !! 1
          = Some (VaSpace (VaTools true (<[2 := [10]]> (replicate 64 []))
                                   (replicate 10 []))
                          (PerfEvents false true))) as H3 by (by vm_compute).
  assert (NoDup (example_migration_calls.*2.*1)) as H7.
  { cbn. apply NoDup_cons. split; [|apply NoDup_singleton].
    intros Hin. apply list_elem_of_singleton in Hin. lia. }
  assert (∀ a, is_NvU64 (example_gpu_mem a)) as H9.
  { intros a. unfold is_NvU64, example_gpu_mem, wrap64. apply Z.mod_pos_bound. lia. }
  assert (Forall (λ call : migration_event * (nat * migration_data_t),
                    me_push_info call.1 = example_push_info) example_migration_calls)
    as H10 by (repeat constructor).
  split; [exact H1|]. split; [exact H2|]. split; [exact H3|].
  split; [reflexivity|]. split; [reflexivity|]. split; [apply lookup_empty|].
  split; [exact H7|]. split; [intros p _; apply lookup_empty|]. split; [exact H9|].
  split; [exact H10|].
  destruct (migration_pipeline_delivers (hdr := uvm_types_example)
              (prc := uvm_processors_example) (mgh := uvm_migration_example) 64
              (replicate 64 170%Z) example_gpu_of 1 _ example_spaces_migration 7
              (PushInfo None None) 500 1 0 UVM_MAKE_RESIDENT_CAUSE_PREFETCH None 100
              example_block 10 20 example_gpu_mem example_migration_calls ∅ ∅
              {[ 10 := example_queue_tracker 1 ]} channels_initial
              H1 H2 H3 eq_refl eq_refl (lookup_empty 100) H7 (λ p _, lookup_empty p) H9 H10)
    as (blocks2 & migs2 & blocks3 & migs3 & st3 & out & _ & _ & Heq & _ & _ & Hlen & _).
  exists blocks3, migs3, out. split; [exact Heq|exact Hlen].
Defined.

(** ** Migration events: the byte counters *)

Section migration_counters.
Context {hdr : uvm_types_h} {prc : uvm_processors_h} {mgh : uvm_migration_h}.

Lemma record_migration_counters_htd gpu_of d tools
    (trackers : gmap nat uvm_tools_event_tracker_t) p f c :
  UVM_ID_IS_CPU (me_src d) = true →
  UVM_ID_IS_CPU (me_dst d) = false →
  UvmCounterNameBytesXferHtD ≠ UvmCounterNameCpuPageFaultCount →
  (0 < me_bytes d)%Z →
  NoDup (tools_counters tools !!! UvmCounterNameBytesXferHtD) →
  p ∈ tools_counters tools !!! UvmCounterNameBytesXferHtD →
  trackers !! p = Some (Tracker f (inr c)) →
  record_migration_counters gpu_of d tools trackers !! p
  = Some (Tracker f
            (inr (if all_processors c
                     || uvm_processor_uuid_eq (processor c) (gpu_uuid (gpu_of (me_dst d)))
                  then set_counters
                         (alter (λ v, wrap64 (v + me_bytes d)%Z) UvmCounterNameBytesXferHtD
                            (counters c)) c
                  else c))).
Proof.
  intros Hsrc Hdst Hne Hpos Hnd Hin Hp. unfold record_migration_counters.
  rewrite Hsrc, Hdst. cbn [andb].
  assert (tools_is_counter_enabled tools UvmCounterNameBytesXferHtD = true) as ->.
  { unfold tools_is_counter_enabled. apply negb_true_iff, bool_decide_eq_false.
    intros Hnil. rewrite Hnil in Hin. by apply elem_of_nil in Hin. }
  rewrite (inc_counter_lookup tools _ (me_bytes d) _ trackers p _ c Hnd Hin Hp eq_refl Hpos).
  cbn [uvm_file]. unfold counter_applies, counter_matches_processor.
  rewrite bool_decide_eq_false_2 by done. by rewrite andb_true_r.
Qed.

(** X18. [uvm_tools_record_migration] for a copy from the CPU to a GPU
    with a positive byte count, seen from a counter tracker on the
    collector's list (without repetition) for
    [UvmCounterNameBytesXferHtD]. When the collector has a subscriber to
    migration events, the push carries a completion callback and the
    allocation of the detail fails, the call returns with nothing
    changed: the bytes are not counted. In every other case that
    returns, the tracker's counter moves by the byte count exactly when
    the tracker counts all processors or its own processor is the
    destination GPU; and a call that appends no detail (no subscriber to
    migration events, or no callback on the push) still counts and
    leaves both caches as they were. *)
Theorem record_migration_counts_or_skips (gpu_of : nat → uvm_gpu_t) (d : migration_event)
    (alloc : option (nat * migration_data_t)) (tools : uvm_va_space_tools_t)
    (blocks : gmap nat block_migration_data_t) (migs : gmap nat migration_data_t)
    (trackers : gmap nat uvm_tools_event_tracker_t)
    (p : nat) (f : option nat) (c : uvm_tools_counter_t) :
  UVM_ID_IS_CPU (me_src d) = true →
  UVM_ID_IS_CPU (me_dst d) = false →
  UvmCounterNameBytesXferHtD ≠ UvmCounterNameCpuPageFaultCount →
  (0 < me_bytes d)%Z →
  NoDup (tools_counters tools !!! UvmCounterNameBytesXferHtD) →
  p ∈ tools_counters tools !!! UvmCounterNameBytesXferHtD →
  trackers !! p = Some (Tracker f (inr c)) →
  let skipped := tools_is_event_enabled tools UvmEventTypeMigration
                 && bool_decide (is_Some (pi_on_complete (me_push_info d)))
                 && bool_decide (alloc = None) in
  let appends := tools_is_event_enabled tools UvmEventTypeMigration
                 && bool_decide (is_Some (pi_on_complete (me_push_info d))) in
  let counted := Tracker f
       (inr (if all_processors c
                || uvm_processor_uuid_eq (processor c) (gpu_uuid (gpu_of (me_dst d)))
             then set_counters
                    (alter (λ v, wrap64 (v + me_bytes d)%Z) UvmCounterNameBytesXferHtD
                       (counters c)) c
             else c)) in
  (skipped = true →
   uvm_tools_record_migration gpu_of d alloc tools blocks migs trackers
   = Some (blocks, migs, trackers))
  ∧ (appends = false →
     ∃ trackers',
       uvm_tools_record_migration gpu_of d alloc tools blocks migs trackers
       = Some (blocks, migs, trackers')
       ∧ trackers' !! p = Some counted)
  ∧ (skipped = false →
     ∀ blocks' migs' trackers',
       uvm_tools_record_migration gpu_of d alloc tools blocks migs trackers
       = Some (blocks', migs', trackers') →
       trackers' !! p = Some counted).
Proof.
  intros Hsrc Hdst Hne Hpos Hnd Hin Hp skipped appends counted.
  pose proof (record_migration_counters_htd gpu_of d tools trackers p f c
                Hsrc Hdst Hne Hpos Hnd Hin Hp) as Hcount.
  fold counted in Hcount.
  subst skipped appends. unfold uvm_tools_record_migration.
  destruct (tools_is_event_enabled tools UvmEventTypeMigration); cbn [andb].
  2:{ split; [done|]. split.
      - intros _. eexists. split; [reflexivity|exact Hcount].
      - intros _ blocks' migs' trackers' [= <- <- <-]. exact Hcount. }
  destruct (pi_on_complete (me_push_info d)) as [cb|]; cbn [andb].
  2:{ rewrite bool_decide_eq_false_2 by (by intros [? ?]). cbn [andb].
      split; [done|]. split.
      - intros _. eexists. split; [reflexivity|exact Hcount].
      - intros _ blocks' migs' trackers' [= <- <- <-]. exact Hcount. }
  rewrite bool_decide_eq_true_2 by (by eexists). cbn [andb].
  destruct alloc as [[mig mem]|].
  - rewrite bool_decide_eq_false_2 by done.
    split; [done|]. split; [done|].
    intros _ blocks' migs' trackers' Heq.
    destruct (pi_on_complete_data (me_push_info d)) as [bp|]; [|done].
    destruct (blocks !! bp) as [b|]; [|done].
    injection Heq as <- <- <-. exact Hcount.
  - rewrite bool_decide_eq_true_2 by done. split; [done|]. split; done.
Qed.

End migration_counters.

Lemma record_migration_counts_or_skips_witness :
  let tools := VaTools true (<[2 := [10]]> (replicate 64 []))
                 (<[0 := [12]]> (replicate 10 [])) in
  let d := MigrationEvent example_push_info 508 65536 4096
             UVM_MAKE_RESIDENT_CAUSE_PREFETCH 0 1 in
  uvm_tools_record_migration (hdr := uvm_types_example) (prc := uvm_processors_example)
    (mgh := uvm_migration_example) example_gpu_of d None tools ∅ ∅ example_fault_trackers
  = Some (∅, ∅, example_fault_trackers).
Proof.
  cbv zeta.
  refine (proj1 (record_migration_counts_or_skips (hdr := uvm_types_example)
            (prc := uvm_processors_example) (mgh := uvm_migration_example)
            example_gpu_of
            (MigrationEvent example_push_info 508 65536 4096
               UVM_MAKE_RESIDENT_CAUSE_PREFETCH 0 1)
            None
            (VaTools true (<[2 := [10]]> (replicate 64 [])) (<[0 := [12]]> (replicate 10 [])))
            ∅ ∅ example_fault_trackers 12 (Some 1)
            (Counter 0 (replicate 10 0%Z) true (replicate 16 2%Z))
            eq_refl eq_refl _ _ _ _ eq_refl) eq_refl).
  - discriminate.
  - reflexivity.
  - apply NoDup_singleton.
  - apply list_elem_of_singleton; reflexivity.
Defined.

(** ** Deferred map-remote events, from submission to delivery *)

Section map_remote_pipeline.
Context {hdr : uvm_types_h} {prc : uvm_processors_h} {mrh : uvm_map_remote_h}.

Lemma wrap64_bytes v : (v mod 256 ^ Z.of_nat 8)%Z = wrap64 v.
Proof. done. Qed.

Lemma map_remote_entry_update_length m entry :
  length (map_remote_entry_update m entry) = length entry.
Proof. unfold map_remote_entry_update. by rewrite !length_store. Qed.

Lemma map_remote_entry_init_length stack b :
  length (map_remote_entry_init stack b) = length stack.
Proof. unfold map_remote_entry_init. by rewrite !length_store, length_memset0. Qed.

Ltac layout_facts H :=
  unfold map_remote_layout_ok in H; cbn in H; unfold fields_disjoint_b in H;
  repeat match goal with
         | H : _ && _ = true |- _ => apply andb_true_iff in H as [? ?]
         | H : bool_decide _ = true |- _ => apply bool_decide_eq_true in H
         end.

Lemma map_remote_entry_update_loads size m entry :
  map_remote_layout_ok size = true →
  length entry = size →
  is_NvU64 (mrd_timestamp_gpu m) →
  let e := map_remote_entry_update m entry in
  load mr_address e = wrap64 (mrd_address m)
  ∧ load mr_size e = wrap64 (mrd_size m)
  ∧ load mr_timeStampGpu e = mrd_timestamp_gpu m
  ∧ load mr_srcIndex e = load mr_srcIndex entry
  ∧ load mr_dstIndex e = load mr_dstIndex entry
  ∧ load mr_mapRemoteCause e = load mr_mapRemoteCause entry
  ∧ load mr_timeStamp e = load mr_timeStamp entry.
Proof.
  intros Hlay Hlen Hts. cbv zeta. layout_facts Hlay.
  unfold map_remote_entry_update.
  assert (∀ f g, fields_disjoint f g → fields_disjoint g f) as Hsym
    by apply fields_disjoint_sym.
  repeat split.
  - do 2 (rewrite load_store_other by auto).
    rewrite load_store_same by (rewrite ?length_store; lia).
    by replace (f_len mr_address) with 8 by done.
  - do 1 (rewrite load_store_other by auto).
    rewrite load_store_same by (rewrite ?length_store; lia).
    by replace (f_len mr_size) with 8 by done.
  - rewrite load_store_same by (rewrite ?length_store; lia).
    replace (f_len mr_timeStampGpu) with 8 by done. apply Z.mod_small. exact Hts.
  - by do 3 (rewrite load_store_other by auto).
  - by do 3 (rewrite load_store_other by auto).
  - by do 3 (rewrite load_store_other by auto).
  - by do 3 (rewrite load_store_other by auto).
Qed.

Lemma map_remote_entry_init_loads size stack b :
  map_remote_layout_ok size = true →
  length stack = size →
  let e := map_remote_entry_init stack b in
  load mr_srcIndex e = (Z.of_nat (bmr_src b) mod 256 ^ Z.of_nat (f_len mr_srcIndex))%Z
  ∧ load mr_dstIndex e = (Z.of_nat (bmr_dst b) mod 256 ^ Z.of_nat (f_len mr_dstIndex))%Z
  ∧ load mr_mapRemoteCause e
    = (bmr_cause b mod 256 ^ Z.of_nat (f_len mr_mapRemoteCause))%Z
  ∧ load mr_timeStamp e = wrap64 (bmr_timestamp b).
Proof.
  intros Hlay Hlen. cbv zeta. layout_facts Hlay.
  unfold map_remote_entry_init.
  assert (∀ f g, fields_disjoint f g → fields_disjoint g f) as Hsym
    by apply fields_disjoint_sym.
  repeat split.
  - do 3 (rewrite load_store_other by auto).
    by rewrite load_store_same by (rewrite ?length_store, length_memset0; lia).
  - do 2 (rewrite load_store_other by auto).
    by rewrite load_store_same by (rewrite ?length_store, length_memset0; lia).
  - do 1 (rewrite load_store_other by auto).
    by rewrite load_store_same by (rewrite ?length_store, length_memset0; lia).
  - rewrite load_store_same by (rewrite ?length_store, length_memset0; lia).
    by replace (f_len mr_timeStamp) with 8 by done.
Qed.

(** The loop: one record per detail, in list order; the members of the
    block are the same in every record; the details it visited are
    freed, the others untouched. *)
Lemma record_map_remote_loop_spec size tools ps :
  ∀ ms entry (details : gmap nat map_remote_data_t)
    (trackers : gmap nat uvm_tools_event_tracker_t) emitted,
  map_remote_layout_ok size = true →
  length entry = size →
  NoDup ps →
  Forall2 (λ p m, details !! p = Some m) ps ms →
  Forall (λ m, is_NvU64 (mrd_timestamp_gpu m)) ms →
  ∃ details' new,
    record_map_remote_loop tools ps entry details trackers emitted
    = Some (details', foldl (λ h e, uvm_tools_record_event tools e h) trackers new,
            emitted ++ new)
    ∧ length new = length ms
    ∧ (∀ i m e, ms !! i = Some m → new !! i = Some e →
         load mr_address e = wrap64 (mrd_address m)
         ∧ load mr_size e = wrap64 (mrd_size m)
         ∧ load mr_timeStampGpu e = mrd_timestamp_gpu m
         ∧ load mr_srcIndex e = load mr_srcIndex entry
         ∧ load mr_dstIndex e = load mr_dstIndex entry
         ∧ load mr_mapRemoteCause e = load mr_mapRemoteCause entry
         ∧ load mr_timeStamp e = load mr_timeStamp entry)
    ∧ (∀ p, p ∈ ps → details' !! p = None)
    ∧ (∀ p, p ∉ ps → details' !! p = details !! p).
Proof.
  induction ps as [|p ps IH]; intros ms entry details trackers emitted
    Hlay Hlen Hnd Hall Hts.
  - apply Forall2_nil_inv_l in Hall as ->.
    exists details, []. cbn. rewrite app_nil_r. repeat split; try done.
    intros p Hp. by apply elem_of_nil in Hp.
  - apply Forall2_cons_inv_l in Hall as (m & ms' & Hm & Hall & ->).
    apply NoDup_cons in Hnd as [Hp Hnd].
    apply Forall_cons in Hts as [Ht Hts].
    cbn [record_map_remote_loop]. rewrite Hm.
    destruct (IH ms' (map_remote_entry_update m entry) (delete p details)
                (uvm_tools_record_event tools (map_remote_entry_update m entry) trackers)
                (emitted ++ [map_remote_entry_update m entry]))
      as (details' & new & Heq & Hlen' & Hnew & Hfreed & Hframe); try done.
    { by rewrite map_remote_entry_update_length. }
    { by apply Forall2_lookup_delete. }
    destruct (map_remote_entry_update_loads size m entry Hlay Hlen Ht)
      as (Ha & Hs & Hg & Hsrc & Hdst & Hc & Hcpu).
    exists details', (map_remote_entry_update m entry :: new).
    rewrite Heq, <- app_assoc. cbn [app foldl length].
    split; [done|]. split; [by rewrite Hlen'|]. split; [|split].
    + intros [|i] m' e Hm' He'.
      * cbn in Hm', He'. injection Hm' as <-. injection He' as <-. done.
      * cbn in Hm', He'.
        destruct (Hnew i m' e Hm' He') as (Ha1 & Hs1 & Hg1 & Hsrc1 & Hdst1 & Hc1 & Hcpu1).
        rewrite Hsrc1, Hdst1, Hc1, Hcpu1. done.
    + intros p' Hp'. apply elem_of_cons in Hp' as [->|Hp'].
      * rewrite Hframe by done. apply lookup_delete_eq.
      * by apply Hfreed.
    + intros p' Hp'. apply not_elem_of_cons in Hp' as [Hne Hp'].
      rewrite Hframe by done. by apply lookup_delete_ne.
Qed.

Lemma map_remote_complete_loop_spec gpu_mem ps :
  ∀ ms (details : gmap nat map_remote_data_t),
  NoDup ps →
  Forall2 (λ p m, details !! p = Some m) ps ms →
  ∃ details',
    map_remote_complete_loop gpu_mem ps details = Some details'
    ∧ Forall2 (λ p m, details' !! p = Some m) ps (completed_map_remote gpu_mem <$> ms)
    ∧ ∀ p, p ∉ ps → details' !! p = details !! p.
Proof.
  induction ps as [|p ps IH]; intros ms details Hnd Hall.
  - apply Forall2_nil_inv_l in Hall as ->. exists details. cbn. split; [done|].
    split; [constructor|done].
  - apply Forall2_cons_inv_l in Hall as (m & ms' & Hm & Hall & ->).
    apply NoDup_cons in Hnd as [Hp Hnd].
    cbn [map_remote_complete_loop]. rewrite Hm.
    destruct (IH ms' (<[p := completed_map_remote gpu_mem m]> details) Hnd)
      as (details' & Heq & Hall' & Hframe).
    { by apply Forall2_lookup_insert_ne. }
    exists details'. split; [exact Heq|]. split.
    + cbn. constructor; [|done]. rewrite Hframe by done. by rewrite lookup_insert_eq.
    + intros p' Hp'. apply not_elem_of_cons in Hp' as [Hne Hp'].
      rewrite Hframe by done. by rewrite lookup_insert_ne.
Qed.

(** Calls on a push that already carries the block record at [bp]. *)
Lemma record_map_remotes_spec stack v tools ch bp cb (calls : list map_remote_call) :
  ∀ (allocs : list (nat * map_remote_data_t)) σ b,
  tools_enabled tools = true →
  tools_is_event_enabled tools UvmEventTypeMapRemote = true →
  mrs_push_info σ = PushInfo (Some cb) (Some bp) →
  mrs_blocks σ !! bp = Some b →
  Forall (λ c, UVM_ID_IS_CPU (mc_processor c) = false) calls →
  Forall2 (λ c a, mc_alloc c = Some a) calls allocs →
  NoDup (allocs.*1) →
  ∃ σ',
    record_map_remotes stack v tools ch calls σ = Some σ'
    ∧ mrs_push_info σ' = mrs_push_info σ
    ∧ mrs_trackers σ' = mrs_trackers σ
    ∧ mrs_channels σ' = mrs_channels σ
    ∧ mrs_emitted σ' = mrs_emitted σ
    ∧ mrs_blocks σ'
      = <[bp := BlockMapRemoteData (bmr_src b) (bmr_dst b) (bmr_cause b) (bmr_timestamp b)
                  (bmr_va_space b) (bmr_channel b) (bmr_events b ++ allocs.*1)]>
          (mrs_blocks σ)
    ∧ Forall2 (λ p m, mrs_details σ' !! p = Some m) (allocs.*1)
        (zip_with (λ c a, map_remote_detail c a.2) calls allocs)
    ∧ ∀ p, p ∉ allocs.*1 → mrs_details σ' !! p = mrs_details σ !! p.
Proof.
  induction calls as [|c calls IH]; intros allocs σ b Hen Hev Hpi Hb Hgpu Hall Hnd.
  - apply Forall2_nil_inv_l in Hall as ->. exists σ. cbn.
    rewrite app_nil_r. repeat split; try done.
    destruct b. cbn. by rewrite insert_id.
  - apply Forall2_cons_inv_l in Hall as ([p mem] & allocs' & Ha & Hall & ->).
    apply Forall_cons in Hgpu as [Hc Hgpu].
    cbn in Hnd. apply NoDup_cons in Hnd as [Hp Hnd].
    cbn [record_map_remotes]. unfold uvm_tools_record_map_remote.
    rewrite Hen, Hev, Hc, Hpi. cbn [negb pi_on_complete pi_on_complete_data].
    unfold map_remote_append. rewrite Ha, Hb.
    set (b1 := BlockMapRemoteData (bmr_src b) (bmr_dst b) (bmr_cause b) (bmr_timestamp b)
                 (bmr_va_space b) (bmr_channel b) (bmr_events b ++ [p])).
    set (σ1 := MapRemoteState _ _ _ _ _ _).
    destruct (IH allocs' σ1 b1 Hen Hev) as
      (σ' & Hrun & Hpi' & Htr & Hch & Hem & Hbl & Hdet & Hframe); try done.
    { subst σ1. cbn. by rewrite lookup_insert_eq. }
    exists σ'. split; [exact Hrun|]. subst σ1. cbn in *.
    split; [by rewrite Hpi', Hpi|]. split; [done|]. split; [done|]. split; [done|].
    split; [|split].
    + rewrite Hbl, insert_insert_eq. by rewrite <- app_assoc.
    + constructor; [|done]. rewrite Hframe by done. by rewrite lookup_insert_eq.
    + intros p' Hp'. apply not_elem_of_cons in Hp' as [Hne Hp'].
      rewrite Hframe by done. by rewrite lookup_insert_ne.
Qed.

(** X19. Mappings made by a GPU, recorded on one push of an enabled
    collector that has a subscriber to map-remote events: the first
    call of [uvm_tools_record_map_remote] finds the push without a
    callback and allocates the block record at a free address, every
    call allocates its detail at a free address of its own. Then the
    calls, [on_map_remote_complete] and [record_map_remote_events] all
    return; no record is handed over before the worker runs, and the
    worker hands over one record per call, in call order. The record of
    a call carries the address and the size of that call and what the
    GPU wrote at that call's timestamp address; its source, its
    destination, its cause and its CPU timestamp are those of the first
    call on the push, whatever the call itself was given. Afterwards
    both caches are as they were, the pending count of the channel is
    back at its value, and the block record went to the worker once. *)
Theorem map_remote_pipeline_delivers (size : nat) (stack : UvmEventEntry) (v : nat)
    (s : uvm_va_space_t) (spaces : gmap nat uvm_va_space_t) (ch : nat)
    (gpu_mem : Z → Z) (c0 : map_remote_call) (rest : list map_remote_call)
    (allocs : list (nat * map_remote_data_t)) (bp : nat)
    (blocks : gmap nat block_map_remote_data_t) (details : gmap nat map_remote_data_t)
    (trackers : gmap nat uvm_tools_event_tracker_t) (st : channel_state) :
  map_remote_layout_ok size = true →
  length stack = size →
  spaces !! v = Some s →
  tools_enabled (va_tools s) = true →
  tools_is_event_enabled (va_tools s) UvmEventTypeMapRemote = true →
  Forall (λ c, UVM_ID_IS_CPU (mc_processor c) = false) (c0 :: rest) →
  Forall2 (λ c a, mc_alloc c = Some a) (c0 :: rest) allocs →
  mc_alloc_block c0 = Some bp →
  blocks !! bp = None →
  NoDup (allocs.*1) →
  (∀ p, p ∈ allocs.*1 → details !! p = None) →
  (∀ a, is_NvU64 (gpu_mem a)) →
  ∃ σ details3 st3 out,
    record_map_remotes stack v (va_tools s) ch (c0 :: rest)
      (MapRemoteState (PushInfo None None) blocks details trackers st [])
    = Some σ
    ∧ mrs_push_info σ = PushInfo (Some OnMapRemoteComplete) (Some bp)
    ∧ mrs_trackers σ = trackers
    ∧ mrs_emitted σ = []
    ∧ on_map_remote_complete bp gpu_mem (mrs_blocks σ) (mrs_details σ) (mrs_channels σ)
      = Some (details3, st3)
    ∧ record_map_remote_events stack bp (mrs_blocks σ) details3 spaces trackers
      = Some (blocks, details,
              foldl (λ h e, uvm_tools_record_event (va_tools s) e h) trackers out, out)
    ∧ count_of ch st3 = count_of ch st
    ∧ g_tools_queue st3 = g_tools_queue st ++ [bp]
    ∧ length out = S (length rest)
    ∧ ∀ i c e, (c0 :: rest) !! i = Some c → out !! i = Some e →
        load mr_address e = wrap64 (mc_address c)
        ∧ load mr_size e = wrap64 (mc_region_size c)
        ∧ load mr_timeStampGpu e = gpu_mem (mc_push_timestamp c)
        ∧ load mr_srcIndex e
          = (Z.of_nat (mc_processor c0) mod 256 ^ Z.of_nat (f_len mr_srcIndex))%Z
        ∧ load mr_dstIndex e
          = (Z.of_nat (mc_residency c0) mod 256 ^ Z.of_nat (f_len mr_dstIndex))%Z
        ∧ load mr_mapRemoteCause e
          = (mc_cause c0 mod 256 ^ Z.of_nat (f_len mr_mapRemoteCause))%Z
        ∧ load mr_timeStamp e = wrap64 (mc_now c0).
Proof.
  intros Hlay Hlen Hs Hen Hev Hgpu Hall Hblock Hfresh Hnd Hfree Hmem.
  pose proof Hall as Hall0.
  apply Forall2_cons_inv_l in Hall0 as ([p0 mem0] & allocs' & Ha0 & Hall' & Heq).
  pose proof Hgpu as Hgpu0. apply Forall_cons in Hgpu0 as [Hc0 Hgpu'].
  set (b0 := BlockMapRemoteData (mc_processor c0) (mc_residency c0) (mc_cause c0)
               (mc_now c0) v ch []).
  set (σ0 := MapRemoteState (PushInfo (Some OnMapRemoteComplete) (Some bp))
               (<[bp := b0]> blocks) details trackers
               (add_pending_event_for_channel ch st) []).
  destruct (record_map_remotes_spec stack v (va_tools s) ch bp OnMapRemoteComplete
              (c0 :: rest) allocs σ0 b0 Hen Hev eq_refl)
    as (σ & Hrun & Hpi & Htr & Hch & Hem & Hbl & Hdet & Hframe); try done.
  { subst σ0. cbn. by rewrite lookup_insert_eq. }
  subst σ0. cbn [mrs_push_info mrs_trackers mrs_channels mrs_emitted mrs_blocks
                  mrs_details bmr_src bmr_dst bmr_cause bmr_timestamp bmr_va_space
                  bmr_channel bmr_events app b0] in Hpi, Htr, Hch, Hem, Hbl, Hdet, Hframe.
  subst b0. cbn [bmr_src bmr_dst bmr_cause bmr_timestamp bmr_va_space bmr_channel
                 bmr_events app] in Hbl.
  rewrite insert_insert_eq in Hbl.
  set (ms := zip_with (λ (c : map_remote_call) (a : nat * map_remote_data_t),
                         map_remote_detail c a.2) (c0 :: rest) allocs) in *.
  assert (length allocs = S (length rest)) as Hlen_allocs.
  { apply Forall2_length in Hall. cbn in Hall. lia. }
  assert (length ms = S (length rest)) as Hlen_ms.
  { unfold ms. rewrite length_zip_with. cbn [length]. lia. }
  destruct (map_remote_complete_loop_spec gpu_mem (allocs.*1) ms (mrs_details σ) Hnd Hdet)
    as (details3 & Hloop & Hdone & Hdone_frame).
  set (bN := BlockMapRemoteData (mc_processor c0) (mc_residency c0) (mc_cause c0)
               (mc_now c0) v ch (allocs.*1)) in *.
  destruct (record_map_remote_loop_spec size (va_tools s) (allocs.*1)
              (completed_map_remote gpu_mem <$> ms) (map_remote_entry_init stack bN)
              details3 trackers [] Hlay)
    as (details' & out & Hworker & Hlen_out & Hout & Hfreed & Hkept); try done.
  { by rewrite map_remote_entry_init_length. }
  { apply Forall_fmap, Forall_forall. intros m _. apply Hmem. }
  assert (details' = details) as ->.
  { apply map_eq. intros p. destruct (decide (p ∈ allocs.*1)) as [Hin|Hnin].
    - by rewrite Hfreed, Hfree.
    - by rewrite Hkept, Hdone_frame, Hframe. }
  destruct (map_remote_entry_init_loads size stack bN Hlay Hlen)
    as (Hsrc & Hdst & Hcause & Hcpu).
  exists σ, details3, (on_complete ch bp (add_pending_event_for_channel ch st)), out.
  split.
  { rewrite <- Hrun. cbn [record_map_remotes]. unfold uvm_tools_record_map_remote.
    rewrite Hen, Hev, Hc0. cbn [negb mrs_push_info pi_on_complete]. rewrite Hblock.
    cbn [mrs_blocks mrs_details mrs_trackers mrs_channels mrs_emitted mrs_push_info
         pi_on_complete pi_on_complete_data].
    unfold map_remote_append. rewrite Ha0.
    cbn [mrs_blocks mrs_details mrs_trackers mrs_channels mrs_emitted mrs_push_info].
    by rewrite !lookup_insert_eq. }
  split; [exact Hpi|]. split; [exact Htr|]. split; [exact Hem|].
  split.
  { unfold on_map_remote_complete. rewrite Hbl, lookup_insert_eq.
    unfold bN. cbn [bmr_events bmr_channel]. by rewrite Hloop, Hch. }
  split.
  { unfold record_map_remote_events. rewrite Hbl, lookup_insert_eq.
    unfold bN at 1 2. cbn [bmr_va_space bmr_events]. rewrite Hs, Hworker.
    cbn [app]. do 4 f_equal.
    apply map_eq. intros p. destruct (decide (p = bp)) as [->|Hne].
    - by rewrite lookup_delete_eq.
    - by rewrite lookup_delete_ne, lookup_insert_ne. }
  split.
  { unfold on_complete. cbn [pending_event_count count_of].
    unfold count_of at 1. cbn. rewrite lookup_insert_eq. cbn.
    unfold count_of at 1. cbn. rewrite lookup_insert_eq. cbn. lia. }
  split; [done|].
  split.
  { rewrite Hlen_out, length_fmap. exact Hlen_ms. }
  intros i c e Hc He.
  assert (∃ a, allocs !! i = Some a) as [a Ha].
  { apply lookup_lt_is_Some. apply lookup_lt_Some in Hc. cbn in Hc. lia. }
  assert ((completed_map_remote gpu_mem <$> ms) !! i
          = Some (completed_map_remote gpu_mem (map_remote_detail c a.2))) as Hm.
  { rewrite list_lookup_fmap. unfold ms. rewrite lookup_zip_with, Hc. cbn.
    by rewrite Ha. }
  destruct (Hout i _ e Hm He) as (H1 & H2 & H3 & H4 & H5 & H6 & H7).
  rewrite H4, H5, H6, H7. done.
Qed.

End map_remote_pipeline.

Lemma map_remote_pipeline_delivers_witness :
  let spaces : gmap nat uvm_va_space_t := {[ 1 := example_map_remote_space ]} in
  let trs : gmap nat uvm_tools_event_tracker_t := {[ 10 := example_queue_tracker 1 ]} in
  let allocs := [(200, MapRemoteData 0 0 0 0); (201, MapRemoteData 0 0 0 0)] in
  map_remote_layout_ok (mrh := uvm_map_remote_example) 64 = true
  ∧ length (replicate 64 170%Z) = 64
  ∧ spaces !! 1 = Some example_map_remote_space
  ∧ tools_enabled (va_tools example_map_remote_space) = true
  ∧ tools_is_event_enabled (va_tools example_map_remote_space)
      (UvmEventTypeMapRemote (uvm_map_remote_h := uvm_map_remote_example)) = true
  ∧ Forall (λ c, UVM_ID_IS_CPU (uvm_processors_h := uvm_processors_example)
                   (mc_processor c) = false) example_map_remote_calls
  ∧ Forall2 (λ c a, mc_alloc c = Some a) example_map_remote_calls allocs
  ∧ (∅ : gmap nat block_map_remote_data_t) !! 100 = None
  ∧ NoDup (allocs.*1)
  ∧ (∀ p, p ∈ allocs.*1 → (∅ : gmap nat map_remote_data_t) !! p = None)
  ∧ (∀ a, is_NvU64 (example_gpu_mem a))
  ∧ ∃ σ details3 out,
      record_map_remotes (hdr := uvm_types_example) (prc := uvm_processors_example)
        (mrh := uvm_map_remote_example) (replicate 64 170%Z) 1
        (va_tools example_map_remote_space) 7 example_map_remote_calls
        (MapRemoteState (PushInfo None None) ∅ ∅ trs channels_initial [])
      = Some σ
      ∧ record_map_remote_events (hdr := uvm_types_example)
          (mrh := uvm_map_remote_example) (replicate 64 170%Z) 100 (mrs_blocks σ)
          details3 spaces trs
        = Some (∅, ∅,
                foldl (λ h e, uvm_tools_record_event
                                (va_tools example_map_remote_space) e h) trs out,
                out)
      ∧ length out = 2.
Proof.
  cbv zeta.
  assert (map_remote_layout_ok (mrh := uvm_map_remote_example) 64 = true) as H1
    by (by vm_compute).
  assert (length (replicate 64 170%Z) = 64) as H2 by (by vm_compute).
  assert (({[ 1 := example_map_remote_space ]} : gmap nat uvm_va_space_t) !! 1
          = Some example_map_remote_space) as H3 by (by vm_compute).
  assert (Forall (λ c, UVM_ID_IS_CPU (uvm_processors_h := uvm_processors_example)
                         (mc_processor c) = false) example_map_remote_calls) as H6
    by (repeat constructor).
  assert (Forall2 (λ c a, mc_alloc c = Some a) example_map_remote_calls
            [(200, MapRemoteData 0 0 0 0); (201, MapRemoteData 0 0 0 0)]) as H7
    by (repeat constructor).
  assert (NoDup ([(200, MapRemoteData 0 0 0 0); (201, MapRemoteData 0 0 0 0)].*1)) as H9.
  { cbn. apply NoDup_cons. split; [|apply NoDup_singleton].
    intros Hin. apply list_elem_of_singleton in Hin. lia. }
  assert (∀ a, is_NvU64 (example_gpu_mem a)) as H11.
  { intros a. unfold is_NvU64, example_gpu_mem, wrap64. apply Z.mod_pos_bound. lia. }
  split; [exact H1|]. split; [exact H2|]. split; [exact H3|].
  split; [reflexivity|]. split; [reflexivity|]. split; [exact H6|].
  split; [exact H7|]. split; [apply lookup_empty|]. split; [exact H9|].
  split; [intros p _; apply lookup_empty|]. split; [exact H11|].
  destruct (map_remote_pipeline_delivers (hdr := uvm_types_example)
              (prc := uvm_processors_example) (mrh := uvm_map_remote_example) 64
              (replicate 64 170%Z) 1 example_map_remote_space
              {[ 1 := example_map_remote_space ]} 7 example_gpu_mem
              (MapRemoteCall 1 2 65536 4096 1 10 508 (Some 100)
                 (Some (200, MapRemoteData 0 0 0 0)))
              [MapRemoteCall 3 4 131072 8192 2 11 516 None
                 (Some (201, MapRemoteData 0 0 0 0))]
              [(200, MapRemoteData 0 0 0 0); (201, MapRemoteData 0 0 0 0)] 100 ∅ ∅
              {[ 10 := example_queue_tracker 1 ]} channels_initial
              H1 H2 H3 eq_refl eq_refl H6 H7 eq_refl (lookup_empty 100) H9
              (λ p _, lookup_empty p) H11)
    as (σ & details3 & st3 & out & Hrun & _ & _ & _ & _ & Heq & _ & _ & Hlen & _).
  exists σ, details3, out. split; [exact Hrun|]. split; [exact Heq|exact Hlen].
Defined.

(** ** Fault replay events: the gate, and the deferred path *)

Section replay_claims.
Context {hdr : uvm_types_h} {rph : uvm_replay_h}.

Lemma replay_entry_type stack gpu_id batch_id client_type timestamp timestamp_gpu :
  replay_layout_ok = true →
  0 < length stack →
  UvmEventTypeGpuFaultReplay < 256 →
  entry_eventType (replay_entry stack gpu_id batch_id client_type timestamp timestamp_gpu)
  = UvmEventTypeGpuFaultReplay.
Proof.
  intros Hlay Hlen Hty. unfold replay_layout_ok in Hlay. cbn in Hlay.
  unfold fields_disjoint_b in Hlay.
  repeat match goal with
         | H : _ && _ = true |- _ => apply andb_true_iff in H as [? ?]
         | H : bool_decide _ = true |- _ => apply bool_decide_eq_true in H
         end.
  unfold entry_eventType, replay_entry.
  do 5 (rewrite load_store_other by (by apply fields_disjoint_sym)).
  rewrite load_store_same by (rewrite length_memset0; cbn; lia).
  cbn [f_len f_eventType]. rewrite Z.mod_small by lia. lia.
Qed.

Lemma broadcast_event_no_subscriber (l : list nat) (spaces : gmap nat uvm_va_space_t)
    (entry : UvmEventEntry) (h : gmap nat uvm_tools_event_tracker_t) :
  (∀ v s, spaces !! v = Some s →
     tools_queues (va_tools s) !!! entry_eventType entry = []) →
  uvm_tools_broadcast_event l spaces entry h = h.
Proof.
  intros Hnone. unfold uvm_tools_broadcast_event.
  induction l as [|v l IH]; cbn; [done|].
  destruct (spaces !! v) as [s|] eqn:Hs; [|exact IH].
  unfold uvm_tools_record_event at 2. rewrite (Hnone v s Hs). cbn. exact IH.
Qed.

(** In a consistent registry a zero count means that every list of the
    event type is empty. *)
Lemma gate_closed_no_subscriber (st : tools_globals) (i : nat) :
  registry_inv st →
  i < UvmEventNumTypesAll →
  (Z.of_nat (event_subscribers i st) < 2 ^ 32)%Z →
  tools_is_event_enabled_in_any_va_space i st = false →
  ∀ v s, va_spaces st !! v = Some s → tools_queues (va_tools s) !!! i = [].
Proof.
  intros (H64 & Hlc & Hq & Hlen & Hlists & Hcnt) Hi Hsmall Hgate v s Hs.
  unfold tools_is_event_enabled_in_any_va_space in Hgate.
  apply negb_false_iff, Z.eqb_eq in Hgate.
  rewrite (list_lookup_total_correct _ _ _ (Hcnt i Hi)) in Hgate.
  unfold wrap32 in Hgate. rewrite Z.mod_small in Hgate by lia.
  assert (event_subscribers i st = 0) as Hzero by lia.
  unfold event_subscribers in Hzero.
  pose proof (proj1 (map_sum_zero _ _) Hzero v s Hs) as Hl.
  by apply nil_length_inv.
Qed.

(** X20. In a consistent registry whose subscribers to replay events
    are fewer than 2^32, with the discriminant of the record apart from
    its other members. The test of the global count in
    [uvm_tools_broadcast_replay_sync] suppresses nothing: the registry
    after the call is the registry after the broadcast of the record.
    [uvm_tools_broadcast_replay], when the count is not zero and the
    allocation succeeds at a free address, installs
    [on_replay_complete]; after [on_replay_complete] the worker's
    [record_replay_events] broadcasts, to the registry as it is then,
    the record that the synchronous call would have built from the same
    arguments and CPU time with the value the GPU wrote at the push's
    timestamp address; the cache is then as before, the pending count of
    the channel is back at its value and the item went to the worker
    once. When the count is zero, it changes nothing, and the broadcast
    would have reached no tracker. *)
Theorem replay_deferred_matches_sync (stack : UvmEventEntry) (gpu_id : nat)
    (batch_id : Z) (client_type : uvm_fault_client_type_t) (now time_gpu : Z)
    (st : tools_globals) (ch : nat) (pinfo : uvm_push_info_t) (ts : Z) (rp : nat)
    (mem : replay_data_t) (gpu_mem : Z → Z) (replays : gmap nat replay_data_t)
    (chans : channel_state) :
  registry_inv st →
  replay_layout_ok = true →
  0 < length stack →
  UvmEventTypeGpuFaultReplay < UvmEventNumTypesAll →
  (Z.of_nat (event_subscribers UvmEventTypeGpuFaultReplay st) < 2 ^ 32)%Z →
  replays !! rp = None →
  let r := uvm_tools_broadcast_replay gpu_id ch pinfo ts batch_id client_type
             (Some (rp, mem)) now st replays chans in
  uvm_tools_broadcast_replay_sync stack gpu_id batch_id client_type now time_gpu st
  = record_replay_event_helper stack gpu_id batch_id client_type now time_gpu st
  ∧ (tools_is_event_enabled_in_any_va_space UvmEventTypeGpuFaultReplay st = true →
     r.1.1 = PushInfo (Some OnReplayComplete) (Some rp)
     ∧ ∃ replays2 chans2,
         on_replay_complete rp gpu_mem r.1.2 r.2 = Some (replays2, chans2)
         ∧ count_of ch chans2 = count_of ch chans
         ∧ g_tools_queue chans2 = g_tools_queue chans ++ [rp]
         ∧ ∀ st', record_replay_events stack rp replays2 st'
                  = Some (replays,
                          record_replay_event_helper stack gpu_id batch_id client_type
                            now (gpu_mem ts) st'))
  ∧ (tools_is_event_enabled_in_any_va_space UvmEventTypeGpuFaultReplay st = false →
     r = (pinfo, replays, chans)
     ∧ record_replay_event_helper stack gpu_id batch_id client_type now (gpu_mem ts) st
       = st).
Proof.
  intros Hinv Hlay Hlen Hty Hsmall Hfresh r.
  assert (UvmEventTypeGpuFaultReplay < 256) as Hbyte.
  { destruct Hinv as (H64 & _). lia. }
  assert (tools_is_event_enabled_in_any_va_space UvmEventTypeGpuFaultReplay st = false →
          ∀ tg, record_replay_event_helper stack gpu_id batch_id client_type now tg st
                = st) as Hclosed.
  { intros Hgate tg. unfold record_replay_event_helper.
    rewrite broadcast_event_no_subscriber; [by destruct st|].
    rewrite replay_entry_type by done.
    by apply gate_closed_no_subscriber. }
  split; [|split].
  - unfold uvm_tools_broadcast_replay_sync.
    destruct (tools_is_event_enabled_in_any_va_space _ st) eqn:Hgate; cbn [negb]; [done|].
    symmetry. by apply Hclosed.
  - intros Hgate. subst r. unfold uvm_tools_broadcast_replay. rewrite Hgate.
    cbn [negb fst snd]. split; [done|].
    unfold on_replay_complete. rewrite lookup_insert_eq.
    cbn [rd_channel rd_gpu_id rd_batch_id rd_client_type rd_timestamp
         rd_timestamp_gpu_addr].
    eexists _, _. split; [reflexivity|]. split; [|split].
    + unfold on_complete. cbn [pending_event_count count_of].
      unfold count_of at 1. cbn. rewrite lookup_insert_eq. cbn.
      unfold count_of at 1. cbn. rewrite lookup_insert_eq. cbn. lia.
    + done.
    + intros st'. unfold record_replay_events. rewrite lookup_insert_eq.
      cbn [rd_channel rd_gpu_id rd_batch_id rd_client_type rd_timestamp
           rd_timestamp_gpu]. do 2 f_equal.
      apply map_eq. intros p. destruct (decide (p = rp)) as [->|Hne].
      * by rewrite lookup_delete_eq.
      * by rewrite lookup_delete_ne, !lookup_insert_ne.
  - intros Hgate. subst r. unfold uvm_tools_broadcast_replay. rewrite Hgate.
    cbn [negb]. split; [done|]. by apply Hclosed.
Qed.

End replay_claims.

(** Tracker 10 of collector 1 is subscribed to event type 4. *)
Lemma replay_deferred_matches_sync_witness :
  let st := registry_run (hdr := uvm_types_example) [Subscribe 10 16] example_globals in
  registry_inv (hdr := uvm_types_example) st
  ∧ replay_layout_ok (rph := uvm_replay_example) = true
  ∧ 0 < length (replicate 64 170%Z)
  ∧ (Z.of_nat (event_subscribers 4 st) < 2 ^ 32)%Z
  ∧ tools_is_event_enabled_in_any_va_space 4 st = true
  ∧ uvm_tools_broadcast_replay_sync (hdr := uvm_types_example)
      (rph := uvm_replay_example) (replicate 64 170%Z) 1 3 UVM_FAULT_CLIENT_TYPE_GPC
      10 20 st
    = record_replay_event_helper (hdr := uvm_types_example) (rph := uvm_replay_example)
        (replicate 64 170%Z) 1 3 UVM_FAULT_CLIENT_TYPE_GPC 10 20 st.
Proof.
  cbv zeta.
  assert (registry_inv (hdr := uvm_types_example)
            (registry_run (hdr := uvm_types_example) [Subscribe 10 16] example_globals))
    as Hinv by (apply registry_run_inv, example_globals_inv).
  assert (Z.of_nat (event_subscribers 4
            (registry_run (hdr := uvm_types_example) [Subscribe 10 16] example_globals))
          < 2 ^ 32)%Z as Hsmall by (by vm_compute).
  split; [exact Hinv|]. split; [by vm_compute|]. split; [cbn; lia|].
  split; [exact Hsmall|]. split; [by vm_compute|].
  refine (proj1 (replay_deferred_matches_sync (hdr := uvm_types_example)
            (rph := uvm_replay_example) (replicate 64 170%Z) 1 3
            UVM_FAULT_CLIENT_TYPE_GPC 10 20 _ 7 (PushInfo None None) 508 300
            (ReplayData 0 0 0 UVM_FAULT_CLIENT_TYPE_GPC 0 0 0) example_gpu_mem ∅
            channels_initial Hinv _ _ _ Hsmall (lookup_empty 300))).
  - by vm_compute.
  - cbn. lia.
  - cbn. lia.
Defined.
